(* ===== verification/_CoqProject ===== *)
-Q . S2P
Prelude.v
Asserts.v
Errors.v
Gf2.v
Frame.v
Image.v
Stream.v
Transport.v
Session.v
Kani.v
PropTests.v
Recorded.v
Hal.v
EhI2c.v
EhSpi.v
EhUart.v
EhSoftUart.v
Text.v
Fmt.v
Ihex.v
Install.v
CliDevices.v
CliTransport.v
Cli.v
Messages.v
UnitTests.v
Device.v
Rp2350.v
AvrFlash.v
DeviceLink.v
Pumps.v
Conformance.v
AvrTwi.v
UartPort.v
Usart.v
Carrier.v
Flashing.v
Wire.v
EndToEnd.v
Atomic.v
Order.v
Fsm.v
BitBang.v
SerialLine.v
SpiBus.v
I2cBus.v
Tool.v
ToolI2c.v
ToolSerial.v
ToolSpi.v
