(* ===== verification/Prelude.v ===== *)
(** * Verification of the OTA updater SDK

    The SDK updates microcontrollers over a wire. The host side (Rust, under
    [src/host/]) is a protocol library without an operating system
    ([updater-core]), adapters from embedded-hal peripherals to its transport
    interface ([updater-eh]) and a Linux command line tool ([updater-cli]); the
    device side (C, under [src/device/]) is a bootloader that answers the
    protocol. This development models the host side, the bootloader's core, and
    the two together as the conformance harness joins them.

    ** The parts and how they interact

    A [Session] sends one request at a time over a [Transport] and retries lost
    exchanges; requests and responses are frames, which stream transports find
    in a byte stream with the [RxScanner]; the flash sequence asks for the
    geometry, erases, writes the pages of an [Image] that are not all erased
    flash, and has the device verify the whole. The tool turns files and flags
    into an image, a transport and a session, or runs an external programmer
    to install the bootloader itself.

    - [Prelude.v]: [Result], the state-and-error monad of [&mut self] methods,
      machine integers with their wrap-around and saturation ([usize] has an
      abstract width of at least 16 bits, [PtrWidth]), slices with their
      fallible accessors, the hint and rewrite databases and the tactics.
    - [Asserts.v]: a test or model-checker harness as a computation that
      returns, panics or is discarded by an assumption.
    - [Errors.v]: [updater-core/src/error.rs].
    - [Gf2.v]: polynomials over GF(2), the reference for both checksums.
    - [Frame.v]: [updater-core/src/frame.rs], the wire codec. [wire] is the
      format it is checked against.
    - [Image.v]: [updater-core/src/image.rs], the application image: CRC-32,
      geometry checks, footer, page rendering, page iterator. [region] is the
      flash contents it stands for.
    - [Stream.v]: [updater-core/src/stream.rs], the receive scanner. The
      caller's buffer is part of its state.
    - [Transport.v]: [updater-core/src/transport.rs], the transport as a type
      class, its contract as laws, and [Logged], a recorder of the traffic.
    - [Session.v]: [updater-core/src/session.rs], the session and the flash
      sequence, over any transport. [Recorded.v]: every session operation
      commutes with homomorphisms of transports, so the recorder changes
      nothing.
    - [Kani.v]: the model-checker harnesses of the core crate ([frame.rs],
      [image.rs], [session.rs], [stream.rs]), proved to return at every input
      rather than at the sizes a checker can unfold. [PropTests.v]: the crate's
      property tests [updater-core/tests/prop.rs], likewise at every input and
      not only at the ones a generator draws.
    - [Hal.v]: the embedded-hal and embedded-io traits, parameters with the
      laws Rust's types give them. [EhI2c.v], [EhSpi.v], [EhUart.v],
      [EhSoftUart.v]: the adapters [updater-eh/src/*.rs], each an instance of
      the transport class that discharges its contract.
    - [Text.v]: the string functions of the standard library that the tool
      uses, on lists of code points. [Fmt.v]: its number and string
      formatting, with the facts that let a printed line be read back.
    - [Ihex.v]: [updater-cli/src/ihex.rs]. [Install.v]:
      [updater-cli/src/install.rs]. [CliDevices.v]: the device nodes of
      [updater-cli/src/transport.rs]; [CliTransport.v]: the rest of that file.
      [Cli.v]: [updater-cli/src/main.rs]. [Messages.v]: everything the tool
      and the core say, the [Display] of each error, the chains of causes, the
      progress of a flash, and the echo of a spawned command line.
      [UnitTests.v]: the tool's own unit tests, run on the model.
    - [Device.v]: [device/core/crc8.c], [crc32.c], [proto.c] and [update.c] over
      the simulated port [conformance/sim/sim_port.c], whose flash can lose
      power in the middle of an operation. [handles] is the protocol as a
      relation, [bootable] what the boot gate asks of the flash.
    - [Rp2350.v]: [device/ports/rp2350_uart/flash.c], the port whose flash pages
      and sectors are larger than the protocol's pages. [AvrFlash.v]:
      [device/ports/avr_ea_common/flash.c], page buffer, commands and window.
    - [DeviceLink.v]: [device/core/link_stream.c] and the stream main loop of the
      simulated port.
    - [Pumps.v]: [device/ports/skeletons/uart_pump.c] and [spi_pump.c], the glue
      between that link and a port's registers, with the registers their
      contracts describe.
    - [Conformance.v]: [conformance/src/lib.rs], the harness's handle on the
      device and its two loopback transports.
    - [AvrTwi.v]: [device/ports/avr_ea_twi/twi.c] and [main.c], the polled I2C
      client and the main loop around the core.
    - [UartPort.v]: the main loop of the serial ports, [avr_ea_uart/main.c] and
      [rp2350_uart/main.c], over an interface to the chip's UART whose laws
      [Usart.v] proves of the two [uart.c]; and the pair of cells by which an
      application asks for the bootloader ([app_stub.h], [entry.c]).
    - [Carrier.v]: the interface between the host and the device: a transport
      that hands a frame to the device and brings its answer, or fails so that
      the session tries again. What an exchange and the session's operations do
      to the device is proved against it, in [Flashing.v] up to a whole flash.
    - [Wire.v]: a loopback under a list of faults, a carrier: a request or an
      answer may be lost, or arrive as any other bytes that the checks of the
      frame format tell from a frame (one flipped byte always is); an answer may
      be late; the bus may refuse. Damage that happens to pass an 8-bit checksum
      is not among the faults. [EndToEnd.v]: what updates
      and boots leave on the device. [Atomic.v]: what an update that fails, or
      that a power cut ends, leaves in its flash. [Order.v]: the device when the
      pages come in any order, repeated and with other traffic. [Fsm.v]: the
      harness's table of commands by device states,
      [conformance/tests/fsm_exhaustive.rs].
    - [SerialLine.v]: the device on a serial line with noise, lost and damaged
      answers and latency. A request may be heard as any bytes, its sync byte
      damaged too, and an answer as any bytes. While what is heard in place of a
      request leaves the device's receiver idle and makes no frame, what is heard
      in place of an answer holds no frame, and answers come in time, the UART
      adapter over it is a carrier; two runs show what goes wrong otherwise: a
      late answer taken for the next one, and a garbled length that swallows the
      repeats.
    - [BitBang.v]: [device/ports/skeletons/softuart_pump.c] and the host's
      bit-banged adapter on one pair of wires with exact time.
    - [SpiBus.v]: the device on an SPI bus, behind the pump's queue and shift
      register, busy for a number of clocked bytes after a request, with the
      noise of the serial line in both directions. While every answer can be
      clocked out within the poll budget, the SPI adapter over it is a carrier.
    - [I2cBus.v]: the device on an I2C bus with time and the faults of [Wire.v],
      where it does not acknowledge while it is busy.
    - [Tool.v]: the tool's whole stack, from [main] through [DynTransport] and a
      backend, in front of a device: an adapter that reaches one with a poll
      budget in force ([Reach], [Backed]) makes the stack a carrier and [flash]
      correct. [ToolI2c.v], [ToolSerial.v] and [ToolSpi.v] discharge that
      interface for [LinuxI2c], [UartTransport] and [SpiTransport].

    A method on [&mut self] is a function that returns its result and the state
    it leaves, on the error path too. A borrowed buffer that a call writes to
    is passed in and returned. Traits are type classes and the code generic in
    them is generic here; the two [impl]s of a trait are two instances.

    ** The theorems

    - The codec: [encode] writes exactly the wire format or says why not;
      [decode] accepts exactly it, [decode_padded] exactly it and idle filler;
      every single byte error is caught; the checksums are the remainders their
      polynomials define.
    - The image: what [from_bin] accepts; a rendered page is the page of
      [region]; the iterator yields the pages that are not erased, with an
      exact size hint; writing those over erased flash rebuilds [region], CRC
      footer included.
    - The scanner: it refines an abstract parse of the byte stream, never
      reports anything but a decodable frame, finds a frame behind any noise
      without a sync byte and, once inside a frame, is out of it within 255
      bytes.
    - The session: an exchange is at most four identical requests, judged by
      the last response; a page is rendered in place to exactly the frame the
      encoder makes; a flash sends INFO, ERASE, the pages, VERIFY in that
      order, each only when the one ahead has been acknowledged, and nothing
      before the device reported the image's geometry; all
      its errors are the wire's and the device's; any sequence of calls keeps
      the frame buffer and every width.
    - The adapters: every request ends within its budgets, whatever the bus
      does, and receives the response of a device that answers within them;
      the bit-banged waveform is 8N1.
    - The tool: reading a HEX file inverts writing one and invents nothing;
      template expansion is exact; installation starts no program before all
      are resolved; [flash] builds its image for the geometry the
      device reported and keeps the session's guarantees; local mistakes
      never touch a device; only ERASE runs on the raised budget, which covers
      ten milliseconds a page.
    - What is said: each of the flags, files and reasons an error is about is in
      the text printed for it, but for two things the adapters keep back: a
      failed SPI transfer is reported without the kernel's reason, and only the
      I2C backend names [--poll-attempts] when polling ends without an answer; a flash reports the stages it went through; the
      echo of a command can be read back when no argument starts with a double
      quote, and not otherwise.
    - Harnesses and tests: no assertion of the model-checker harnesses or of
      the property tests of the core, of the tool's unit tests, or of the sweep
      of the device's commands over its states, fails.
    - The device: its codec is the host's; its state machine implements
      [handles]; pages written in any order and number leave the same flash; no requests, reboots or power cuts make it leave its region,
      abort, or enter anything but a valid application; it reads a byte stream
      as the host's scanner does, and stream mode is request mode. The I2C port
      gives a master what the core answers, and jumps once it has been read; the
      RP2350 port's flash, pages held back and sectors erased at once, is a plain
      array of bytes, and the AVR's, behind its controller, is the simulated
      port's. The serial ports' loop answers the frames the host's scanner finds
      in what arrives, whenever it arrives, jumps with the whole answer on the
      wire, and enters the application by itself only when the entry window
      closes without a frame on valid flash.
    - End to end, over any carrier: a flash that reports success has left exactly
      the image on a device that is alive and boots it; when no four attempts in
      a row fail it does succeed, also after an update that a power cut ended;
      at every moment the flash is the old contents with an erased front, or
      does not boot, or is exactly the new image;
      BOOT enters the application only over valid flash; one corrupted byte and
      it is refused. The tool over I2C: success means that the file is on the
      device, whatever the faults of [Wire.v] do; and it succeeds when the answers come within the poll budget and
      the erase within ten milliseconds per page, less one poll delay, which
      the computed budget falls short of that time. The tool over a serial
      port, and over SPI: it succeeds, and the file is on the device, on a wire
      that is prompt, with noise as above, and spares one attempt in four. Over two bit-banged wires, each side hears what
      the other sends.

    ** Bounds and fuel

    Loops without a structural measure take fuel. The retry loop has exactly
    the four turns of its range; an I2C poll loop has [poll_attempts] turns.
    The SPI, UART and bit-banged scan loops have 256 units per attempt or unit
    of junk they may still count, since the scanner returns to the hunt within
    a frame of 255 bytes; the theorems named [*_terminates] prove that this
    fuel is never used up. The template expander has one unit per character.
    The device's stream loop has one unit per byte of the stream and one more;
    [stream_mode_is_request_mode] shows that it never runs out. The I2C port's
    loop takes a lap per condition of the bus, and one more. The serial ports'
    loop runs for a given list of laps; a poll takes a unit per byte received,
    and the waits for the transmitter are shown to end.
    Repeats of calls interrupted by signals and the spinning delay end when the
    kernel or the clock lets them; their lemmas say so.

    ** Not modelled

    Help and usage output and the note on stderr about ignored HEX records;
    the derived [Debug] of records; the wording of third-party errors, which is
    a parameter ([Words]);
    [clap]'s argument parsing, the TOML reader, the file system, the kernel
    and spawned programs (parameters); in the device's ports ([device/ports]) the
    set-up and shut-down of clocks, timers and peripherals, the jump itself,
    linker sections, and the sample application; the inert
    port functions of the simulated device, the mutex around it and the
    declarations of its C functions; the integration tests on fixed inputs, the
    device's C tests and harnesses, and build scripts. What hardware does under
    the ports' register operations is what the comments there say of it, written
    as a definition next to them. In the simulated device a C pointer
    into a receive buffer is the list of the bytes it points at, and an abort is
    [None]. *)
From Stdlib Require Import ZArith Lia.
From stdpp Require Export base tactics decidable option numbers list strings.

#[global] Open Scope Z_scope.

(** ** Results: Rust's [Result<A, E>] *)
Inductive result (A E : Type) : Type :=
| Ok (a : A)
| Err (e : E).
Arguments Ok {A E} a.
Arguments Err {A E} e.

#[global] Instance result_eq_dec `{EqDecision A, EqDecision E} : EqDecision (result A E).
Proof. solve_decision. Defined.

Definition map_err {A E F} (f : E -> F) (r : result A E) : result A F :=
  match r with Ok a => Ok a | Err e => Err (f e) end.

(** Inverts the outcome of a stateful call without unfolding its state. *)
Lemma ok_pair_inv {A E S} (a b : A) (s s' : S) :
  (@Ok A E a, s) = (Ok b, s') -> a = b /\ s = s'.
Proof. intros H. split; congruence. Qed.

Definition is_ok {A E} (r : result A E) : bool :=
  match r with Ok _ => true | Err _ => false end.

Definition ok_or {A E} (o : option A) (e : E) : result A E :=
  match o with Some a => Ok a | None => Err e end.

(** ** State and error: [&mut self] methods returning [Result]

    A computation takes the mutable state and returns its outcome together
    with the state it leaves, on the error path too: a Rust method that fails
    half way keeps the writes it made. *)
Definition stm (S E A : Type) : Type := S -> result A E * S.

Definition sret {S E A} (a : A) : stm S E A := fun s => (Ok a, s).
Definition sfail {S E A} (e : E) : stm S E A := fun s => (Err e, s).
Definition sbind {S E A B} (m : stm S E A) (k : A -> stm S E B) : stm S E B :=
  fun s => match m s with
           | (Ok a, s') => k a s'
           | (Err e, s') => (Err e, s')
           end.

Declare Scope stm_scope.
Delimit Scope stm_scope with stm.
Notation "'let?' x ':=' m 'in' k" := (sbind m (fun x => k))
  (at level 10, x name, m at level 100, k at level 200) : stm_scope.
Notation "m ';?' k" := (sbind m (fun _ => k))
  (at level 100, k at level 200, right associativity) : stm_scope.

(** ** Machine integers

    [u8], [u16], [u32] and [u64] values are integers in range; every operation
    that can leave the range is written with its wrap-around or saturation.
    The width of [usize] depends on the target (the crates run on 16-, 32- and
    64-bit masters), so it is an interface the whole development is generic
    in. *)
Abbreviation is_u8 x := (0 <= x < 2 ^ 8).
Abbreviation is_u16 x := (0 <= x < 2 ^ 16).
Abbreviation is_u32 x := (0 <= x < 2 ^ 32).

Class PtrWidth := {
  usize_bits : Z;
  usize_bits_min : 16 <= usize_bits;
}.

(** The two widths of the shipped hosts (Linux and the 32-bit MCUs). *)
#[global] Program Instance ptr64 : PtrWidth | 10 := {| usize_bits := 64 |}.
Next Obligation. lia. Qed.
Program Definition ptr32 : PtrWidth := {| usize_bits := 32 |}.
Next Obligation. lia. Qed.

Definition usize_max `{PtrWidth} : Z := 2 ^ usize_bits - 1.
(** [isize::MAX], the largest size in bytes of any Rust object. *)
Definition isize_max `{PtrWidth} : Z := 2 ^ (usize_bits - 1) - 1.

Definition usize_wrapping_add `{PtrWidth} (a b : Z) : Z := (a + b) mod 2 ^ usize_bits.
Definition usize_wrapping_sub `{PtrWidth} (a b : Z) : Z := (a - b) mod 2 ^ usize_bits.
Definition usize_wrapping_mul `{PtrWidth} (a b : Z) : Z := (a * b) mod 2 ^ usize_bits.
Definition usize_saturating_add `{PtrWidth} (a b : Z) : Z := Z.min (a + b) usize_max.
Definition usize_checked_add `{PtrWidth} (a b : Z) : option Z :=
  if a + b <=? usize_max then Some (a + b) else None.
Definition usize_checked_sub (a b : Z) : option Z :=
  if b <=? a then Some (a - b) else None.
Definition usize_checked_mul `{PtrWidth} (a b : Z) : option Z :=
  if a * b <=? usize_max then Some (a * b) else None.

Definition u8_try_from (x : Z) : option Z := if x <=? 255 then Some x else None.
Definition u16_try_from (x : Z) : option Z := if x <=? 65535 then Some x else None.
Definition u32_try_from (x : Z) : option Z := if x <=? 2 ^ 32 - 1 then Some x else None.
Definition usize_try_from `{PtrWidth} (x : Z) : option Z :=
  if x <=? usize_max then Some x else None.

Definition u8_wrapping_shl (x n : Z) : Z := Z.shiftl x (n mod 8) mod 2 ^ 8.
Definition u8_wrapping_shr (x n : Z) : Z := Z.shiftr x (n mod 8).
Definition u16_wrapping_sub (a b : Z) : Z := (a - b) mod 2 ^ 16.
Definition u16_saturating_add (a b : Z) : Z := Z.min (a + b) 65535.
Definition u32_wrapping_add (a b : Z) : Z := (a + b) mod 2 ^ 32.
Definition u32_saturating_sub (a b : Z) : Z := Z.max (a - b) 0.
Definition u32_saturating_add (a b : Z) : Z := Z.min (a + b) (2 ^ 32 - 1).
Definition u32_saturating_mul (a b : Z) : Z := Z.min (a * b) (2 ^ 32 - 1).
Definition u64_saturating_mul (a b : Z) : Z := Z.min (a * b) (2 ^ 64 - 1).

(** Little- and big-endian byte views ([to_le_bytes] and friends). *)
Definition u16_to_le_bytes (x : Z) : list Z := [x mod 256; x / 256 mod 256].
Definition u16_from_le_bytes (b0 b1 : Z) : Z := b0 + 256 * b1.
Definition u16_from_be_bytes (b0 b1 : Z) : Z := 256 * b0 + b1.
Definition u32_to_le_bytes (x : Z) : list Z :=
  [x mod 256; x / 256 mod 256; x / 65536 mod 256; x / 16777216 mod 256].

(** ** Slices

    A [&[u8]] is a list of bytes; [len] is its length as a [usize]. The
    accessors return [None] exactly where the Rust ones do. *)
Definition len {A} (l : list A) : Z := Z.of_nat (length l).

Abbreviation bytes := (Forall (fun b : Z => is_u8 b)).

(** What Rust's type system guarantees of any byte slice: its elements are
    bytes and its size is at most [isize::MAX]. *)
Definition slice `{PtrWidth} (l : list Z) : Prop := bytes l /\ len l <= isize_max.

(** [l.get(..n)] *)
Definition get_to {A} (n : Z) (l : list A) : option (list A) :=
  if n <=? len l then Some (take (Z.to_nat n) l) else None.
(** [l.get(n..)] *)
Definition get_from {A} (n : Z) (l : list A) : option (list A) :=
  if n <=? len l then Some (drop (Z.to_nat n) l) else None.
(** [l.get(a..b)] *)
Definition get_range {A} (a b : Z) (l : list A) : option (list A) :=
  if (a <=? b) && (b <=? len l)
  then Some (take (Z.to_nat (b - a)) (drop (Z.to_nat a) l)) else None.
(** [l.get(i)] *)
Definition get_at {A} (i : Z) (l : list A) : option A := l !! Z.to_nat i.
(** [l.split_at_checked(n)], also on mutable slices *)
Definition split_at_checked {A} (n : Z) (l : list A) : option (list A * list A) :=
  if n <=? len l then Some (take (Z.to_nat n) l, drop (Z.to_nat n) l) else None.
(** [l.split_last()] *)
Definition split_last {A} (l : list A) : option (A * list A) :=
  match last l with Some x => Some (x, take (pred (length l)) l) | None => None end.
(** [l[pos .. pos + src.len()].copy_from_slice(src)] for a range inside [l] *)
Definition overwrite {A} (pos : Z) (src l : list A) : list A :=
  take (Z.to_nat pos) l ++ src ++ drop (Z.to_nat pos + length src) l.

(** [iter::all], [iter::any] on bytes *)
Definition all_eq (b : Z) (l : list Z) : bool := forallb (fun x => x =? b) l.
Definition any_ne (b : Z) (l : list Z) : bool := existsb (fun x => negb (x =? b)) l.

(** ** Tactics *)

(** Case analysis on an integer comparison the goal (or [H]) branches on. *)
Ltac zcase :=
  match goal with
  | |- context [Z.leb ?a ?b] => destruct (Z.leb_spec a b)
  | |- context [Z.ltb ?a ?b] => destruct (Z.ltb_spec a b)
  | |- context [Z.eqb ?a ?b] => destruct (Z.eqb_spec a b)
  end; cbv beta iota; cbn [negb andb orb].
Ltac zcase_in H :=
  match type of H with
  | context [Z.leb ?a ?b] => destruct (Z.leb_spec a b)
  | context [Z.ltb ?a ?b] => destruct (Z.ltb_spec a b)
  | context [Z.eqb ?a ?b] => destruct (Z.eqb_spec a b)
  end; cbv beta iota in H; cbn [negb andb orb] in H.
(** Every comparison in the goal, closing the branches arithmetic refutes. *)
Ltac zcases := repeat (zcase; try lia).

Create HintDb ota.
Create Rewrite HintDb lens.

(** ** Lengths *)
Section lens.
Context {A : Type}.
Implicit Types l k : list A.

Lemma len_nil : len (@nil A) = 0.
Proof. done. Qed.
Lemma len_cons x l : len (x :: l) = 1 + len l.
Proof. unfold len; simpl; lia. Qed.
Lemma len_app l k : len (l ++ k) = len l + len k.
Proof. unfold len; rewrite length_app; lia. Qed.
Lemma len_nonneg l : 0 <= len l.
Proof. unfold len; lia. Qed.
Lemma len_take n l : len (take (Z.to_nat n) l) = Z.min (Z.max 0 n) (len l).
Proof. unfold len; rewrite length_take; lia. Qed.
Lemma len_drop n l : len (drop (Z.to_nat n) l) = len l - Z.min (Z.max 0 n) (len l).
Proof. unfold len; rewrite length_drop; lia. Qed.
Lemma len_replicate n (x : A) : len (replicate (Z.to_nat n) x) = Z.max 0 n.
Proof. unfold len; rewrite length_replicate; lia. Qed.
Lemma len_zero_nil l : len l = 0 -> l = [].
Proof. destruct l; unfold len; simpl; [done | lia]. Qed.
Lemma to_nat_len l : Z.to_nat (len l) = length l.
Proof. unfold len; lia. Qed.
Lemma lookup_len_lt (i : Z) l x : 0 <= i -> l !! Z.to_nat i = Some x -> i < len l.
Proof. intros ? ?%lookup_lt_Some; unfold len; lia. Qed.
Lemma lookup_len_is_Some (i : Z) l : 0 <= i < len l -> is_Some (l !! Z.to_nat i).
Proof. intros ?; apply lookup_lt_is_Some; unfold len in *; lia. Qed.
End lens.

#[export] Hint Rewrite @len_nil @len_cons @len_app @len_take @len_drop @len_replicate
  : lens.

(** Closes arithmetic goals about the lengths of composed lists. *)
Ltac lens_pose :=
  repeat match goal with
  | _ : context [len ?l] |- _ =>
      lazymatch goal with _ : 0 <= len l |- _ => fail | _ => pose proof (len_nonneg l) end
  | |- context [len ?l] =>
      lazymatch goal with _ : 0 <= len l |- _ => fail | _ => pose proof (len_nonneg l) end
  end.
Ltac lens := autorewrite with lens in *; lens_pose; lia.

(** ** Slice accessors *)
Section slices.
Context {A : Type}.
Implicit Types l k : list A.

Lemma get_to_Some n l : n <= len l -> get_to n l = Some (take (Z.to_nat n) l).
Proof. unfold get_to; zcases; done. Qed.
Lemma get_to_None n l : len l < n -> get_to n l = None.
Proof. unfold get_to; zcases; done. Qed.
Lemma get_from_Some n l : n <= len l -> get_from n l = Some (drop (Z.to_nat n) l).
Proof. unfold get_from; zcases; done. Qed.
Lemma get_to_inv n l k : 0 <= n -> get_to n l = Some k ->
  n <= len l /\ k = take (Z.to_nat n) l /\ len k = n.
Proof.
  unfold get_to; intros ?; zcase; [|done]; intros [= <-].
  split_and!; [done|done|]. rewrite len_take; lia.
Qed.
Lemma get_to_app l k : get_to (len l) (l ++ k) = Some l.
Proof.
  rewrite get_to_Some by lens. by rewrite to_nat_len, take_app_length.
Qed.
Lemma split_at_checked_Some n l : n <= len l ->
  split_at_checked n l = Some (take (Z.to_nat n) l, drop (Z.to_nat n) l).
Proof. unfold split_at_checked; by zcases. Qed.
Lemma split_last_snoc l x : split_last (l ++ [x]) = Some (x, l).
Proof.
  unfold split_last. rewrite last_snoc, length_app; simpl.
  do 2 f_equal. by rewrite take_app_le, take_ge by lia.
Qed.
Lemma split_last_Some l k x : split_last l = Some (x, k) <-> l = k ++ [x].
Proof.
  split; [|intros ->; apply split_last_snoc].
  destruct l as [|l y _] using rev_ind; [done|].
  rewrite split_last_snoc; congruence.
Qed.
Lemma split_last_is_Some l : 0 < len l -> exists x k, l = k ++ [x].
Proof. destruct l as [|k x _] using rev_ind; [done|eauto]. Qed.

Lemma len_overwrite pos src l :
  0 <= pos -> pos + len src <= len l -> len (overwrite pos src l) = len l.
Proof.
  intros. unfold overwrite.
  replace (Z.to_nat pos + length src)%nat with (Z.to_nat (pos + len src)) by (unfold len; lia).
  lens.
Qed.
Lemma overwrite_0 src l : overwrite 0 src l = src ++ drop (length src) l.
Proof. done. Qed.
(** Two adjacent writes are one. *)
Lemma overwrite_adjacent pos pos' src src' l :
  0 <= pos -> pos' = pos + len src -> pos' <= len l ->
  overwrite pos' src' (overwrite pos src l) = overwrite pos (src ++ src') l.
Proof.
  intros ? -> ?. unfold overwrite, len in *. rewrite !length_app.
  replace (Z.to_nat (pos + Z.of_nat (length src))) with (Z.to_nat pos + length src)%nat by lia.
  rewrite take_app_ge by (rewrite length_take; lia).
  rewrite length_take_le by lia.
  rewrite Nat.add_sub_swap, Nat.sub_diag by lia; simpl.
  rewrite take_app_length, <- !app_assoc. f_equal. f_equal. f_equal.
  rewrite drop_app_ge by (rewrite length_take; lia). rewrite length_take_le by lia.
  rewrite drop_app_ge by lia. rewrite drop_drop. f_equal; lia.
Qed.
Lemma take_overwrite_below n pos src l :
  0 <= n <= pos -> pos <= len l ->
  take (Z.to_nat n) (overwrite pos src l) = take (Z.to_nat n) l.
Proof.
  intros. unfold overwrite, len in *. rewrite take_app_le by (rewrite length_take; lia).
  rewrite take_take. f_equal; lia.
Qed.
Lemma lookup_overwrite addr (data l : list Z) a : 0 <= addr -> addr + len data <= len l -> 0 <= a ->
  overwrite addr data l !! Z.to_nat a =
    if (addr <=? a) && (a <? addr + len data) then data !! Z.to_nat (a - addr) else l !! Z.to_nat a.
Proof.
  intros Ha Hl Ha0. unfold overwrite, len in *.
  destruct (Z.leb_spec addr a); cbn [andb].
  - rewrite lookup_app_r by (rewrite length_take; lia). rewrite length_take_le by lia.
    replace (Z.to_nat a - Z.to_nat addr)%nat with (Z.to_nat (a - addr)) by lia.
    zcase.
    + by rewrite lookup_app_l by lia.
    + rewrite lookup_app_r, lookup_drop by lia. f_equal. lia.
  - rewrite lookup_app_l by (rewrite length_take; lia). by rewrite lookup_take_lt by lia.
Qed.

(** Clearing bits of a byte. *)
Lemma land_255 x : is_u8 x -> Z.land x 0xFF = x.
Proof. intros. change 0xFF with (Z.ones 8). rewrite Z.land_ones by lia. by apply Z.mod_small. Qed.
Lemma land_idem x y : Z.land x (Z.land x y) = Z.land x y.
Proof. by rewrite Z.land_assoc, Z.land_diag. Qed.
Lemma land_below x y : is_u8 x -> 0 <= Z.land x y <= x.
Proof.
  intros Hx. split; [apply Z.land_nonneg; lia|].
  pose proof (Z.sub_nocarry_ldiff x (Z.land x y)) as Hs.
  assert (Z.ldiff (Z.land x y) x = 0) as H0.
  { apply Z.bits_inj'. intros n _. rewrite Z.ldiff_spec, Z.land_spec, Z.bits_0. by destruct (Z.testbit x n), (Z.testbit y n). }
  specialize (Hs H0). pose proof (proj2 (Z.ldiff_nonneg x (Z.land x y)) ltac:(lia)). lia.
Qed.
Lemma land_u8 x y : is_u8 x -> is_u8 (Z.land x y).
Proof. intros Hx. pose proof (land_below x y Hx). lia. Qed.
(** Programming what is erased, or what is there already. *)
Lemma reprogram x h d : is_u8 x -> is_u8 h -> is_u8 d -> Z.land x h = 0xFF \/ Z.land x h = d -> Z.land x d = d.
Proof.
  intros Hx Hh Hd [Hff| <-]; [|apply land_idem]. pose proof (land_below x h Hx). assert (x = 0xFF) as -> by lia.
  rewrite Z.land_comm. by apply land_255.
Qed.
End slices.

(** ** Machine integers in range *)
Section usize.
Context `{PtrWidth}.

Lemma usize_pow_min : 2 ^ 16 <= 2 ^ usize_bits.
Proof. apply Z.pow_le_mono_r; [lia|]. apply usize_bits_min. Qed.
Lemma isize_max_pow : 2 * (isize_max + 1) = 2 ^ usize_bits.
Proof.
  unfold isize_max. pose proof usize_bits_min.
  replace usize_bits with (1 + (usize_bits - 1)) at 2 by lia.
  rewrite Z.pow_add_r by lia. lia.
Qed.
Lemma isize_max_min : 2 ^ 15 - 1 <= isize_max.
Proof. pose proof usize_pow_min; pose proof isize_max_pow; lia. Qed.
Lemma usize_max_isize : usize_max = 2 * isize_max + 1.
Proof. unfold usize_max; pose proof isize_max_pow; lia. Qed.

Lemma usize_add_small a b : 0 <= a + b <= usize_max -> usize_wrapping_add a b = a + b.
Proof. unfold usize_wrapping_add, usize_max; intros; apply Z.mod_small; lia. Qed.
Lemma usize_sub_small a b : 0 <= a - b <= usize_max -> usize_wrapping_sub a b = a - b.
Proof. unfold usize_wrapping_sub, usize_max; intros; apply Z.mod_small; lia. Qed.
Lemma usize_mul_small a b : 0 <= a * b <= usize_max -> usize_wrapping_mul a b = a * b.
Proof. unfold usize_wrapping_mul, usize_max; intros; apply Z.mod_small; lia. Qed.

Lemma slice_bytes l : slice l -> bytes l.
Proof. by intros []. Qed.
Lemma slice_len l : slice l -> len l <= isize_max.
Proof. by intros []. Qed.
End usize.
#[export] Hint Resolve slice_bytes slice_len : ota.

(** Brings the bounds on the platform's [usize] into the context. *)
Ltac usize_bounds :=
  pose proof usize_pow_min; pose proof isize_max_pow; pose proof isize_max_min;
  pose proof usize_max_isize.

Lemma u8_try_from_spec x : u8_try_from x = if x <=? 255 then Some x else None.
Proof. done. Qed.

(** ** Bytes *)
Lemma bytes_app l k : bytes (l ++ k) <-> bytes l /\ bytes k.
Proof. apply Forall_app. Qed.
Lemma bytes_cons b l : bytes (b :: l) <-> is_u8 b /\ bytes l.
Proof. by rewrite Forall_cons. Qed.
Lemma bytes_snoc l b : bytes (l ++ [b]) <-> bytes l /\ is_u8 b.
Proof. by rewrite bytes_app, Forall_singleton. Qed.
Lemma bytes_take n l : bytes l -> bytes (take n l).
Proof. apply Forall_take. Qed.
Lemma bytes_drop n l : bytes l -> bytes (drop n l).
Proof. apply Forall_drop. Qed.
Lemma bytes_get_to n l k : bytes l -> get_to n l = Some k -> bytes k.
Proof. unfold get_to. intros Hl. case_match; [|done]. intros [= <-]. by apply Forall_take. Qed.
Lemma bytes_replicate n x : is_u8 x -> bytes (replicate n x).
Proof. intros. by apply Forall_replicate. Qed.
Lemma bytes_overwrite pos src l : bytes src -> bytes l -> bytes (overwrite pos src l).
Proof. intros. unfold overwrite. rewrite !Forall_app. auto using bytes_take, bytes_drop. Qed.
Lemma bytes_lookup l i x : bytes l -> l !! i = Some x -> is_u8 x.
Proof. rewrite Forall_lookup; eauto. Qed.
Lemma lor_u8 a b : is_u8 a -> is_u8 b -> is_u8 (Z.lor a b).
Proof.
  intros Ha Hb. split; [apply Z.lor_nonneg; lia|]. destruct (decide (Z.lor a b = 0)) as [->|]; [lia|].
  apply Z.log2_lt_pow2; [assert (0 <= Z.lor a b) by (apply Z.lor_nonneg; lia); lia|].
  rewrite Z.log2_lor by lia.
  assert (forall x, is_u8 x -> Z.log2 x < 8) as Hlog.
  { intros x Hx. destruct (decide (x = 0)) as [->|]; [by vm_compute|].
    apply Z.log2_lt_pow2; lia. }
  pose proof (Hlog a Ha). pose proof (Hlog b Hb). lia.
Qed.
#[export] Hint Resolve bytes_take bytes_drop bytes_replicate bytes_overwrite : ota.

Lemma u16_le_bytes x : bytes (u16_to_le_bytes x).
Proof. repeat constructor; apply Z.mod_pos_bound; lia. Qed.
Lemma u32_le_bytes x : bytes (u32_to_le_bytes x).
Proof. repeat constructor; apply Z.mod_pos_bound; lia. Qed.
#[export] Hint Resolve u16_le_bytes u32_le_bytes : ota.

Lemma u16_le_roundtrip x : is_u16 x ->
  u16_from_le_bytes (x mod 256) (x / 256 mod 256) = x.
Proof. unfold u16_from_le_bytes. intros. Z.div_mod_to_equations. lia. Qed.
Lemma u16_le_inj x y : is_u16 x -> is_u16 y -> u16_to_le_bytes x = u16_to_le_bytes y -> x = y.
Proof. unfold u16_to_le_bytes. intros Hx Hy [= H1 H2]. Z.to_euclidean_division_equations; lia. Qed.
Lemma u32_le_inj x y : is_u32 x -> is_u32 y -> u32_to_le_bytes x = u32_to_le_bytes y -> x = y.
Proof. unfold u32_to_le_bytes. intros Hx Hy [= H1 H2 H3 H4]. Z.to_euclidean_division_equations; lia. Qed.
Lemma u16_from_le_range b0 b1 : is_u8 b0 -> is_u8 b1 -> is_u16 (u16_from_le_bytes b0 b1).
Proof. unfold u16_from_le_bytes. lia. Qed.
Lemma u16_to_from_le b0 b1 : is_u8 b0 -> is_u8 b1 ->
  u16_to_le_bytes (u16_from_le_bytes b0 b1) = [b0; b1].
Proof.
  unfold u16_to_le_bytes, u16_from_le_bytes. intros.
  f_equal; [|f_equal]; Z.div_mod_to_equations; lia.
Qed.

Lemma all_eq_spec b l : all_eq b l = true <-> l = replicate (length l) b.
Proof.
  unfold all_eq. induction l as [|x l IH]; simpl; [done|].
  rewrite andb_true_iff, IH, Z.eqb_eq. split.
  - intros [-> Hl]. by rewrite <- Hl.
  - intros [= -> <-]. done.
Qed.
Lemma all_eq_replicate b n : all_eq b (replicate n b) = true.
Proof. apply all_eq_spec. by rewrite length_replicate. Qed.
Lemma any_ne_false b l : any_ne b l = false <-> l = replicate (length l) b.
Proof.
  unfold any_ne. induction l as [|x l IH]; simpl; [done|].
  rewrite orb_false_iff, IH, negb_false_iff, Z.eqb_eq. split.
  - intros [-> Hl]. by rewrite <- Hl.
  - intros [= -> <-]. done.
Qed.

Lemma any_ne_app b l k : any_ne b (l ++ k) = any_ne b l || any_ne b k.
Proof. apply existsb_app. Qed.
Lemma any_ne_replicate b n : any_ne b (replicate n b) = false.
Proof. apply any_ne_false. by rewrite length_replicate. Qed.
(** Padding with [b] never introduces another byte. *)
Lemma any_ne_pad b n m l : any_ne b (take n (l ++ replicate m b)) = any_ne b (take n l).
Proof. by rewrite take_app, any_ne_app, take_replicate, any_ne_replicate, orb_false_r. Qed.

Lemma filter_all_false {A} (P : A -> Prop) `{forall x, Decision (P x)} (l : list A) :
  (forall x, x ∈ l -> ~ P x) -> filter P l = [].
Proof.
  induction l as [|x l IH]; intros Hno; [done|].
  rewrite filter_cons_False by (apply Hno; left). apply IH. intros y Hy. apply Hno. by right.
Qed.

Lemma filter_ext_in {A} (P Q : A -> Prop)
    `{forall x, Decision (P x)} `{forall x, Decision (Q x)} (l : list A) :
  (forall x, x ∈ l -> P x <-> Q x) -> filter P l = filter Q l.
Proof.
  induction l as [|x l IH]; intros Hpq; [done|].
  assert (filter P l = filter Q l) as Hl by (apply IH; intros y Hy; apply Hpq; by right).
  assert (P x <-> Q x) as Hx by (apply Hpq; left).
  destruct (decide (P x)).
  - rewrite !filter_cons_True by tauto. by rewrite Hl.
  - rewrite !filter_cons_False by tauto. done.
Qed.

(** Checking a property of every byte by computation. *)
Lemma forall_u8 (p : Z -> bool) :
  forallb p (seqZ 0 256) = true -> forall x, is_u8 x -> p x = true.
Proof.
  rewrite forallb_forall. intros Hp x Hx. apply Hp.
  apply list_elem_of_In, elem_of_seqZ. lia.
Qed.
