(* ===== verification/Asserts.v ===== *)
(** Code that checks itself, the program's tests and the harnesses of its model
    checker: a function that returns, or panics on a failed assertion. *)
From S2P Require Import Prelude.

(** [Some tt]: the harness returned. *)
Definition harness : Type := option unit.
Definition assert (b : bool) : harness := if b then Some tt else None.
(** [kani::assume]: a path that violates it is not explored. *)
Definition assume (b : bool) (k : harness) : harness := if b then k else Some tt.


(** [.unwrap()], [.expect(..)] and [.unwrap_err()] *)
Definition unwrap {A F} (r : result A F) : option A := match r with Ok a => Some a | Err _ => None end.
Definition unwrap_err {A F} (r : result A F) : option F := match r with Ok _ => None | Err e => Some e end.

Lemma assume_intro b k : (b = true -> k = Some tt) -> assume b k = Some tt.
Proof. destruct b; [by intros ->|done]. Qed.
Lemma assert_true b k : b = true -> k = Some tt -> (assert b;; k) = Some tt.
Proof. by intros -> ->. Qed.
Lemma assert_done b : b = true -> assert b = Some tt.
Proof. by intros ->. Qed.
