(* ===== verification/Errors.v ===== *)
(** The host core's error type ([updater-core/src/error.rs]): one constructor
    per variant of [enum Error<E>], under the module name [Error] so that they
    read as in the source ([Error.BadFrame] is [Error::BadFrame]). *)
From S2P Require Import Prelude.

Module Error.

Inductive t (E : Type) : Type :=
| Transport (e : E)
| BadFrame
| Device (st : Z)
| PayloadTooLarge (len : Z)
| BufferTooSmall (needed : Z)
| ImageTooLarge (len capacity : Z)
| BadGeometry (page_size app_pages : Z)
| PageOutOfRange (index : Z)
| ProtocolVersion (device : Z).
Arguments Transport {E} e.
Arguments BadFrame {E}.
Arguments Device {E} st.
Arguments PayloadTooLarge {E} len.
Arguments BufferTooSmall {E} needed.
Arguments ImageTooLarge {E} len capacity.
Arguments BadGeometry {E} page_size app_pages.
Arguments PageOutOfRange {E} index.
Arguments ProtocolVersion {E} device.

(** Codec and image operations return [Error<Infallible>]. *)
Abbreviation pure := (t Empty_set).

(** [Error::widen]: lift a transport-free error into any [Error<E>]. *)
Definition widen {E} (e : pure) : t E :=
  match e with
  | Transport never => match never with end
  | BadFrame => BadFrame
  | Device st => Device st
  | PayloadTooLarge len => PayloadTooLarge len
  | BufferTooSmall needed => BufferTooSmall needed
  | ImageTooLarge len capacity => ImageTooLarge len capacity
  | BadGeometry page_size app_pages => BadGeometry page_size app_pages
  | PageOutOfRange index => PageOutOfRange index
  | ProtocolVersion device => ProtocolVersion device
  end.

#[global] Instance eq_dec `{EqDecision E} : EqDecision (t E).
Proof. solve_decision. Defined.

End Error.
