(* ===== verification/Gf2.v ===== *)
(** Polynomials over GF(2), as integers whose bits are the coefficients: the
    reference the CRC routines are checked against. Addition is [Z.lxor],
    multiplication by [x] is doubling, and [multiple P m] says that [P] divides
    [m]; it is generated by Horner's rule, so that a proof of it builds the
    quotient one bit at a time. *)
From S2P Require Import Prelude.

Inductive multiple (P : Z) : Z -> Prop :=
| multiple_0 : multiple P 0
| multiple_double m : multiple P m -> multiple P (2 * m)
| multiple_add m : multiple P m -> multiple P (Z.lxor P (2 * m)).

(** The message polynomial of a byte string, first byte most significant and
    each byte's bit 7 first (the order a CRC without reflection reads). *)
Definition poly (l : list Z) : Z := fold_left (fun v b => 256 * v + b) l 0.

(** Equalities of sums of polynomials, bit by bit. *)
Ltac xor_bits :=
  apply Z.bits_inj'; intros ? _; rewrite ?Z.lxor_spec;
  repeat match goal with |- context [Z.testbit ?a ?i] => destruct (Z.testbit a i) end; done.

(** ** The ideal generated by [P] *)
Lemma lxor_double a b : Z.lxor (2 * a) (2 * b) = 2 * Z.lxor a b.
Proof. rewrite !(Z.mul_comm 2), <- !(Z.shiftl_mul_pow2 _ 1) by lia. by rewrite Z.shiftl_lxor. Qed.

Lemma lxor_nonneg_of a b : 0 <= a -> 0 <= b -> 0 <= Z.lxor a b.
Proof. intros. by apply Z.lxor_nonneg. Qed.
#[export] Hint Resolve lxor_nonneg_of : ota.

Lemma multiple_lxor P a b : multiple P a -> multiple P b -> multiple P (Z.lxor a b).
Proof.
  intros Ha; revert b; induction Ha as [|a Ha IH|a Ha IH]; intros b Hb; [done|..];
    destruct Hb as [|b Hb|b Hb].
  - rewrite Z.lxor_0_r. by constructor.
  - rewrite lxor_double. constructor; eauto.
  - rewrite <- Z.lxor_assoc, (Z.lxor_comm _ P), Z.lxor_assoc, lxor_double. constructor; eauto.
  - rewrite Z.lxor_0_r. by constructor.
  - rewrite Z.lxor_assoc, lxor_double. constructor; eauto.
  - rewrite (Z.lxor_comm P (2 * b)), Z.lxor_assoc, <- (Z.lxor_assoc (2 * a)), lxor_double.
    rewrite (Z.lxor_comm _ P), <- Z.lxor_assoc, Z.lxor_nilpotent, Z.lxor_0_l.
    constructor; eauto.
Qed.

Lemma multiple_shift P n m : 0 <= n -> multiple P m -> multiple P (2 ^ n * m).
Proof.
  intros Hn Hm. revert n Hn. apply (natlike_ind (fun n => multiple P (2 ^ n * m))).
  - by rewrite Z.mul_1_l.
  - intros n Hn IH. rewrite Z.pow_succ_r, <- Z.mul_assoc by done. by constructor.
Qed.

Lemma multiple_self P : multiple P P.
Proof. rewrite <- (Z.lxor_0_r P) at 2. change 0 with (2 * 0). constructor. constructor. Qed.

(** A nonzero multiple of a polynomial of degree [d] has degree at least [d]:
    remainders are unique. *)
Lemma multiple_degree P d m :
  0 <= d -> 2 ^ d <= P < 2 ^ (d + 1) -> multiple P m -> m = 0 \/ 2 ^ d <= m.
Proof.
  intros Hd HP Hm. pose proof (Z.pow_pos_nonneg 2 d ltac:(lia) Hd).
  induction Hm as [|m Hm IH|m Hm IH]; [by left| lia |].
  destruct IH as [->|IH]; [rewrite Z.lxor_0_r; lia|]. right.
  assert (2 ^ (d + 1) <= 2 * m) by (rewrite Z.pow_add_r by lia; lia).
  assert (0 <= Z.lxor P (2 * m)) by (apply lxor_nonneg_of; lia).
  assert (Z.log2 P < Z.log2 (2 * m)) as Hlog.
  { apply (Z.lt_le_trans _ (d + 1)); [apply Z.log2_lt_pow2; lia | apply Z.log2_le_pow2; lia]. }
  assert (Z.log2 (2 * m) <= Z.log2 (Z.lxor P (2 * m))).
  { destruct (Z.le_gt_cases (Z.log2 (2 * m)) (Z.log2 (Z.lxor P (2 * m)))); [done|].
    exfalso. assert (Z.testbit (2 * m) (Z.log2 (2 * m)) = true) by (apply Z.bit_log2; lia).
    assert (Z.testbit (Z.lxor P (2 * m)) (Z.log2 (2 * m)) = true) as Hb.
    { rewrite Z.lxor_spec, (Z.bits_above_log2 P) by lia. by rewrite xorb_false_l. }
    rewrite Z.bits_above_log2 in Hb by lia. done. }
  assert (Z.lxor P (2 * m) <> 0) by (intros ?%Z.lxor_eq; lia).
  assert (d + 1 <= Z.log2 (Z.lxor P (2 * m))).
  { etrans; [|done]. apply Z.log2_le_pow2; lia. }
  assert (2 ^ (d + 1) <= Z.lxor P (2 * m)) by (apply Z.log2_le_pow2; lia).
  rewrite Z.pow_add_r in * by lia. lia.
Qed.

(** ** Message polynomials *)
Lemma poly_nil : poly [] = 0.
Proof. done. Qed.
Lemma poly_snoc l b : poly (l ++ [b]) = 256 * poly l + b.
Proof. unfold poly. by rewrite fold_left_app. Qed.
Lemma poly_nonneg l : bytes l -> 0 <= poly l.
Proof.
  induction l as [|b l IH] using rev_ind; [done|].
  rewrite bytes_app, poly_snoc, Forall_singleton. intros [? ?]. specialize (IH ltac:(done)). lia.
Qed.
(** Appending a byte is a shift by eight and an addition of polynomials. *)
Lemma add_shift_lxor a b n : 0 <= n -> 0 <= b < 2 ^ n -> 2 ^ n * a + b = Z.lxor (2 ^ n * a) b.
Proof.
  intros. rewrite Z.add_nocarry_lxor; [done|].
  apply Z.bits_inj'; intros i Hi. rewrite Z.land_spec, Z.bits_0.
  rewrite Z.mul_comm, Z.mul_pow2_bits by done.
  destruct (Z.lt_ge_cases i n); [by rewrite Z.testbit_neg_r by lia|].
  rewrite <- (Z.mod_small b (2 ^ n)), Z.mod_pow2_bits_high, andb_false_r by lia. done.
Qed.

Lemma mul_pow2_lxor n a b : 0 <= n -> 2 ^ n * Z.lxor a b = Z.lxor (2 ^ n * a) (2 ^ n * b).
Proof.
  intros. rewrite !(Z.mul_comm (2 ^ n)), <- !Z.shiftl_mul_pow2 by done. apply Z.shiftl_lxor.
Qed.

Lemma lxor_cancel_l a b c : Z.lxor a b = Z.lxor a c -> b = c.
Proof.
  intros H. apply (f_equal (Z.lxor a)) in H.
  by rewrite <- !Z.lxor_assoc, Z.lxor_nilpotent, !Z.lxor_0_l in H.
Qed.

(** Sums of polynomials of degree below [n] have degree below [n]. *)
Lemma lxor_bound n a b : 0 <= a < 2 ^ n -> 0 <= b < 2 ^ n -> 0 <= Z.lxor a b < 2 ^ n.
Proof.
  intros. assert (0 <= Z.lxor a b) by (apply Z.lxor_nonneg; lia).
  destruct (Z.eq_dec (Z.lxor a b) 0) as [->|]; [lia|]. split; [done|].
  destruct (Z.lt_ge_cases n 0); [by rewrite (Z.pow_neg_r 2 n) in * by done; lia|].
  destruct (Z.eq_dec n 0) as [->|]; [replace a with 0 in * by lia; replace b with 0 in * by lia; done|].
  apply Z.log2_lt_pow2; [lia|]. pose proof (Z.log2_lxor a b).
  assert (forall x, 0 <= x < 2 ^ n -> Z.log2 x < n) as Hlog.
  { intros x Hx. destruct (Z.eq_dec x 0) as [->|]; [simpl; lia|]. apply Z.log2_lt_pow2; lia. }
  pose proof (Hlog a); pose proof (Hlog b). lia.
Qed.

(** ** Bit reversal, for the CRCs that process the low bit first *)
Fixpoint rev_bits (n : nat) (x : Z) : Z :=
  match n with
  | O => 0
  | S n => 2 ^ Z.of_nat n * Z.b2z (Z.odd x) + rev_bits n (Z.div2 x)
  end.

Lemma rev_bits_bound n x : 0 <= rev_bits n x < 2 ^ Z.of_nat n.
Proof.
  revert x; induction n as [|n IH]; intros x; cbn [rev_bits]; [lia|].
  specialize (IH (Z.div2 x)). rewrite Nat2Z.inj_succ, Z.pow_succ_r by lia.
  destruct (Z.odd x); cbn [Z.b2z]; lia.
Qed.

Lemma rev_bits_S_lxor n x :
  rev_bits (S n) x = Z.lxor (2 ^ Z.of_nat n * Z.b2z (Z.odd x)) (rev_bits n (Z.div2 x)).
Proof. cbn [rev_bits]. apply add_shift_lxor; [lia|apply rev_bits_bound]. Qed.

Lemma rev_bits_lxor n a b : rev_bits n (Z.lxor a b) = Z.lxor (rev_bits n a) (rev_bits n b).
Proof.
  revert a b; induction n as [|n IH]; intros a b; [done|].
  rewrite !rev_bits_S_lxor, !Z.div2_spec, Z.shiftr_lxor, IH.
  rewrite <- !Z.bit0_odd, Z.lxor_spec.
  destruct (Z.testbit a 0), (Z.testbit b 0); cbn [xorb Z.b2z];
    rewrite ?Z.mul_0_r, ?Z.mul_1_r, ?Z.lxor_0_l; xor_bits.
Qed.

(** Reversing in a wider window is a shift. *)
Lemma rev_bits_small n x : 0 <= x < 2 ^ Z.of_nat n -> rev_bits (S n) x = 2 * rev_bits n x.
Proof.
  revert x; induction n as [|n IH]; intros x Hx.
  - replace x with 0 by lia. done.
  - cbn [rev_bits]. fold (rev_bits (S n) (Z.div2 x)).
    change (2 ^ Z.of_nat n * Z.b2z (Z.odd (Z.div2 x)) + rev_bits n (Z.div2 (Z.div2 x)))
      with (rev_bits (S n) (Z.div2 x)).
    rewrite Nat2Z.inj_succ, Z.pow_succ_r in * by lia.
    rewrite IH; [lia|]. rewrite Z.div2_div. Z.div_mod_to_equations; lia.
Qed.

Lemma rev_bits_inj n x y : 0 <= x < 2 ^ Z.of_nat n -> 0 <= y < 2 ^ Z.of_nat n ->
  rev_bits n x = rev_bits n y -> x = y.
Proof.
  revert x y; induction n as [|n IH]; intros x y Hx Hy; [simpl in *; lia|].
  cbn [rev_bits]. pose proof (rev_bits_bound n (Z.div2 x)). pose proof (rev_bits_bound n (Z.div2 y)).
  rewrite Nat2Z.inj_succ, Z.pow_succ_r in * by lia.
  intros Heq. rewrite (Z.div2_odd x), (Z.div2_odd y).
  assert (Z.odd x = Z.odd y) as Ho by (destruct (Z.odd x), (Z.odd y); cbn [Z.b2z] in *; lia).
  rewrite Ho in *. rewrite (IH (Z.div2 x) (Z.div2 y)); [done|..].
  all: rewrite ?Z.div2_div in *; Z.div_mod_to_equations; lia.
Qed.
