(* ===== verification/Frame.v ===== *)
(** The wire frame codec ([updater-core/src/frame.rs]): CRC-8, [encode],
    [decode] and [decode_padded], with the wire format [wire] they are checked
    against and the polynomial reference of the checksum. *)
From S2P Require Import Prelude Errors Gf2.

Definition PROTO_VERSION : Z := 1.
Definition CMD_INFO : Z := 0x01.
Definition CMD_ERASE_APP : Z := 0x02.
Definition CMD_WRITE_PAGE : Z := 0x03.
Definition CMD_VERIFY : Z := 0x04.
Definition CMD_BOOT : Z := 0x05.
Definition CMD_ECHO : Z := 0x06.
Definition RSP_FLAG : Z := 0x80.

Definition ST_OK : Z := 0x00.
Definition ST_BAD_FRAME : Z := 0x01.
Definition ST_BAD_CMD : Z := 0x02.
Definition ST_NOT_ERASED : Z := 0x03.
Definition ST_OUT_OF_RANGE : Z := 0x04.
Definition ST_BAD_CRC : Z := 0x05.
Definition ST_BAD_MAGIC : Z := 0x06.
Definition ST_NO_APP : Z := 0x07.

Definition ECHO_MAX : Z := 16.
Definition FRAME_OVERHEAD : Z := 3.
Definition PAYLOAD_MAX : Z := 255 - FRAME_OVERHEAD.
(** [*b"ERAS"] *)
Definition ERASE_MAGIC : list Z := [0x45; 0x52; 0x41; 0x53].

Definition st_name (st : Z) : string :=
  if st =? ST_OK then "OK"
  else if st =? ST_BAD_FRAME then "BAD_FRAME: device saw a malformed frame"
  else if st =? ST_BAD_CMD then "BAD_CMD: unknown command"
  else if st =? ST_NOT_ERASED then "NOT_ERASED: write before erase"
  else if st =? ST_OUT_OF_RANGE then "OUT_OF_RANGE: page or length outside the app region"
  else if st =? ST_BAD_CRC then "BAD_CRC: image CRC mismatch"
  else if st =? ST_BAD_MAGIC then "BAD_MAGIC: missing or wrong erase magic"
  else if st =? ST_NO_APP then "NO_APP: no valid application present"
  else "unknown status".

(** A decoded frame; the payload is borrowed from the input in the source. *)
Record Frame := mkFrame { frame_cmd : Z; frame_payload : list Z }.

#[global] Instance Frame_eq_dec : EqDecision Frame.
Proof. solve_decision. Defined.

(** ** CRC-8 *)

(** One iteration of the [while bit < 8] loop. *)
Definition crc8_bit (crc : Z) : Z :=
  if negb (Z.land crc 0x80 =? 0)
  then Z.lxor (u8_wrapping_shl crc 1) 0x07
  else u8_wrapping_shl crc 1.

Definition crc8_step (crc byte : Z) : Z := Nat.iter 8 crc8_bit (Z.lxor crc byte).

Definition crc8 (data : list Z) : Z := fold_left crc8_step data 0.

(** ** The codec *)
Section codec.
Context `{PtrWidth}.

(** Returns the outcome and the buffer [out] as it is left. *)
Definition encode (cmd : Z) (payload out : list Z) : result Z Error.pure * list Z :=
  let n := len payload in
  match u8_try_from n with
  | None => (Err (Error.PayloadTooLarge n), out)
  | Some len_byte =>
    if PAYLOAD_MAX <? n then (Err (Error.PayloadTooLarge n), out) else
    let total := usize_wrapping_add n FRAME_OVERHEAD in
    match get_to total out with
    | None => (Err (Error.BufferTooSmall total), out)
    | Some frame =>
      match split_at_checked 2 frame with
      | None => (Err (Error.BufferTooSmall total), out)
      | Some (_, rest) =>
        let out1 := overwrite 0 [cmd; len_byte] out in
        match split_at_checked n rest with
        | None => (Err (Error.BufferTooSmall total), out1)
        | Some (_, tail) =>
          let out2 := overwrite 2 payload out1 in
          let crc := fold_left crc8_step payload (crc8_step (crc8_step 0 cmd) len_byte) in
          match tail with
          | [] => (Err (Error.BufferTooSmall total), out2)
          | _ :: _ => (Ok total, overwrite (2 + n) [crc] out2)
          end
        end
      end
    end
  end.

Definition decode (raw : list Z) : result Frame Error.pure :=
  match raw with
  | cmd :: len_byte :: rest =>
    if (PAYLOAD_MAX <? len_byte) || negb (len rest =? usize_wrapping_add len_byte 1)
    then Err Error.BadFrame
    else match split_last rest with
         | None => Err Error.BadFrame
         | Some (crc_wire, payload) =>
           let crc := fold_left crc8_step payload (crc8_step (crc8_step 0 cmd) len_byte) in
           if negb (crc =? crc_wire) then Err Error.BadFrame
           else Ok (mkFrame cmd payload)
         end
  | _ => Err Error.BadFrame
  end.

Definition decode_padded (raw : list Z) : result Frame Error.pure :=
  match get_at 1 raw with
  | None => Err Error.BadFrame
  | Some len_byte =>
    let total := usize_wrapping_add len_byte FRAME_OVERHEAD in
    match get_to total raw with
    | None => Err Error.BadFrame
    | Some frame_bytes =>
      let filler_ok :=
        match get_from total raw with Some tail => all_eq 0xFF tail | None => false end in
      if negb filler_ok then Err Error.BadFrame else decode frame_bytes
    end
  end.

End codec.

(** ** The specification: the bytes of a frame on the wire *)
Definition wire (cmd : Z) (payload : list Z) : list Z :=
  cmd :: len payload :: payload ++ [crc8 (cmd :: len payload :: payload)].

#[global] Arguments crc8 : simpl never.
(** ** The bitwise CRC step *)
Definition CRC8_POLY : Z := 0x107.

Lemma crc8_bit_spec x : is_u8 x ->
  crc8_bit x = Z.lxor (2 * x) (if 128 <=? x then CRC8_POLY else 0).
Proof. intros. apply Z.eqb_eq. revert x H. by apply forall_u8. Qed.
Lemma crc8_bit_u8 x : is_u8 x -> is_u8 (crc8_bit x).
Proof.
  intros. rewrite <- Z.leb_le, <- Z.ltb_lt, <- andb_true_iff.
  revert x H. by apply forall_u8.
Qed.

Lemma lxor_u8 a b : is_u8 a -> is_u8 b -> is_u8 (Z.lxor a b).
Proof. by apply lxor_bound. Qed.

Lemma crc8_iter_u8 n x : is_u8 x -> is_u8 (Nat.iter n crc8_bit x).
Proof. intros. induction n; [done|]. by apply crc8_bit_u8. Qed.

Lemma crc8_step_u8 crc b : is_u8 crc -> is_u8 b -> is_u8 (crc8_step crc b).
Proof. intros. apply crc8_iter_u8. by apply lxor_u8. Qed.

Lemma crc8_fold_u8 l crc : is_u8 crc -> bytes l -> is_u8 (fold_left crc8_step l crc).
Proof.
  revert crc. induction l as [|b l IH]; intros crc Hc Hl; [done|]; simpl.
  apply bytes_cons in Hl as [??]. apply IH; [by apply crc8_step_u8|done].
Qed.

Lemma crc8_u8 l : bytes l -> is_u8 (crc8 l).
Proof. apply crc8_fold_u8. done. Qed.
#[export] Hint Resolve crc8_u8 crc8_step_u8 lxor_u8 : ota.

(** ** The checksum is the remainder modulo the generator *)

(** [n] iterations subtract a multiple of the generator from [x * 2^n]. *)
Lemma crc8_iter_multiple n x : is_u8 x ->
  multiple CRC8_POLY (Z.lxor (2 ^ Z.of_nat n * x) (Nat.iter n crc8_bit x)).
Proof.
  intros Hx. induction n as [|n IH].
  - rewrite Z.mul_1_l, Z.lxor_nilpotent. constructor.
  - change (Nat.iter (S n) crc8_bit x) with (crc8_bit (Nat.iter n crc8_bit x)).
    rewrite crc8_bit_spec by (by apply crc8_iter_u8).
    rewrite Nat2Z.inj_succ, Z.pow_succ_r, <- Z.mul_assoc, <- Z.lxor_assoc, lxor_double by lia.
    apply multiple_lxor; [by constructor|].
    destruct (128 <=? _); [apply multiple_self|constructor].
Qed.

Lemma crc8_step_multiple crc b : is_u8 crc -> is_u8 b ->
  multiple CRC8_POLY (Z.lxor (2 ^ 8 * Z.lxor crc b) (crc8_step crc b)).
Proof. intros. apply (crc8_iter_multiple 8). by apply lxor_u8. Qed.

Lemma poly_snoc_lxor l b : is_u8 b -> poly (l ++ [b]) = Z.lxor (2 ^ 8 * poly l) b.
Proof. intros. rewrite poly_snoc. by apply (add_shift_lxor _ _ 8). Qed.

Lemma crc8_multiple l : bytes l -> multiple CRC8_POLY (poly (l ++ [crc8 l])).
Proof.
  induction l as [|b l IH] using rev_ind; intros Hl; [constructor|].
  apply bytes_snoc in Hl as [Hl Hb].
  specialize (IH Hl). pose proof (crc8_u8 l Hl) as Hc.
  rewrite poly_snoc_lxor in IH by done.
  assert (crc8 (l ++ [b]) = crc8_step (crc8 l) b) as Hs
    by (unfold crc8; by rewrite fold_left_app).
  rewrite Hs, !poly_snoc_lxor by auto with ota.
  pose proof (crc8_step_multiple (crc8 l) b Hc Hb) as Hm.
  apply (multiple_shift _ 8) in IH; [|lia].
  pose proof (multiple_lxor _ _ _ IH Hm) as Hx.
  rewrite !mul_pow2_lxor in Hx by lia. rewrite mul_pow2_lxor by lia.
  set (p := 2 ^ 8 * (2 ^ 8 * poly l)) in *. set (c := 2 ^ 8 * crc8 l) in *.
  replace (Z.lxor (Z.lxor p (2 ^ 8 * b)) (crc8_step (crc8 l) b))
    with (Z.lxor (Z.lxor p c) (Z.lxor (Z.lxor c (2 ^ 8 * b)) (crc8_step (crc8 l) b))); [done|].
  xor_bits.
Qed.

(** ** CRC-8 is injective in the register and in every byte *)
Definition crc8_unbit (y : Z) : Z :=
  if Z.odd y then Z.lxor y CRC8_POLY / 2 else y / 2.

Lemma crc8_unbit_bit x : is_u8 x -> crc8_unbit (crc8_bit x) = x.
Proof. intros. apply Z.eqb_eq. revert x H. by apply forall_u8. Qed.

Lemma crc8_iter_inj n x y : is_u8 x -> is_u8 y ->
  Nat.iter n crc8_bit x = Nat.iter n crc8_bit y -> x = y.
Proof.
  intros Hx Hy. induction n as [|n IH]; [done|]. intros Heq. apply IH.
  rewrite <- (crc8_unbit_bit (Nat.iter n crc8_bit x)), <- (crc8_unbit_bit (Nat.iter n crc8_bit y))
    by (by apply crc8_iter_u8).
  by apply (f_equal crc8_unbit) in Heq.
Qed.

Lemma crc8_step_inj_reg crc crc' b : is_u8 crc -> is_u8 crc' -> is_u8 b ->
  crc8_step crc b = crc8_step crc' b -> crc = crc'.
Proof.
  intros ??? H%crc8_iter_inj; [|auto with ota..].
  rewrite !(Z.lxor_comm _ b) in H. by apply lxor_cancel_l in H.
Qed.
Lemma crc8_step_inj_byte crc b b' : is_u8 crc -> is_u8 b -> is_u8 b' ->
  crc8_step crc b = crc8_step crc b' -> b = b'.
Proof. intros ??? H%crc8_iter_inj; [|auto with ota..]. by apply lxor_cancel_l in H. Qed.

Lemma crc8_fold_inj l crc crc' : bytes l -> is_u8 crc -> is_u8 crc' ->
  fold_left crc8_step l crc = fold_left crc8_step l crc' -> crc = crc'.
Proof.
  revert crc crc'. induction l as [|b l IH]; simpl; intros crc crc' Hl ???; [done|].
  apply bytes_cons in Hl as [??].
  apply (crc8_step_inj_reg _ _ b); [done..|]. apply IH; auto with ota.
Qed.

(** Changing one byte of a message changes its checksum. *)
Lemma crc8_insert_ne l i x y : bytes l -> is_u8 x -> l !! i = Some y -> x <> y ->
  crc8 (<[i:=x]> l) <> crc8 l.
Proof.
  intros Hl Hx Hi Hne Heq. pose proof (lookup_lt_Some _ _ _ Hi).
  rewrite <- (take_drop_middle l i y Hi) in Heq at 2.
  rewrite insert_take_drop in Heq by done.
  unfold crc8 in Heq. rewrite !fold_left_app in Heq; simpl in Heq.
  pose proof (bytes_lookup _ _ _ Hl Hi).
  assert (is_u8 (fold_left crc8_step (take i l) 0)) by (apply crc8_fold_u8; [done|auto with ota]).
  apply crc8_fold_inj in Heq; [|auto with ota..].
  by apply crc8_step_inj_byte in Heq.
Qed.

(** ** The codec against the wire format *)
Lemma len_wire cmd payload : len (wire cmd payload) = len payload + 3.
Proof. unfold wire. lens. Qed.
Lemma wire_bytes cmd payload :
  is_u8 cmd -> bytes payload -> len payload <= 255 -> bytes (wire cmd payload).
Proof.
  intros Hc Hp Hl. pose proof (len_nonneg payload).
  assert (bytes (cmd :: len payload :: payload)).
  { rewrite !bytes_cons. split_and!; try done; lia. }
  unfold wire. rewrite !bytes_cons, bytes_snoc.
  split_and!; [lia..|done|by apply crc8_u8|by apply crc8_u8].
Qed.
#[export] Hint Rewrite len_wire : lens.

(** The checksum the code folds in three pieces is [crc8] of the header and
    payload. *)
Lemma crc8_header_fold cmd n payload :
  fold_left crc8_step payload (crc8_step (crc8_step 0 cmd) n) = crc8 (cmd :: n :: payload).
Proof. done. Qed.

Section codec_proofs.
Context `{PtrWidth}.
Implicit Types raw payload out : list Z.

Lemma encode_ok cmd payload out :
  len payload <= PAYLOAD_MAX -> len payload + 3 <= len out ->
  encode cmd payload out =
    (Ok (len payload + 3), wire cmd payload ++ drop (length (wire cmd payload)) out).
Proof.
  intros Hp Ho. usize_bounds. pose proof (len_nonneg payload).
  unfold PAYLOAD_MAX, FRAME_OVERHEAD in *.
  unfold encode, u8_try_from, PAYLOAD_MAX, FRAME_OVERHEAD. zcases.
  rewrite usize_add_small by lia.
  rewrite get_to_Some by lia.
  rewrite !split_at_checked_Some by lens.
  destruct (drop (Z.to_nat (len payload)) _) as [|x tail] eqn:Htail.
  { apply (f_equal len) in Htail. lens. }
  f_equal. rewrite !(overwrite_adjacent 0) by lens.
  rewrite overwrite_0, crc8_header_fold. done.
Qed.

Lemma decode_wire cmd payload :
  len payload <= PAYLOAD_MAX -> decode (wire cmd payload) = Ok (mkFrame cmd payload).
Proof.
  intros Hp. usize_bounds. pose proof (len_nonneg payload).
  unfold PAYLOAD_MAX, FRAME_OVERHEAD in *.
  unfold decode, wire, PAYLOAD_MAX, FRAME_OVERHEAD. rewrite usize_add_small by lia.
  rewrite len_app, len_cons, len_nil. zcases.
  rewrite split_last_snoc, crc8_header_fold. by zcases.
Qed.

Lemma decode_ok_inv raw f : bytes raw -> decode raw = Ok f ->
  raw = wire (frame_cmd f) (frame_payload f) /\ len (frame_payload f) <= PAYLOAD_MAX.
Proof.
  intros Hraw. usize_bounds. unfold decode.
  destruct raw as [|cmd [|n rest]]; [done..|].
  rewrite !bytes_cons in Hraw; destruct Hraw as (Hcmd & Hn & Hrest).
  unfold PAYLOAD_MAX, FRAME_OVERHEAD in *.
  rewrite usize_add_small by lia. zcase; [done|]; simpl. zcase; [|done]; simpl.
  destruct (split_last rest) as [[c payload]|] eqn:Hs; [|done].
  apply split_last_Some in Hs as ->.
  zcase; [|done]. intros [= <-]; simpl. rewrite crc8_header_fold in *.
  rewrite len_app, len_cons, len_nil in *. subst c. unfold wire.
  replace (len payload) with n by lia. split; [done|lia].
Qed.

Lemma decode_len raw f : decode raw = Ok f -> 3 <= len raw.
Proof.
  unfold decode. destruct raw as [|cmd [|n rest]]; [done..|].
  destruct rest as [|c rest]; [|intros _; lens].
  by repeat case_match.
Qed.

Lemma decode_err raw e : decode raw = Err e -> e = Error.BadFrame.
Proof. unfold decode. repeat case_match; congruence. Qed.

Lemma decode_padded_ok_inv raw f : bytes raw -> decode_padded raw = Ok f ->
  exists k, raw = wire (frame_cmd f) (frame_payload f) ++ replicate k 0xFF
            /\ len (frame_payload f) <= PAYLOAD_MAX.
Proof.
  intros Hraw. usize_bounds. unfold decode_padded, get_at.
  destruct (raw !! Z.to_nat 1) as [n|] eqn:Hn; [|done].
  pose proof (bytes_lookup _ _ _ Hraw Hn).
  unfold FRAME_OVERHEAD. rewrite usize_add_small by lia.
  unfold get_to, get_from. zcase; [|done].
  destruct (all_eq 255 _) eqn:Hpad; [|done]. intros Hd.
  apply decode_ok_inv in Hd as [Hd Hp]; [|auto with ota].
  apply all_eq_spec in Hpad. rewrite <- Hd. eexists. split; [|done].
  rewrite <- Hpad. by rewrite take_drop.
Qed.

Lemma get_to_wire cmd payload more : get_to (len payload + 3) (wire cmd payload ++ more) = Some (wire cmd payload).
Proof. rewrite <- (len_wire cmd payload). apply get_to_app. Qed.

Lemma decode_padded_wire cmd payload k :
  len payload <= PAYLOAD_MAX ->
  decode_padded (wire cmd payload ++ replicate k 0xFF) = Ok (mkFrame cmd payload).
Proof.
  intros Hp. usize_bounds. pose proof (len_nonneg payload).
  assert (len payload <= 252) by done.
  unfold decode_padded, get_at. change ((wire cmd payload ++ replicate k 255) !! Z.to_nat 1)
    with (Some (len payload)). cbv iota beta.
  unfold FRAME_OVERHEAD. rewrite usize_add_small by lia.
  rewrite <- (len_wire cmd payload), get_to_app, get_from_Some by lens.
  rewrite to_nat_len, drop_app_length, all_eq_replicate. simpl. by apply decode_wire.
Qed.

Lemma decode_padded_err raw e : decode_padded raw = Err e -> e = Error.BadFrame.
Proof. unfold decode_padded. repeat case_match; try congruence; apply decode_err. Qed.

(** One wrong byte and the frame is refused. *)
Lemma decode_byte_error raw i x y f :
  bytes raw -> decode raw = Ok f -> raw !! i = Some y -> is_u8 x -> x <> y ->
  decode (<[i:=x]> raw) = Err Error.BadFrame.
Proof.
  intros Hraw Hd Hi Hx Hne.
  destruct (decode (<[i:=x]> raw)) as [g|e] eqn:Hd'; [|f_equal; by eapply decode_err].
  exfalso. assert (bytes (<[i:=x]> raw)) as Hraw' by (by apply Forall_insert).
  apply decode_ok_inv in Hd as [-> Hp]; [|done].
  destruct f as [c p], g as [c' p']; simpl in *.
  apply decode_ok_inv in Hd' as [Hw Hp']; [|done]; simpl in *.
  assert (len p = len p') as Hl.
  { pose proof (f_equal length Hw) as Hlen. rewrite length_insert in Hlen.
    pose proof (len_wire c p). pose proof (len_wire c' p'). unfold len in *. lia. }
  assert (wire c p = (c :: len p :: p) ++ [crc8 (c :: len p :: p)]) as E by done.
  assert (wire c' p' = (c' :: len p' :: p') ++ [crc8 (c' :: len p' :: p')]) as E' by done.
  rewrite E in Hraw, Hw, Hi. rewrite E' in Hw. apply bytes_snoc in Hraw as [Hraw _].
  destruct (decide (i < length (c :: len p :: p))%nat) as [Hlt|Hge].
  - rewrite lookup_app_l in Hi by done. rewrite insert_app_l in Hw by done.
    apply app_inj_2 in Hw as [Hw [= Hcrc]]; [|done].
    rewrite <- Hw in Hcrc. by apply (crc8_insert_ne _ i x y Hraw Hx Hi).
  - replace i with (length (c :: len p :: p) + 0)%nat in *.
    2: { apply lookup_lt_Some in Hi. rewrite length_app in Hi. simpl in *. lia. }
    rewrite lookup_app_r, Nat.add_sub_swap, Nat.sub_diag in Hi by lia. injection Hi as Hi.
    rewrite insert_app_r in Hw. apply app_inj_2 in Hw as [Hw [= Hcrc]]; [|done].
    rewrite <- Hw in Hcrc. congruence.
Qed.

(** [decode] is [decode_padded] on what it accepts. *)
Lemma decode_padded_of_decode raw f :
  bytes raw -> decode raw = Ok f -> decode_padded raw = Ok f.
Proof.
  intros Hraw Hd. apply decode_ok_inv in Hd as [-> Hp]; [|done].
  rewrite <- (app_nil_r (wire _ _)), (decode_padded_wire _ _ 0) by done. by destruct f.
Qed.

End codec_proofs.
#[export] Hint Resolve wire_bytes : ota.

(** ** Properties *)
Section properties.
Context `{PtrWidth}.

(** [encode] on every branch. A payload above 252 bytes and an output
    buffer below [len + 3] bytes are refused with the exact figures and leave
    the buffer as it was; otherwise exactly the [len + 3] bytes of the wire
    frame are written to its front and the rest is untouched. *)
Theorem encode_correct cmd payload out :
  encode cmd payload out =
    if PAYLOAD_MAX <? len payload then (Err (Error.PayloadTooLarge (len payload)), out)
    else if len out <? len payload + 3
    then (Err (Error.BufferTooSmall (len payload + 3)), out)
    else (Ok (len payload + 3), wire cmd payload ++ drop (length (wire cmd payload)) out).
Proof.
  zcase; [|zcase].
  - unfold encode, u8_try_from. zcase; [|done]. by zcases.
  - usize_bounds. pose proof (len_nonneg payload).
    unfold encode, u8_try_from, PAYLOAD_MAX, FRAME_OVERHEAD in *. zcases.
    rewrite usize_add_small, get_to_None by lia. done.
  - by apply encode_ok.
Qed.

(** Whatever [encode] writes, [decode] reads back: the frame is the first
    [n] bytes of the buffer, it decodes to the command and payload given, and
    the bytes from [n] on are those of the buffer before the call. *)
Theorem encode_decode_roundtrip cmd payload out n out' :
  encode cmd payload out = (Ok n, out') ->
  exists frame, get_to n out' = Some frame
    /\ decode frame = Ok (mkFrame cmd payload)
    /\ get_from n out' = get_from n out /\ len out' = len out.
Proof.
  destruct (Z.le_gt_cases (len payload) PAYLOAD_MAX) as [Hp|Hp].
  2: { unfold encode. repeat case_match; intros; simplify_eq; lia. }
  destruct (Z.le_gt_cases (len payload + 3) (len out)) as [Ho|Ho].
  2: { usize_bounds. pose proof (len_nonneg payload).
       unfold encode, u8_try_from, PAYLOAD_MAX, FRAME_OVERHEAD in *. zcases.
       by rewrite usize_add_small, get_to_None by lia. }
  rewrite encode_ok by done. intros [<- <-]%ok_pair_inv.
  exists (wire cmd payload). rewrite <- (len_wire cmd payload) in Ho |- *.
  rewrite get_to_app, !get_from_Some, to_nat_len, drop_app_length by lens.
  split_and!; [done|by apply decode_wire|done|].
  rewrite <- to_nat_len. lens.
Qed.

(** C16: [decode] accepts exactly the wire frames of at most 252 payload bytes,
    and every other byte string is refused as [BadFrame]. *)
Theorem decode_accepts_exactly_wire raw : bytes raw ->
  (forall cmd payload, decode raw = Ok (mkFrame cmd payload)
     <-> raw = wire cmd payload /\ len payload <= PAYLOAD_MAX)
  /\ ((forall cmd payload, len payload <= PAYLOAD_MAX -> raw <> wire cmd payload)
      -> decode raw = Err Error.BadFrame).
Proof.
  intros Hraw. split.
  - intros cmd payload. split.
    + intros Hd. by apply decode_ok_inv in Hd.
    + intros [-> Hp]. by apply decode_wire.
  - intros Hno. destruct (decode raw) as [f|e] eqn:Hd; [|f_equal; by eapply decode_err].
    apply decode_ok_inv in Hd as [Hd Hp]; [|done]. destruct (Hno _ _ Hp Hd).
Qed.

(** C18: [decode_padded] accepts exactly a wire frame followed by any number of
    [0xFF] filler bytes, even when the payload or the checksum itself ends in
    [0xFF], and refuses everything else as [BadFrame]. *)
Theorem decode_padded_accepts_exactly raw : bytes raw ->
  (forall cmd payload, decode_padded raw = Ok (mkFrame cmd payload)
     <-> exists k, raw = wire cmd payload ++ replicate k 0xFF /\ len payload <= PAYLOAD_MAX)
  /\ (forall e, decode_padded raw = Err e -> e = Error.BadFrame).
Proof.
  intros Hraw. split; [|apply decode_padded_err]. intros cmd payload. split.
  - intros Hd. by apply decode_padded_ok_inv in Hd.
  - intros (k & -> & Hp). by apply decode_padded_wire.
Qed.

(** A frame in which one byte was changed, whichever one, is never
    accepted. *)
Theorem decode_detects_byte_error raw i x y f :
  bytes raw -> decode raw = Ok f -> raw !! i = Some y -> is_u8 x -> x <> y ->
  decode (<[i:=x]> raw) = Err Error.BadFrame.
Proof. apply decode_byte_error. Qed.

End properties.

Lemma encode_decode_roundtrip_witness :
  let out := [9; 9; 9; 9; 9; 9] in
  encode CMD_ECHO [0xAA; 0xBB] out = (Ok 5, [6; 2; 0xAA; 0xBB; 0x10; 9])
  /\ exists frame, get_to 5 [6; 2; 0xAA; 0xBB; 0x10; 9] = Some frame
    /\ decode frame = Ok (mkFrame CMD_ECHO [0xAA; 0xBB])
    /\ get_from 5 [6; 2; 0xAA; 0xBB; 0x10; 9] = get_from 5 out
    /\ len [6; 2; 0xAA; 0xBB; 0x10; 9] = len out.
Proof.
  assert (encode CMD_ECHO [0xAA; 0xBB] [9; 9; 9; 9; 9; 9]
    = (Ok 5, [6; 2; 0xAA; 0xBB; 0x10; 9])) as He.
  { rewrite encode_ok; [reflexivity|by vm_compute|by vm_compute]. }
  split; [exact He|]. exact (encode_decode_roundtrip _ _ _ _ _ He).
Defined.

Lemma decode_accepts_exactly_wire_witness :
  decode [6; 2; 0xAA; 0xBB; 0x10] = Ok (mkFrame CMD_ECHO [0xAA; 0xBB]).
Proof.
  apply (proj1 (decode_accepts_exactly_wire [6; 2; 0xAA; 0xBB; 0x10]
    ltac:(repeat constructor; lia)) 6 [0xAA; 0xBB]).
  by vm_compute.
Defined.

Lemma decode_padded_accepts_exactly_witness :
  decode_padded [6; 2; 0xFF; 0xEC; 0xFF; 0xFF; 0xFF] = Ok (mkFrame CMD_ECHO [0xFF; 0xEC]).
Proof.
  apply (proj1 (decode_padded_accepts_exactly [6; 2; 0xFF; 0xEC; 0xFF; 0xFF; 0xFF]
    ltac:(repeat constructor; lia)) 6 [0xFF; 0xEC]).
  exists 2%nat. by split; vm_compute.
Defined.

Lemma decode_detects_byte_error_witness :
  decode [6; 3; 0xAA; 0xBB; 0x10] = Err Error.BadFrame.
Proof.
  apply (decode_detects_byte_error [6; 2; 0xAA; 0xBB; 0x10] 1 3 2 (mkFrame 6 [0xAA; 0xBB]));
    [repeat constructor; lia | exact (decode_wire 6 [0xAA; 0xBB] ltac:(by vm_compute))
    | reflexivity | lia | lia].
Defined.

(** The bitwise routine computes the CRC it documents: the checksum is the
    one byte that, appended to the message, makes the whole string a multiple
    of the generator x^8 + x^2 + x + 1 over GF(2). *)
Theorem crc8_is_remainder data : bytes data ->
  is_u8 (crc8 data)
  /\ forall c, is_u8 c -> (multiple CRC8_POLY (poly (data ++ [c])) <-> c = crc8 data).
Proof.
  intros Hd. pose proof (crc8_u8 _ Hd). pose proof (crc8_multiple _ Hd) as Hm.
  split; [done|]. intros c Hc. split; [|by intros ->]. intros Hc'.
  pose proof (multiple_lxor _ _ _ Hc' Hm) as Hx.
  rewrite !poly_snoc_lxor in Hx by done.
  replace (Z.lxor _ _) with (Z.lxor c (crc8 data)) in Hx by xor_bits.
  pose proof (lxor_u8 c (crc8 data) ltac:(done) ltac:(done)).
  apply (multiple_degree _ 8) in Hx; [|unfold CRC8_POLY; lia..].
  destruct Hx as [Hx|Hx]; [by apply Z.lxor_eq in Hx | lia].
Qed.

Lemma crc8_is_remainder_witness :
  multiple CRC8_POLY (poly ([0x31; 0x32; 0x33; 0x34; 0x35; 0x36; 0x37; 0x38; 0x39] ++ [0xF4])).
Proof.
  apply (proj2 (crc8_is_remainder [0x31; 0x32; 0x33; 0x34; 0x35; 0x36; 0x37; 0x38; 0x39]
    ltac:(repeat constructor; lia)) 0xF4 ltac:(lia)).
  by vm_compute.
Defined.
