(* ===== verification/Image.v ===== *)
(** Application images ([updater-core/src/image.rs]): CRC-32, geometry
    validation, the footer, page rendering and the iteration over the pages an
    update must write, checked against the flash region [region] the image
    stands for. *)
From S2P Require Import Prelude Errors Gf2 Frame.

Definition FOOTER_LEN : Z := 16.
(** [*b"OTAU"] *)
Definition FOOTER_MAGIC : list Z := [0x4F; 0x54; 0x41; 0x55].
Definition PAGE_SIZE_MAX : Z := PAYLOAD_MAX - 2.

(** ** CRC-32 *)

(** One iteration of the inner [for _ in 0..8u8] loop. *)
Definition crc32_bit (crc : Z) : Z :=
  if negb (Z.land crc 1 =? 0) then Z.lxor (Z.shiftr crc 1) 0xEDB88320 else Z.shiftr crc 1.

Definition crc32_byte (crc byte : Z) : Z := Nat.iter 8 crc32_bit (Z.lxor crc byte).

Definition crc32 (data : list Z) : Z :=
  Z.lxor (fold_left crc32_byte data 0xFFFFFFFF) 0xFFFFFFFF.

(** ** Images *)
Record Image := mkImage {
  img_data : list Z;
  img_page_size : Z;
  img_app_pages : Z;
  img_len : Z;
  img_crc : Z;
}.

Definition is_empty (img : Image) : bool := len (img_data img) =? 0.

Definition footer_page_index (img : Image) : Z := u16_wrapping_sub (img_app_pages img) 1.

Definition footer (img : Image) : list Z :=
  FOOTER_MAGIC ++ u32_to_le_bytes (img_len img) ++ u32_to_le_bytes (img_crc img)
  ++ [0xFF; 0xFF; 0xFF; 0xFF].

(** [for (dst, src) in dst.iter_mut().zip(src) { *dst = src }] *)
Definition zip_write (dst src : list Z) : list Z :=
  take (length dst) src ++ drop (length src) dst.

Section image.
Context `{PtrWidth}.

Definition from_bin (data : list Z) (page_size app_pages : Z) : result Image Error.pure :=
  let bad_geometry := Error.BadGeometry page_size app_pages in
  let ps := page_size in
  if (app_pages =? 0) || negb ((FOOTER_LEN <=? ps) && (ps <=? PAGE_SIZE_MAX))
  then Err bad_geometry
  else match usize_checked_mul ps app_pages with
       | None => Err bad_geometry
       | Some region =>
         match usize_checked_sub region FOOTER_LEN with
         | None => Err bad_geometry
         | Some capacity =>
           if capacity <? len data then Err (Error.ImageTooLarge (len data) capacity)
           else match u32_try_from (len data) with
                | None => Err (Error.ImageTooLarge (len data) capacity)
                | Some n => Ok (mkImage data page_size app_pages n (crc32 data))
                end
         end
       end.

(** Returns the outcome and the buffer [out] as it is left. The payload bytes
    are chained with an endless supply of [0xFF]: as many as the page can
    take. *)
Definition page_into (img : Image) (index : Z) (out : list Z)
  : result unit Error.pure * list Z :=
  if img_app_pages img <=? index then (Err (Error.PageOutOfRange index), out) else
  let ps := img_page_size img in
  match get_to ps out with
  | None => (Err (Error.BufferTooSmall ps), out)
  | Some page =>
    let start := usize_wrapping_mul index ps in
    let payload_tail := default [] (get_from start (img_data img)) in
    let page := zip_write page (payload_tail ++ replicate (length page) 0xFF) in
    let page :=
      if index =? footer_page_index img then
        let offset := usize_wrapping_sub ps FOOTER_LEN in
        take (Z.to_nat offset) page ++ zip_write (drop (Z.to_nat offset) page) (footer img)
      else page in
    (Ok tt, page ++ drop (Z.to_nat ps) out)
  end.

Definition must_write (img : Image) (index : Z) : bool :=
  if index =? footer_page_index img then true else
  let ps := img_page_size img in
  let start := usize_wrapping_mul index ps in
  let stop := Z.min (usize_wrapping_add start ps) (len (img_data img)) in
  match get_range start stop (img_data img) with
  | Some window => any_ne 0xFF window
  | None => false
  end.

(** ** The page iterator *)
Record Pages := mkPages { pg_img : Image; pg_cursor : Z }.

Definition pages (img : Image) : Pages := mkPages img 0.

(** The [while] loop of [Pages::next]; one unit of fuel per cursor value. *)
Fixpoint next_loop (fuel : nat) (img : Image) (cursor : Z) : option Z * Z :=
  match fuel with
  | O => (None, cursor)
  | S fuel =>
    if cursor <? img_app_pages img then
      match u16_try_from cursor with
      | None => (None, cursor)
      | Some index =>
        let cursor := u32_wrapping_add cursor 1 in
        if must_write img index then (Some index, cursor) else next_loop fuel img cursor
      end
    else (None, cursor)
  end.

Definition next (p : Pages) : option Z * Pages :=
  let '(r, cursor) :=
    next_loop (S (Z.to_nat (img_app_pages (pg_img p) - pg_cursor p))) (pg_img p) (pg_cursor p) in
  (r, mkPages (pg_img p) cursor).

(** What a [for] loop over the iterator sees: [next] until it returns [None]. *)
Fixpoint drain (fuel : nat) (p : Pages) : list Z :=
  match fuel with
  | O => []
  | S fuel =>
    match next p with
    | (None, _) => []
    | (Some index, p') => index :: drain fuel p'
    end
  end.

Definition pages_list (p : Pages) : list Z :=
  drain (S (Z.to_nat (img_app_pages (pg_img p) - pg_cursor p))) p.

Definition size_hint (p : Pages) : Z * option Z :=
  let remaining := u32_saturating_sub (img_app_pages (pg_img p)) (pg_cursor p) in
  (if 0 <? remaining then 1 else 0, usize_try_from remaining).

(** ** Specification *)

(** What [from_bin] validates. *)
Record image_wf (img : Image) : Prop := {
  wf_pages : 1 <= img_app_pages img < 2 ^ 16;
  wf_page_size : FOOTER_LEN <= img_page_size img <= PAGE_SIZE_MAX;
  wf_region : img_page_size img * img_app_pages img <= usize_max;
  wf_fits : len (img_data img) <= img_page_size img * img_app_pages img - FOOTER_LEN;
  wf_len : img_len img = len (img_data img);
  wf_crc : img_crc img = crc32 (img_data img);
  wf_bytes : bytes (img_data img);
}.

End image.

(** The contents of the whole app region once the image is flashed: the
    payload, erased flash, and the footer in the last 16 bytes. *)
Definition region (img : Image) : list Z :=
  img_data img
  ++ replicate (Z.to_nat (img_page_size img * img_app_pages img - FOOTER_LEN - len (img_data img))) 0xFF
  ++ footer img.

(** Page [i] of a region in pages of [ps] bytes. *)
Definition page_of (ps : Z) (r : list Z) (i : Z) : list Z :=
  take (Z.to_nat ps) (drop (Z.to_nat (i * ps)) r).

(** Erased flash of [n] bytes, and the effect of writing one page. *)
Definition erased (n : Z) : list Z := replicate (Z.to_nat n) 0xFF.
Definition write_at (ps : Z) (flash : list Z) (i : Z) (page : list Z) : list Z :=
  overwrite (i * ps) page flash.
Example crc32_check : crc32 [0x31; 0x32; 0x33; 0x34; 0x35; 0x36; 0x37; 0x38; 0x39] = 0xCBF43926.
Proof. vm_compute. reflexivity. Qed.

#[global] Arguments region : simpl never.
#[global] Arguments footer : simpl never.
#[global] Arguments crc32 : simpl never.
#[global] Arguments page_of : simpl never.

(** ** Lists in pages *)
Lemma zip_write_full dst src : (length dst <= length src)%nat ->
  zip_write dst src = take (length dst) src.
Proof. intros. unfold zip_write. by rewrite (drop_ge dst), app_nil_r by lia. Qed.

(** A window of padded data is the padded window of the data. *)
Lemma pad_window (d : list Z) s n m k x : (n <= m)%nat -> (s + n <= length d + k)%nat ->
  take n (drop s (d ++ replicate k x)) = take n (drop s d ++ replicate m x).
Proof.
  intros. rewrite drop_app, drop_replicate, !take_app, !take_replicate.
  f_equal. f_equal. rewrite length_drop. lia.
Qed.

Lemma page_of_length ps r i : 0 <= ps -> 0 <= i -> (i + 1) * ps <= len r ->
  len (page_of ps r i) = ps.
Proof. intros. unfold page_of. rewrite len_take, len_drop. nia. Qed.

(** A region is determined by its pages. *)
Lemma pages_ext ps n r r' : 0 < ps -> 0 <= n -> len r = ps * n -> len r' = ps * n ->
  (forall i, 0 <= i < n -> page_of ps r i = page_of ps r' i) -> r = r'.
Proof.
  intros Hps Hn Hr Hr' Hp. apply list_eq_same_length with (length r); [unfold len in *; lia|done|].
  intros j x y Hj Hx Hy. pose proof (Z.div_mod (Z.of_nat j) ps ltac:(lia)) as Hdm.
  pose proof (Z.mod_pos_bound (Z.of_nat j) ps Hps).
  pose proof (Z.div_pos (Z.of_nat j) ps ltac:(lia) Hps).
  set (q := Z.of_nat j / ps) in *. set (o := Z.of_nat j mod ps) in *.
  assert (q < n) by (unfold len in *; nia).
  assert (forall l, page_of ps l q !! Z.to_nat o = l !! j) as Hlk.
  { intros l. unfold page_of. rewrite lookup_take_lt, lookup_drop by lia. f_equal. nia. }
  specialize (Hp q ltac:(lia)). rewrite <- Hlk in Hx, Hy. congruence.
Qed.

Lemma page_of_write ps flash i j page :
  0 < ps -> 0 <= i -> 0 <= j -> len page = ps -> (i + 1) * ps <= len flash ->
  page_of ps (write_at ps flash i page) j = if i =? j then page else page_of ps flash j.
Proof.
  intros Hps Hi Hj Hl Hf. unfold page_of, write_at, overwrite.
  assert (length (take (Z.to_nat (i * ps)) flash) = Z.to_nat (i * ps)) as Ht.
  { rewrite length_take. unfold len in *. nia. }
  zcase; [subst j|].
  - rewrite drop_app_length', take_app_length' by (unfold len in *; lia). done.
  - destruct (Z.lt_ge_cases i j).
    + rewrite drop_app_ge by nia. rewrite Ht, drop_app_ge by (unfold len in *; nia).
      rewrite drop_drop. do 2 f_equal. unfold len in *. nia.
    + rewrite drop_app_le by nia. rewrite take_app_le by (rewrite length_drop; nia).
      apply list_eq; intros k.
      destruct (Nat.lt_ge_cases k (Z.to_nat ps)).
      * rewrite !lookup_take_lt, !lookup_drop, lookup_take_lt by nia. done.
      * rewrite !lookup_take_ge by lia. done.
Qed.

Lemma write_at_length ps flash i page :
  0 < ps -> 0 <= i -> len page = ps -> (i + 1) * ps <= len flash ->
  len (write_at ps flash i page) = len flash.
Proof. intros. apply len_overwrite; nia. Qed.

Lemma page_of_erased ps n i : 0 <= ps -> 0 <= i -> (i + 1) * ps <= n ->
  page_of ps (erased n) i = replicate (Z.to_nat ps) 0xFF.
Proof.
  intros. unfold page_of, erased. rewrite drop_replicate, take_replicate.
  f_equal. nia.
Qed.

(** ** Footers and regions *)
Lemma len_footer img : len (footer img) = FOOTER_LEN.
Proof. done. Qed.
Lemma footer_bytes img : bytes (footer img).
Proof.
  unfold footer. rewrite !bytes_app. split_and!; auto with ota.
  all: repeat constructor; lia.
Qed.
#[export] Hint Resolve footer_bytes : ota.
#[export] Hint Rewrite len_footer : lens.

Section image_proofs.
Context `{PtrWidth}.
Implicit Types (img : Image) (out : list Z).

Lemma from_bin_unfold data ps ap : is_u16 ps -> is_u16 ap -> 
  from_bin data ps ap =
    if (ap =? 0) || (ps <? FOOTER_LEN) || (PAGE_SIZE_MAX <? ps) || (usize_max <? ps * ap)
    then Err (Error.BadGeometry ps ap)
    else if ps * ap - FOOTER_LEN <? len data
    then Err (Error.ImageTooLarge (len data) (ps * ap - FOOTER_LEN))
    else Ok (mkImage data ps ap (len data) (crc32 data)).
Proof.
  intros. unfold from_bin, usize_checked_mul, usize_checked_sub, u32_try_from.
  pose proof (len_nonneg data). unfold PAGE_SIZE_MAX, PAYLOAD_MAX, FRAME_OVERHEAD, FOOTER_LEN in *.
  zcases; try done; nia.
Qed.

Lemma from_bin_ok_inv data ps ap img : is_u16 ps -> is_u16 ap -> bytes data ->
  from_bin data ps ap = Ok img ->
  image_wf img /\ img_data img = data /\ img_page_size img = ps /\ img_app_pages img = ap.
Proof.
  intros Hps Hap Hd. rewrite from_bin_unfold by done.
  destruct (Z.eqb_spec ap 0), (Z.ltb_spec ps FOOTER_LEN), (Z.ltb_spec PAGE_SIZE_MAX ps),
    (Z.ltb_spec usize_max (ps * ap)); try done; simpl.
  zcase; [done|]. intros [= <-]. split; [|done]. split; simpl; done || lia.
Qed.

Lemma len_region img : image_wf img -> len (region img) = img_page_size img * img_app_pages img.
Proof. intros []. unfold region. rewrite !len_app, len_replicate, len_footer. lia. Qed.

Lemma bytes_region img : image_wf img -> bytes (region img).
Proof.
  intros []. unfold region. rewrite !bytes_app.
  split_and!; [done|apply bytes_replicate; lia|auto with ota].
Qed.

Lemma footer_page_index_wf img : image_wf img -> footer_page_index img = img_app_pages img - 1.
Proof. intros []. unfold footer_page_index, u16_wrapping_sub. apply Z.mod_small. lia. Qed.

(** The addresses the code computes do not wrap. *)
Lemma page_start_small img i : image_wf img -> 0 <= i < img_app_pages img ->
  usize_wrapping_mul i (img_page_size img) = i * img_page_size img.
Proof. intros [] ?. apply usize_mul_small. unfold FOOTER_LEN in *. nia. Qed.
End image_proofs.

Section rendering.
Context `{PtrWidth}.
Implicit Types (img : Image) (out : list Z).

(** The bytes of a page before the footer overlay. *)
Lemma page_payload img i m : image_wf img -> 0 <= i < img_app_pages img ->
  0 <= m <= img_page_size img ->
  i * img_page_size img + m <= img_page_size img * img_app_pages img - FOOTER_LEN ->
  forall n, (Z.to_nat m <= n)%nat ->
  take (Z.to_nat m) (page_of (img_page_size img) (region img) i)
  = take (Z.to_nat m) (drop (Z.to_nat (i * img_page_size img)) (img_data img)
                       ++ replicate n 0xFF).
Proof.
  intros Hwf Hi Hm Hfit n Hn. pose proof Hwf as []. unfold page_of, region, FOOTER_LEN in *.
  rewrite take_take, Nat.min_l by lia. rewrite app_assoc.
  set (k := Z.to_nat (_ - 16 - len (img_data img))).
  assert (Z.to_nat (i * img_page_size img) + Z.to_nat m <= length (img_data img) + k)%nat as Hk
    by (unfold k, len in *; nia).
  rewrite drop_app_le, take_app_le
    by (rewrite ?length_drop, ?length_app, ?length_replicate; lia).
  by apply pad_window.
Qed.

Lemma data_tail img i :
  0 <= i * img_page_size img ->
  default [] (get_from (i * img_page_size img) (img_data img))
  = drop (Z.to_nat (i * img_page_size img)) (img_data img).
Proof.
  intros. unfold get_from. zcase; [done|]. rewrite drop_ge; [done|]. unfold len in *; lia.
Qed.

Lemma footer_page_split img : image_wf img ->
  let ps := img_page_size img in
  page_of ps (region img) (img_app_pages img - 1)
  = take (Z.to_nat (ps - FOOTER_LEN)) (page_of ps (region img) (img_app_pages img - 1))
    ++ footer img.
Proof.
  intros Hwf ps. pose proof Hwf as []. unfold page_of. pose proof (len_region img Hwf) as Hl.
  unfold ps, FOOTER_LEN in *.
  rewrite (take_ge (drop _ _)) by (rewrite length_drop; unfold len in *; nia).
  unfold region, FOOTER_LEN in *. rewrite app_assoc.
  rewrite drop_app_le, take_app_length'; [done|..];
    rewrite ?length_drop, ?length_app, ?length_replicate; unfold len in *; nia.
Qed.

Lemma render_plain img i page : image_wf img -> 0 <= i < img_app_pages img - 1 ->
  length page = Z.to_nat (img_page_size img) ->
  zip_write page (drop (Z.to_nat (i * img_page_size img)) (img_data img)
                  ++ replicate (length page) 0xFF)
  = page_of (img_page_size img) (region img) i.
Proof.
  intros Hwf Hi Hp. pose proof Hwf as []. unfold FOOTER_LEN in *.
  rewrite zip_write_full by (rewrite length_app, length_replicate; lia).
  rewrite Hp, <- page_payload by (done || unfold FOOTER_LEN; nia).
  apply take_ge. unfold page_of. rewrite length_take. lia.
Qed.

Lemma render_footer img page : image_wf img ->
  length page = Z.to_nat (img_page_size img) ->
  let ps := img_page_size img in
  let i := img_app_pages img - 1 in
  let q := zip_write page (drop (Z.to_nat (i * ps)) (img_data img)
                           ++ replicate (length page) 0xFF) in
  take (Z.to_nat (ps - FOOTER_LEN)) q
  ++ zip_write (drop (Z.to_nat (ps - FOOTER_LEN)) q) (footer img)
  = page_of ps (region img) i.
Proof.
  intros Hwf Hp ps i q. pose proof Hwf as [].
  assert (length q = Z.to_nat ps) as Hq.
  { unfold q. rewrite zip_write_full, length_take, length_app, length_replicate
      by (rewrite length_app, length_replicate; lia). unfold ps in *; lia. }
  pose proof (footer_page_split img Hwf) as Hsplit. cbv zeta in Hsplit. fold ps i in Hsplit.
  rewrite Hsplit; clear Hsplit.
  assert (length (footer img) = 16%nat) as Hf by done.
  unfold FOOTER_LEN in *. f_equal.
  - rewrite (page_payload img i _) with (n := length page)
      by (done || unfold ps, i, FOOTER_LEN in *; nia). fold ps.
    unfold q. rewrite zip_write_full by (rewrite length_app, length_replicate; lia).
    rewrite take_take. f_equal. unfold ps in *; lia.
  - rewrite zip_write_full, length_drop, Hq by (rewrite length_drop, Hq; unfold ps in *; lia).
    apply take_ge. unfold ps in *; lia.
Qed.

Lemma page_into_ok img i out : image_wf img -> 0 <= i < img_app_pages img ->
  img_page_size img <= len out ->
  page_into img i out =
    (Ok tt, page_of (img_page_size img) (region img) i
            ++ drop (Z.to_nat (img_page_size img)) out).
Proof.
  intros Hwf Hi Ho. pose proof Hwf as []. unfold page_into. zcase; [lia|].
  rewrite get_to_Some by done. rewrite page_start_small by done.
  rewrite data_tail by (unfold FOOTER_LEN in *; nia). rewrite footer_page_index_wf by done.
  assert (length (take (Z.to_nat (img_page_size img)) out) = Z.to_nat (img_page_size img))
    as Hlen by (rewrite length_take; unfold len in *; lia).
  unfold FOOTER_LEN in *. zcase; [subst i|].
  - rewrite usize_sub_small by (unfold FOOTER_LEN; usize_bounds; nia).
    by rewrite (render_footer img).
  - rewrite render_plain by (done || lia). done.
Qed.

Lemma page_into_err img i out : image_wf img ->
  img_app_pages img <= i \/ len out < img_page_size img ->
  page_into img i out =
    (Err (if img_app_pages img <=? i then Error.PageOutOfRange i
          else Error.BufferTooSmall (img_page_size img)), out).
Proof.
  intros Hwf Ho. unfold page_into. zcase; [done|]. rewrite get_to_None by lia. done.
Qed.

Lemma region_page_bytes img i : image_wf img -> bytes (page_of (img_page_size img) (region img) i).
Proof. intros. apply bytes_take, bytes_drop. by apply bytes_region. Qed.
Lemma len_region_page img i : image_wf img -> 0 <= i < img_app_pages img ->
  len (page_of (img_page_size img) (region img) i) = img_page_size img.
Proof.
  intros Hwf Hi. pose proof Hwf as []. unfold FOOTER_LEN in *.
  apply page_of_length; [lia..|]. rewrite len_region by done. nia.
Qed.
End rendering.
#[export] Hint Resolve region_page_bytes : ota.

(** ** The iterator *)
Section iterator.
Context `{PtrWidth}.
Implicit Types img : Image.

(** [must_write] looks only at the payload; for a page without the footer that
    is the same as looking at the rendered page. *)
Lemma must_write_region img i : image_wf img -> 0 <= i < img_app_pages img ->
  must_write img i =
    (i =? img_app_pages img - 1) || any_ne 0xFF (page_of (img_page_size img) (region img) i).
Proof.
  intros Hwf Hi. pose proof Hwf as []. unfold must_write.
  rewrite footer_page_index_wf by done. zcase; [done|]. cbn [orb].
  rewrite page_start_small by done. usize_bounds. unfold FOOTER_LEN in *.
  rewrite usize_add_small by nia. set (ps := img_page_size img) in *.
  pose proof (page_payload img i ps Hwf Hi ltac:(lia) ltac:(unfold FOOTER_LEN, ps in *; nia)
    (Z.to_nat ps) ltac:(lia)) as Hp. fold ps in Hp.
  rewrite take_ge in Hp by (unfold page_of; rewrite length_take; lia).
  rewrite Hp, any_ne_pad. unfold get_range.
  destruct (Z.le_gt_cases (i * ps) (len (img_data img))).
  - rewrite (proj2 (Z.leb_le _ _)), (proj2 (Z.leb_le _ _)) by nia. cbn [andb].
    destruct (Z.le_gt_cases (i * ps + ps) (len (img_data img))).
    + do 2 f_equal. lia.
    + rewrite !take_ge by (rewrite length_drop; unfold len in *; lia). done.
  - rewrite (proj2 (Z.leb_gt _ _)) by nia. cbn [andb].
    rewrite drop_ge, take_nil by (unfold len in *; lia). done.
Qed.

Lemma next_loop_spec fuel img cursor : image_wf img -> 0 <= cursor ->
  (Z.to_nat (img_app_pages img - cursor) < fuel)%nat ->
  match next_loop fuel img cursor with
  | (Some i, c') => cursor <= i < img_app_pages img /\ c' = i + 1 /\ must_write img i = true
                    /\ forall j, cursor <= j < i -> must_write img j = false
  | (None, c') => (forall j, cursor <= j < img_app_pages img -> must_write img j = false)
                  /\ img_app_pages img <= c'
  end.
Proof.
  intros Hwf. pose proof Hwf as []. revert cursor.
  induction fuel as [|fuel IH]; intros cursor Hc Hf; [lia|]. cbn [next_loop].
  zcase; [|split; [lia|lia]].
  unfold u16_try_from. zcase; [|lia].
  unfold u32_wrapping_add. rewrite Z.mod_small by lia.
  destruct (must_write img cursor) eqn:Hm; [split_and!; [lia..|done|lia]|].
  specialize (IH (cursor + 1) ltac:(lia) ltac:(lia)).
  assert (forall P : Z -> Prop, P cursor -> forall j b, (cursor + 1 <= j < b -> P j) ->
    cursor <= j < b -> P j) as Hstep.
  { intros P HP j b Hj ?. destruct (Z.eq_dec j cursor) as [->|]; [done|apply Hj; lia]. }
  destruct (next_loop fuel img (cursor + 1)) as [[i|] c'].
  - destruct IH as (? & ? & ? & Hno). split_and!; [lia..|done|].
    intros j. apply (Hstep (fun j => must_write img j = false)); auto.
  - destruct IH as (Hno & ?). split; [|done].
    intros j. apply (Hstep (fun j => must_write img j = false)); auto.
Qed.

(** The indices still to come from a cursor. *)
Definition remaining img (cursor : Z) : list Z :=
  filter (fun i => must_write img i = true) (seqZ cursor (img_app_pages img - cursor)).

Lemma remaining_none img cursor :
  (forall j, cursor <= j < img_app_pages img -> must_write img j = false) ->
  remaining img cursor = [].
Proof.
  intros Hno. unfold remaining. apply filter_all_false.
  intros j Hj%elem_of_seqZ. rewrite Hno by lia. done.
Qed.

Lemma remaining_next img cursor i : cursor <= i < img_app_pages img ->
  must_write img i = true -> (forall j, cursor <= j < i -> must_write img j = false) ->
  remaining img cursor = i :: remaining img (i + 1).
Proof.
  intros Hi Hm Hno. unfold remaining.
  replace (img_app_pages img - cursor) with ((i - cursor) + (img_app_pages img - i)) by lia.
  rewrite seqZ_app, filter_app by lia.
  rewrite (filter_all_false _ (seqZ cursor (i - cursor))).
  2: { intros j Hj%elem_of_seqZ. rewrite Hno by lia. done. }
  replace (cursor + (i - cursor)) with i by lia.
  rewrite seqZ_cons by lia. rewrite filter_cons_True by done. simpl. do 3 f_equal; lia.
Qed.
End iterator.

Section drain.
Context `{PtrWidth}.
Implicit Types img : Image.

Lemma drain_spec fuel img cursor : image_wf img -> 0 <= cursor ->
  (Z.to_nat (img_app_pages img - cursor) < fuel)%nat ->
  drain fuel (mkPages img cursor) = remaining img cursor.
Proof.
  intros Hwf. revert cursor. induction fuel as [|fuel IH]; intros cursor Hc Hf; [lia|].
  cbn [drain]. unfold next; cbn [pg_img pg_cursor].
  pose proof (next_loop_spec (S (Z.to_nat (img_app_pages img - cursor))) img cursor
    Hwf Hc ltac:(lia)) as Hn.
  destruct (next_loop _ _ _) as [[i|] c'].
  - destruct Hn as (? & -> & ? & ?). rewrite IH by lia. symmetry. by apply remaining_next.
  - destruct Hn as [Hno _]. by rewrite remaining_none.
Qed.

Lemma pages_list_remaining img cursor : image_wf img -> 0 <= cursor ->
  pages_list (mkPages img cursor) = remaining img cursor.
Proof. intros. by apply drain_spec; cbn [pg_img pg_cursor]; try lia. Qed.

Lemma remaining_elem img cursor i :
  i ∈ remaining img cursor <-> must_write img i = true /\ cursor <= i < img_app_pages img.
Proof. unfold remaining. rewrite list_elem_of_filter, elem_of_seqZ. intuition lia. Qed.

Lemma must_write_footer img : image_wf img -> must_write img (img_app_pages img - 1) = true.
Proof. intros. unfold must_write. rewrite footer_page_index_wf by done. by rewrite Z.eqb_refl. Qed.

(** The footer page comes last. *)
Lemma remaining_last img cursor : image_wf img -> 0 <= cursor < img_app_pages img ->
  last (remaining img cursor) = Some (img_app_pages img - 1).
Proof.
  intros Hwf Hc. unfold remaining.
  replace (img_app_pages img - cursor) with ((img_app_pages img - 1 - cursor) + 1) by lia.
  rewrite seqZ_app, filter_app by lia.
  replace (cursor + (img_app_pages img - 1 - cursor)) with (img_app_pages img - 1) by lia.
  rewrite (seqZ_cons (img_app_pages img - 1)), (seqZ_nil _ (Z.pred 1)) by lia.
  rewrite filter_cons_True, filter_nil by (by apply must_write_footer).
  apply last_snoc.
Qed.

Lemma remaining_length img cursor : image_wf img -> 0 <= cursor ->
  len (remaining img cursor) <= Z.max 0 (img_app_pages img - cursor).
Proof.
  intros. unfold remaining, len.
  pose proof (length_filter (fun i => must_write img i = true)
    (seqZ cursor (img_app_pages img - cursor))).
  rewrite length_seqZ in *. lia.
Qed.

(** ** Writing the pages rebuilds the region *)

(** Writing pages of [r] over flash that agrees with [r] on every page not in
    the list. *)
Lemma fold_write_pages ps n r l flash :
  0 < ps -> len r = ps * n -> len flash = ps * n -> (forall i, i ∈ l -> 0 <= i < n) ->
  let flash' := fold_left (fun f i => write_at ps f i (page_of ps r i)) l flash in
  len flash' = ps * n /\
  forall j, 0 <= j < n ->
    page_of ps flash' j = if bool_decide (j ∈ l) then page_of ps r j else page_of ps flash j.
Proof.
  intros Hps Hr. revert flash. induction l as [|i l IH]; intros flash Hf Hl; cbn [fold_left].
  { split; [done|]. intros. by rewrite bool_decide_eq_false_2 by apply not_elem_of_nil. }
  pose proof (Hl i ltac:(left)) as Hi.
  assert (len (page_of ps r i) = ps) as Hlp by (apply page_of_length; nia).
  destruct (IH (write_at ps flash i (page_of ps r i))) as [IHl IHp].
  { rewrite write_at_length; nia. } { intros; apply Hl; by right. }
  split; [done|]. intros j Hj. rewrite IHp by done. rewrite page_of_write by nia.
  destruct (decide (j ∈ l)) as [Hin|Hnin].
  { rewrite !bool_decide_eq_true_2; [done|by right|done]. }
  rewrite bool_decide_eq_false_2 by done. zcase.
  - subst. rewrite bool_decide_eq_true_2; [done|left].
  - rewrite bool_decide_eq_false_2; [done|]. intros [?|?]%elem_of_cons; [lia|done].
Qed.

(** Any set of pages that covers what the iterator yields rebuilds the region
    from erased flash, in any order and with repeats. *)
Lemma flash_image_rebuild img l : image_wf img ->
  (forall i, i ∈ remaining img 0 -> i ∈ l) -> (forall i, i ∈ l -> 0 <= i < img_app_pages img) ->
  fold_left (fun f i => write_at (img_page_size img) f i (page_of (img_page_size img) (region img) i))
    l (erased (img_page_size img * img_app_pages img)) = region img.
Proof.
  intros Hwf Hcov Hl. pose proof Hwf as []. unfold FOOTER_LEN in *.
  pose proof (len_region img Hwf) as Hr.
  assert (len (erased (img_page_size img * img_app_pages img))
    = img_page_size img * img_app_pages img) as He by (unfold erased; rewrite len_replicate; nia).
  destruct (fold_write_pages (img_page_size img) (img_app_pages img) (region img) l _
    ltac:(lia) Hr He Hl) as [Hlen Hp].
  apply (pages_ext (img_page_size img) (img_app_pages img)); [lia..|].
  intros j Hj. rewrite Hp by done. case_bool_decide as Hin; [done|].
  rewrite page_of_erased by nia.
  assert (must_write img j = false) as Hm.
  { destruct (must_write img j) eqn:E; [|done]. destruct Hin. apply Hcov, remaining_elem. split; [done|lia]. }
  rewrite must_write_region in Hm by done. apply orb_false_iff in Hm as [_ Hm].
  apply any_ne_false in Hm. rewrite Hm. f_equal.
  pose proof (len_region_page img j Hwf Hj). unfold len in *. lia.
Qed.
End drain.

(** ** CRC-32 *)

(** The IEEE 802.3 generator; [0xEDB88320] is its reversal without the leading
    coefficient. *)
Definition CRC32_POLY : Z := 0x104C11DB7.

Lemma u32_pow : 2 ^ Z.of_nat 32 = 2 ^ 32.
Proof. done. Qed.

Lemma crc32_bit_odd x : crc32_bit x = Z.lxor (Z.div2 x) (if Z.odd x then 0xEDB88320 else 0).
Proof.
  unfold crc32_bit. change 1 with (Z.ones 1). rewrite Z.land_ones by lia.
  change (2 ^ 1) with 2. rewrite Zmod_odd, Z.div2_spec.
  destruct (Z.odd x); [done|]. by rewrite Z.lxor_0_r.
Qed.

Lemma crc32_bit_u32 x : is_u32 x -> is_u32 (crc32_bit x).
Proof.
  intros. rewrite crc32_bit_odd. apply lxor_bound.
  - rewrite Z.div2_div. Z.div_mod_to_equations; lia.
  - destruct (Z.odd x); lia.
Qed.
Lemma crc32_iter_u32 n x : is_u32 x -> is_u32 (Nat.iter n crc32_bit x).
Proof. intros. induction n; [done|]. by apply crc32_bit_u32. Qed.
Lemma crc32_byte_u32 crc b : is_u32 crc -> is_u8 b -> is_u32 (crc32_byte crc b).
Proof. intros. apply crc32_iter_u32. apply lxor_bound; lia. Qed.
Lemma crc32_fold_u32 l crc : is_u32 crc -> bytes l -> is_u32 (fold_left crc32_byte l crc).
Proof.
  revert crc. induction l as [|b l IH]; intros crc Hc Hl; [done|].
  apply bytes_cons in Hl as [??]. apply IH; [by apply crc32_byte_u32|done].
Qed.
Lemma crc32_u32 l : bytes l -> is_u32 (crc32 l).
Proof. intros. apply lxor_bound; [by apply crc32_fold_u32|done]. Qed.
#[export] Hint Resolve crc32_u32 crc32_byte_u32 crc32_fold_u32 : ota.

(** The shift register runs backwards: the top bit of the constant records
    which branch was taken. *)
Definition crc32_unbit (y : Z) : Z :=
  if Z.testbit y 31 then 2 * Z.lxor y 0xEDB88320 + 1 else 2 * y.

Lemma crc32_unbit_bit x : is_u32 x -> crc32_unbit (crc32_bit x) = x.
Proof.
  intros. rewrite crc32_bit_odd. unfold crc32_unbit.
  assert (Z.testbit (Z.div2 x) 31 = false) as Ht.
  { rewrite <- (Z.mod_small (Z.div2 x) (2 ^ 31)), Z.mod_pow2_bits_high; [done|lia|].
    rewrite Z.div2_div. Z.div_mod_to_equations; lia. }
  rewrite Z.lxor_spec, Ht, xorb_false_l. pose proof (Z.div2_odd x) as Hx.
  destruct (Z.odd x); cbn [Z.b2z] in Hx.
  - change (Z.testbit 0xEDB88320 31) with true. cbv iota.
    replace (Z.lxor (Z.lxor _ _) _) with (Z.div2 x) by xor_bits. done.
  - change (Z.testbit 0 31) with false. cbv iota. rewrite Z.lxor_0_r. lia.
Qed.

Lemma crc32_iter_inj n x y : is_u32 x -> is_u32 y ->
  Nat.iter n crc32_bit x = Nat.iter n crc32_bit y -> x = y.
Proof.
  intros Hx Hy. induction n as [|n IH]; [done|]. intros Heq. apply IH.
  rewrite <- (crc32_unbit_bit (Nat.iter n crc32_bit x)),
    <- (crc32_unbit_bit (Nat.iter n crc32_bit y)) by (by apply crc32_iter_u32).
  by apply (f_equal crc32_unbit) in Heq.
Qed.

Lemma crc32_byte_inj_reg crc crc' b : is_u32 crc -> is_u32 crc' -> is_u8 b ->
  crc32_byte crc b = crc32_byte crc' b -> crc = crc'.
Proof.
  intros ??? H%crc32_iter_inj; [|apply lxor_bound; lia..].
  rewrite !(Z.lxor_comm _ b) in H. by apply lxor_cancel_l in H.
Qed.
Lemma crc32_byte_inj_byte crc b b' : is_u32 crc -> is_u8 b -> is_u8 b' ->
  crc32_byte crc b = crc32_byte crc b' -> b = b'.
Proof. intros ??? H%crc32_iter_inj; [|apply lxor_bound; lia..]. by apply lxor_cancel_l in H. Qed.

Lemma crc32_fold_inj l crc crc' : bytes l -> is_u32 crc -> is_u32 crc' ->
  fold_left crc32_byte l crc = fold_left crc32_byte l crc' -> crc = crc'.
Proof.
  revert crc crc'. induction l as [|b l IH]; cbn [fold_left]; intros crc crc' Hl ???; [done|].
  apply bytes_cons in Hl as [??].
  apply (crc32_byte_inj_reg _ _ b); [done..|]. apply IH; auto with ota.
Qed.

Lemma crc32_insert_ne l i x y : bytes l -> is_u8 x -> l !! i = Some y -> x <> y ->
  crc32 (<[i:=x]> l) <> crc32 l.
Proof.
  intros Hl Hx Hi Hne Heq. pose proof (lookup_lt_Some _ _ _ Hi).
  rewrite <- (take_drop_middle l i y Hi) in Heq at 2.
  rewrite insert_take_drop in Heq by done.
  unfold crc32 in Heq. rewrite !(Z.lxor_comm _ 0xFFFFFFFF) in Heq. apply lxor_cancel_l in Heq.
  rewrite !fold_left_app in Heq; cbn [fold_left] in Heq.
  pose proof (bytes_lookup _ _ _ Hl Hi).
  assert (is_u32 (fold_left crc32_byte (take i l) 0xFFFFFFFF))
    by (apply crc32_fold_u32; [done|auto with ota]).
  apply crc32_fold_inj in Heq; [|auto with ota..].
  by apply crc32_byte_inj_byte in Heq.
Qed.

(** In reversed bit order one iteration multiplies by x and subtracts the
    generator. *)
Lemma crc32_bit_rev x : is_u32 x ->
  rev_bits 32 (crc32_bit x) = Z.lxor (2 * rev_bits 32 x) (if Z.odd x then CRC32_POLY else 0).
Proof.
  intros Hx. rewrite crc32_bit_odd, rev_bits_lxor.
  assert (rev_bits 32 (Z.div2 x) = 2 * rev_bits 31 (Z.div2 x)) as ->.
  { apply rev_bits_small. rewrite Z.div2_div. change (2 ^ Z.of_nat 31) with (2 ^ 31).
    Z.div_mod_to_equations; lia. }
  rewrite (rev_bits_S_lxor 31 x), <- lxor_double.
  destruct (Z.odd x); cbn [Z.b2z].
  - change (2 * (2 ^ Z.of_nat 31 * 1)) with (2 ^ 32).
    change (rev_bits 32 0xEDB88320) with 0x04C11DB7.
    change CRC32_POLY with (Z.lxor (2 ^ 32) 0x04C11DB7). xor_bits.
  - rewrite !Z.mul_0_r, Z.lxor_0_l. done.
Qed.

Lemma crc32_iter_multiple n x : is_u32 x ->
  multiple CRC32_POLY
    (Z.lxor (2 ^ Z.of_nat n * rev_bits 32 x) (rev_bits 32 (Nat.iter n crc32_bit x))).
Proof.
  intros Hx. induction n as [|n IH].
  - rewrite Z.mul_1_l, Z.lxor_nilpotent. constructor.
  - change (Nat.iter (S n) crc32_bit x) with (crc32_bit (Nat.iter n crc32_bit x)).
    rewrite crc32_bit_rev by (by apply crc32_iter_u32).
    rewrite Nat2Z.inj_succ, Z.pow_succ_r, <- Z.mul_assoc, <- Z.lxor_assoc, lxor_double by lia.
    apply multiple_lxor; [by constructor|].
    destruct (Z.odd _); [apply multiple_self|constructor].
Qed.

Lemma rev_byte b : is_u8 b -> rev_bits 32 b = 2 ^ 24 * rev_bits 8 b.
Proof. intros. apply Z.eqb_eq. revert b H. by apply forall_u8. Qed.

Lemma crc32_fold_multiple l : bytes l ->
  multiple CRC32_POLY
    (Z.lxor (Z.lxor (2 ^ 32 * poly (map (rev_bits 8) l)) (2 ^ (8 * len l) * 0xFFFFFFFF))
            (rev_bits 32 (fold_left crc32_byte l 0xFFFFFFFF))).
Proof.
  induction l as [|b l IH] using rev_ind; intros Hl.
  - change (multiple CRC32_POLY 0). constructor.
  - apply bytes_snoc in Hl as [Hl Hb]. specialize (IH Hl).
    rewrite map_app, fold_left_app, len_app. cbn [map fold_left].
    assert (is_u8 (rev_bits 8 b)) by apply (rev_bits_bound 8).
    rewrite poly_snoc_lxor by done.
    set (r := fold_left crc32_byte l 0xFFFFFFFF) in *.
    assert (is_u32 r) by (by apply crc32_fold_u32).
    pose proof (crc32_iter_multiple 8 (Z.lxor r b) ltac:(apply lxor_bound; lia)) as Hm.
    apply (multiple_shift _ 8) in IH; [|lia].
    pose proof (multiple_lxor _ _ _ IH Hm) as Hx.
    change (Nat.iter 8 crc32_bit (Z.lxor r b)) with (crc32_byte r b) in Hx.
    rewrite (rev_bits_lxor 32 r b), (rev_byte b Hb) in Hx.
    change (2 ^ Z.of_nat 8) with (2 ^ 8) in Hx. rewrite !mul_pow2_lxor in * by lia.
    change (len [b]) with 1. replace (8 * (len l + 1)) with (8 + 8 * len l) by lia.
    pose proof (len_nonneg l). rewrite Z.pow_add_r by lia.
    replace (2 ^ 8 * (2 ^ 24 * rev_bits 8 b)) with (2 ^ 32 * rev_bits 8 b) in Hx by lia.
    replace (2 ^ 8 * (2 ^ 32 * poly (map (rev_bits 8) l)))
      with (2 ^ 32 * (2 ^ 8 * poly (map (rev_bits 8) l))) in Hx by lia.
    rewrite <- Z.mul_assoc.
    match type of Hx with multiple _ ?a => match goal with |- multiple _ ?b =>
      replace b with a; [done|] end end. xor_bits.
Qed.

(** A 20-byte application in four 16-byte pages, the example of the crate's
    documentation: its second page is partly padding, its third is skipped. *)
Definition sample_data : list Z := replicate 20 0x42.
Definition sample_image : Image := mkImage sample_data 16 4 20 0xB19FF727.

Lemma sample_bytes : bytes sample_data.
Proof. apply bytes_replicate. lia. Qed.
Lemma sample_from_bin `{PtrWidth} : from_bin sample_data 16 4 = Ok sample_image.
Proof.
  rewrite from_bin_unfold by lia. usize_bounds.
  rewrite (proj2 (Z.ltb_ge usize_max (16 * 4))) by lia. reflexivity.
Qed.

(** ** Properties *)
Section properties.
Context `{PtrWidth}.

(** C25: [from_bin] on every branch. Degenerate geometries (no page, a page
    smaller than the footer or larger than a frame can carry, a region beyond
    the address space) are [BadGeometry]; a binary above [region - 16] is
    [ImageTooLarge] with the exact capacity; everything else is accepted with
    its length and CRC-32, and the accepted image is well formed. *)
Theorem from_bin_correct data ps ap : is_u16 ps -> is_u16 ap -> bytes data ->
  (from_bin data ps ap =
    if (ap =? 0) || (ps <? FOOTER_LEN) || (PAGE_SIZE_MAX <? ps) || (usize_max <? ps * ap)
    then Err (Error.BadGeometry ps ap)
    else if ps * ap - FOOTER_LEN <? len data
    then Err (Error.ImageTooLarge (len data) (ps * ap - FOOTER_LEN))
    else Ok (mkImage data ps ap (len data) (crc32 data)))
  /\ (forall img, from_bin data ps ap = Ok img -> image_wf img).
Proof.
  intros Hps Hap Hd. split; [by apply from_bin_unfold|].
  intros img Hi. by eapply from_bin_ok_inv in Hi as [? _].
Qed.

(** Rendering. For every accepted image and index, [page_into] either
    refuses (index at or beyond the region, buffer below a page) leaving the
    buffer as it was, or writes exactly the page of the flash region the image
    stands for (payload, [0xFF] padding, footer on the last page) and leaves
    the bytes beyond the page alone. *)
Theorem page_into_renders data ps ap img i out :
  is_u16 ps -> is_u16 ap -> bytes data -> from_bin data ps ap = Ok img -> 0 <= i ->
  page_into img i out =
    if ap <=? i then (Err (Error.PageOutOfRange i), out)
    else if len out <? ps then (Err (Error.BufferTooSmall ps), out)
    else (Ok tt, page_of ps (region img) i ++ drop (Z.to_nat ps) out).
Proof.
  intros Hps Hap Hd Himg Hi. apply from_bin_ok_inv in Himg as (Hwf & _ & <- & <-); [|done..].
  zcase; [|zcase].
  - rewrite page_into_err by (done || by left). by rewrite (proj2 (Z.leb_le _ _)).
  - rewrite page_into_err by (done || by right). by rewrite (proj2 (Z.leb_gt _ _)).
  - apply page_into_ok; [done|lia|done].
Qed.

(** The iterator yields, in ascending order and exactly once each, the
    footer page and the pages whose rendering is not erased flash, the footer
    page last; its size hint brackets the number of indices still to come
    from every cursor, and once it has returned [None] it keeps doing so. *)
Theorem pages_yield_exactly data ps ap img :
  is_u16 ps -> is_u16 ap -> bytes data -> from_bin data ps ap = Ok img ->
  pages_list (pages img)
    = filter (fun i => i = ap - 1 \/ page_of ps (region img) i <> replicate (Z.to_nat ps) 0xFF)
        (seqZ 0 ap)
  /\ last (pages_list (pages img)) = Some (ap - 1)
  /\ (forall cursor, 0 <= cursor ->
        fst (size_hint (mkPages img cursor)) <= len (pages_list (mkPages img cursor))
        /\ forall hi, snd (size_hint (mkPages img cursor)) = Some hi ->
             len (pages_list (mkPages img cursor)) <= hi)
  /\ (forall p p', pg_img p = img -> 0 <= pg_cursor p -> next p = (None, p') ->
        next p' = (None, p')).
Proof.
  intros Hps Hap Hd Himg. apply from_bin_ok_inv in Himg as (Hwf & _ & <- & <-); [|done..].
  pose proof Hwf as [? ? _ _ _ _ _]. unfold FOOTER_LEN in *.
  unfold pages. rewrite pages_list_remaining by done.
  split_and!.
  - unfold remaining. rewrite Z.sub_0_r. apply filter_ext_in. intros i Hi%elem_of_seqZ.
    rewrite must_write_region by (done || lia). rewrite orb_true_iff, Z.eqb_eq.
    enough (any_ne 255 (page_of (img_page_size img) (region img) i) = true <->
      page_of (img_page_size img) (region img) i <> replicate (Z.to_nat (img_page_size img)) 255)
      by tauto.
    rewrite <- not_false_iff_true, any_ne_false.
    pose proof (len_region_page img i Hwf ltac:(lia)) as Hl.
    replace (length _) with (Z.to_nat (img_page_size img)) by (unfold len in *; lia). done.
  - apply remaining_last; [done|lia].
  - intros cursor Hc. rewrite pages_list_remaining by done.
    unfold size_hint, u32_saturating_sub; cbn [pg_img pg_cursor fst snd].
    pose proof (remaining_length img cursor Hwf Hc). split.
    + zcase; [|apply len_nonneg]. pose proof (remaining_last img cursor Hwf ltac:(lia)) as Hl.
      destruct (remaining img cursor); [done|]. lens.
    + unfold usize_try_from. intros hi. zcase; [|done]. intros [= <-]. lia.
  - intros [img' c] p' Heq Hc; cbn [pg_img pg_cursor] in *. subst img'.
    unfold next; cbn [pg_img pg_cursor].
    pose proof (next_loop_spec (S (Z.to_nat (img_app_pages img - c))) img c Hwf Hc ltac:(lia)) as Hn.
    destruct (next_loop _ _ _) as [[i|] c']; [done|]. intros [= <-]. destruct Hn as [_ Hc'].
    cbn [pg_img pg_cursor next_loop]. by rewrite (proj2 (Z.ltb_ge _ _)).
Qed.

(** C10: what the skipped pages rest on: rendering every page the iterator
    yields and writing it at its place over erased flash leaves the whole
    region exactly as the image describes it. *)
Theorem flashing_rebuilds_region data ps ap img :
  is_u16 ps -> is_u16 ap -> bytes data -> from_bin data ps ap = Ok img ->
  fold_left (fun flash i => write_at ps flash i (snd (page_into img i (erased ps))))
    (pages_list (pages img)) (erased (ps * ap)) = region img.
Proof.
  intros Hps Hap Hd Himg. apply from_bin_ok_inv in Himg as (Hwf & _ & <- & <-); [|done..].
  pose proof Hwf as [? ? _ _ _ _ _]. unfold FOOTER_LEN in *.
  unfold pages. rewrite pages_list_remaining by done.
  rewrite <- (flash_image_rebuild img (remaining img 0)); [|done|done|intros; by apply remaining_elem].
  set (l := remaining img 0). assert (forall i, i ∈ l -> 0 <= i < img_app_pages img) as Hl
    by (intros; by eapply remaining_elem).
  clearbody l. generalize (erased (img_page_size img * img_app_pages img)).
  induction l as [|i l IH]; intros flash; [done|]. cbn [fold_left].
  rewrite IH by (intros; apply Hl; by right). f_equal.
  rewrite page_into_ok; [|done|apply Hl; left|unfold erased; rewrite len_replicate; lia].
  cbn [snd]. unfold erased. rewrite drop_replicate, Nat.sub_diag, app_nil_r. done.
Qed.

End properties.

Lemma from_bin_correct_witness : image_wf sample_image.
Proof.
  apply (proj2 (from_bin_correct sample_data 16 4 ltac:(lia) ltac:(lia) sample_bytes)).
  apply sample_from_bin.
Defined.

Lemma page_into_renders_witness :
  page_into sample_image 1 (replicate 18 7)
  = (Ok tt, replicate 4 0x42 ++ replicate 12 0xFF ++ [7; 7]).
Proof.
  rewrite (page_into_renders sample_data 16 4 sample_image 1 _ ltac:(lia) ltac:(lia)
    sample_bytes sample_from_bin ltac:(lia)).
  by vm_compute.
Defined.

Lemma pages_yield_exactly_witness : pages_list (pages sample_image) = [0; 1; 3].
Proof.
  rewrite (proj1 (pages_yield_exactly sample_data 16 4 sample_image ltac:(lia) ltac:(lia)
    sample_bytes sample_from_bin)).
  by vm_compute.
Defined.

Lemma flashing_rebuilds_region_witness :
  fold_left (fun flash i => write_at 16 flash i (snd (page_into sample_image i (erased 16))))
    [0; 1; 3] (erased 64)
  = sample_data ++ replicate 28 0xFF ++ [0x4F; 0x54; 0x41; 0x55; 20; 0; 0; 0;
      0x27; 0xF7; 0x9F; 0xB1; 0xFF; 0xFF; 0xFF; 0xFF].
Proof.
  pose proof (flashing_rebuilds_region sample_data 16 4 sample_image ltac:(lia) ltac:(lia)
    sample_bytes sample_from_bin) as Hf.
  vm_compute in Hf. vm_compute. exact Hf.
Defined.

(** C29: CRC-32 is the documented IEEE 802.3 checksum. In the reversed bit
    order the reflected algorithm works in, it is the only 32-bit value whose
    complement, added to the message times x^32 and to the initial value
    carried past the message, leaves a multiple of the generator. *)
Theorem crc32_is_remainder data : bytes data ->
  is_u32 (crc32 data)
  /\ forall c, is_u32 c ->
     (multiple CRC32_POLY
        (Z.lxor (Z.lxor (2 ^ 32 * poly (map (rev_bits 8) data)) (2 ^ (8 * len data) * 0xFFFFFFFF))
                (rev_bits 32 (Z.lxor c 0xFFFFFFFF)))
      <-> c = crc32 data).
Proof.
  intros Hd. pose proof (crc32_u32 _ Hd) as Hu. pose proof (crc32_fold_multiple _ Hd) as Hm.
  split; [done|]. intros c Hc.
  set (m := Z.lxor (2 ^ 32 * _) _) in *.
  assert (fold_left crc32_byte data 0xFFFFFFFF = Z.lxor (crc32 data) 0xFFFFFFFF) as Hr
    by (unfold crc32; xor_bits).
  rewrite Hr in Hm. split; [|by intros ->]. intros Hc'.
  pose proof (multiple_lxor _ _ _ Hc' Hm) as Hx.
  replace (Z.lxor _ _) with (rev_bits 32 (Z.lxor c (crc32 data))) in Hx
    by (rewrite !rev_bits_lxor; xor_bits).
  pose proof (rev_bits_bound 32 (Z.lxor c (crc32 data))) as Hb. rewrite u32_pow in Hb.
  apply (multiple_degree _ 32) in Hx; [|unfold CRC32_POLY; lia..].
  destruct Hx as [Hx|Hx]; [|lia].
  apply (rev_bits_inj 32 _ 0) in Hx; [by apply Z.lxor_eq in Hx|by apply lxor_bound|done].
Qed.

Lemma crc32_is_remainder_witness : is_u32 (crc32 [0x31; 0x32; 0x33]).
Proof. apply (proj1 (crc32_is_remainder [0x31; 0x32; 0x33] ltac:(repeat constructor; lia))). Defined.

(** An image in which one byte was changed never has the CRC-32 of the
    original: the device's VERIFY and boot gate catch every such corruption. *)
Theorem crc32_detects_byte_error data i x y :
  bytes data -> data !! i = Some y -> is_u8 x -> x <> y -> crc32 (<[i:=x]> data) <> crc32 data.
Proof. intros. by apply (crc32_insert_ne data i x y). Qed.

Lemma crc32_detects_byte_error_witness : crc32 [1; 7; 3] <> crc32 [1; 2; 3].
Proof.
  apply (crc32_detects_byte_error [1; 2; 3] 1 7 2); [repeat constructor; lia|reflexivity|lia|lia].
Defined.
