(* ===== verification/Stream.v ===== *)
(** Byte-stream framing ([updater-core/src/stream.rs]): the incremental scanner
    [push], its invariant, the abstract two-state machine it implements and the
    whole-stream parser it is equivalent to. *)
From S2P Require Import Prelude Errors Frame.

Definition SYNC : Z := 0x7E.

Module Scan.

(** Outcome of feeding one byte. *)
Inductive t : Type :=
| Hunt
| Frame
| Done (len : Z)
| Dropped.

#[global] Instance eq_dec : EqDecision t.
Proof. solve_decision. Defined.

End Scan.

Record RxScanner := mkRx { rx_n : Z; rx_in_frame : bool }.

(** [RxScanner::new], and [reset] as the state it leaves. *)
Definition rx_new : RxScanner := mkRx 0 false.
Definition rx_reset (sc : RxScanner) : RxScanner := mkRx 0 false.

Section stream.
Context `{PtrWidth}.

(** Feed one byte: the outcome, the scanner and the caller's buffer. *)
Definition push (sc : RxScanner) (byte : Z) (buf : list Z) : Scan.t * (RxScanner * list Z) :=
  if negb (rx_in_frame sc) then
    if (byte =? SYNC) && (FRAME_OVERHEAD <=? len buf)
    then (Scan.Frame, (mkRx 0 true, buf))
    else (Scan.Hunt, (sc, buf))
  else
    match get_at (rx_n sc) buf with
    | None => (Scan.Dropped, (rx_reset sc, buf))
    | Some _ =>
      let buf := <[Z.to_nat (rx_n sc) := byte]> buf in
      let sc := mkRx (usize_wrapping_add (rx_n sc) 1) (rx_in_frame sc) in
      if rx_n sc <? 2 then (Scan.Frame, (sc, buf)) else
      match get_at 1 buf with
      | None => (Scan.Dropped, (rx_reset sc, buf))
      | Some declared =>
        let total := usize_wrapping_add declared FRAME_OVERHEAD in
        if (PAYLOAD_MAX <? declared) || (len buf <? total)
        then (Scan.Dropped, (rx_reset sc, buf))
        else if rx_n sc <? total then (Scan.Frame, (sc, buf))
        else
          let sc := rx_reset sc in
          match get_to total buf with
          | None => (Scan.Dropped, (sc, buf))
          | Some raw =>
            if is_ok (decode raw) then (Scan.Done total, (sc, buf))
            else (Scan.Dropped, (sc, buf))
          end
      end
    end.

(** A whole stream through one scanner and one buffer: the frames reported
    [Done], as the caller finds them at the front of the buffer. *)
Fixpoint feed (sc : RxScanner) (buf stream : list Z) : list (list Z) * (RxScanner * list Z) :=
  match stream with
  | [] => ([], (sc, buf))
  | b :: stream =>
    match push sc b buf with
    | (Scan.Done n, (sc, buf)) =>
        let '(fs, st) := feed sc buf stream in (take (Z.to_nat n) buf :: fs, st)
    | (_, (sc, buf)) => feed sc buf stream
    end
  end.

(** The outcomes the caller sees, byte by byte. *)
Fixpoint outcomes (sc : RxScanner) (buf stream : list Z) : list Scan.t :=
  match stream with
  | [] => []
  | b :: stream =>
    let '(o, (sc, buf)) := push sc b buf in o :: outcomes sc buf stream
  end.

(** The scanner and the buffer those bytes leave. *)
Fixpoint after (sc : RxScanner) (buf stream : list Z) : RxScanner * list Z :=
  match stream with
  | [] => (sc, buf)
  | b :: stream => let '(_, (sc, buf)) := push sc b buf in after sc buf stream
  end.

(** ** Specification *)

(** The invariant between pushes that share a buffer: inside a frame the next
    write index is in the buffer and below the declared end. *)
Definition scan_inv (sc : RxScanner) (buf : list Z) : Prop :=
  if rx_in_frame sc then
    FRAME_OVERHEAD <= len buf /\ 0 <= rx_n sc < len buf
    /\ (2 <= rx_n sc -> exists d, buf !! 1%nat = Some d
          /\ d <= PAYLOAD_MAX /\ d + FRAME_OVERHEAD <= len buf /\ rx_n sc < d + FRAME_OVERHEAD)
  else rx_n sc = 0.

(** Bytes the scanner can still take before it reports something other than
    [Frame]; a hunting scanner is one sync byte away from a whole frame. *)
Definition rx_left (sc : RxScanner) (buf : list Z) : Z :=
  if rx_in_frame sc then
    if rx_n sc <? 2 then PAYLOAD_MAX + FRAME_OVERHEAD - rx_n sc
    else default 0 (buf !! 1%nat) + FRAME_OVERHEAD - rx_n sc
  else PAYLOAD_MAX + FRAME_OVERHEAD + 1.

(** The machine without a buffer: either hunting, or holding the bytes since
    the sync. *)
Inductive scan_state :=
| Hunting
| Collecting (acc : list Z).

Definition scan_step (cap : Z) (st : scan_state) (b : Z) : Scan.t * scan_state :=
  match st with
  | Hunting =>
    if (b =? SYNC) && (FRAME_OVERHEAD <=? cap) then (Scan.Frame, Collecting [])
    else (Scan.Hunt, Hunting)
  | Collecting acc =>
    let acc := acc ++ [b] in
    match acc !! 1%nat with
    | None => (Scan.Frame, Collecting acc)
    | Some d =>
      if (PAYLOAD_MAX <? d) || (cap <? d + FRAME_OVERHEAD) then (Scan.Dropped, Hunting)
      else if len acc <? d + FRAME_OVERHEAD then (Scan.Frame, Collecting acc)
      else if is_ok (decode acc) then (Scan.Done (len acc), Hunting) else (Scan.Dropped, Hunting)
    end
  end.

Definition scan_abs (sc : RxScanner) (buf : list Z) : scan_state :=
  if rx_in_frame sc then Collecting (take (Z.to_nat (rx_n sc)) buf) else Hunting.

(** The frames of a whole stream, read left to right: skip to a sync, take the
    length byte after it, skip the header if the declared frame cannot fit,
    otherwise take exactly that many bytes and keep them if they are a frame. *)
Fixpoint stream_frames (fuel : nat) (cap : Z) (s : list Z) : list (list Z) :=
  match fuel, s with
  | S fuel, b :: s =>
    if negb ((b =? SYNC) && (FRAME_OVERHEAD <=? cap)) then stream_frames fuel cap s
    else
      match s with
      | _ :: d :: s' =>
        if (PAYLOAD_MAX <? d) || (cap <? d + FRAME_OVERHEAD) then stream_frames fuel cap s'
        else
          let total := Z.to_nat (d + FRAME_OVERHEAD) in
          if len s <? d + FRAME_OVERHEAD then []
          else
            let f := take total s in
            (if is_ok (decode f) then [f] else []) ++ stream_frames fuel cap (drop total s)
      | _ => []
      end
  | _, _ => []
  end.

(** The machine without a buffer over a whole stream. *)
Fixpoint scan_feed (cap : Z) (st : scan_state) (s : list Z) : list (list Z) :=
  match s with
  | [] => []
  | b :: s =>
    match st, scan_step cap st b with
    | Collecting acc, (Scan.Done _, st') => (acc ++ [b]) :: scan_feed cap st' s
    | _, (_, st') => scan_feed cap st' s
    end
  end.

End stream.

(** ** The scanner implements the abstract machine *)
Section stream_proofs.
Context `{PtrWidth}.
Implicit Types buf acc s : list Z.

Lemma take_insert_snoc buf n b :
  0 <= n < len buf ->
  take (Z.to_nat (n + 1)) (<[Z.to_nat n := b]> buf) = take (Z.to_nat n) buf ++ [b].
Proof.
  intros Hn. unfold len in Hn.
  replace (Z.to_nat (n + 1)) with (S (Z.to_nat n)) by lia.
  rewrite (take_S_r _ _ b) by (apply list_lookup_insert_eq; lia).
  by rewrite take_insert_ge by lia.
Qed.

Lemma len_insert (i : nat) x buf : len (<[i := x]> buf) = len buf.
Proof. unfold len. by rewrite length_insert. Qed.

Lemma slice_insert i x buf : slice buf -> is_u8 x -> slice (<[i := x]> buf).
Proof. intros [??] ?. split; [by apply Forall_insert|by rewrite len_insert]. Qed.

Lemma len_collected n buf b : 0 <= n < len buf ->
  len (take (Z.to_nat n) buf ++ [b]) = n + 1.
Proof. intros. lens. Qed.

Lemma declared_collected n buf b : 1 <= n < len buf ->
  (take (Z.to_nat n) buf ++ [b]) !! 1%nat = <[Z.to_nat n := b]> buf !! 1%nat.
Proof.
  intros. rewrite <- take_insert_snoc by lia. apply lookup_take_lt. lia.
Qed.

(** One push, against the abstract machine. *)
Lemma push_refines sc b buf :
  scan_inv sc buf -> slice buf -> is_u8 b ->
  exists o sc' buf', push sc b buf = (o, (sc', buf'))
    /\ scan_step (len buf) (scan_abs sc buf) b = (o, scan_abs sc' buf')
    /\ scan_inv sc' buf' /\ slice buf' /\ len buf' = len buf.
Proof.
  intros Hinv Hbuf Hb. usize_bounds.
  destruct sc as [n []]; unfold scan_inv in Hinv; simpl in Hinv.
  - destruct Hinv as (Hcap & Hn & Hd).
    pose proof (slice_len _ Hbuf) as Hlen. pose proof (slice_insert (Z.to_nat n) b buf Hbuf Hb) as Hbuf'.
    pose proof (len_insert (Z.to_nat n) b buf) as Hlen'.
    pose proof (take_insert_snoc buf n b ltac:(lia)) as Htk.
    pose proof (len_collected n buf b ltac:(lia)) as Hla.
    unfold push, scan_abs, get_at; cbn [rx_n rx_in_frame negb scan_step].
    destruct (lookup_len_is_Some n buf) as [? ->]; [lia|].
    rewrite usize_add_small by (unfold FRAME_OVERHEAD in *; lia).
    destruct (decide (n = 0)) as [->|].
    { eexists _, _, _. split; [done|]. simpl. split_and!; [by rewrite Htk| |done|lia].
      unfold scan_inv, FRAME_OVERHEAD in *; simpl. split_and!; [lia..|]. intros; lia. }
    rewrite declared_collected by lia. zcase; [lia|].
    change (Z.to_nat 1) with 1%nat.
    destruct (lookup_lt_is_Some_2 (<[Z.to_nat n:=b]> buf) 1) as [d Hd1].
    { unfold len, FRAME_OVERHEAD in *. lia. }
    rewrite Hd1. pose proof (bytes_lookup _ _ _ (slice_bytes _ Hbuf') Hd1).
    change PAYLOAD_MAX with 252 in *. change FRAME_OVERHEAD with 3 in *.
    rewrite usize_add_small by lia. rewrite Hlen', Hla.
    destruct ((252 <? d) || (len buf <? d + 3)) eqn:Hbig.
    { eexists _, _, _. split; [done|]. simpl. do 3 (split; [done|]). by rewrite ?Hlen'. }
    apply orb_false_iff in Hbig as [Hb1%Z.ltb_ge Hb2%Z.ltb_ge].
    assert (n + 1 <= d + 3) as Hend.
    { destruct (decide (n < 2)); [lia|]. destruct Hd as (d' & Hd' & ?); [lia|].
      rewrite list_lookup_insert_ne in Hd1 by lia.
      rewrite Hd1 in Hd'. injection Hd' as <-. lia. }
    zcase.
    + eexists _, _, _. split; [done|]. split; [simpl; by rewrite Htk|]. split; [|done].
      unfold scan_inv, FRAME_OVERHEAD; simpl. split_and!; [lia..|].
      intros _. exists d. split; [done|]. change PAYLOAD_MAX with 252. lia.
    + rewrite get_to_Some by lia. replace (d + 3) with (n + 1) by lia. rewrite Htk.
      destruct (is_ok _); (eexists _, _, _; split; [done|]; by do 3 (split; [done|])).
  - unfold push, scan_abs; cbn [rx_n rx_in_frame negb scan_step]. subst n.
    destruct ((b =? SYNC) && (FRAME_OVERHEAD <=? len buf)) eqn:Hs.
    + apply andb_true_iff in Hs as [_ Hc%Z.leb_le].
      eexists _, _, _. split; [done|]. split; [done|]. split; [|done].
      unfold scan_inv, FRAME_OVERHEAD in *; simpl. split_and!; [lia..|]. intros; lia.
    + eexists _, _, _. split; [done|]. by do 3 (split; [done|]).
Qed.

(** Only a frame is ever reported. *)
Lemma push_done sc b buf n sc' buf' :
  push sc b buf = (Scan.Done n, (sc', buf')) ->
  sc' = rx_new /\ 0 <= n <= len buf' /\ exists f, decode (take (Z.to_nat n) buf') = Ok f.
Proof.
  unfold push, get_to. intros Hp. repeat case_match; simplify_eq/=.
  destruct (decode _) as [f|] eqn:Hd; [|done].
  split_and!; [done| |by apply Z.leb_le|by exists f].
  apply decode_len in Hd. rewrite len_take in Hd. lia.
Qed.

Lemma push_done_abs sc b buf n sc' buf' :
  scan_inv sc buf -> slice buf -> is_u8 b ->
  push sc b buf = (Scan.Done n, (sc', buf')) ->
  exists acc, scan_abs sc buf = Collecting acc /\ take (Z.to_nat n) buf' = acc ++ [b].
Proof.
  intros Hinv Hbuf Hb Hp. usize_bounds.
  destruct (push_refines sc b buf) as (o & sc1 & buf1 & Hp1 & Hs & _); [done..|].
  rewrite Hp1 in Hp. injection Hp as -> -> ->.
  destruct sc as [m []]; unfold scan_inv, scan_abs in *; simpl in *; [|repeat case_match; done].
  eexists. split; [done|]. destruct Hinv as (_ & Hm & _).
  assert (n = m + 1) as ->.
  { rewrite len_collected in Hs by lia. repeat case_match; congruence. }
  unfold push in Hp1; cbn [negb rx_n rx_in_frame] in Hp1.
  assert (buf' = <[Z.to_nat m := b]> buf) as -> by (repeat case_match; congruence).
  apply take_insert_snoc; lia.
Qed.

Lemma feed_scan_feed s : forall sc buf,
  scan_inv sc buf -> slice buf -> bytes s ->
  exists sc' buf', feed sc buf s = (scan_feed (len buf) (scan_abs sc buf) s, (sc', buf'))
    /\ scan_inv sc' buf' /\ slice buf' /\ len buf' = len buf.
Proof.
  induction s as [|b s IH]; intros sc buf Hinv Hbuf Hs; [by eexists _, _|].
  apply bytes_cons in Hs as [Hb Hs]. cbn [feed scan_feed].
  destruct (push_refines sc b buf) as (o & sc1 & buf1 & Hp & Ha & Hinv1 & Hbuf1 & Hl1); [done..|].
  destruct (IH sc1 buf1) as (sc2 & buf2 & Hf & ?); [done..|]. rewrite Hl1 in *.
  pose proof (fun n e => push_done_abs sc b buf n sc1 buf1 Hinv Hbuf Hb
    (eq_trans Hp (f_equal (fun o => (o, (sc1, buf1))) e))) as Hdone.
  rewrite Hp. exists sc2, buf2. split; [|done].
  destruct (scan_abs sc buf) as [|acc], o as [| |n|]; rewrite Ha, Hf; try done.
  - by destruct (Hdone n eq_refl) as (? & ? & _).
  - by destruct (Hdone n eq_refl) as (? & [= <-] & ->).
Qed.

(** A header in progress takes exactly the declared bytes. *)
Lemma scan_feed_collect cap s : forall acc d,
  acc !! 1%nat = Some d -> d <= PAYLOAD_MAX -> d + FRAME_OVERHEAD <= cap ->
  len acc < d + FRAME_OVERHEAD ->
  scan_feed cap (Collecting acc) s =
    let total := Z.to_nat (d + FRAME_OVERHEAD) in
    if len (acc ++ s) <? d + FRAME_OVERHEAD then []
    else (if is_ok (decode (take total (acc ++ s))) then [take total (acc ++ s)] else [])
         ++ scan_feed cap Hunting (drop total (acc ++ s)).
Proof.
  induction s as [|b s IH]; intros acc d Hd Hmax Hcap Hlen; cbn [scan_feed].
  { rewrite app_nil_r. by zcase; [|lia]. }
  assert ((acc ++ [b]) !! 1%nat = Some d) as Hd' by (by apply lookup_app_l_Some).
  unfold scan_step at 1. rewrite Hd'. zcase; [lia|]. zcase; [lia|]. simpl.
  replace (acc ++ b :: s) with ((acc ++ [b]) ++ s) by (by rewrite <- app_assoc).
  zcase; [by apply IH|].
  assert (len (acc ++ [b]) = d + FRAME_OVERHEAD) as He by lens.
  zcase; [lens|]. rewrite <- He, to_nat_len, take_app_length, drop_app_length.
  by destruct (is_ok _).
Qed.

Lemma scan_feed_frames cap fuel : forall s, bytes s -> (length s <= fuel)%nat ->
  scan_feed cap Hunting s = stream_frames fuel cap s.
Proof.
  induction fuel as [|fuel IH]; intros [|b s] Hs Hf; [done|simpl in Hf; lia|done|].
  simpl in Hf. apply bytes_cons in Hs as [_ Hs].
  cbn [scan_feed stream_frames scan_step].
  destruct (negb _) eqn:Hsync.
  { apply negb_true_iff in Hsync as ->. apply IH; [done|lia]. }
  apply negb_false_iff in Hsync as ->.
  destruct s as [|c [|d s]]; [done|done|]. apply bytes_cons in Hs as [? Hs].
  pose proof (proj1 (proj1 (bytes_cons _ _) Hs)) as Hd.
  pose proof (proj2 (proj1 (bytes_cons _ _) Hs)) as Hs'. simpl in Hf.
  cbn [scan_feed scan_step app lookup list_lookup].
  destruct ((PAYLOAD_MAX <? d) || (cap <? d + FRAME_OVERHEAD)) eqn:Hbig.
  { apply IH; [done|simpl in Hf; lia]. }
  apply orb_false_iff in Hbig as [?%Z.ltb_ge ?%Z.ltb_ge].
  unfold FRAME_OVERHEAD in *. zcase; [|lens].
  rewrite (scan_feed_collect cap s [c; d] d); [|done|done|done|by unfold FRAME_OVERHEAD].
  cbv zeta. unfold FRAME_OVERHEAD. change ([c; d] ++ s) with (c :: d :: s).
  zcase; [done|]. f_equal. apply IH.
  - apply bytes_drop. by rewrite !bytes_cons in *.
  - rewrite length_drop. simpl. lia.
Qed.

(** Fuel beyond the length of the stream changes nothing. *)
Lemma stream_frames_fuel cap fuel s : bytes s -> (length s <= fuel)%nat ->
  stream_frames fuel cap s = stream_frames (length s) cap s.
Proof. intros. by rewrite <- !scan_feed_frames. Qed.

Lemma stream_frames_skip cap fuel g s :
  Forall (fun b => b <> SYNC) g ->
  stream_frames (length g + fuel) cap (g ++ s) = stream_frames fuel cap s.
Proof.
  induction 1 as [|b g Hb _ IH]; [done|]. simpl.
  destruct (Z.eqb_spec b SYNC); [done|]. simpl. apply IH.
Qed.

Lemma stream_frames_wire cap fuel cmd payload s :
  len payload <= PAYLOAD_MAX -> len payload + FRAME_OVERHEAD <= cap -> bytes s ->
  is_u8 cmd -> bytes payload ->
  stream_frames (S fuel) cap (SYNC :: wire cmd payload ++ s)
    = wire cmd payload :: stream_frames fuel cap s.
Proof.
  intros Hp Hc Hs Hcmd Hpl. pose proof (len_nonneg payload). cbn [stream_frames].
  assert (len payload <= 252) by done.
  assert (bytes (wire cmd payload ++ s)) as Hb.
  { apply bytes_app. split; [apply wire_bytes; [done..|lia]|done]. }
  rewrite Z.eqb_refl. unfold FRAME_OVERHEAD in *. zcase; [|lia].
  remember (wire cmd payload ++ s) as w eqn:Hw.
  assert (exists s', w = cmd :: len payload :: s') as (s' & Hw') by (rewrite Hw; by eexists).
  rewrite Hw'. zcase; [lia|]. zcase; [lia|]. rewrite <- Hw', Hw. cbn [orb].
  rewrite <- (len_wire cmd payload), to_nat_len, take_app_length, drop_app_length.
  zcase; [lens|]. by rewrite decode_wire by done.
Qed.

(** Progress inside a frame. *)
Lemma push_progress sc b buf :
  scan_inv sc buf -> slice buf -> is_u8 b -> rx_in_frame sc = true ->
  1 <= rx_left sc buf <= PAYLOAD_MAX + FRAME_OVERHEAD
  /\ exists o sc' buf', push sc b buf = (o, (sc', buf'))
  /\ (o = Scan.Frame /\ rx_in_frame sc' = true /\ rx_left sc' buf' < rx_left sc buf
     \/ (o = Scan.Dropped \/ exists n, o = Scan.Done n) /\ sc' = rx_new).
Proof.
  intros Hinv Hbuf Hb Hin.
  destruct (push_refines sc b buf) as (o & sc' & buf' & Hp & _ & Hinv' & Hbuf' & Hl); [done..|].
  rewrite Hp. destruct sc as [n f]; simpl in Hin; subst f. unfold scan_inv in Hinv; simpl in Hinv.
  destruct Hinv as (Hcap & Hn & Hd).
  change FRAME_OVERHEAD with 3 in *. change PAYLOAD_MAX with 252 in *.
  assert (1 <= rx_left (mkRx n true) buf <= 255) as Hleft.
  { unfold rx_left; simpl. change PAYLOAD_MAX with 252. change FRAME_OVERHEAD with 3.
    zcase; [lia|]. destruct Hd as (d & -> & ?); [lia|]. simpl. lia. }
  split; [done|]. eexists _, _, _. split; [done|].
  unfold push, get_at in Hp; cbn [rx_n rx_in_frame negb] in Hp.
  usize_bounds. pose proof (slice_len _ Hbuf). rewrite usize_add_small in Hp by lia.
  unfold rx_left at 2; simpl. change PAYLOAD_MAX with 252. change FRAME_OVERHEAD with 3.
  repeat case_match; simplify_eq; try (right; by eauto).
  all: left; split_and!; [done..|]; unfold rx_left; cbn [rx_in_frame rx_n].
  all: change PAYLOAD_MAX with 252; change FRAME_OVERHEAD with 3.
  all: zcase; try lia.
  all: unfold scan_inv in Hinv'; simpl in Hinv'; destruct Hinv' as (_ & _ & Hd').
  all: destruct Hd' as (d' & Hd' & ? & ? & ?); [lia|].
  all: change (Z.to_nat 1) with 1%nat in *; rewrite Hd'; simpl.
  all: change PAYLOAD_MAX with 252 in *; change FRAME_OVERHEAD with 3 in *; try lia.
  assert (2 <= n) as Hn2 by lia. destruct (Hd Hn2) as (d'' & Hd'' & ?).
  rewrite list_lookup_insert_ne, Hd'' in Hd' by lia. rewrite Hd''. simplify_eq/=. lia.
Qed.

(** The same as a measure: a push that does not finish a frame either brings
    the end of one closer or is a byte outside any frame. *)
Lemma push_measure sc b buf o sc' buf' :
  scan_inv sc buf -> slice buf -> is_u8 b -> push sc b buf = (o, (sc', buf')) ->
  scan_inv sc' buf' /\ slice buf' /\ len buf' = len buf
  /\ 1 <= rx_left sc' buf' <= PAYLOAD_MAX + FRAME_OVERHEAD + 1
  /\ (o = Scan.Frame -> rx_left sc' buf' < rx_left sc buf).
Proof.
  intros Hinv Hbuf Hb Hp.
  destruct (push_refines sc b buf) as (o1 & sc1 & buf1 & Hp1 & _ & Hi & Hb1 & Hl); [done..|].
  rewrite Hp in Hp1. injection Hp1 as <- <- <-. split_and!; try done.
  - destruct (rx_in_frame sc') eqn:Hin.
    + destruct (push_progress sc' 0 buf') as [? _]; [done..|lia|done|lia].
    + unfold rx_left. rewrite Hin. done.
  - destruct (rx_in_frame sc') eqn:Hin.
    + destruct (push_progress sc' 0 buf') as [? _]; [done..|lia|done|lia].
    + unfold rx_left. rewrite Hin. done.
  - intros ->. destruct (rx_in_frame sc) eqn:Hin.
    + destruct (push_progress sc b buf) as (_ & o & sc1 & buf1 & Hp1 & Ho); [done..|].
      rewrite Hp in Hp1. injection Hp1 as <- <- <-.
      destruct Ho as [(_ & _ & Hlt)|[[Ho|[? Ho]] _]]; done.
    + unfold push in Hp. rewrite Hin in Hp. cbn [negb] in Hp.
      case_match; [|done]. injection Hp as <- <-. unfold rx_left; simpl. by rewrite Hin.
Qed.


(** *** Where a frame ends *)
Fixpoint scan_outcomes (cap : Z) (st : scan_state) (s : list Z) : list Scan.t :=
  match s with
  | [] => []
  | b :: s => let '(o, st) := scan_step cap st b in o :: scan_outcomes cap st s
  end.

Lemma outcomes_abs s : forall sc buf,
  scan_inv sc buf -> slice buf -> bytes s ->
  outcomes sc buf s = scan_outcomes (len buf) (scan_abs sc buf) s.
Proof.
  induction s as [|b s IH]; intros sc buf Hinv Hbuf Hs; [done|].
  apply bytes_cons in Hs as [Hb Hs]. cbn [outcomes scan_outcomes].
  destruct (push_refines sc b buf) as (o & sc1 & buf1 & -> & -> & ? & ? & Hl); [done..|].
  by rewrite IH, Hl.
Qed.

Lemma scan_outcomes_noise cap noise s : Forall (fun b => b <> SYNC) noise ->
  scan_outcomes cap Hunting (noise ++ s)
    = replicate (length noise) Scan.Hunt ++ scan_outcomes cap Hunting s.
Proof.
  induction 1 as [|b noise Hb _ IH]; [done|].
  cbn [scan_outcomes app scan_step length replicate].
  destruct (Z.eqb_spec b SYNC); [done|]. cbn [andb]. by rewrite IH.
Qed.

Lemma scan_outcomes_collect cap cmd payload rest : forall acc,
  len payload <= PAYLOAD_MAX -> len payload + FRAME_OVERHEAD <= cap ->
  rest <> [] -> acc ++ rest = wire cmd payload ->
  scan_outcomes cap (Collecting acc) rest
    = replicate (pred (length rest)) Scan.Frame ++ [Scan.Done (len (wire cmd payload))].
Proof.
  induction rest as [|b rest IH]; intros acc Hp Hc Hne Hw; [done|].
  assert (len acc + 1 + len rest = len payload + 3) as Hlen.
  { rewrite <- (len_wire cmd payload), <- Hw. lens. }
  cbn [scan_outcomes scan_step].
  assert ((acc ++ [b]) ++ rest = wire cmd payload) as Hw' by (by rewrite <- app_assoc).
  destruct rest as [|b' rest].
  - rewrite app_nil_r in Hw'. rewrite Hw'. cbn [pred length replicate app].
    change (wire cmd payload !! 1%nat) with (Some (len payload)). cbv iota beta.
    rewrite len_wire. unfold FRAME_OVERHEAD in *. zcase; [lia|]. zcase; [lia|]. zcase; [lia|].
    by rewrite decode_wire.
  - set (rest' := b' :: rest) in *.
    assert (scan_outcomes cap (Collecting (acc ++ [b])) rest'
      = replicate (pred (length rest')) Scan.Frame ++ [Scan.Done (len (wire cmd payload))]) as Hrest
      by (by apply IH).
    change (pred (length (b :: rest'))) with (S (pred (length rest'))). cbn [replicate app].
    destruct ((acc ++ [b]) !! 1%nat) as [d|] eqn:Hd; [|by rewrite Hrest].
    assert (d = len payload) as ->.
    { apply (lookup_app_l_Some _ rest') in Hd. rewrite Hw' in Hd. by injection Hd as <-. }
    assert (0 <= len rest) by apply len_nonneg.
    assert (len rest' = 1 + len rest) by apply len_cons.
    unfold FRAME_OVERHEAD in *. zcase; [lia|]. zcase; [lia|]. zcase; [|lens]. by rewrite Hrest.
Qed.

(** Line noise without a sync byte, then a whole frame. *)
Lemma outcomes_frame buf noise cmd payload :
  slice buf -> bytes noise -> is_u8 cmd -> bytes payload ->
  Forall (fun b => b <> SYNC) noise ->
  len payload <= PAYLOAD_MAX -> len payload + FRAME_OVERHEAD <= len buf ->
  outcomes rx_new buf (noise ++ SYNC :: wire cmd payload)
    = replicate (length noise) Scan.Hunt ++ replicate (length (wire cmd payload)) Scan.Frame
      ++ [Scan.Done (len (wire cmd payload))].
Proof.
  intros Hbuf Hn Hcmd Hp Hno Hmax Hfit. pose proof (len_nonneg payload).
  assert (len payload <= 252) by done.
  assert (bytes (noise ++ SYNC :: wire cmd payload)) as Hb.
  { apply bytes_app. split; [done|]. apply bytes_cons. split; [by unfold SYNC|].
    apply wire_bytes; [done..|lia]. }
  rewrite outcomes_abs by done. change (scan_abs rx_new buf) with Hunting.
  rewrite scan_outcomes_noise by done. f_equal. cbn [scan_outcomes scan_step].
  rewrite Z.eqb_refl. unfold FRAME_OVERHEAD in *. zcase; [|lia].
  rewrite (scan_outcomes_collect _ cmd payload _ []) by done.
  assert (length (wire cmd payload) = S (pred (length (wire cmd payload)))) as E by done.
  by rewrite E at 2.
Qed.

Lemma feed_wire buf noise cmd payload s :
  slice buf -> bytes noise -> bytes s -> is_u8 cmd -> bytes payload ->
  Forall (fun b => b <> SYNC) noise ->
  len payload <= PAYLOAD_MAX -> len payload + FRAME_OVERHEAD <= len buf ->
  fst (feed rx_new buf (noise ++ SYNC :: wire cmd payload ++ s))
    = wire cmd payload :: fst (feed rx_new buf s).
Proof.
  intros Hbuf Hn Hs Hcmd Hp Hno Hmax Hfit.
  assert (bytes (SYNC :: wire cmd payload ++ s)) as Hb.
  { apply bytes_cons. split; [by unfold SYNC|]. apply bytes_app. split; [|done].
    apply wire_bytes; [done..|]. change PAYLOAD_MAX with 252 in Hmax. lia. }
  destruct (feed_scan_feed (noise ++ SYNC :: wire cmd payload ++ s) rx_new buf)
    as (? & ? & -> & _); [done..|by apply bytes_app|].
  destruct (feed_scan_feed s rx_new buf) as (? & ? & -> & _); [done..|].
  cbn [fst]. change (scan_abs rx_new buf) with Hunting.
  rewrite (scan_feed_frames _ (length (noise ++ SYNC :: wire cmd payload ++ s)))
    by (done || by apply bytes_app).
  rewrite length_app, stream_frames_skip by done. cbn [length].
  rewrite stream_frames_wire, stream_frames_fuel by (done || rewrite length_app; lia).
  by rewrite scan_feed_frames with (fuel := length s).
Qed.

Lemma outcomes_app s1 s2 : forall sc buf,
  outcomes sc buf (s1 ++ s2)
    = outcomes sc buf s1 ++ outcomes (fst (after sc buf s1)) (snd (after sc buf s1)) s2.
Proof.
  induction s1 as [|b s1 IH]; intros sc buf; [done|]. cbn [app outcomes after].
  destruct (push sc b buf) as [o [sc1 buf1]]. by rewrite IH.
Qed.

Lemma feed_single s : forall b sc buf n,
  (forall k, Scan.Done k ∉ outcomes sc buf s) ->
  last (outcomes sc buf (s ++ [b])) = Some (Scan.Done n) ->
  fst (feed sc buf (s ++ [b])) = [take (Z.to_nat n) (snd (after sc buf (s ++ [b])))].
Proof.
  induction s as [|c s IH]; intros b sc buf n Hno Hl.
  - cbn [app outcomes after feed] in *. destruct (push sc b buf) as [o [sc1 buf1]].
    injection Hl as ->. done.
  - cbn [app outcomes after feed] in *. destruct (push sc c buf) as [o [sc1 buf1]] eqn:Hp.
    assert (last (outcomes sc1 buf1 (s ++ [b])) = Some (Scan.Done n)) as Hl'.
    { rewrite last_cons in Hl. destruct (last (outcomes sc1 buf1 (s ++ [b]))) eqn:E; [done|].
      apply last_None in E. destruct s; cbn [app outcomes] in E; repeat case_match; done. }
    assert (forall k, Scan.Done k ∉ outcomes sc1 buf1 s) as Hno'.
    { intros k Hk. apply (Hno k). by right. }
    specialize (IH b sc1 buf1 n Hno' Hl').
    destruct o as [| |k|]; [done..| |done]. destruct (Hno k). left.
Qed.

(** After those bytes the frame is at the front of the buffer. *)
Lemma after_frame buf noise cmd payload :
  slice buf -> bytes noise -> is_u8 cmd -> bytes payload ->
  Forall (fun b => b <> SYNC) noise ->
  len payload <= PAYLOAD_MAX -> len payload + FRAME_OVERHEAD <= len buf ->
  take (length (wire cmd payload)) (snd (after rx_new buf (noise ++ SYNC :: wire cmd payload)))
    = wire cmd payload.
Proof.
  intros Hbuf Hn Hcmd Hp Hno Hmax Hfit.
  pose proof (outcomes_frame buf noise cmd payload Hbuf Hn Hcmd Hp Hno Hmax Hfit) as Ho.
  pose proof (feed_wire buf noise cmd payload [] Hbuf Hn ltac:(constructor) Hcmd Hp Hno Hmax Hfit) as Hf.
  rewrite app_nil_r in Hf. cbn [feed fst] in Hf.
  assert (exists ws w, wire cmd payload = ws ++ [w]) as (ws & w & Hw)
    by (by exists (cmd :: len payload :: payload), (crc8 (cmd :: len payload :: payload))).
  rewrite app_assoc in Ho. replace (noise ++ SYNC :: wire cmd payload)
    with ((noise ++ SYNC :: ws) ++ [w]) in * by (rewrite Hw, <- app_assoc; done).
  rewrite feed_single with (n := len (wire cmd payload)) in Hf.
  - injection Hf as Hf. by rewrite to_nat_len in Hf.
  - intros k Hk. rewrite outcomes_app in Ho. cbn [outcomes] in Ho.
    destruct (push _ w _) as [o [? ?]]. apply app_inj_tail in Ho as [Ho _]. rewrite Ho in Hk.
    apply elem_of_app in Hk as [Hk|Hk]; by apply elem_of_replicate in Hk as [? _].
  - by rewrite Ho, last_snoc.
Qed.

End stream_proofs.

(** ** What the stream adapters count: bytes that are not part of a frame *)
Definition is_junk (o : Scan.t) : bool :=
  match o with Scan.Hunt | Scan.Dropped => true | _ => false end.
Definition junk (os : list Scan.t) : Z := len (List.filter is_junk os).

Lemma junk_cons o os : junk (o :: os) = (if is_junk o then 1 else 0) + junk os.
Proof. unfold junk. simpl. by destruct (is_junk o); rewrite ?len_cons. Qed.
Lemma junk_app os os' : junk (os ++ os') = junk os + junk os'.
Proof. unfold junk. by rewrite List.filter_app, len_app. Qed.
Lemma junk_nonneg os : 0 <= junk os.
Proof. apply len_nonneg. Qed.
Lemma junk_replicate n o : junk (replicate n o) = if is_junk o then Z.of_nat n else 0.
Proof.
  induction n as [|n IH]; [by destruct o|]. cbn [replicate]. rewrite junk_cons, IH.
  destruct (is_junk o); lia.
Qed.

(** The outcomes of a stream that ends in its first whole frame. *)
Definition ends_done (os : list Scan.t) (n : Z) : Prop :=
  exists pre, os = pre ++ [Scan.Done n] /\ forall k, Scan.Done k ∉ pre.

Lemma ends_done_cons o os n : ends_done (o :: os) n ->
  (os = [] /\ o = Scan.Done n) \/ ((forall k, o <> Scan.Done k) /\ ends_done os n).
Proof.
  intros ([|o' pre] & Heq & Hno); [left|right].
  - by injection Heq as -> ->.
  - injection Heq as -> ->. split; [intros k ->; apply (Hno k); left|].
    exists pre. split; [done|]. intros k Hk. apply (Hno k). by right.
Qed.

Lemma frame_ends_done `{PtrWidth} buf noise cmd payload :
  slice buf -> bytes noise -> is_u8 cmd -> bytes payload ->
  Forall (fun b => b <> SYNC) noise ->
  len payload <= PAYLOAD_MAX -> len payload + FRAME_OVERHEAD <= len buf ->
  let os := outcomes rx_new buf (noise ++ SYNC :: wire cmd payload) in
  ends_done os (len payload + 3) /\ junk os = len noise.
Proof.
  intros. subst os. rewrite outcomes_frame, app_assoc by done. split.
  - rewrite len_wire. eexists. split; [done|]. intros k Hk.
    apply elem_of_app in Hk as [Hk|Hk]; by apply elem_of_replicate in Hk as [? _].
  - rewrite !junk_app, !junk_replicate. cbn [is_junk]. change (junk [_]) with 0. unfold len. lia.
Qed.

(** ** Properties *)
Section properties.
Context `{PtrWidth}.

(** [push] reports [Done n] only when the first [n] bytes of the caller's
    buffer are a frame [decode] accepts, whatever state the scanner and the
    buffer were in (also when the caller swaps in another buffer mid-frame);
    the scanner is back to hunting then, and the buffer keeps its length. *)
Theorem push_done_sound sc b buf n sc' buf' :
  push sc b buf = (Scan.Done n, (sc', buf')) ->
  sc' = rx_new /\ len buf' = len buf /\ n <= len buf'
  /\ exists f, decode (take (Z.to_nat n) buf') = Ok f.
Proof.
  intros Hp. pose proof (push_done _ _ _ _ _ _ Hp) as (-> & [_ ?] & ?).
  split_and!; [done| |done|done].
  unfold push in Hp. repeat case_match; simplify_eq; apply len_insert.
Qed.

(** C19: incremental scanning is batch parsing. However the bytes arrive, a
    fresh scanner over a buffer of any size reports exactly the frames that
    the whole-stream parser finds (sync, declared length, skip what cannot
    fit, exactly the declared bytes, keep what decodes), in order. *)
Theorem feed_is_stream_frames buf s :
  slice buf -> bytes s ->
  fst (feed rx_new buf s) = stream_frames (length s) (len buf) s.
Proof.
  intros Hbuf Hs.
  destruct (feed_scan_feed s rx_new buf) as (? & ? & -> & _); [done..|].
  by apply scan_feed_frames.
Qed.

(** A frame sent with its sync byte is recovered from behind any line
    noise that holds no sync byte, in a buffer that fits it, and scanning goes
    on with the bytes behind it. *)
Theorem feed_recovers_frame buf noise cmd payload s :
  slice buf -> bytes noise -> bytes s -> is_u8 cmd -> bytes payload ->
  Forall (fun b => b <> SYNC) noise ->
  len payload <= PAYLOAD_MAX -> len payload + FRAME_OVERHEAD <= len buf ->
  fst (feed rx_new buf (noise ++ SYNC :: wire cmd payload ++ s))
    = wire cmd payload :: fst (feed rx_new buf s).
Proof.
  intros. by apply feed_wire.
Qed.


End properties.

Lemma push_done_sound_witness :
  push (mkRx 2 true) 0x41 [5; 0; 0; 9] = (Scan.Done 3, (rx_new, [5; 0; 0x41; 9]))
  /\ exists f, decode (take (Z.to_nat 3) [5; 0; 0x41; 9]) = Ok f.
Proof.
  assert (push (mkRx 2 true) 0x41 [5; 0; 0; 9] = (Scan.Done 3, (rx_new, [5; 0; 0x41; 9]))) as Hp
    by (vm_compute; reflexivity).
  split; [exact Hp|]. exact (proj2 (proj2 (proj2 (push_done_sound _ _ _ _ _ _ Hp)))).
Defined.

Lemma feed_is_stream_frames_witness :
  fst (feed rx_new [0; 0; 0; 0; 0] [1; SYNC; 6; 2; 0xAA; 0xBB; 0x10; SYNC; 0; 9])
    = [[6; 2; 0xAA; 0xBB; 0x10]].
Proof.
  rewrite (feed_is_stream_frames [0; 0; 0; 0; 0]
    [1; SYNC; 6; 2; 0xAA; 0xBB; 0x10; SYNC; 0; 9]).
  - vm_compute. reflexivity.
  - split; [repeat constructor; lia|by vm_compute].
  - repeat constructor; unfold SYNC; lia.
Defined.

Lemma feed_recovers_frame_witness :
  fst (feed rx_new [0; 0; 0; 0; 0] ([1; 2] ++ SYNC :: wire 6 [0xAA; 0xBB] ++ [3]))
    = [wire 6 [0xAA; 0xBB]].
Proof.
  rewrite (feed_recovers_frame [0; 0; 0; 0; 0] [1; 2] 6 [0xAA; 0xBB] [3]).
  - vm_compute. reflexivity.
  - split; [repeat constructor; lia|by vm_compute].
  - repeat constructor; lia.
  - repeat constructor; lia.
  - lia.
  - repeat constructor; lia.
  - repeat constructor; unfold SYNC; lia.
  - by vm_compute.
  - by vm_compute.
Defined.

