(* ===== verification/Transport.v ===== *)
(** The seam between the session and a platform
    ([updater-core/src/transport.rs]): the transport interface, the laws its
    implementations discharge and a transport that records the wire traffic,
    against which the session's theorems are stated. *)
From S2P Require Import Prelude Errors.

(** [trait Transport]: [request(&mut self, req, rsp)] returns its outcome, the
    transport and the response buffer as they are left. *)
Class Transport (T E : Type) : Type :=
  request : T -> list Z -> list Z -> result Z E * (T * list Z).

(** [impl Transport for &mut T]: the borrow forwards to what it points at. *)
Definition request_mut {T E} `{Transport T E} (t : T) (req rsp : list Z)
  : result Z E * (T * list Z) := request t req rsp.

(** What Rust's types guarantee of any implementation: the response buffer is
    a slice of bytes that cannot be resized, and the count is a [usize]. [ok]
    is what the implementation keeps true of its own state. *)
Class TransportTyped {T E} (tr : Transport T E) `{PtrWidth} (ok : T -> Prop) : Prop :=
  request_typed t req rsp r t' rsp' :
    ok t -> bytes req -> slice rsp -> request t req rsp = (r, (t', rsp')) ->
    ok t' /\ len rsp' = len rsp /\ bytes rsp' /\ (forall n, r = Ok n -> 0 <= n).

(** The clause of the documented contract the types do not enforce: the count
    is at most [rsp.len()]. The session does not rely on it. *)
Class TransportContract {T E} (tr : Transport T E) `{PtrWidth} (ok : T -> Prop) : Prop := {
  contract_typed : TransportTyped tr ok;
  contract_count t req rsp n t' rsp' :
    ok t -> bytes req -> slice rsp -> request t req rsp = (Ok n, (t', rsp')) ->
    n <= len rsp;
}.

(** ** Recording the wire traffic *)

(** One call of [request]: what was sent, what came back. *)
Record Attempt (E : Type) := mkAttempt {
  at_req : list Z;
  at_res : result Z E;
  at_rsp : list Z;
}.
Arguments mkAttempt {E} at_req at_res at_rsp.
Arguments at_req {E} a.
Arguments at_res {E} a.
Arguments at_rsp {E} a.

Record Logged (T E : Type) := mkLogged { lg_inner : T; lg_log : list (Attempt E) }.
Arguments mkLogged {T E} lg_inner lg_log.
Arguments lg_inner {T E} l.
Arguments lg_log {T E} l.

#[global] Instance transport_logged {T E} `{Transport T E} : Transport (Logged T E) E :=
  fun l req rsp =>
    let '(r, (t, rsp')) := request (lg_inner l) req rsp in
    (r, (mkLogged t (lg_log l ++ [mkAttempt req r rsp']), rsp')).

(** A recorder is as good as the transport in it. *)
#[global] Instance typed_logged {T E} (tr : Transport T E) `{PtrWidth} ok :
  TransportTyped tr ok -> TransportTyped (@transport_logged T E tr) (fun l => ok (lg_inner l)).
Proof.
  intros Ht l req rsp r t' rsp' Hok Hreq Hrsp.
  unfold request at 1, transport_logged.
  destruct (request (lg_inner l) req rsp) as [r1 [t1 rsp1]] eqn:Hr. intros [= <- <- <-].
  by apply (Ht _ _ _ _ _ _ Hok Hreq Hrsp Hr).
Qed.
