(* ===== verification/Session.v ===== *)
(** The session engine ([updater-core/src/session.rs]): retried exchanges,
    the frame-buffer windows, and the INFO / ECHO / BOOT / ERASE / WRITE /
    VERIFY sequence, over any transport. *)
From S2P Require Import Prelude Errors Frame Image Transport.

Definition RETRY_BUDGET : Z := 3.
Definition INFO_RSP_PAYLOAD : Z := 12.
Definition ST_RSP_PAYLOAD : Z := 1.

Record DeviceInfo := mkInfo {
  di_proto : Z;
  di_bl_version : Z;
  di_device_id : list Z;
  di_page_size : Z;
  di_app_pages : Z;
  di_app_valid : bool;
}.

#[global] Instance device_info_eq_dec : EqDecision DeviceInfo.
Proof. solve_decision. Defined.

(** A session owns its transport and borrows the one frame buffer. *)
Record Session (T : Type) := mkSession { transport : T; buf : list Z }.
Arguments mkSession {T} transport buf.
Arguments transport {T} s.
Arguments buf {T} s.

Definition new {T} (t : T) (frame_buf : list Z) : Session T := mkSession t frame_buf.
Definition into_transport {T} (s : Session T) : T := transport s.

(** Why a received response cannot be accepted. *)
Inductive Reject := Mangled | DeviceBadFrame | Fatal (st : Z).

Section session.
Context `{PtrWidth}.

(** Both windows and what lies behind them in the buffer, which the borrow
    leaves alone. *)
Definition split_windows {E} (buf : list Z) (tx_len rx_len : Z)
  : result (list Z * list Z * list Z) (Error.t E) :=
  let needed := usize_saturating_add tx_len rx_len in
  let too_small := Error.BufferTooSmall needed in
  match get_to needed buf with
  | None => Err too_small
  | Some region =>
    match split_at_checked tx_len region with
    | None => Err too_small
    | Some (tx, rx) => Ok (tx, rx, drop (Z.to_nat needed) buf)
    end
  end.

Definition validate (raw : list Z) (expect_cmd : Z) : result unit Reject :=
  match decode_padded raw with
  | Err _ => Err Mangled
  | Ok decoded =>
    if negb (frame_cmd decoded =? expect_cmd) then Err Mangled else
    match frame_payload decoded with
    | [] => Err Mangled
    | st :: _ =>
      if st =? ST_OK then Ok tt
      else if st =? ST_BAD_FRAME then Err DeviceBadFrame
      else Err (Fatal st)
    end
  end.

Definition parse_info {E} (rest : list Z) : result DeviceInfo (Error.t E) :=
  match rest with
  | [proto; bl_version; d0; d1; d2; d3; ps_lo; ps_hi; ap_lo; ap_hi; valid] =>
      Ok (mkInfo proto bl_version [d0; d1; d2; d3]
            (u16_from_le_bytes ps_lo ps_hi) (u16_from_le_bytes ap_lo ap_hi)
            (negb (valid =? 0)))
  | _ => Err Error.BadFrame
  end.

Context {T E : Type} `{Transport T E}.

(** The [for _attempt in 0..=RETRY_BUDGET] loop. *)
Fixpoint exchange_loop (attempts : nat) (last : Error.t E) (t : T) (tx rx : list Z)
    (expect_cmd : Z) : result Z (Error.t E) * (T * list Z) :=
  match attempts with
  | O => (Err last, (t, rx))
  | S attempts =>
    match request t tx rx with
    | (Err e, (t, rx)) => exchange_loop attempts (Error.Transport e) t tx rx expect_cmd
    | (Ok n, (t, rx)) =>
      let rlen := Z.min n (len rx) in
      let raw := default [] (get_to rlen rx) in
      match validate raw expect_cmd with
      | Ok _ => (Ok rlen, (t, rx))
      | Err Mangled => exchange_loop attempts Error.BadFrame t tx rx expect_cmd
      | Err DeviceBadFrame =>
          exchange_loop attempts (Error.Device ST_BAD_FRAME) t tx rx expect_cmd
      | Err (Fatal st) => (Err (Error.Device st), (t, rx))
      end
    end
  end.

Definition exchange (t : T) (tx rx : list Z) (expect_cmd : Z)
  : result Z (Error.t E) * (T * list Z) :=
  exchange_loop (S (Z.to_nat RETRY_BUDGET)) Error.BadFrame t tx rx expect_cmd.

Abbreviation sess := (stm (Session T) (Error.t E)).

Definition transact (cmd : Z) (payload : list Z) (rsp_payload_cap : Z) : sess (list Z) :=
  fun s =>
  match usize_checked_add (len payload) FRAME_OVERHEAD with
  | None => (Err (Error.PayloadTooLarge (len payload)), s)
  | Some tx_len =>
    let rx_len := usize_wrapping_add rsp_payload_cap FRAME_OVERHEAD in
    match split_windows (buf s) tx_len rx_len with
    | Err e => (Err e, s)
    | Ok (tx, rx, behind) =>
      match encode cmd payload tx with
      | (Err e, tx) => (Err (Error.widen e), mkSession (transport s) (tx ++ rx ++ behind))
      | (Ok _, tx) =>
        let '(r, (t, rx)) := exchange (transport s) tx rx (Z.lor cmd RSP_FLAG) in
        let s := mkSession t (tx ++ rx ++ behind) in
        match r with
        | Err e => (Err e, s)
        | Ok rlen =>
          match get_to rlen rx with
          | None => (Err Error.BadFrame, s)
          | Some raw =>
            match decode_padded raw with
            | Err e => (Err (Error.widen e), s)
            | Ok decoded =>
              match frame_payload decoded with
              | [] => (Err Error.BadFrame, s)
              | _st :: rest => (Ok rest, s)
              end
            end
          end
        end
      end
    end
  end.

(** The page is rendered in place, behind the four header bytes of the
    transmit window. *)
Definition write_page (img : Image) (index : Z) : sess unit :=
  fun s =>
  let ps := img_page_size img in
  let payload_len := usize_wrapping_add ps 2 in
  let tx_len := usize_wrapping_add payload_len FRAME_OVERHEAD in
  let rx_len := usize_wrapping_add ST_RSP_PAYLOAD FRAME_OVERHEAD in
  let too_small := Error.BufferTooSmall tx_len in
  match split_windows (buf s) tx_len rx_len with
  | Err e => (Err e, s)
  | Ok (tx, rx, behind) =>
    let leave tx := mkSession (transport s) (tx ++ rx ++ behind) in
    match u8_try_from payload_len with
    | None => (Err (Error.PayloadTooLarge payload_len), s)
    | Some len_byte =>
      let idx := u16_to_le_bytes index in
      match split_at_checked 4 tx with
      | None => (Err too_small, s)
      | Some (_, rest) =>
        let header := [CMD_WRITE_PAGE; len_byte] ++ idx in
        match split_at_checked ps rest with
        | None => (Err too_small, leave (header ++ rest))
        | Some (page, tail) =>
          match page_into img index page with
          | (Err e, page) => (Err (Error.widen e), leave (header ++ page ++ tail))
          | (Ok _, page) =>
            let tx := header ++ page ++ tail in
            let crc_at := usize_wrapping_sub tx_len 1 in
            match get_to crc_at tx with
            | None => (Err too_small, leave tx)
            | Some body =>
              let crc := crc8 body in
              match get_at crc_at tx with
              | None => (Err too_small, leave tx)
              | Some _ =>
                let tx := <[Z.to_nat crc_at := crc]> tx in
                let '(r, (t, rx)) :=
                  exchange (transport s) tx rx (Z.lor CMD_WRITE_PAGE RSP_FLAG) in
                let s := mkSession t (tx ++ rx ++ behind) in
                match r with
                | Err e => (Err e, s)
                | Ok _ => (Ok tt, s)
                end
              end
            end
          end
        end
      end
    end
  end.

Local Open Scope stm_scope.

Definition lift {A} (r : result A (Error.t E)) : sess A := fun s => (r, s).

Definition info : sess DeviceInfo :=
  let? rest := transact CMD_INFO [] INFO_RSP_PAYLOAD in lift (parse_info rest).

Definition echo (data : list Z) : sess unit :=
  if ECHO_MAX <? len data then sfail (Error.PayloadTooLarge (len data)) else
  let cap := usize_wrapping_add (len data) ST_RSP_PAYLOAD in
  let? rest := transact CMD_ECHO data cap in
  if decide (rest = data) then sret tt else sfail Error.BadFrame.

Definition boot : sess unit := transact CMD_BOOT [] ST_RSP_PAYLOAD ;? sret tt.

(** [flash] also drives the caller's [progress] callback: an opaque function
    on the caller's state [P]. *)
Context {P : Type} (progress : Z -> Z -> P -> P).

Definition on_session {A} (m : sess A) : stm (Session T * P) (Error.t E) A :=
  fun '(s, p) => let '(r, s) := m s in (r, (s, p)).
Definition report (done total : Z) : stm (Session T * P) (Error.t E) unit :=
  fun '(s, p) => (Ok tt, (s, progress done total p)).

Fixpoint flash_pages (img : Image) (total : Z) (indices : list Z) (done : Z)
  : stm (Session T * P) (Error.t E) unit :=
  match indices with
  | [] => sret tt
  | index :: indices =>
      on_session (write_page img index) ;?
      report (u16_saturating_add done 1) total ;?
      flash_pages img total indices (u16_saturating_add done 1)
  end.

Definition verify_payload (img : Image) : list Z :=
  u32_to_le_bytes (img_len img) ++ u32_to_le_bytes (img_crc img).

Definition flash (img : Image) : stm (Session T * P) (Error.t E) unit :=
  let? info := on_session info in
  if negb (di_proto info =? PROTO_VERSION) then sfail (Error.ProtocolVersion (di_proto info))
  else if negb (di_page_size info =? img_page_size img)
       || negb (di_app_pages info =? img_app_pages img)
  then sfail (Error.BadGeometry (di_page_size info) (di_app_pages info))
  else
    on_session (transact CMD_ERASE_APP ERASE_MAGIC ST_RSP_PAYLOAD) ;?
    let indices := pages_list (pages img) in
    let total := default 65535 (u16_try_from (len indices)) in
    report 0 total ;?
    flash_pages img total indices 0 ;?
    on_session (transact CMD_VERIFY (verify_payload img) ST_RSP_PAYLOAD) ;?
    sret tt.

End session.

(** ** Specification: what one attempt is worth, and what a whole exchange is *)
Section spec.
Context `{PtrWidth} {E : Type}.

(** The session's judgement of one attempt. *)
Definition verdict (expect_cmd : Z) (a : Attempt E) : result Z (Error.t E) :=
  match at_res a with
  | Err e => Err (Error.Transport e)
  | Ok n =>
    let rlen := Z.min n (len (at_rsp a)) in
    match decode_padded (default [] (get_to rlen (at_rsp a))) with
    | Ok f =>
      if negb (frame_cmd f =? expect_cmd) then Err Error.BadFrame else
      match frame_payload f with
      | [] => Err Error.BadFrame
      | st :: _ => if st =? ST_OK then Ok rlen else Err (Error.Device st)
      end
    | Err _ => Err Error.BadFrame
    end
  end.

Definition retryable (r : result Z (Error.t E)) : bool :=
  match r with
  | Err (Error.Transport _) | Err Error.BadFrame => true
  | Err (Error.Device st) => st =? ST_BAD_FRAME
  | _ => false
  end.

(** At most [budget] identical requests; every one but the last was judged
    retryable, the last one's verdict is the outcome and its response [rsp], and
    a retryable outcome means the budget is spent. *)
Definition exchanged (budget : nat) (expect_cmd : Z) (tx : list Z)
    (atts : list (Attempt E)) (rsp : list Z) (r : result Z (Error.t E)) : Prop :=
  exists init a, atts = init ++ [a] /\ at_rsp a = rsp
    /\ Forall (fun a => at_req a = tx) atts
    /\ Forall (fun a => retryable (verdict expect_cmd a) = true) init
    /\ verdict expect_cmd a = r
    /\ (length atts <= budget)%nat
    /\ (retryable r = true -> length atts = budget).

(** The response window holds a frame for [expect_cmd] with status OK and
    [payload] behind it. *)
Definition ok_response (expect_cmd : Z) (rlen : Z) (rx payload : list Z) : Prop :=
  0 <= rlen <= len rx
  /\ decode_padded (take (Z.to_nat rlen) rx) = Ok (mkFrame expect_cmd (ST_OK :: payload)).

(** A log that grew by exchanges for [frames], in order, each sent one to four
    times. *)
Definition sent (log log' : list (Attempt E)) (frames : list (list Z)) : Prop :=
  exists runs : list (list (Attempt E)),
    log' = log ++ concat runs
    /\ Forall2 (fun run f => Forall (fun a => at_req a = f) run
                             /\ (1 <= length run <= S (Z.to_nat RETRY_BUDGET))%nat) runs frames.

Lemma sent_nil log : sent log log [].
Proof. exists []. by rewrite app_nil_r. Qed.
Lemma sent_app log log1 log2 fs gs :
  sent log log1 fs -> sent log1 log2 gs -> sent log log2 (fs ++ gs).
Proof.
  intros (r1 & -> & H1) (r2 & -> & H2). exists (r1 ++ r2). split.
  - by rewrite concat_app, app_assoc.
  - by apply Forall2_app.
Qed.
Lemma exchanged_sent c tx atts rsp r log :
  exchanged (S (Z.to_nat RETRY_BUDGET)) c tx atts rsp r -> sent log (log ++ atts) [tx].
Proof.
  intros (init & a & -> & _ & Hf & _ & _ & Hl & _). exists [init ++ [a]]. split.
  - simpl. by rewrite app_nil_r.
  - constructor; [|constructor]. split; [done|]. rewrite length_app in *; simpl in *. lia.
Qed.
Lemma exchanged_one budget c (a : Attempt E) :
  (1 <= budget)%nat -> (retryable (verdict c a) = true -> budget = 1%nat) ->
  exchanged budget c (at_req a) [a] (at_rsp a) (verdict c a).
Proof.
  intros Hb Hr. exists [], a. split_and!; [done|done|by repeat constructor|constructor|done|done|].
  intros Hv. by rewrite (Hr Hv).
Qed.

(** The command code of the answer to a frame. *)
Definition answer_to (frame : list Z) : Z := Z.lor (default 0 (head frame)) RSP_FLAG.
(** A log that grew by one exchange per frame, in order, with the verdicts
    [vs]. *)
Definition conversed (log log' : list (Attempt E)) (frames : list (list Z)) (vs : list (result Z (Error.t E))) : Prop :=
  exists runs : list (list (Attempt E)),
    log' = log ++ concat runs
    /\ Forall3 (fun run f v => exists rsp, exchanged (S (Z.to_nat RETRY_BUDGET)) (answer_to f) f run rsp v) runs frames vs.
(** Every exchange was acknowledged, except perhaps the last one, whose error is
    then the outcome. *)
Definition stops {A} (vs : list (result Z (Error.t E))) (r : result A (Error.t E)) : Prop :=
  exists acked, Forall (fun v => is_ok v = true) acked
    /\ (vs = acked \/ exists e, vs = acked ++ [Err e] /\ r = Err e).
Definition acks (vs : list (result Z (Error.t E))) : nat := length (List.filter is_ok vs).

Lemma conversed_nil log : conversed log log [] [].
Proof. exists []. rewrite app_nil_r. by split; [|constructor]. Qed.
Lemma conversed_app log log1 log2 fs gs vs ws :
  conversed log log1 fs vs -> conversed log1 log2 gs ws -> conversed log log2 (fs ++ gs) (vs ++ ws).
Proof.
  intros (r1 & -> & H1) (r2 & -> & H2). exists (r1 ++ r2). split; [by rewrite concat_app, app_assoc|].
  by apply Forall3_app.
Qed.
Lemma exchanged_conversed f atts rsp v log :
  exchanged (S (Z.to_nat RETRY_BUDGET)) (answer_to f) f atts rsp v -> conversed log (log ++ atts) [f] [v].
Proof.
  intros Hx. exists [atts]. split; [by rewrite concat_cons, app_nil_r|]. constructor; [by exists rsp|constructor].
Qed.
Lemma conversed_sent log log' fs vs : conversed log log' fs vs -> sent log log' fs.
Proof.
  intros (runs & -> & Hr). exists runs. split; [done|]. induction Hr as [|run f v runs fs vs (rsp & Hx) _ IH]; constructor; [|done].
  destruct Hx as (init & a & -> & _ & Hf & _ & _ & Hl & _). split; [done|]. rewrite length_app in *. simpl in *. lia.
Qed.
Lemma stops_nil {A} (r : result A (Error.t E)) : stops [] r.
Proof. exists []. by split; [constructor|left]. Qed.
Lemma stops_one {A} v (r : result A (Error.t E)) : (forall e, v = Err e -> r = Err e) -> stops [v] r.
Proof.
  intros Hv. destruct v as [n|e]; [exists [Ok n]; split; [by constructor|by left]|].
  exists []. split; [constructor|]. right. exists e. split; [done|auto].
Qed.
Lemma stops_ok {A} vs (a : A) : stops vs (Ok a : result A (Error.t E)) -> Forall (fun v => is_ok v = true) vs.
Proof. by intros (acked & Ha & [->|(e & _ & ?)]). Qed.
Lemma stops_app {A} vs ws (r : result A (Error.t E)) :
  Forall (fun v => is_ok v = true) vs -> stops ws r -> stops (vs ++ ws) r.
Proof.
  intros Hv (acked & Ha & Hw). exists (vs ++ acked). split; [by apply Forall_app|].
  destruct Hw as [->|(e & -> & ->)]; [by left|right]. exists e. by rewrite app_assoc.
Qed.
Lemma acks_app vs ws : acks (vs ++ ws) = (acks vs + acks ws)%nat.
Proof. unfold acks. by rewrite List.filter_app, length_app. Qed.

(** Requests on the wire are bounded by four per frame. *)
Lemma sent_length log log' fs : sent log log' fs ->
  (length log + length fs <= length log' <= length log + 4 * length fs)%nat.
Proof.
  intros (runs & -> & Hr). rewrite length_app.
  enough (length fs <= length (concat runs) <= 4 * length fs)%nat by lia.
  induction Hr as [|run f runs fs [_ Hl] _ IH]; [done|]. cbn [concat length].
  rewrite length_app. change (S (Z.to_nat RETRY_BUDGET)) with 4%nat in Hl. lia.
Qed.

(** The frames of a flash behind INFO. *)
Definition page_frame (img : Image) (i : Z) : list Z :=
  wire CMD_WRITE_PAGE (u16_to_le_bytes i ++ page_of (img_page_size img) (region img) i).
Definition info_frame : list Z := wire CMD_INFO [].
Definition erase_frame : list Z := wire CMD_ERASE_APP ERASE_MAGIC.
Definition verify_frame (img : Image) : list Z := wire CMD_VERIFY (verify_payload img).
Definition flash_frames (img : Image) : list (list Z) :=
  info_frame :: erase_frame :: (page_frame img <$> pages_list (pages img)) ++ [verify_frame img].

(** An INFO payload as the protocol lays it out. *)
Definition info_payload (i : DeviceInfo) : list Z :=
  [di_proto i; di_bl_version i] ++ di_device_id i
  ++ u16_to_le_bytes (di_page_size i) ++ u16_to_le_bytes (di_app_pages i)
  ++ [if di_app_valid i then 1 else 0].

End spec.

(** ** Exchanges *)
Section exchange_proofs.
Context `{PtrWidth} {T E : Type} `{Transport T E}.
Implicit Types tx rx : list Z.

(** [validate] is [verdict] on the response alone. *)
Lemma validate_verdict tx n rx c :
  verdict c (mkAttempt (E:=E) tx (Ok n) rx) =
    match validate (default [] (get_to (Z.min n (len rx)) rx)) c with
    | Ok _ => Ok (Z.min n (len rx))
    | Err Mangled => Err Error.BadFrame
    | Err DeviceBadFrame => Err (Error.Device ST_BAD_FRAME)
    | Err (Fatal st) => Err (Error.Device st)
    end.
Proof.
  unfold verdict, validate; simpl. destruct (decode_padded _) as [f|]; [|done].
  destruct (negb _); [done|]. destruct (frame_payload f) as [|st p]; [done|].
  zcase; [done|]. by zcase; [subst|].
Qed.

Lemma verdict_ok c (a : Attempt E) rlen :
  (forall n, at_res a = Ok n -> 0 <= n) ->
  verdict c a = Ok rlen -> exists p, ok_response c rlen (at_rsp a) p.
Proof.
  intros Hn. unfold verdict, ok_response. destruct (at_res a) as [n|]; [|done].
  specialize (Hn n eq_refl). pose proof (len_nonneg (at_rsp a)).
  rewrite get_to_Some by lia. simpl.
  destruct (decode_padded _) as [[c' p]|] eqn:Hd; [|done]; simpl.
  destruct (Z.eqb_spec c' c) as [->|]; [|done]; simpl.
  destruct p as [|st p]; [done|]. zcase; [|done]. intros [= <-]. subst st.
  exists p. split; [lia|done].
Qed.

(** One turn of the loop. *)
Lemma exchange_loop_step k last (t : T) tx rx c :
  exchange_loop (S k) last t tx rx c =
    let '(r, (t, rx)) := request t tx rx in
    let v := verdict c (mkAttempt tx r rx) in
    if retryable v then
      exchange_loop k (match v with Err e => e | Ok _ => last end) t tx rx c
    else (v, (t, rx)).
Proof.
  cbn [exchange_loop]. destruct (request t tx rx) as [[n|e] [t' rx']]; [|done].
  rewrite validate_verdict. unfold validate. cbv zeta.
  destruct (decode_padded _) as [f|]; [|done].
  destruct (negb _); [done|]. destruct (frame_payload f) as [|st p]; [done|].
  zcase; [done|]. zcase; [done|]. simpl. by zcase.
Qed.
End exchange_proofs.

Section exchange_logged.
Context `{PtrWidth} {T E : Type} `{Transport T E}.
Implicit Types tx rx : list Z.

(** Attempts on a recorded transport, whatever the transport does. *)
Lemma exchange_loop_logged k c tx : forall last (l : Logged T E) rx r l' rx',
  exchange_loop (S k) last l tx rx c = (r, (l', rx')) ->
  exists atts, lg_log l' = lg_log l ++ atts /\ exchanged (S k) c tx atts rx' r.
Proof.
  induction k as [|k IH]; intros last l rx r l' rx'; rewrite exchange_loop_step;
    unfold request at 1, transport_logged;
    destruct (request (lg_inner l) tx rx) as [r1 [t1 rx1]]; cbv beta iota zeta;
    set (a := mkAttempt tx r1 rx1); set (v := verdict c a);
    destruct (retryable v) eqn:Hr.
  2, 4: intros [<- [<- <-]%pair_equal_spec]%pair_equal_spec; exists [a]; split; [done|];
    apply exchanged_one; [lia|subst v; congruence].
  - simpl. intros [<- [<- <-]%pair_equal_spec]%pair_equal_spec. exists [a]. split; [done|].
    replace (Err _) with v by (by destruct v). by apply exchanged_one.
  - intros (atts & Hlog & init & a' & -> & Hrsp & Hreq & Hinit & Hv & Hlen & Hb)%IH.
    exists (a :: init ++ [a']). split.
    { rewrite Hlog. simpl. by rewrite <- app_assoc. }
    exists (a :: init), a'. split_and!; simpl; try done.
    + by constructor.
    + by constructor.
    + simpl in *. lia.
    + intros Hr'. by rewrite Hb.
Qed.

Lemma exchange_logged c tx (l : Logged T E) rx r l' rx' :
  exchange l tx rx c = (r, (l', rx')) ->
  exists atts, lg_log l' = lg_log l ++ atts
    /\ exchanged (S (Z.to_nat RETRY_BUDGET)) c tx atts rx' r.
Proof. apply exchange_loop_logged. Qed.
End exchange_logged.

Section exchange_typed.
Context `{PtrWidth} {T E : Type} (tr : Transport T E) (ok : T -> Prop) {Hty : TransportTyped tr ok}.
Implicit Types tx rx : list Z.

(** The error values an exchange can end in. *)
Definition wire_error (e : Error.t E) : Prop :=
  match e with
  | Error.Transport _ | Error.BadFrame => True
  | Error.Device st => st <> ST_OK
  | _ => False
  end.

Lemma verdict_wire_error c (a : Attempt E) e : verdict c a = Err e -> wire_error e.
Proof.
  unfold verdict. intros Hv. repeat case_match; simplify_eq; try done. by apply Z.eqb_neq.
Qed.

Lemma exchange_loop_typed k c tx : forall last t rx r t' rx',
  ok t -> bytes tx -> slice rx -> wire_error last ->
  exchange_loop k last t tx rx c = (r, (t', rx')) ->
  ok t' /\ len rx' = len rx /\ bytes rx'
  /\ match r with Ok rlen => exists p, ok_response c rlen rx' p | Err e => wire_error e end.
Proof.
  induction k as [|k IH]; intros last t rx r t' rx' Hok Htx Hrx Hlast.
  { simpl. intros [= <- <- <-]. by split_and!; [..|apply slice_bytes|]. }
  rewrite exchange_loop_step. destruct (request t tx rx) as [r1 [t1 rx1]] eqn:Hreq.
  destruct (request_typed _ _ _ _ _ _ Hok Htx Hrx Hreq) as (Hok1 & Hl1 & Hb1 & Hn1).
  cbv beta iota zeta.
  destruct (retryable _) eqn:Hr.
  - intros Hx. apply IH in Hx as (? & ? & ? & ?); [|done|done| |].
    + split_and!; try done. by rewrite <- Hl1.
    + split; [done|]. rewrite Hl1. by apply slice_len.
    + destruct (verdict _ _) eqn:Hv; [done|]. by apply verdict_wire_error in Hv.
  - intros [<- [<- <-]%pair_equal_spec]%pair_equal_spec. split_and!; try done.
    destruct (verdict _ _) eqn:Hv; [|exact (verdict_wire_error _ _ _ Hv)].
    exact (verdict_ok c (mkAttempt tx r1 rx1) _ Hn1 Hv).
Qed.

Lemma exchange_typed c tx t rx r t' rx' :
  ok t -> bytes tx -> slice rx -> exchange t tx rx c = (r, (t', rx')) ->
  ok t' /\ len rx' = len rx /\ bytes rx'
  /\ match r with Ok rlen => exists p, ok_response c rlen rx' p | Err e => wire_error e end.
Proof. intros ???. by apply exchange_loop_typed. Qed.
End exchange_typed.

(** ** Transactions, as the one exchange they are *)
Section windows.
Context `{PtrWidth} {T E : Type} `{Transport T E}.
Implicit Types s : Session T.
Implicit Types tx rx payload : list Z.

Lemma split_windows_spec buf tx_len rx_len :
  0 <= tx_len -> 0 <= rx_len -> tx_len + rx_len <= usize_max ->
  split_windows (E:=E) buf tx_len rx_len =
    if len buf <? tx_len + rx_len then Err (Error.BufferTooSmall (tx_len + rx_len))
    else Ok (take (Z.to_nat tx_len) buf, take (Z.to_nat rx_len) (drop (Z.to_nat tx_len) buf),
             drop (Z.to_nat (tx_len + rx_len)) buf).
Proof.
  intros. unfold split_windows, usize_saturating_add. rewrite Z.min_l by lia.
  zcase; [by rewrite get_to_None|].
  rewrite get_to_Some, split_at_checked_Some by lens.
  replace (Z.to_nat (tx_len + rx_len)) with (Z.to_nat tx_len + Z.to_nat rx_len)%nat by lia.
  by rewrite take_take, Nat.min_l, take_drop_commute by lia.
Qed.

Definition rx_window (tx_len rx_len : Z) (buf : list Z) : list Z :=
  take (Z.to_nat rx_len) (drop (Z.to_nat tx_len) buf).
Lemma bytes_rx_window n m buf : bytes buf -> bytes (rx_window n m buf).
Proof. unfold rx_window. auto with ota. Qed.

(** What [transact] hands back of an accepted response. *)
Definition response_payload (rlen : Z) (rx : list Z) : result (list Z) (Error.t E) :=
  match get_to rlen rx with
  | None => Err Error.BadFrame
  | Some raw =>
    match decode_padded raw with
    | Err e => Err (Error.widen e)
    | Ok decoded =>
      match frame_payload decoded with
      | [] => Err Error.BadFrame
      | _st :: rest => Ok rest
      end
    end
  end.

Lemma transact_eq cmd payload cap s :
  slice (buf s) -> is_u8 cmd -> bytes payload -> len payload <= PAYLOAD_MAX -> 0 <= cap <= 255 ->
  transact cmd payload cap s =
    let needed := len payload + cap + 6 in
    if len (buf s) <? needed then (Err (Error.BufferTooSmall needed), s) else
    let '(v, (t, rx)) := exchange (transport s) (wire cmd payload)
      (rx_window (len payload + 3) (cap + 3) (buf s)) (Z.lor cmd RSP_FLAG) in
    let s' := mkSession t (wire cmd payload ++ rx ++ drop (Z.to_nat needed) (buf s)) in
    match v with Err e => (Err e, s') | Ok rlen => (response_payload rlen rx, s') end.
Proof.
  intros [Hb Hl] Hcmd Hp Hmax Hcap. usize_bounds. pose proof (len_nonneg payload).
  assert (len payload <= 252) by done.
  unfold transact, usize_checked_add, FRAME_OVERHEAD. zcase; [|lia].
  rewrite usize_add_small, split_windows_spec by lia.
  replace (len payload + 3 + (cap + 3)) with (len payload + cap + 6) by lia.
  cbv zeta. zcase; [done|].
  set (tx := take _ (buf s)). assert (len tx = len payload + 3) as Htx by (subst tx; lens).
  rewrite encode_ok, drop_ge, app_nil_r by first [done | lens | apply Nat2Z.inj_le; fold (len tx) (len (wire cmd payload)); lens].
  unfold rx_window, response_payload.
  destruct (exchange _ _ _ _) as [[rlen|e] [t' rx']]; [|done]. by repeat case_match.
Qed.

(** Overwriting the last byte of a rendered window with the checksum of the
    others makes it the frame. *)
Lemma window_is_wire body x cmd payload :
  cmd :: len payload :: payload = body ->
  <[Z.to_nat (len body) := crc8 body]> (body ++ [x]) = wire cmd payload.
Proof.
  intros <-. rewrite to_nat_len, <- (Nat.add_0_r (length _)), insert_app_r. done.
Qed.

Lemma len_page_frame img i : image_wf img -> 0 <= i < img_app_pages img ->
  len (page_frame img i) = img_page_size img + 5.
Proof. intros Hwf Hi. unfold page_frame, u16_to_le_bytes. pose proof (len_region_page img i Hwf Hi). lens. Qed.
Lemma bytes_page_frame img i : image_wf img -> 0 <= i < img_app_pages img -> bytes (page_frame img i).
Proof.
  intros Hwf Hi. pose proof (wf_page_size _ Hwf) as Hps. change PAGE_SIZE_MAX with 250 in Hps.
  pose proof (wf_pages _ Hwf). pose proof (len_region_page img i Hwf Hi).
  apply wire_bytes; [by unfold CMD_WRITE_PAGE| |unfold u16_to_le_bytes; lens].
  rewrite bytes_app. split; [|by apply region_page_bytes]. auto with ota.
Qed.

Lemma write_page_eq img i s : image_wf img -> 0 <= i < img_app_pages img -> slice (buf s) ->
  write_page img i s =
    let needed := img_page_size img + 9 in
    if len (buf s) <? needed then (Err (Error.BufferTooSmall needed), s) else
    let '(v, (t, rx)) := exchange (transport s) (page_frame img i)
      (rx_window (img_page_size img + 5) 4 (buf s)) (Z.lor CMD_WRITE_PAGE RSP_FLAG) in
    let s' := mkSession t (page_frame img i ++ rx ++ drop (Z.to_nat needed) (buf s)) in
    match v with Err e => (Err e, s') | Ok _ => (Ok tt, s') end.
Proof.
  intros Hwf Hi [Hb Hl]. usize_bounds.
  pose proof (wf_page_size _ Hwf) as Hps. change PAGE_SIZE_MAX with 250 in Hps.
  change FOOTER_LEN with 16 in Hps. pose proof (wf_pages _ Hwf) as Hap.
  set (ps := img_page_size img) in *.
  unfold write_page. fold ps. change FRAME_OVERHEAD with 3. change ST_RSP_PAYLOAD with 1.
  rewrite !(usize_add_small 1 3), !(usize_add_small ps 2), !(usize_add_small (ps + 2) 3),
    split_windows_spec by lia.
  replace (ps + 2 + 3 + (1 + 3)) with (ps + 9) by lia. cbv zeta. zcase; [done|].
  set (tx := take _ (buf s)).
  assert (len tx = ps + 5) as Htx by (subst tx; lens).
  unfold u8_try_from. zcase; [|lia].
  rewrite !split_at_checked_Some by lens.
  set (tail := drop (Z.to_nat ps) (drop (Z.to_nat 4) tx)).
  assert (len tail = 1) as Htail by (subst tail; lens).
  destruct tail as [|x [|]]; [done| |exfalso; lens].
  rewrite page_into_ok by (done || fold ps; lens). fold ps.
  set (page := page_of ps (region img) i).
  assert (len page = ps) as Hpage by (by apply len_region_page).
  rewrite drop_ge, app_nil_r by (rewrite length_take; lia).
  rewrite usize_sub_small by lia.
  change (([CMD_WRITE_PAGE; ps + 2] ++ u16_to_le_bytes i) ++ page ++ [x])
    with ((CMD_WRITE_PAGE :: (ps + 2) :: u16_to_le_bytes i ++ page) ++ [x]).
  set (body := CMD_WRITE_PAGE :: (ps + 2) :: u16_to_le_bytes i ++ page).
  assert (len body = ps + 4) as Hbody by (subst body; unfold u16_to_le_bytes; lens).
  replace (ps + 2 + 3 - 1) with (len body) by lia.
  rewrite get_to_app. unfold get_at.
  rewrite lookup_app_r, to_nat_len, Nat.sub_diag by (rewrite to_nat_len; done). cbn [lookup list_lookup].
  assert (len (u16_to_le_bytes i ++ page) = ps + 2) as Hpl by (unfold u16_to_le_bytes; lens).
  rewrite <- to_nat_len, (window_is_wire _ _ CMD_WRITE_PAGE (u16_to_le_bytes i ++ page))
    by (subst body; by rewrite Hpl).
  change (wire CMD_WRITE_PAGE (u16_to_le_bytes i ++ page)) with (page_frame img i).
  fold ps. unfold rx_window. replace (ps + 2 + 3) with (ps + 5) by lia. change (1 + 3) with 4.
  by destruct (exchange _ _ _ _) as [[rlen|e] [t' rx']].
Qed.
End windows.

(** ** Transactions *)
Section transactions.
Context `{PtrWidth} {T E : Type} (tr : Transport T E) (ok : T -> Prop) {Hty : TransportTyped tr ok}.
Implicit Types s : Session (Logged T E).
Implicit Types tx rx payload : list Z.

Definition log s : list (Attempt E) := lg_log (transport s).
Definition sess_ok s : Prop := ok (lg_inner (transport s)) /\ slice (buf s).

(** One exchange between two windows of a session's buffer. *)
Lemma exchange_windows c tx rx behind (l : Logged T E) r l' rx' :
  ok (lg_inner l) -> bytes tx -> bytes rx -> bytes behind ->
  len (tx ++ rx ++ behind) <= isize_max ->
  exchange l tx rx c = (r, (l', rx')) ->
  sess_ok (mkSession l' (tx ++ rx' ++ behind))
  /\ len (tx ++ rx' ++ behind) = len (tx ++ rx ++ behind)
  /\ len rx' = len rx
  /\ exists atts, lg_log l' = lg_log l ++ atts
     /\ exchanged (S (Z.to_nat RETRY_BUDGET)) c tx atts rx' r
     /\ match r with Ok rlen => exists p, ok_response c rlen rx' p | Err e => wire_error e end.
Proof.
  intros Hok Htx Hrx Hbh Hlen Hx.
  destruct (exchange_typed _ (fun l => ok (lg_inner l)) c tx l rx r l' rx')
    as (Hok' & Hl & Hb & Hr); [done|done|split; [done|lens]|done|].
  destruct (exchange_logged c tx l rx r l' rx' Hx) as (atts & Hlog & Hex).
  assert (len (tx ++ rx' ++ behind) = len (tx ++ rx ++ behind)) as Hle by lens.
  split_and!; try done; [|by eauto].
  split; simpl; [done|]. split; [|by rewrite Hle]. by rewrite !bytes_app.
Qed.

Lemma transact_spec cmd payload cap s r s' :
  sess_ok s -> is_u8 cmd -> bytes payload -> len payload <= PAYLOAD_MAX -> 0 <= cap <= 255 ->
  transact cmd payload cap s = (r, s') ->
  let needed := len payload + cap + 6 in
  if len (buf s) <? needed then r = Err (Error.BufferTooSmall needed) /\ s' = s
  else sess_ok s' /\ len (buf s') = len (buf s)
    /\ exists atts rsp v, log s' = log s ++ atts
      /\ exchanged (S (Z.to_nat RETRY_BUDGET)) (Z.lor cmd RSP_FLAG) (wire cmd payload) atts rsp v
      /\ match r with
         | Ok rest => exists rlen, v = Ok rlen /\ ok_response (Z.lor cmd RSP_FLAG) rlen rsp rest
         | Err e => v = Err e /\ wire_error e
         end.
Proof.
  intros [Hok Hbuf] Hcmd Hp Hmax Hcap. pose proof Hbuf as [Hb Hl]. rewrite transact_eq by done.
  cbv zeta. zcase; [intros [= <- <-]; done|].
  set (rx := rx_window _ _ (buf s)). set (bh := drop _ (buf s)).
  destruct (exchange _ _ _ _) as [v [l' rx']] eqn:Hx.
  assert (len (wire cmd payload ++ rx ++ bh) = len (buf s)) as Hlen by (subst rx bh; unfold rx_window; lens).
  change PAYLOAD_MAX with 252 in Hmax.
  apply (exchange_windows _ _ _ bh) in Hx as (Hs' & Hle & Hlrx & atts & Hlog & Hex & Hv);
    [|done|by apply wire_bytes; [..|lia]|by apply bytes_rx_window|subst bh; auto with ota|lia].
  destruct v as [rlen|e].
  - destruct Hv as (p & [Hr Hd]). unfold response_payload. rewrite get_to_Some, Hd by lia. cbn [frame_payload].
    intros [<- <-]%pair_equal_spec. cbn [buf]. rewrite Hle, Hlen. split; [done|]. split; [done|].
    exists atts, rx', (Ok rlen). split_and!; [done..|]. by exists rlen.
  - intros [<- <-]%pair_equal_spec. cbn [buf]. rewrite Hle, Hlen. split; [done|]. split; [done|].
    exists atts, rx', (Err e). by split_and!.
Qed.

(** The payload of a response is a slice of the buffer it is left in. *)
Lemma transact_payload_bytes cmd payload cap s rest s' :
  bytes (buf s') -> transact cmd payload cap s = (Ok rest, s') -> bytes rest.
Proof.
  intros Hb. unfold transact. repeat case_match; try done. intros [= <- <-]. cbn [buf] in Hb.
  rewrite !bytes_app in Hb. destruct Hb as (_ & Hrx & _).
  match goal with
  | Hg : get_to _ _ = Some ?raw, Hd : decode_padded ?raw = Ok ?f, Hf : frame_payload ?f = _ |- _ =>
      apply (bytes_get_to _ _ _ Hrx) in Hg;
      destruct (decode_padded_ok_inv raw f Hg Hd) as (k & Hraw & _); rewrite Hraw, Hf in Hg;
      apply bytes_app in Hg as [Hg _]; unfold wire in Hg;
      rewrite !bytes_cons, bytes_app, bytes_cons in Hg; tauto
  end.
Qed.

(** The in-place rendering of a page request is the encoding of its payload. *)
Lemma write_page_spec img i s r s' :
  image_wf img -> 0 <= i < img_app_pages img -> sess_ok s ->
  write_page img i s = (r, s') ->
  let needed := img_page_size img + 9 in
  if len (buf s) <? needed then r = Err (Error.BufferTooSmall needed) /\ s' = s
  else sess_ok s' /\ len (buf s') = len (buf s)
    /\ exists atts rsp v, log s' = log s ++ atts
      /\ exchanged (S (Z.to_nat RETRY_BUDGET)) (Z.lor CMD_WRITE_PAGE RSP_FLAG)
           (page_frame img i) atts rsp v
      /\ match r with
         | Ok _ => exists rlen rest, v = Ok rlen
             /\ ok_response (Z.lor CMD_WRITE_PAGE RSP_FLAG) rlen rsp rest
         | Err e => v = Err e /\ wire_error e
         end.
Proof.
  intros Hwf Hi [Hok Hbuf]. pose proof Hbuf as [Hb Hl]. rewrite write_page_eq by done.
  cbv zeta. zcase; [intros [= <- <-]; done|].
  set (rx := rx_window _ _ (buf s)). set (bh := drop _ (buf s)).
  destruct (exchange _ _ _ _) as [v [l' rx']] eqn:Hx.
  pose proof (len_page_frame img i Hwf Hi) as Hpf. pose proof (wf_page_size _ Hwf).
  assert (len (page_frame img i ++ rx ++ bh) = len (buf s)) as Hlen by (subst rx bh; unfold rx_window; lens).
  apply (exchange_windows _ _ _ bh) in Hx as (Hs' & Hle & Hlrx & atts & Hlog & Hex & Hv);
    [|done|by apply bytes_page_frame|by apply bytes_rx_window|subst bh; auto with ota|lia].
  destruct v as [rlen|e]; intros [<- <-]%pair_equal_spec; cbn [buf]; rewrite Hle, Hlen.
  - split; [done|]. split; [done|]. destruct Hv as [rest Hv].
    exists atts, rx', (Ok rlen). split_and!; [done..|]. by exists rlen, rest.
  - split; [done|]. split; [done|]. exists atts, rx', (Err e). by split_and!.
Qed.

(** What a step of the sequence does to the session: refused for want of
    buffer, or one frame exchanged. *)
Definition stepped (needed : Z) (frame : list Z) s s' {A} (r : result A (Error.t E)) : Prop :=
  (r = Err (Error.BufferTooSmall needed) /\ s' = s /\ len (buf s) < needed)
  \/ (needed <= len (buf s) /\ sess_ok s' /\ len (buf s') = len (buf s)
      /\ (exists v, conversed (log s) (log s') [frame] [v] /\ is_ok v = is_ok r /\ forall e, v = Err e -> r = Err e)
      /\ forall e, r = Err e -> wire_error e).

Lemma transact_step cmd payload cap s r s' :
  sess_ok s -> is_u8 cmd -> bytes payload -> len payload <= PAYLOAD_MAX -> 0 <= cap <= 255 ->
  transact cmd payload cap s = (r, s') ->
  stepped (len payload + cap + 6) (wire cmd payload) s s' r.
Proof.
  intros Hs Hc Hp Hm Hcap Ht. apply transact_spec in Ht; [|done..]. cbv zeta in Ht. zcase_in Ht.
  - left. by destruct Ht as [-> ->].
  - right. destruct Ht as (? & ? & atts & rsp & v & Hlog & Hex & Hr). split_and!; [done..| |].
    + exists v. rewrite Hlog. split; [by eapply exchanged_conversed|].
      destruct r; [destruct Hr as (rlen & -> & _)|destruct Hr as [-> _]]; split; try done; by intros ? [= ->].
    + intros e ->. by destruct Hr.
Qed.

Lemma write_page_step img i s r s' :
  image_wf img -> 0 <= i < img_app_pages img -> sess_ok s -> write_page img i s = (r, s') ->
  stepped (img_page_size img + 9) (page_frame img i) s s' r.
Proof.
  intros Hwf Hi Hs Ht. apply write_page_spec in Ht; [|done..]. cbv zeta in Ht. zcase_in Ht.
  - left. by destruct Ht as [-> ->].
  - right. destruct Ht as (? & ? & atts & rsp & v & Hlog & Hex & Hr). split_and!; [done..| |].
    + exists v. rewrite Hlog. split; [by eapply exchanged_conversed|].
      destruct r; [destruct Hr as (rlen & rest & -> & _)|destruct Hr as [-> _]]; split; try done; by intros ? [= ->].
    + intros e ->. by destruct Hr.
Qed.

End transactions.

(** ** The update sequence *)
Section flash_proofs.
Context `{PtrWidth} {T E : Type} (tr : Transport T E) (ok : T -> Prop) {Hty : TransportTyped tr ok}.
Context {P : Type} (progress : Z -> Z -> P -> P).
Implicit Types s : Session (Logged T E).

(** The calls [progress(d, total)] for [n] consecutive counts from [d] on. *)
Definition reported (total d : Z) (n : nat) (p : P) : P :=
  fold_left (fun p d => progress d total p) (seqZ d (Z.of_nat n)) p.

Lemma reported_S total d n p :
  reported total d (S n) p = reported total (d + 1) n (progress d total p).
Proof.
  unfold reported. rewrite seqZ_cons by lia. simpl. do 3 f_equal; lia.
Qed.

(** Errors of a flash with a frame buffer of [L] bytes. *)
Definition flash_error (L : Z) (img : Image) (e : Error.t E) : Prop :=
  wire_error e
  \/ (exists n, e = Error.BufferTooSmall n /\ L < n <= Z.max 18 (img_page_size img + 9))
  \/ (exists d, e = Error.ProtocolVersion d /\ d <> PROTO_VERSION)
  \/ (exists ps ap, e = Error.BadGeometry ps ap
        /\ (ps <> img_page_size img \/ ap <> img_app_pages img)).

Lemma flash_pages_spec img total indices : image_wf img ->
  Forall (fun i => 0 <= i < img_app_pages img) indices ->
  forall done s p r s' p', sess_ok ok s -> 0 <= done -> done + len indices <= 65535 ->
  flash_pages progress img total indices done (s, p) = (r, (s', p')) ->
  exists k m vs, conversed (log s) (log s') (page_frame img <$> take k indices) vs /\ stops vs r /\ acks vs = m
    /\ sess_ok ok s' /\ len (buf s') = len (buf s)
    /\ (m <= k <= m + 1)%nat /\ (k <= length indices)%nat
    /\ p' = reported total (done + 1) m p
    /\ match r with
       | Ok _ => k = length indices /\ m = k
       | Err e => flash_error (len (buf s)) img e
       end.
Proof.
  intros Hwf Hall. induction Hall as [|i indices Hi _ IH]; intros done s p r s' p' Hs Hd Hn.
  { intros [<- [<- <-]%pair_equal_spec]%pair_equal_spec. exists 0%nat, 0%nat, [].
    split_and!; try done; try lia; [apply conversed_nil|apply stops_nil]. }
  cbn [flash_pages]. unfold sbind, on_session, report. rewrite len_cons in Hn.
  destruct (write_page img i s) as [[u|e] s1] eqn:Hw.
  - apply (write_page_step tr ok) in Hw; [|done..].
    destruct Hw as [[? _]|(Hbuf & Hs1 & Hl1 & (v & Hsent & Hv & _) & _)]; [done|].
    pose proof (len_nonneg indices). unfold u16_saturating_add. rewrite Z.min_l by lia.
    intros Hrest. apply IH in Hrest as (k & m & vs & Hsent' & Hst & Hack & Hs' & Hl' & Hkm & Hk & -> & Hr);
      [|done|lia..].
    exists (S k), (S m), ([v] ++ vs). rewrite Hl1 in *. split_and!; [| | |done|done|lia|lia|simpl; lia| |].
    + change (page_frame img <$> take (S k) (i :: indices))
        with ([page_frame img i] ++ (page_frame img <$> take k indices)).
      by eapply conversed_app.
    + by apply stops_app; [constructor|].
    + rewrite acks_app, Hack. unfold acks. cbn [List.filter]. by rewrite Hv.
    + by rewrite reported_S.
    + destruct r; [|done]. simpl. lia.
  - intros [<- [<- <-]%pair_equal_spec]%pair_equal_spec.
    apply (write_page_step tr ok) in Hw; [|done..].
    destruct Hw as [([= ->] & -> & Hlt)|(Hbuf & Hs1 & Hl1 & (v & Hsent & Hv & Hve) & He)].
    + exists 0%nat, 0%nat, []. split_and!; try done; try lia; [apply conversed_nil|apply stops_nil|].
      right; left. eexists. split; [done|]. lia.
    + exists 1%nat, 0%nat, [v]. destruct v as [|e']; [done|]. specialize (Hve e' eq_refl). simplify_eq.
      split_and!; try done; try (simpl; lia); [by apply stops_one; intros ? [= ->]|]. left. by apply He.
Qed.

(** The device reported this protocol and the image's geometry, in the first
    exchange after [log]. *)
Definition gate_passed (log log' : list (Attempt E)) (img : Image) : Prop :=
  exists atts behind rsp rlen payload i,
    log' = log ++ atts ++ behind
    /\ exchanged (S (Z.to_nat RETRY_BUDGET)) (Z.lor CMD_INFO RSP_FLAG) info_frame atts rsp (Ok rlen)
    /\ ok_response (Z.lor CMD_INFO RSP_FLAG) rlen rsp payload
    /\ parse_info (E:=E) payload = Ok i
    /\ di_proto i = PROTO_VERSION
    /\ di_page_size i = img_page_size img /\ di_app_pages i = img_app_pages img.

(** The device reported [i] in the exchange after [log]. *)
Definition info_reported (log log' : list (Attempt E)) (i : DeviceInfo) : Prop :=
  exists atts rsp rlen payload, log' = log ++ atts
    /\ exchanged (S (Z.to_nat RETRY_BUDGET)) (Z.lor CMD_INFO RSP_FLAG) info_frame atts rsp (Ok rlen)
    /\ ok_response (Z.lor CMD_INFO RSP_FLAG) rlen rsp payload
    /\ parse_info (E:=E) payload = Ok i.

Lemma info_spec s r s' : sess_ok ok s -> info s = (r, s') ->
  (r = Err (Error.BufferTooSmall 18) /\ s' = s /\ len (buf s) < 18)
  \/ (18 <= len (buf s) /\ sess_ok ok s' /\ len (buf s') = len (buf s)
      /\ exists atts rsp v, log s' = log s ++ atts
         /\ exchanged (S (Z.to_nat RETRY_BUDGET)) (Z.lor CMD_INFO RSP_FLAG) info_frame atts rsp v
         /\ match r with
            | Ok i => exists rlen payload, v = Ok rlen
                /\ ok_response (Z.lor CMD_INFO RSP_FLAG) rlen rsp payload
                /\ parse_info (E:=E) payload = Ok i
            | Err e => wire_error e /\ forall e', v = Err e' -> e' = e
            end).
Proof.
  intros Hs. unfold info, sbind, lift.
  destruct (transact CMD_INFO [] INFO_RSP_PAYLOAD s) as [r1 s1] eqn:Ht.
  apply (transact_spec tr ok) in Ht; [|done|done|constructor|done|done]. cbv zeta in Ht.
  change (len [] + INFO_RSP_PAYLOAD + 6) with 18 in Ht. zcase_in Ht.
  - destruct Ht as [-> ->]. intros [<- <-]%pair_equal_spec. by left.
  - destruct Ht as (Hs1 & Hl1 & atts & rsp & v & Hlog & Hex & Hr).
    destruct r1 as [rest|e]; intros [<- <-]%pair_equal_spec; right;
      (split_and!; [done..|]); exists atts, rsp, v; (split; [done|]; split; [done|]).
    + destruct Hr as (rlen & -> & Hr).
      destruct (parse_info rest) as [i|e] eqn:Hp.
      * by exists rlen, rest.
      * unfold parse_info in Hp. repeat case_match; simplify_eq; done.
    + destruct Hr as [-> ?]. split; [done|]. by intros e' [= ->].
Qed.

(** The fields of a [DeviceInfo] at their widths. *)
Record info_wf (i : DeviceInfo) : Prop := {
  iw_proto : is_u8 (di_proto i);
  iw_version : is_u8 (di_bl_version i);
  iw_id : bytes (di_device_id i) /\ len (di_device_id i) = 4;
  iw_page_size : is_u16 (di_page_size i);
  iw_app_pages : is_u16 (di_app_pages i);
}.

Lemma info_ok_wf s i s' : sess_ok ok s -> info s = (Ok i, s') -> info_wf i.
Proof.
  intros Hs Hi. pose proof Hi as Hs'.
  apply info_spec in Hs' as [(? & _)|(_ & [_ [Hb _]] & _)]; [done| |done].
  unfold info, sbind, lift in Hi. destruct (transact CMD_INFO [] INFO_RSP_PAYLOAD s) as [[rest|e] s1] eqn:Ht;
    [|done].
  injection Hi as Hp ->. apply transact_payload_bytes in Ht; [|exact Hb].
  unfold parse_info in Hp. repeat case_match; try done. injection Hp as <-. subst.
  rewrite !bytes_cons in Ht. destruct_and! Ht. split; try done; try by apply u16_from_le_range.
  split; [|done]. cbn [di_device_id]. by repeat (constructor; [done|]).
Qed.
Lemma info_typed s i s' : sess_ok ok s -> info s = (Ok i, s') ->
  is_u16 (di_page_size i) /\ is_u16 (di_app_pages i).
Proof. intros Hs Hi. by destruct (info_ok_wf _ _ _ Hs Hi). Qed.

Lemma pages_in_range img : image_wf img ->
  Forall (fun i => 0 <= i < img_app_pages img) (pages_list (pages img))
  /\ len (pages_list (pages img)) <= 65535.
Proof.
  intros Hwf. unfold pages. rewrite pages_list_remaining by done.
  pose proof (wf_pages _ Hwf). pose proof (remaining_length img 0 Hwf ltac:(lia)).
  split; [|lia]. apply Forall_forall. intros i Hi%remaining_elem. lia.
Qed.

Lemma conversed_cons_take log1 log2 log3 f fs k v vs :
  conversed log1 log2 [f] [v] -> conversed log2 log3 (take k fs) vs ->
  conversed (E:=E) log1 log3 (take (S k) (f :: fs)) ([v] ++ vs).
Proof. intros H1 H2. change (take (S k) (f :: fs)) with ([f] ++ take k fs). by eapply conversed_app. Qed.

(** The part of a flash behind the gates. *)
Definition flash_body (img : Image) : stm (Session (Logged T E) * P) (Error.t E) unit :=
  sbind (on_session (transact CMD_ERASE_APP ERASE_MAGIC ST_RSP_PAYLOAD)) (fun _ =>
  let indices := pages_list (pages img) in
  let total := default 65535 (u16_try_from (len indices)) in
  sbind (report progress 0 total) (fun _ =>
  sbind (flash_pages progress img total indices 0) (fun _ =>
  sbind (on_session (transact CMD_VERIFY (verify_payload img) ST_RSP_PAYLOAD)) (fun _ =>
  sret tt)))).

Lemma flash_body_spec img s p r s' p' : image_wf img -> sess_ok ok s ->
  flash_body img (s, p) = (r, (s', p')) ->
  let n := length (pages_list (pages img)) in
  exists k m vs, conversed (log s) (log s') (take k (tail (flash_frames img))) vs /\ stops vs r /\ (m <= acks vs)%nat
    /\ sess_ok ok s' /\ len (buf s') = len (buf s) /\ (k <= 2 + n)%nat /\ (m <= S n)%nat
    /\ p' = reported (len (pages_list (pages img))) 0 m p
    /\ match r with
       | Ok _ => k = (2 + n)%nat /\ m = S n
       | Err e => flash_error (len (buf s)) img e
       end.
Proof.
  intros Hwf Hs. unfold flash_body. destruct (pages_in_range img Hwf) as [Hall Hn].
  cbn [tail flash_frames].
  set (indices := pages_list (pages img)) in *. pose proof (len_nonneg indices).
  unfold u16_try_from. replace (len indices <=? 65535) with true by lia. cbn [default].
  unfold sbind at 1, on_session at 1.
  destruct (transact CMD_ERASE_APP ERASE_MAGIC ST_RSP_PAYLOAD s) as [r1 s1] eqn:Ht.
  apply (transact_step tr ok) in Ht; [|done|done|repeat constructor; lia|done|done].
  change (len ERASE_MAGIC + ST_RSP_PAYLOAD + 6) with 11 in Ht.
  destruct Ht as [(-> & -> & Hlt)|(Hb1 & Hs1 & Hl1 & (v1 & Hsent1 & Hv1 & Hve1) & He1)].
  { intros [<- [<- <-]%pair_equal_spec]%pair_equal_spec. exists 0%nat, 0%nat, [].
    split_and!; try done; try lia; [apply conversed_nil|apply stops_nil|]. right; left. eexists; split; [done|lia]. }
  destruct r1 as [u|e].
  2: { intros [<- [<- <-]%pair_equal_spec]%pair_equal_spec. exists 1%nat, 0%nat, [v1].
       split_and!; try done; try lia; [apply stops_one; by intros e' [= ->]%Hve1|]. left. by apply He1. }
  assert (acks [v1] = 1%nat) as Ha1 by (unfold acks; cbn [List.filter]; by rewrite Hv1).
  unfold sbind at 1, report, sbind at 1.
  destruct (flash_pages _ _ _ _ _ _) as [r2 [s2 p2]] eqn:Hfp.
  apply flash_pages_spec in Hfp as (k & m & vs & Hsent2 & Hst2 & Hack2 & Hs2 & Hl2 & Hkm & Hk & -> & Hr2);
    [|done..|lia].
  rewrite Hl1 in *. rewrite <- reported_S.
  destruct r2 as [[]|e].
  2: { intros [<- [<- <-]%pair_equal_spec]%pair_equal_spec. exists (S k), (S m), ([v1] ++ vs).
       split_and!; try done; try lia; [|by apply stops_app; [constructor|]|rewrite acks_app; lia].
       eapply conversed_cons_take; [done|]. rewrite take_app_le by (rewrite length_fmap; lia).
       by rewrite <- fmap_take. }
  destruct Hr2 as [-> Hm]. rewrite take_ge in Hsent2 by lia. pose proof (stops_ok _ _ Hst2) as Hok2.
  unfold sbind, on_session.
  destruct (transact CMD_VERIFY (verify_payload img) ST_RSP_PAYLOAD s2) as [r3 s3] eqn:Ht.
  apply (transact_step tr ok) in Ht; [|done|done| |done|done].
  2: { apply bytes_app. auto with ota. }
  change (len (verify_payload img) + ST_RSP_PAYLOAD + 6) with 15 in Ht.
  destruct Ht as [(-> & -> & Hlt)|(Hb3 & Hs3 & Hl3 & (v3 & Hsent3 & Hv3 & Hve3) & He3)].
  - intros [<- [<- <-]%pair_equal_spec]%pair_equal_spec. exists (S (length indices)), (S m), ([v1] ++ vs).
    split_and!; try done; try lia.
    + eapply conversed_cons_take; [done|].
      by rewrite take_app_le, take_ge by (rewrite length_fmap; lia).
    + exists ([v1] ++ vs). split; [|by left]. by apply Forall_app; split; [constructor|].
    + rewrite acks_app. lia.
    + right; left. rewrite Hl2 in Hlt. eexists; split; [done|lia].
  - assert (conversed (log s) (log s3) (take (S (S (length indices)))
       (erase_frame :: (page_frame img <$> indices) ++ [verify_frame img])) ([v1] ++ vs ++ [v3])) as Hall3.
    { eapply conversed_cons_take; [done|]. rewrite take_ge by (rewrite length_app, length_fmap; simpl; lia).
      by eapply conversed_app. }
    rewrite Hl2 in Hl3.
    assert (forall r' : result unit (Error.t E), (forall e, v3 = Err e -> r' = Err e) ->
      stops ([v1] ++ vs ++ [v3]) r' /\ (S m <= acks ([v1] ++ vs ++ [v3]))%nat) as Hend.
    { intros r' Hr'. split; [|rewrite !acks_app; lia]. apply stops_app; [by constructor|]. apply stops_app; [done|].
      by apply stops_one. }
    destruct r3 as [v|e]; intros [<- [<- <-]%pair_equal_spec]%pair_equal_spec;
      exists (2 + length indices)%nat, (S m), ([v1] ++ vs ++ [v3]).
    + destruct (Hend (Ok tt)) as [Hst Hac]; [by intros e [=]%Hve3|]. split_and!; try done; lia.
    + destruct (Hend (Err e)) as [Hst Hac]; [by intros e' [= ->]%Hve3|]. split_and!; try done; try lia.
      left. by apply He3.
Qed.

Lemma flash_unfold img s p :
  flash progress img (s, p) =
    match info s with
    | (Err e, s1) => (Err e, (s1, p))
    | (Ok i, s1) =>
      if negb (di_proto i =? PROTO_VERSION) then (Err (Error.ProtocolVersion (di_proto i)), (s1, p))
      else if negb (di_page_size i =? img_page_size img) || negb (di_app_pages i =? img_app_pages img)
      then (Err (Error.BadGeometry (di_page_size i) (di_app_pages i)), (s1, p))
      else flash_body img (s1, p)
    end.
Proof.
  unfold flash, flash_body, sbind at 1, on_session at 1.
  destruct (info s) as [[i|e] s1]; [|done]. by repeat case_match.
Qed.

Lemma flash_spec img s p r s' p' : image_wf img -> sess_ok ok s ->
  flash progress img (s, p) = (r, (s', p')) ->
  exists k m vs, conversed (log s) (log s') (take k (flash_frames img)) vs /\ stops vs r
    /\ (m = 0%nat \/ (S m <= acks vs)%nat)
    /\ sess_ok ok s' /\ len (buf s') = len (buf s) /\ (k <= length (flash_frames img))%nat
    /\ p' = reported (len (pages_list (pages img))) 0 m p
    /\ (m <= S (length (pages_list (pages img))))%nat
    /\ match r with
       | Ok _ => k = length (flash_frames img) /\ m = S (length (pages_list (pages img)))
       | Err e => flash_error (len (buf s)) img e
       end
    /\ (gate_passed (log s) (log s') img \/ (k <= 1)%nat /\ m = 0%nat /\ is_ok r = false).
Proof.
  intros Hwf Hs. rewrite flash_unfold.
  assert (length (flash_frames img) = (3 + length (pages_list (pages img)))%nat) as Hfr.
  { unfold flash_frames. cbn [length]. rewrite length_app, length_fmap. simpl. lia. }
  destruct (info s) as [ri s1] eqn:Hi.
  apply info_spec in Hi as [(-> & -> & Hlt)|(Hb & Hs1 & Hl1 & atts & rsp & v & Hlog & Hex & Hri)];
    [| |done].
  { intros [<- [<- <-]%pair_equal_spec]%pair_equal_spec. exists 0%nat, 0%nat, [].
    split_and!; try done; try lia; [apply conversed_nil|apply stops_nil| |right; split_and!; first [done|lia]].
    right; left. eexists. split; [done|lia]. }
  assert (conversed (log s) (log s1) [info_frame] [v]) as Hsent
    by (rewrite Hlog; by eapply exchanged_conversed).
  assert (forall e, flash_error (len (buf s)) img e -> (forall e', v = Err e' -> e' = e) ->
    exists k m vs, conversed (log s) (log s1) (take k (flash_frames img)) vs /\ stops vs (Err e : result unit (Error.t E))
    /\ (m = 0%nat \/ (S m <= acks vs)%nat)
    /\ sess_ok ok s1 /\ len (buf s1) = len (buf s) /\ (k <= length (flash_frames img))%nat
    /\ p = reported (len (pages_list (pages img))) 0 m p
    /\ (m <= S (length (pages_list (pages img))))%nat
    /\ flash_error (len (buf s)) img e
    /\ (gate_passed (log s) (log s1) img \/ (k <= 1)%nat /\ m = 0%nat /\ false = false)) as Hstop.
  { intros e He Hve. exists 1%nat, 0%nat, [v]. split_and!; try done; try lia.
    apply stops_one. by intros e' ->%Hve. }
  destruct ri as [i|e].
  2: { destruct Hri as [Hwe Hve]. intros [<- [<- <-]%pair_equal_spec]%pair_equal_spec. apply Hstop; [by left|exact Hve]. }
  destruct Hri as (rlen & payload & -> & Hok & Hpi).
  destruct (Z.eqb_spec (di_proto i) PROTO_VERSION) as [Hproto|Hproto]; cbn [negb].
  2: { intros [<- [<- <-]%pair_equal_spec]%pair_equal_spec. apply Hstop; [|done].
       right; right; left. eauto. }
  destruct (Z.eqb_spec (di_page_size i) (img_page_size img)) as [Hps|Hps]; cbn [negb orb].
  2: { intros [<- [<- <-]%pair_equal_spec]%pair_equal_spec. apply Hstop; [|done].
       right; right; right. eauto. }
  destruct (Z.eqb_spec (di_app_pages i) (img_app_pages img)) as [Hap|Hap]; cbn [negb].
  2: { intros [<- [<- <-]%pair_equal_spec]%pair_equal_spec. apply Hstop; [|done].
       right; right; right. eauto. }
  intros Hbody. apply flash_body_spec in Hbody as (k & m & vs & Hsent2 & Hst & Hac & Hs' & Hl' & Hk & Hm & -> & Hr);
    [|done..].
  exists (S k), m, ([Ok rlen] ++ vs). rewrite Hl1 in *. split_and!; try done; try lia.
  - change (flash_frames img) with (info_frame :: tail (flash_frames img)).
    by eapply conversed_cons_take.
  - by apply stops_app; [constructor|].
  - right. rewrite acks_app. change (acks [Ok rlen]) with 1%nat. lia.
  - destruct r; [|done]. lia.
  - left. destruct Hsent2 as (runs & Hl2 & _).
    exists atts, (concat runs), rsp, rlen, payload, i. split_and!; try done.
    by rewrite Hl2, Hlog, <- app_assoc.
Qed.

End flash_proofs.

(** ** Any use of a session *)

(** The public operations. *)
Inductive Call :=
| CallInfo
| CallEcho (data : list Z)
| CallBoot
| CallFlash (img : Image).

(** The session behind a call, whatever it returned. *)
Definition call `{PtrWidth} {T E} {tr : Transport T E} (s : Session T) (c : Call) : Session T :=
  match c with
  | CallInfo => snd (info s)
  | CallEcho data => snd (echo data s)
  | CallBoot => snd (boot s)
  | CallFlash img => fst (snd (flash (fun _ _ p => p) img (s, tt)))
  end.

(** What Rust's types say of the arguments; an [Image] comes from its checked
    constructor. *)
Definition call_ok `{PtrWidth} (c : Call) : Prop :=
  match c with
  | CallEcho data => bytes data
  | CallFlash img => image_wf img
  | _ => True
  end.

Section calls.
Context `{PtrWidth} {T E : Type} (tr : Transport T E) (ok : T -> Prop) {Hty : TransportTyped tr ok}.
Implicit Types s : Session (Logged T E).

Definition kept s s' : Prop := sess_ok ok s' /\ len (buf s') = len (buf s).

Lemma transact_kept cmd payload cap s r s' : sess_ok ok s -> is_u8 cmd -> bytes payload ->
  len payload <= PAYLOAD_MAX -> 0 <= cap <= 255 -> transact cmd payload cap s = (r, s') -> kept s s'.
Proof.
  intros Hs Hc Hp Hm Hcap Ht. apply (transact_step tr ok) in Ht; [|done..].
  by destruct Ht as [(_ & -> & _)|(_ & ? & ? & _)].
Qed.

Lemma call_kept s c : sess_ok ok s -> call_ok c -> kept s (call s c).
Proof.
  intros Hs Hc. destruct c as [|data| |img]; cbn [call].
  - destruct (info s) as [r s'] eqn:Hi.
    apply (info_spec tr ok) in Hi; [|done]. by destruct Hi as [(_ & -> & _)|(_ & ? & ? & _)].
  - unfold echo, sfail. change ECHO_MAX with 16. zcase; [done|]. pose proof (len_nonneg data). usize_bounds.
    change ST_RSP_PAYLOAD with 1. rewrite usize_add_small by lia. unfold sbind.
    destruct (transact _ _ _ s) as [[rest|e] s'] eqn:Ht;
      (apply transact_kept in Ht; [|done|done|done|change PAYLOAD_MAX with 252; lia|lia]); [|done].
    unfold sret. by case_decide.
  - unfold boot, sbind. destruct (transact _ _ _ s) as [[rest|e] s'] eqn:Ht; by apply transact_kept in Ht.
  - destruct (flash _ img _) as [r [s' p']] eqn:Hf.
    apply (flash_spec tr ok) in Hf as (k & m & vs & _ & _ & _ & ? & ? & _); [by split|exact Hc|done].
Qed.

Lemma calls_kept calls : forall s, sess_ok ok s -> Forall call_ok calls -> kept s (fold_left call calls s).
Proof.
  induction calls as [|c calls IH]; intros s Hs Hc; [done|]. apply Forall_cons in Hc as [Hc Hcs].
  destruct (call_kept s c Hs Hc) as [Hs1 Hl1]. destruct (IH _ Hs1 Hcs) as [Hs2 Hl2].
  split; [done|]. cbn [fold_left]. congruence.
Qed.
End calls.

(** ** A scripted transport, to run sessions on *)
Definition Script (E : Type) : Type := list (result (list Z) E).

#[global] Instance transport_script : Transport (Script unit) unit :=
  fun t req rsp =>
    match t with
    | [] => (Err tt, ([], rsp))
    | Err e :: t => (Err e, (t, rsp))
    | Ok bs :: t => (Ok (len bs), (t, zip_write rsp bs))
    end.

Definition script_ok (t : Script unit) : Prop :=
  Forall (fun r => match r with Ok bs => bytes bs | Err _ => True end) t.

Lemma len_zip_write dst src : len (zip_write dst src) = len dst.
Proof. unfold zip_write, len. rewrite length_app, length_take, length_drop. lia. Qed.
Lemma bytes_zip_write dst src : bytes dst -> bytes src -> bytes (zip_write dst src).
Proof. intros. unfold zip_write. apply bytes_app. auto with ota. Qed.

#[global] Instance script_typed `{PtrWidth} : TransportTyped transport_script script_ok.
Proof.
  intros t req rsp r t' rsp' Ht _ [Hb _]. unfold request, transport_script.
  destruct t as [|[bs|e] t].
  - intros [= <- <- <-]. by split_and!.
  - intros [= <- <- <-]. apply Forall_cons in Ht as [Hbs Ht].
    split_and!; [done|apply len_zip_write|by apply bytes_zip_write|].
    intros n [= <-]. apply len_nonneg.
  - intros [= <- <- <-]. apply Forall_cons in Ht as [_ Ht]. by split_and!.
Qed.

(** ** Properties *)
Section properties.
Context `{PtrWidth} {T E : Type} (tr : Transport T E).

(** C17: an exchange, over any transport, sends the one request at most four
    times, byte for byte the same; every attempt but the last was a transport
    error, an undecodable or foreign response or [ST_BAD_FRAME]; the outcome
    is the verdict on the last attempt, whose response is what is left in the
    receive window; and a retryable failure is returned only when all four
    attempts are spent. *)
Theorem exchange_characterised expect_cmd tx (l : Logged T E) rx r l' rx' :
  exchange l tx rx expect_cmd = (r, (l', rx')) ->
  exists atts, lg_log l' = lg_log l ++ atts /\ exchanged 4 expect_cmd tx atts rx' r.
Proof. apply exchange_logged. Qed.

Context (ok : T -> Prop) {Hty : TransportTyped tr ok}.

(** A transaction either finds the frame buffer too small, says by how
    much and sends nothing, or it sends the encoded command and ends with the
    exchange's outcome: on success the payload behind the status byte of a
    response with the right command and status OK, otherwise the last wire
    error. The buffer keeps its size. *)
Theorem transact_correct cmd payload cap (s : Session (Logged T E)) r s' :
  sess_ok ok s -> is_u8 cmd -> bytes payload -> len payload <= PAYLOAD_MAX -> 0 <= cap <= 255 ->
  transact cmd payload cap s = (r, s') ->
  if len (buf s) <? len payload + cap + 6
  then r = Err (Error.BufferTooSmall (len payload + cap + 6)) /\ s' = s
  else sess_ok ok s' /\ len (buf s') = len (buf s)
    /\ exists atts rsp v, log s' = log s ++ atts
      /\ exchanged 4 (Z.lor cmd RSP_FLAG) (wire cmd payload) atts rsp v
      /\ match r with
         | Ok rest => exists rlen, v = Ok rlen /\ ok_response (Z.lor cmd RSP_FLAG) rlen rsp rest
         | Err e => v = Err e /\ wire_error e
         end.
Proof. intros. by apply (transact_spec tr ok). Qed.

(** C26: a page written. [write_page] builds the request in the session's own
    transmit window, page rendered in place and footer included; what goes on
    the wire is exactly the frame a separate encoder makes of the page index and
    that page of the flash region, in one exchange, whose verdict it returns. A
    buffer with no room for request and response is refused before anything is
    sent, with the size that is needed; otherwise the buffer keeps its size and
    nothing but those requests reaches the transport. *)
Theorem write_page_correct data ps ap img i (s : Session (Logged T E)) r s' :
  is_u16 ps -> is_u16 ap -> bytes data -> from_bin data ps ap = Ok img ->
  0 <= i < ap -> sess_ok ok s -> write_page img i s = (r, s') ->
  if len (buf s) <? ps + 9 then r = Err (Error.BufferTooSmall (ps + 9)) /\ s' = s
  else sess_ok ok s' /\ len (buf s') = len (buf s)
    /\ exists atts rsp v, log s' = log s ++ atts
      /\ exchanged 4 (Z.lor CMD_WRITE_PAGE RSP_FLAG)
           (wire CMD_WRITE_PAGE (u16_to_le_bytes i ++ page_of ps (region img) i)) atts rsp v
      /\ match r with
         | Ok _ => exists rlen rest, v = Ok rlen
             /\ ok_response (Z.lor CMD_WRITE_PAGE RSP_FLAG) rlen rsp rest
         | Err e => v = Err e /\ wire_error e
         end.
Proof.
  intros Hps Hap Hd Himg Hi. apply from_bin_ok_inv in Himg as (Hwf & _ & <- & <-); [|done..].
  intros. by apply (write_page_spec tr ok).
Qed.

(** [parse_info] is the exact inverse of the INFO payload layout: it
    accepts every eleven-byte payload and nothing else, and reading back the
    payload of a device's identity gives that identity. *)
Theorem parse_info_exact :
  (forall i : DeviceInfo, length (di_device_id i) = 4%nat ->
     is_u16 (di_page_size i) -> is_u16 (di_app_pages i) ->
     parse_info (E:=E) (info_payload i) = Ok i)
  /\ forall rest, bytes rest ->
     (is_ok (parse_info (E:=E) rest) = true <-> length rest = 11%nat)
     /\ forall i, parse_info (E:=E) rest = Ok i ->
          is_u16 (di_page_size i) /\ is_u16 (di_app_pages i)
          /\ take 10 rest = take 10 (info_payload i).
Proof.
  split.
  - intros [proto blv id ps ap valid] Hid Hps Hap. simpl in *.
    destruct id as [|d0 [|d1 [|d2 [|d3 [|]]]]]; try done. simpl. unfold u16_to_le_bytes; simpl.
    rewrite !u16_le_roundtrip by done. by destruct valid.
  - intros rest Hb. unfold parse_info. split.
    + repeat case_match; simpl; try done; split; done || lia.
    + intros i. repeat case_match; try done. intros [= <-]. subst.
      rewrite !bytes_cons in Hb. destruct_and! Hb.
      split_and!; [by apply u16_from_le_range..|].
      unfold info_payload.
      cbn [di_proto di_bl_version di_device_id di_page_size di_app_pages di_app_valid].
      by rewrite !u16_to_from_le by done.
Qed.

(** C8: nothing but INFO requests reaches the wire until the device has
    reported this protocol version and exactly the image's geometry: either
    the flash fails with the log extended by (at most) the INFO exchange and
    [progress] never called, or the gate was passed by the first exchange. *)
Theorem flash_gated {P} (progress : Z -> Z -> P -> P) data ps ap img
    (s : Session (Logged T E)) p r s' p' :
  is_u16 ps -> is_u16 ap -> bytes data -> from_bin data ps ap = Ok img -> sess_ok ok s ->
  flash progress img (s, p) = (r, (s', p')) ->
  gate_passed (log s) (log s') img
  \/ (exists e, r = Err e) /\ p' = p
     /\ exists k, (k <= 1)%nat /\ sent (log s) (log s') (take k [info_frame]).
Proof.
  intros Hps Hap Hd Himg Hs Hf. apply from_bin_ok_inv in Himg as (Hwf & _); [|done..].
  apply (flash_spec tr ok) in Hf as (k & m & vs & Hsent%conversed_sent & _ & _ & _ & _ & _ & Hp & _ & _ & Hg); [|done..].
  destruct Hg as [Hg|(Hk & -> & Hr)]; [by left|right]. split_and!.
  - destruct r as [|e]; [done|by exists e].
  - done.
  - exists k. split; [done|]. destruct k as [|[|]]; [done..|lia].
Qed.

(** C9: the wire sees INFO, ERASE, the WRITE of every page the iterator
    yields, in order, and VERIFY, one exchange for each: at most four identical
    requests, whose last response is the verdict. Every exchange but the last
    was acknowledged by a response to its command with status OK, so nothing is
    sent before what is ahead of it has been acknowledged; when the last one was
    not, its verdict is the error that [flash] returns. It is a prefix of that
    sequence if the flash fails and all of it, all acknowledged, if it succeeds;
    so at most [4 * (pages + 3)] requests. [progress] is called with 0, 1, 2,
    ... pages done out of the total, up to the total on success, and is never
    ahead: the last count reported is of pages that have been acknowledged,
    behind INFO and ERASE. *)
Theorem flash_sequence {P} (progress : Z -> Z -> P -> P) data ps ap img
    (s : Session (Logged T E)) p r s' p' :
  is_u16 ps -> is_u16 ap -> bytes data -> from_bin data ps ap = Ok img -> sess_ok ok s ->
  flash progress img (s, p) = (r, (s', p')) ->
  let n := length (pages_list (pages img)) in
  exists k m vs, conversed (log s) (log s') (take k (flash_frames img)) vs /\ stops vs r
    /\ (length (log s') <= length (log s) + 4 * (n + 3))%nat
    /\ p' = reported progress (len (pages_list (pages img))) 0 m p /\ (m <= S n)%nat
    /\ (m = 0%nat \/ (S m <= acks vs)%nat)
    /\ (is_ok r = true -> k = length (flash_frames img) /\ m = S n).
Proof.
  intros Hps Hap Hd Himg Hs Hf n. apply from_bin_ok_inv in Himg as (Hwf & _); [|done..].
  apply (flash_spec tr ok) in Hf as (k & m & vs & Hcv & Hst & Hac & _ & _ & Hk & Hp & Hm & Hr & _); [|done..].
  exists k, m, vs. split_and!; try done.
  - apply conversed_sent, sent_length in Hcv. rewrite length_take in Hcv.
    unfold flash_frames in *. cbn [length] in *. rewrite length_app, length_fmap in *.
    simpl in *. subst n. lia.
  - by destruct r.
Qed.

(** C24: how a flash can fail. A frame buffer of 259 bytes (the documented 320
    all the more) never comes up short, and with it the only errors are those
    of the wire and of the two gates; with a smaller one the figure reported
    really is more than there is and never more than 259 bytes. *)
Theorem flash_errors {P} (progress : Z -> Z -> P -> P) data ps ap img
    (s : Session (Logged T E)) p e s' p' :
  is_u16 ps -> is_u16 ap -> bytes data -> from_bin data ps ap = Ok img -> sess_ok ok s ->
  flash progress img (s, p) = (Err e, (s', p')) ->
  sess_ok ok s' /\ len (buf s') = len (buf s) /\
  match e with
  | Error.Transport _ | Error.BadFrame => True
  | Error.Device st => st <> ST_OK
  | Error.ProtocolVersion d => d <> PROTO_VERSION
  | Error.BadGeometry dps dap => dps <> ps \/ dap <> ap
  | Error.BufferTooSmall n => len (buf s) < n <= 259
  | Error.PayloadTooLarge _ | Error.ImageTooLarge _ _ | Error.PageOutOfRange _ => False
  end.
Proof.
  intros Hps Hap Hd Himg Hs Hf. apply from_bin_ok_inv in Himg as (Hwf & _ & <- & <-); [|done..].
  apply (flash_spec tr ok) in Hf as (k & m & vs & _ & _ & _ & ? & ? & _ & _ & _ & He & _); [|done..].
  split_and!; [done..|]. pose proof (wf_page_size _ Hwf) as Hs1.
  change PAGE_SIZE_MAX with 250 in Hs1.
  destruct He as [He|[(n & -> & ?)|[(d & -> & ?)|(dps & dap & -> & ?)]]]; [|lia|done..].
  by destruct e.
Qed.

(** Types. However a session is used, over a transport that respects its
    signature, through any sequence of public calls with whatever outcomes: the
    transport's invariant holds, the frame buffer is a slice of bytes of the
    size it had, and what INFO then returns has every field at its width. *)
Theorem session_typed calls (s : Session (Logged T E)) :
  sess_ok ok s -> Forall call_ok calls ->
  let s' := fold_left call calls s in
  sess_ok ok s' /\ len (buf s') = len (buf s)
  /\ forall i s'', info s' = (Ok i, s'') -> info_wf i.
Proof.
  intros Hs Hc s'. destruct (calls_kept tr ok calls s Hs Hc) as [Hs' Hl]. split_and!; [done..|].
  intros i s''. by apply (info_ok_wf tr ok).
Qed.

(** [echo] refuses more than sixteen bytes before anything is sent, and
    succeeds exactly when the device's validated response carries those bytes
    back; a device that answers with others is a [BadFrame]. *)
Theorem echo_correct data (s : Session (Logged T E)) r s' :
  bytes data -> sess_ok ok s -> echo data s = (r, s') ->
  if ECHO_MAX <? len data then r = Err (Error.PayloadTooLarge (len data)) /\ s' = s
  else if len (buf s) <? 2 * len data + 7
  then r = Err (Error.BufferTooSmall (2 * len data + 7)) /\ s' = s
  else exists atts rsp v, log s' = log s ++ atts
    /\ exchanged 4 (Z.lor CMD_ECHO RSP_FLAG) (wire CMD_ECHO data) atts rsp v
    /\ (r = Ok tt <-> exists rlen, v = Ok rlen
                       /\ ok_response (Z.lor CMD_ECHO RSP_FLAG) rlen rsp data)
    /\ (forall e, v = Err e -> r = Err e)
    /\ (forall rlen, v = Ok rlen -> r = Ok tt \/ r = Err Error.BadFrame).
Proof.
  intros Hd Hs. usize_bounds. pose proof (len_nonneg data). unfold echo, sret, sfail.
  change ECHO_MAX with 16. zcase; [by intros [= <- <-]|].
  change ST_RSP_PAYLOAD with 1. rewrite usize_add_small by lia. unfold sbind.
  destruct (transact CMD_ECHO data (len data + 1) s) as [r1 s1] eqn:Ht.
  apply (transact_spec tr ok) in Ht; [|done|done|done|change PAYLOAD_MAX with 252; lia|lia].
  cbv zeta in Ht. replace (len data + (len data + 1) + 6) with (2 * len data + 7) in Ht by lia.
  zcase_in Ht.
  - destruct Ht as [-> ->]. by intros [= <- <-].
  - destruct Ht as (_ & _ & atts & rsp & v & Hlog & Hex & Hr).
    destruct r1 as [rest|e].
    + destruct Hr as (rlen & -> & Hok).
      intros Heq. exists atts, rsp, (Ok rlen).
      assert (s' = s1) as -> by (case_decide; by apply pair_equal_spec in Heq as [_ <-]).
      split_and!; [done|done| |done|].
      * case_decide as Hdec; apply pair_equal_spec in Heq as [<- _].
        -- split; [|done]. intros _. exists rlen. by rewrite <- Hdec.
        -- split; [done|]. intros (rlen' & [= <-] & [_ Hd1]). destruct Hok as [_ Hd2].
           rewrite Hd1 in Hd2. by injection Hd2 as <-.
      * intros _ _. case_decide; apply pair_equal_spec in Heq as [<- _]; auto.
    + destruct Hr as [-> Hwe]. intros [<- <-]%pair_equal_spec.
      exists atts, rsp, (Err e). split_and!; [done|done| | |done].
      * split; [done|]. by intros (? & ? & _).
      * by intros ? [= <-].
Qed.

End properties.

(** ** Runs on scripted devices *)
Definition ack (cmd : Z) : list Z := wire (Z.lor cmd RSP_FLAG) [ST_OK].
Definition sample_info : DeviceInfo := mkInfo PROTO_VERSION 7 [1; 2; 3; 4] 16 4 true.
Definition sample_info_rsp : list Z :=
  wire (Z.lor CMD_INFO RSP_FLAG) (ST_OK :: info_payload sample_info).
(** One lost exchange on the way. *)
Definition sample_script : Script unit :=
  [Ok sample_info_rsp; Ok (ack CMD_ERASE_APP); Err tt; Ok (ack CMD_WRITE_PAGE);
   Ok (ack CMD_WRITE_PAGE); Ok (ack CMD_WRITE_PAGE); Ok (ack CMD_VERIFY)].
Definition sample_session (sc : Script unit) : Session (Logged (Script unit) unit) :=
  new (mkLogged sc []) (replicate 64 0).
Definition sample_progress (d t : Z) (p : list (Z * Z)) : list (Z * Z) := p ++ [(d, t)].
Definition sample_run (sc : Script unit) :=
  flash sample_progress sample_image (sample_session sc, []).

Lemma sample_session_ok sc : script_ok sc -> sess_ok script_ok (sample_session sc).
Proof. intros. split; [done|]. split; [by apply bytes_replicate|by vm_compute]. Qed.
Lemma sample_script_ok : script_ok sample_script.
Proof. repeat constructor; by vm_compute. Qed.
Lemma sample_run_eq sc :
  flash sample_progress sample_image (sample_session sc, [])
    = (fst (sample_run sc), (fst (snd (sample_run sc)), snd (snd (sample_run sc)))).
Proof. unfold sample_run. by destruct (flash _ _ _) as [? [??]]. Qed.

Example sample_run_ok :
  fst (sample_run sample_script) = Ok tt
  /\ snd (snd (sample_run sample_script)) = [(0, 3); (1, 3); (2, 3); (3, 3)]
  /\ length (log (fst (snd (sample_run sample_script)))) = 7%nat.
Proof. vm_compute. done. Qed.

Lemma exchange_characterised_witness :
  exists atts, exchanged (E:=unit) 4 0x85 (wire CMD_BOOT []) atts (ack CMD_BOOT) (Ok 4)
    /\ length atts = 2%nat.
Proof.
  pose (l := mkLogged [Err tt; Ok (ack CMD_BOOT)] [] : Logged (Script unit) unit).
  pose (res := exchange l (wire CMD_BOOT []) [0; 0; 0; 0] 0x85).
  assert (fst res = Ok 4 /\ snd (snd res) = ack CMD_BOOT
    /\ length (lg_log (fst (snd res))) = 2%nat) as (Hr & Hrx & Hl)
    by (split_and!; vm_compute; reflexivity).
  destruct (exchange_characterised transport_script 0x85 (wire CMD_BOOT []) l [0; 0; 0; 0]
    (fst res) (fst (snd res)) (snd (snd res))) as (atts & Hlog & Hx).
  - subst res. by destruct (exchange _ _ _ _) as [? [??]].
  - exists atts. rewrite Hr, Hrx in Hx. split; [exact Hx|]. rewrite <- Hl, Hlog. reflexivity.
Defined.

Lemma transact_correct_witness :
  fst (transact CMD_BOOT [] 1 (new (mkLogged (T:=Script unit) [] []) [0; 0]))
    = Err (Error.BufferTooSmall (E:=unit) 7).
Proof.
  destruct (transact_correct transport_script script_ok CMD_BOOT [] 1
    (new (mkLogged (T:=Script unit) [] []) [0; 0]) (Err (Error.BufferTooSmall 7))
    (new (mkLogged (T:=Script unit) [] []) [0; 0])) as [Hr _].
  - split; [constructor|]. split; [repeat constructor; lia|by vm_compute].
  - by vm_compute.
  - constructor.
  - by vm_compute.
  - lia.
  - vm_compute. reflexivity.
  - vm_compute. reflexivity.
Defined.

Lemma write_page_correct_witness :
  let r := write_page sample_image 3 (sample_session [Ok (ack CMD_WRITE_PAGE)]) in
  fst r = Ok tt /\ exists rsp v, exchanged (E:=unit) 4 (Z.lor CMD_WRITE_PAGE RSP_FLAG)
    (wire CMD_WRITE_PAGE (u16_to_le_bytes 3 ++ page_of 16 (region sample_image) 3)) (log (snd r)) rsp v.
Proof.
  intros r. assert (fst r = Ok tt) as Hr by by vm_compute.
  destruct (write_page_correct transport_script script_ok sample_data 16 4 sample_image 3
    (sample_session [Ok (ack CMD_WRITE_PAGE)]) (fst r) (snd r) ltac:(lia) ltac:(lia)
    sample_bytes sample_from_bin ltac:(lia)
    (sample_session_ok [Ok (ack CMD_WRITE_PAGE)] ltac:(repeat constructor; by vm_compute)))
    as (_ & _ & atts & rsp & v & Hl & Hx & _).
  - subst r. by destruct (write_page _ _ _).
  - split; [done|]. exists rsp, v. rewrite Hl. exact Hx.
Defined.

Lemma flash_gated_witness :
  gate_passed [] (log (fst (snd (sample_run sample_script)))) sample_image.
Proof.
  destruct (flash_gated transport_script script_ok sample_progress sample_data 16 4 sample_image
    (sample_session sample_script) [] _ _ _ ltac:(lia) ltac:(lia) sample_bytes sample_from_bin
    (sample_session_ok _ sample_script_ok) (sample_run_eq sample_script)) as [Hg|[[e He] _]].
  - exact Hg.
  - exfalso. vm_compute in He. discriminate He.
Defined.

(** A page refused on the way: the flash ends there, with its status. *)
Definition refusing_script : Script unit :=
  [Ok sample_info_rsp; Ok (ack CMD_ERASE_APP); Ok (ack CMD_WRITE_PAGE);
   Ok (wire (Z.lor CMD_WRITE_PAGE RSP_FLAG) [ST_NOT_ERASED])].
Lemma flash_sequence_witness :
  exists k m vs, conversed [] (log (fst (snd (sample_run refusing_script)))) (take k (flash_frames sample_image)) vs
    /\ stops vs (Err (Error.Device ST_NOT_ERASED) : result unit (Error.t unit)) /\ (m = 0%nat \/ (S m <= acks vs)%nat).
Proof.
  destruct (flash_sequence transport_script script_ok sample_progress sample_data 16 4 sample_image
    (sample_session refusing_script) [] _ _ _ ltac:(lia) ltac:(lia) sample_bytes sample_from_bin
    (sample_session_ok refusing_script ltac:(repeat constructor; by vm_compute)) (sample_run_eq refusing_script))
    as (k & m & vs & Hs & Hst & _ & _ & _ & Hm & _).
  exists k, m, vs. split; [exact Hs|]. split; [|exact Hm].
  replace (Err (Error.Device ST_NOT_ERASED)) with (fst (sample_run refusing_script)) by (vm_compute; reflexivity).
  exact Hst.
Defined.

Lemma flash_errors_witness :
  fst (sample_run [Ok (wire 0x81 (ST_OK :: info_payload (mkInfo 2 7 [1; 2; 3; 4] 16 4 true)))])
    = Err (Error.ProtocolVersion 2) /\ 2 <> PROTO_VERSION.
Proof.
  pose (sc := [Ok (wire 0x81 (ST_OK :: info_payload (mkInfo 2 7 [1; 2; 3; 4] 16 4 true)))] : Script unit).
  assert (fst (sample_run sc) = Err (Error.ProtocolVersion 2)) as He by (vm_compute; reflexivity).
  split; [exact He|]. pose proof (sample_run_eq sc) as Hr. rewrite He in Hr.
  exact (proj2 (proj2 (flash_errors transport_script script_ok sample_progress sample_data 16 4
    sample_image (sample_session sc) [] _ _ _ ltac:(lia) ltac:(lia) sample_bytes sample_from_bin
    (sample_session_ok sc ltac:(repeat constructor; by vm_compute)) Hr))).
Defined.

Lemma echo_correct_witness :
  fst (echo (replicate 17 0) (sample_session [])) = Err (Error.PayloadTooLarge (E:=unit) 17).
Proof.
  destruct (echo_correct transport_script script_ok (replicate 17 0) (sample_session [])
    (fst (echo (replicate 17 0) (sample_session []))) (sample_session [])) as [Hr _].
  - by apply bytes_replicate.
  - apply sample_session_ok. constructor.
  - vm_compute. reflexivity.
  - exact Hr.
Defined.

Lemma parse_info_exact_witness :
  parse_info (E:=unit) (info_payload sample_info) = Ok sample_info.
Proof. apply (proj1 parse_info_exact sample_info); [done|by vm_compute|by vm_compute]. Defined.

Lemma session_typed_witness :
  let s' := fold_left call [CallInfo; CallEcho [1; 2]; CallFlash sample_image; CallBoot] (sample_session sample_script) in
  sess_ok script_ok s' /\ len (buf s') = len (buf (sample_session sample_script)).
Proof.
  destruct (session_typed transport_script script_ok [CallInfo; CallEcho [1; 2]; CallFlash sample_image; CallBoot]
    (sample_session sample_script)) as (Hs & Hl & _).
  - exact (sample_session_ok _ sample_script_ok).
  - destruct (from_bin_ok_inv sample_data 16 4 sample_image ltac:(lia) ltac:(lia) sample_bytes sample_from_bin) as [Hwf _].
    repeat (constructor; [first [exact I|exact Hwf|by repeat constructor]|]). constructor.
  - split; [exact Hs|exact Hl].
Defined.
