(* ===== verification/Kani.v ===== *)
(** The model checker's harnesses ([mod proofs] of [updater-core/src/frame.rs],
    [image.rs], [stream.rs] and [session.rs]) as functions of their symbolic
    inputs and of the bounds that Kani needs: [None] is a panic, which is the
    failed assertion. Each is shown to return on every input of every size, so
    what Kani checks up to its bounds holds without them. *)
From S2P Require Import Prelude Asserts Errors Frame Image Stream Session.

(** [while i < n { assert!(a[i] == b[i]); i += 1 }] *)
Definition same_from (i n : Z) (a b : list Z) : bool :=
  forallb (fun j => match get_at j a, get_at j b with Some x, Some y => x =? y | _, _ => false end)
    (seqZ i (n - i)).

Lemma same_from_refl i n a b : 0 <= i -> n <= len a -> (forall j, i <= j -> get_at j a = get_at j b) ->
  same_from i n a b = true.
Proof.
  intros Hi Hn Hab. apply forallb_forall. intros j Hj%list_elem_of_In%elem_of_seqZ.
  rewrite <- Hab by lia. unfold get_at. destruct (lookup_lt_is_Some_2 a (Z.to_nat j)) as [x Hx]; [unfold len in *; lia|].
  rewrite Hx. apply Z.eqb_refl.
Qed.

Module FrameProofs.
Section frame.
Context `{PtrWidth}.

Definition decode_total (DEC_MAX : Z) (raw : list Z) (n : Z) : harness :=
  assume (n <=? DEC_MAX)
    match get_to n raw with
    | None => Some tt
    | Some input => let _ := decode input in Some tt
    end.

Definition decode_padded_total (DEC_MAX : Z) (raw : list Z) (n : Z) : harness :=
  assume (n <=? DEC_MAX)
    match get_to n raw with
    | None => Some tt
    | Some input =>
      match decode_padded input with
      | Err _ => Some tt
      | Ok f =>
        let total := len (frame_payload f) + FRAME_OVERHEAD in
        match get_to total input with
        | None => None
        | Some prefix =>
          match decode prefix with
          | Err _ => None
          | Ok g =>
            assert ((frame_cmd g =? frame_cmd f) && bool_decide (frame_payload g = frame_payload f));;
            match get_from total input with
            | None => None
            | Some tail => assert (all_eq 0xFF tail)
            end
          end
        end
      end
    end.

Definition encode_decode_roundtrip_proof (ENC_MAX : Z) (payload : list Z) (n cmd : Z) : harness :=
  assume (n <=? ENC_MAX)
    match get_to n payload with
    | None => Some tt
    | Some pl =>
      match encode cmd pl (replicate (Z.to_nat (ENC_MAX + FRAME_OVERHEAD)) 0) with
      | (Err _, _) => None
      | (Ok written, out) =>
        assert (written =? n + FRAME_OVERHEAD);;
        match get_to written out with
        | None => None
        | Some wire =>
          match decode wire with
          | Err _ => None
          | Ok f => assert ((frame_cmd f =? cmd) && bool_decide (frame_payload f = pl))
          end
        end
      end
    end.

Definition encode_write_extent (ENC_MAX : Z) (payload : list Z) (n cmd : Z) (before : list Z) (out_len : Z) : harness :=
  assume (n <=? ENC_MAX)
    match get_to n payload with
    | None => Some tt
    | Some pl =>
      let OUT_MAX := ENC_MAX + FRAME_OVERHEAD + 4 in
      assume (out_len <=? OUT_MAX)
        match split_at_checked out_len before with
        | None => Some tt
        | Some (window, rest) =>
          let '(r, window) := encode cmd pl window in
          let out := window ++ rest in
          match r with
          | Ok written =>
              assert (written =? n + FRAME_OVERHEAD);;
              assert (written <=? out_len);;
              assert (same_from written OUT_MAX out before)
          | Err (Error.BufferTooSmall needed) =>
              assert (needed =? n + FRAME_OVERHEAD);;
              assert (out_len <? needed);;
              assert (bool_decide (out = before))
          | Err _ => None
          end
        end
    end.

Definition encode_rejects_oversized_payload (cmd : Z) : harness :=
  let out := replicate 256 0 in
  let '(r, out) := encode cmd (replicate (Z.to_nat (PAYLOAD_MAX + 1)) 0) out in
  assert match r with Err (Error.PayloadTooLarge l) => l =? PAYLOAD_MAX + 1 | _ => false end;;
  let '(r, _) := encode cmd (replicate 256 0) out in
  assert match r with Err (Error.PayloadTooLarge l) => l =? 256 | _ => false end.

Definition decode_padded_roundtrip_with_filler (N : Z) (payload : list Z) (n cmd read_len pos junk : Z) : harness :=
  assume (n <=? N)
    match get_to n payload with
    | None => Some tt
    | Some pl =>
      match encode cmd pl (replicate (Z.to_nat (N + FRAME_OVERHEAD + 5)) 0xFF) with
      | (Err _, _) => None
      | (Ok written, buf) =>
        assume ((written <=? read_len) && (read_len <=? len buf))
          match get_to read_len buf with
          | None => Some tt
          | Some view =>
            match decode_padded view with
            | Err _ => None
            | Ok f =>
              assert ((frame_cmd f =? cmd) && bool_decide (frame_payload f = pl));;
              if written <? read_len then
                assume ((written <=? pos) && (pos <? read_len)) (assume (negb (junk =? 0xFF))
                  match get_at pos buf with
                  | None => None
                  | Some _ =>
                    let buf := <[Z.to_nat pos := junk]> buf in
                    match get_to read_len buf with
                    | None => Some tt
                    | Some view => assert (negb (is_ok (decode_padded view)))
                    end
                  end)
              else Some tt
            end
          end
      end
    end.
End frame.
End FrameProofs.

Module ImageProofs.
Section image.
Context `{PtrWidth}.

Definition from_bin_total (DATA_MAX : Z) (data : list Z) (dlen page_size app_pages : Z) : harness :=
  assume (dlen <=? DATA_MAX)
    match get_to dlen data with
    | None => Some tt
    | Some bytes =>
      match from_bin bytes page_size app_pages with
      | Ok img =>
          assert (1 <=? app_pages);;
          assert ((FOOTER_LEN <=? page_size) && (page_size <=? PAGE_SIZE_MAX));;
          assert (img_len img =? dlen);;
          assert (img_page_size img =? page_size);;
          assert (img_app_pages img =? app_pages);;
          assert (footer_page_index img =? u16_wrapping_sub app_pages 1);;
          region ← usize_checked_mul page_size app_pages;
          capacity ← usize_checked_sub region FOOTER_LEN;
          assert (dlen <=? capacity)
      | Err (Error.BadGeometry _ _) | Err (Error.ImageTooLarge _ _) => Some tt
      | Err _ => None
      end
    end.

(** [range.contains(&x)] *)
Definition contains (range : Z * Z) (x : Z) : bool := (fst range <=? x) && (x <=? snd range).

Definition page_into_total (DATA_MAX OUT_MAX : Z) (PAGE_SIZES APP_PAGES : Z * Z)
    (data : list Z) (dlen page_size app_pages index : Z) (before : list Z) (out_len : Z) : harness :=
  assume (dlen <=? DATA_MAX)
    match get_to dlen data with
    | None => Some tt
    | Some bytes =>
      assume (contains PAGE_SIZES page_size) (assume (contains APP_PAGES app_pages)
        match from_bin bytes page_size app_pages with
        | Err _ => Some tt
        | Ok img =>
          assume (out_len <=? OUT_MAX)
            match split_at_checked out_len before with
            | None => Some tt
            | Some (window, rest) =>
              let ps := page_size in
              let '(r, window) := page_into img index window in
              let out := window ++ rest in
              match r with
              | Ok _ =>
                  assert (index <? app_pages);;
                  assert (ps <=? out_len);;
                  assert (same_from ps OUT_MAX out before)
              | Err (Error.PageOutOfRange i) =>
                  assert ((i =? index) && (app_pages <=? index));;
                  assert (bool_decide (out = before))
              | Err (Error.BufferTooSmall needed) =>
                  assert ((needed =? ps) && (out_len <? ps) && (index <? app_pages));;
                  assert (bool_decide (out = before))
              | Err _ => None
              end
            end
        end)
    end.

Definition pages_yield_in_range_and_footer (data : list Z) : harness :=
  let app_pages := 3 in
  match from_bin data 16 app_pages with
  | Err _ => None
  | Ok img =>
    let it := pages img in
    let '(y0, it) := next it in
    let '(y1, it) := next it in
    let '(y2, it) := next it in
    let '(y3, it) := next it in
    assert (bool_decide (y3 = None));;
    let yields := omap id [y0; y1; y2] in
    assert (forallb (fun index => index <? app_pages) yields);;
    assert (existsb (fun index => index =? footer_page_index img) yields);;
    match from_bin [] 16 1 with
    | Err _ => None
    | Ok single =>
      let it := pages single in
      let '(y0, it) := next it in
      let '(y1, it) := next it in
      assert (bool_decide (y0 = Some 0));;
      assert (bool_decide (y1 = None))
    end
  end.
End image.
End ImageProofs.

Module SessionProofs.
Section session.
Context `{PtrWidth}.

Definition validate_total (RSP_MAX : Z) (raw : list Z) (n expect_cmd : Z) : harness :=
  assume (n <=? RSP_MAX)
    match get_to n raw with
    | None => Some tt
    | Some view =>
      match validate view expect_cmd with
      | Ok _ =>
        match decode_padded view with
        | Err _ => None
        | Ok f => assert (frame_cmd f =? expect_cmd);; assert (bool_decide (head (frame_payload f) = Some ST_OK))
        end
      | Err Mangled | Err DeviceBadFrame => Some tt
      | Err (Fatal st) => assert (negb (st =? ST_OK) && negb (st =? ST_BAD_FRAME))
      end
    end.

Definition parse_info_total (RAW_MAX : Z) (raw : list Z) (n : Z) : harness :=
  assume (n <=? RAW_MAX)
    match get_to n raw with
    | None => Some tt
    | Some view =>
      match parse_info (E:=Empty_set) view with
      | Ok info =>
        assert (n =? INFO_RSP_PAYLOAD - 1);;
        match view with
        | [proto; bl; d0; d1; d2; d3; ps_lo; ps_hi; ap_lo; ap_hi; valid] =>
            assert (di_proto info =? proto);;
            assert (di_bl_version info =? bl);;
            assert (bool_decide (di_device_id info = [d0; d1; d2; d3]));;
            assert (di_page_size info =? u16_from_le_bytes ps_lo ps_hi);;
            assert (di_app_pages info =? u16_from_le_bytes ap_lo ap_hi);;
            assert (eqb (di_app_valid info) (negb (valid =? 0)))
        | _ => None
        end
      | Err Error.BadFrame => assert (negb (n =? INFO_RSP_PAYLOAD - 1))
      | Err _ => None
      end
    end.
End session.
End SessionProofs.

Module StreamProofs.
Section stream.
Context `{PtrWidth}.

Definition push_total_any_state (BUF_MAX : Z) (sc : RxScanner) (buf : list Z) (blen byte : Z) : harness :=
  assume (blen <=? BUF_MAX)
    match get_to blen buf with
    | None => Some tt
    | Some window => let _ := push sc byte window in Some tt
    end.

Definition done_is_decodable (BUF_MAX : Z) (sc : RxScanner) (buf : list Z) (blen byte : Z) : harness :=
  assume (blen <=? BUF_MAX)
    match get_to blen buf with
    | None => Some tt
    | Some window =>
      match push sc byte window with
      | (Scan.Done n, (sc, window)) =>
        match get_to n window with
        | None => None
        | Some raw =>
          match decode raw with
          | Err _ => None
          | Ok f => assert (n =? len (frame_payload f) + FRAME_OVERHEAD);; assert (negb (rx_in_frame sc))
          end
        end
      | _ => Some tt
      end
    end.

(** [while i < glen { ... }], then [k] with the scanner and the buffer. *)
Fixpoint garbage_loop (garbage : list Z) (sc : RxScanner) (buf : list Z)
    (k : RxScanner -> list Z -> harness) : harness :=
  match garbage with
  | [] => k sc buf
  | g :: garbage =>
    assume (negb (g =? SYNC))
      (let '(o, (sc, buf)) := push sc g buf in
       assert (bool_decide (o = Scan.Hunt));; garbage_loop garbage sc buf k)
  end.

(** [while j < flen { ... }] over the bytes from [j] on. *)
Fixpoint frame_loop (wire : list Z) (j : Z) (rest : list Z) (sc : RxScanner) (buf : list Z) : harness :=
  match rest with
  | [] => Some tt
  | b :: rest =>
    match push sc b buf with
    | (Scan.Frame, (sc, buf)) =>
        assert (j + 1 <? len wire);; frame_loop wire (j + 1) rest sc buf
    | (Scan.Done n, (sc, buf)) =>
        assert (j + 1 =? len wire);;
        assert (n =? len wire);;
        assert (bool_decide (get_to n buf = Some wire));;
        frame_loop wire (j + 1) rest sc buf
    | _ => None
    end
  end.

Definition garbage_then_frame_roundtrip (PL_MAX GARBAGE_MAX : Z)
    (payload : list Z) (n cmd : Z) (garbage : list Z) (glen : Z) : harness :=
  assume (n <=? PL_MAX)
    match get_to n payload with
    | None => Some tt
    | Some pl =>
      match encode cmd pl (replicate (Z.to_nat (PL_MAX + FRAME_OVERHEAD)) 0) with
      | (Err _, _) => None
      | (Ok flen, wire) =>
        let sc := rx_new in
        let buf := replicate (Z.to_nat (PL_MAX + FRAME_OVERHEAD)) 0 in
        assume (glen <=? GARBAGE_MAX)
          (garbage ← get_to glen garbage;
           garbage_loop garbage sc buf (fun sc buf =>
             let '(o, (sc, buf)) := push sc SYNC buf in
             assert (bool_decide (o = Scan.Frame));;
             wire ← get_to flen wire;
             frame_loop wire 0 wire sc buf))
      end
    end.
End stream.
End StreamProofs.
(** ** They return *)
Section frame_proofs.
Context `{PtrWidth}.
Import FrameProofs.
Implicit Types raw payload before : list Z.

Lemma get_to_len n (l k : list Z) : get_to n l = Some k -> 0 <= n -> len k = n /\ (bytes l -> bytes k).
Proof.
  unfold get_to. zcase; [|done]. intros [= <-] Hn. split; [rewrite len_take; lia|intros; auto with ota].
Qed.
Lemma get_wire cmd payload more : let n := len payload + 3 in
  get_to n (wire cmd payload ++ more) = Some (wire cmd payload) /\ get_from n (wire cmd payload ++ more) = Some more.
Proof.
  intros n. pose proof (len_wire cmd payload) as Hl. pose proof (len_nonneg payload). pose proof (len_nonneg more).
  assert (Z.to_nat n = length (wire cmd payload)) as Hn by (unfold n, len in *; lia).
  unfold get_to, get_from. rewrite len_app, Hl. unfold n in *.
  rewrite (proj2 (Z.leb_le _ _)) by lia. by rewrite Hn, take_app_length, drop_app_length.
Qed.

Lemma decode_total_returns M raw n : decode_total M raw n = Some tt.
Proof. apply assume_intro. intros _. by destruct (get_to n raw). Qed.

Lemma decode_padded_total_returns M raw n : bytes raw -> 0 <= n -> decode_padded_total M raw n = Some tt.
Proof.
  intros Hb Hn. apply assume_intro. intros _. destruct (get_to n raw) as [input|] eqn:Hg; [|done].
  apply get_to_len in Hg as [_ Hbi]; [|done]. destruct (decode_padded input) as [f|] eqn:Hd; [|done].
  apply decode_padded_ok_inv in Hd as (k & -> & Hl); [|auto].
  cbv zeta. change FRAME_OVERHEAD with 3. destruct (get_wire (frame_cmd f) (frame_payload f) (replicate k 0xFF)) as [-> ->].
  rewrite decode_wire by done. cbn [frame_cmd frame_payload]. rewrite Z.eqb_refl, bool_decide_true by done.
  apply assert_true; [done|]. apply assert_done, all_eq_replicate.
Qed.

Lemma encode_decode_roundtrip_returns M payload n cmd : M <= PAYLOAD_MAX -> 0 <= n ->
  encode_decode_roundtrip_proof M payload n cmd = Some tt.
Proof.
  intros HM Hn. apply assume_intro. intros Hle%Z.leb_le. destruct (get_to n payload) as [pl|] eqn:Hg; [|done].
  apply get_to_len in Hg as [Hl _]; [|done]. unfold FRAME_OVERHEAD.
  rewrite encode_ok by (rewrite ?len_replicate; lia). rewrite Hl. apply assert_true; [by apply Z.eqb_eq|].
  rewrite <- Hl at 1. destruct (get_wire cmd pl (drop (length (wire cmd pl)) (replicate (Z.to_nat (M + 3)) 0))) as [-> _].
  rewrite decode_wire by lia. apply assert_done. cbn [frame_cmd frame_payload]. by rewrite Z.eqb_refl, bool_decide_true.
Qed.

Lemma encode_write_extent_returns M payload n cmd before out_len : M <= PAYLOAD_MAX -> 0 <= n -> 0 <= out_len ->
  len before = M + FRAME_OVERHEAD + 4 -> encode_write_extent M payload n cmd before out_len = Some tt.
Proof.
  intros HM Hn Ho Hb. apply assume_intro. intros Hle%Z.leb_le. destruct (get_to n payload) as [pl|] eqn:Hg; [|done].
  apply get_to_len in Hg as [Hl _]; [|done]. apply assume_intro. intros Hol%Z.leb_le. unfold FRAME_OVERHEAD in *.
  unfold split_at_checked. rewrite (proj2 (Z.leb_le _ _)) by lia.
  set (window := take _ before). set (rest := drop _ before).
  assert (window ++ rest = before) as Hwr by apply take_drop. assert (len window = out_len) as Hwl by (unfold window; rewrite len_take; lia).
  rewrite encode_correct, Hl, Hwl, (proj2 (Z.ltb_ge _ _)) by lia. zcase.
  - apply assert_true; [by apply Z.eqb_eq|]. apply assert_true; [by apply Z.ltb_lt|].
    apply assert_done. by rewrite Hwr, bool_decide_true.
  - do 2 (apply assert_true; [first [apply Z.eqb_eq|apply Z.leb_le]; lia|]). apply assert_done.
    pose proof (len_wire cmd pl) as Hlw. assert (length (wire cmd pl) = Z.to_nat (n + 3)) as Hlw' by (unfold len in *; lia).
    rewrite <- app_assoc, <- drop_app_le, Hwr by (unfold len in *; lia).
    apply same_from_refl; [lia|unfold len in *; rewrite length_app, length_drop; lia|]. intros j Hj. unfold get_at.
    rewrite lookup_app_r, lookup_drop by lia. f_equal. lia.
Qed.

Lemma encode_rejects_oversized_payload_returns cmd : encode_rejects_oversized_payload cmd = Some tt.
Proof.
  unfold encode_rejects_oversized_payload. rewrite !encode_correct, !len_replicate by (change PAYLOAD_MAX with 252; lia).
  rewrite (proj2 (Z.ltb_lt _ _)) by lia. by apply assert_true; [apply Z.eqb_refl|].
Qed.

(** The filler is told from the frame: one other byte in it and nothing is
    accepted. *)
Lemma decode_padded_junk cmd payload k i x : is_u8 cmd -> bytes payload -> len payload <= PAYLOAD_MAX -> is_u8 x -> x <> 0xFF ->
  (i < k)%nat -> is_ok (decode_padded (wire cmd payload ++ <[i:=x]> (replicate k 0xFF))) = false.
Proof.
  intros Hc Hp Hl Hx Hne Hi. destruct (decode_padded _) as [f|] eqn:Hd; [|done]. exfalso.
  pose proof (len_nonneg payload). change PAYLOAD_MAX with 252 in *.
  apply decode_padded_ok_inv in Hd as (k' & Heq & Hl').
  2: { apply bytes_app. split; [by apply wire_bytes; [..|lia]|]. apply Forall_insert; [by apply bytes_replicate|done]. }
  assert (Some (len payload) = Some (len (frame_payload f))) as [= Hll] by exact (f_equal (fun l => l !! 1%nat) Heq).
  apply app_inj_1 in Heq as [_ Heq].
  2: { pose proof (len_wire cmd payload). pose proof (len_wire (frame_cmd f) (frame_payload f)). unfold len in *. lia. }
  apply (f_equal (fun l => l !! i)) in Heq. rewrite list_lookup_insert_eq in Heq by (by rewrite length_replicate).
  symmetry in Heq. apply lookup_replicate in Heq as [-> _]. done.
Qed.

Lemma decode_padded_roundtrip_with_filler_returns N payload n cmd read_len pos junk :
  N <= PAYLOAD_MAX -> bytes payload -> 0 <= n -> is_u8 cmd -> 0 <= read_len -> 0 <= pos -> is_u8 junk ->
  decode_padded_roundtrip_with_filler N payload n cmd read_len pos junk = Some tt.
Proof.
  intros HN Hb Hn Hc Hr Hp Hj. apply assume_intro. intros Hle%Z.leb_le. destruct (get_to n payload) as [pl|] eqn:Hg; [|done].
  apply get_to_len in Hg as [Hl Hbp]; [|done]. specialize (Hbp Hb). unfold FRAME_OVERHEAD.
  rewrite encode_ok by (rewrite ?len_replicate; lia). rewrite drop_replicate.
  pose proof (len_wire cmd pl) as Hlw. set (k := (_ - _)%nat).
  apply assume_intro. intros [Hw%Z.leb_le Hrb%Z.leb_le]%andb_true_iff.
  pose proof (len_nonneg pl). assert (length (wire cmd pl) = Z.to_nat (n + 3)) as Hlw' by (unfold len in *; lia).
  set (m := (Z.to_nat read_len - Z.to_nat (n + 3))%nat). assert (m <= k)%nat as Hmk.
  { rewrite len_app in Hrb. unfold len in Hrb. rewrite length_replicate in Hrb. lia. }
  assert (take (Z.to_nat read_len) (wire cmd pl ++ replicate k 0xFF) = wire cmd pl ++ replicate m 0xFF) as Htake.
  { rewrite take_app_ge, take_replicate by lia. do 2 f_equal. lia. }
  rewrite get_to_Some, Htake by done. rewrite decode_padded_wire by lia. cbn [frame_cmd frame_payload].
  rewrite Z.eqb_refl, bool_decide_true by done. apply assert_true; [done|].
  destruct (Z.ltb_spec (len pl + 3) read_len); [|done]. apply assume_intro. intros [Hpw%Z.leb_le Hpr%Z.ltb_lt]%andb_true_iff.
  apply assume_intro. intros Hjf%negb_true_iff%Z.eqb_neq.
  unfold get_at. destruct (lookup_lt_is_Some_2 (wire cmd pl ++ replicate k 0xFF) (Z.to_nat pos)) as [y ->];
    [unfold len in *; lia|].
  rewrite get_to_Some by (unfold len in *; rewrite length_insert; lia).
  rewrite take_insert_lt, Htake, insert_app_r_alt by lia. apply assert_done.
  rewrite decode_padded_junk; try done; lia.
Qed.
End frame_proofs.


Section image_harnesses.
Context `{PtrWidth}.
Import ImageProofs.
Implicit Types data before : list Z.

Lemma split_at_app {A} n (l a b : list A) : split_at_checked n l = Some (a, b) -> 0 <= n -> a ++ b = l /\ len a = n.
Proof.
  unfold split_at_checked. zcase; [|done]. intros [= <- <-] Hn. split; [apply take_drop|rewrite len_take; lia].
Qed.

Lemma from_bin_total_returns M data dlen ps ap : bytes data -> 0 <= dlen -> is_u16 ps -> is_u16 ap ->
  from_bin_total M data dlen ps ap = Some tt.
Proof.
  intros Hb Hd Hps Hap. apply assume_intro. intros _. destruct (get_to dlen data) as [k|] eqn:Hg; [|done].
  apply get_to_len in Hg as [Hk Hbk]; [|done]. specialize (Hbk Hb).
  destruct (from_bin k ps ap) as [img|e] eqn:Hf.
  - apply from_bin_ok_inv in Hf as (Hwf & Hd' & Hp & Ha); [|done..].
    rewrite footer_page_index_wf by done. pose proof Hwf as []. subst k ps ap.
    assert (u16_wrapping_sub (img_app_pages img) 1 = img_app_pages img - 1) as -> by (apply Z.mod_small; lia).
    unfold FOOTER_LEN in *.
    repeat (apply assert_true; [rewrite ?andb_true_iff, ?Z.leb_le, ?Z.eqb_eq; lia|]).
    unfold usize_checked_mul, usize_checked_sub. rewrite (proj2 (Z.leb_le _ _)) by lia. cbn [mbind option_bind].
    rewrite (proj2 (Z.leb_le 16 _)) by lia. apply assert_done. apply Z.leb_le. lia.
  - rewrite from_bin_unfold in Hf by done. repeat case_match; by simplify_eq.
Qed.

Lemma page_into_total_returns M OUT_MAX PAGE_SIZES APP_PAGES data dlen ps ap index before out_len :
  bytes data -> 0 <= dlen -> is_u16 ps -> is_u16 ap -> is_u16 index -> len before = OUT_MAX -> 0 <= out_len ->
  page_into_total M OUT_MAX PAGE_SIZES APP_PAGES data dlen ps ap index before out_len = Some tt.
Proof.
  intros Hb Hd Hps Hap Hi Hob Ho. apply assume_intro. intros _. destruct (get_to dlen data) as [k|] eqn:Hg; [|done].
  apply get_to_len in Hg as [Hk Hbk]; [|done]. do 2 (apply assume_intro; intros _).
  destruct (from_bin k ps ap) as [img|e] eqn:Hf; [|done]. apply assume_intro. intros Hol%Z.leb_le.
  apply from_bin_ok_inv in Hf as (Hwf & Hd' & Hp & Ha); [|auto..].
  destruct (split_at_checked out_len before) as [[window rest]|] eqn:Hs; [|done].
  apply split_at_app in Hs as [Hwr Hwl]; [|done]. cbv zeta.
  destruct (Z.lt_ge_cases index ap) as [Hia|Hia]; [destruct (Z.le_gt_cases ps out_len) as [Hpo|Hpo]|].
  - rewrite page_into_ok by (rewrite ?Hp, ?Ha, ?Hwl; lia || done).
    do 2 (apply assert_true; [rewrite ?Z.ltb_lt, ?Z.leb_le; lia|]). apply assert_done.
    assert (len (page_of ps (region img) index) = ps) as Hpl.
    { apply page_of_length; [lia..|]. rewrite len_region, Hp, Ha by done. nia. }
    rewrite Hp, <- app_assoc, <- drop_app_le, Hwr by (unfold len in *; lia).
    apply same_from_refl; [lia|rewrite len_app, len_drop; lia|]. intros j Hj. unfold get_at.
    rewrite lookup_app_r, lookup_drop by (unfold len in *; lia). f_equal. unfold len in *. lia.
  - rewrite page_into_err by (rewrite ?Hp, ?Hwl; auto || lia). rewrite Hp, Ha, (proj2 (Z.leb_gt _ _)), Hwr by done.
    apply assert_true; [rewrite !andb_true_iff, !Z.ltb_lt, Z.eqb_eq; lia|]. by apply assert_done, bool_decide_true.
  - rewrite page_into_err by (rewrite ?Ha; auto). rewrite Ha, (proj2 (Z.leb_le _ _)), Hwr by done.
    rewrite Z.eqb_refl. apply assert_true; [done|]. by apply assert_done, bool_decide_true.
Qed.

(** [next] takes the first of the pages that remain. *)
Lemma next_remaining img c : image_wf img -> 0 <= c ->
  exists c', next (mkPages img c) = (head (remaining img c), mkPages img c')
    /\ 0 <= c' /\ remaining img c' = tail (remaining img c).
Proof.
  intros Hwf Hc. unfold next. cbn [pg_img pg_cursor].
  pose proof (next_loop_spec (S (Z.to_nat (img_app_pages img - c))) img c Hwf Hc ltac:(lia)) as Hn.
  destruct (next_loop _ _ _) as [[i|] c']; exists c'.
  - destruct Hn as (? & -> & ? & ?). rewrite (remaining_next img c i) by done. split_and!; [done|lia|done].
  - destruct Hn as [Hno Hc']. rewrite (remaining_none img c) by done. split_and!; [done|pose proof Hwf as []; lia|].
    apply remaining_none. intros; lia.
Qed.

Lemma first_three {A} (l : list A) : len l <= 3 ->
  head (tail (tail (tail l))) = None
  /\ omap id [head l; head (tail l); head (tail (tail l))] = l.
Proof.
  destruct l as [|a [|b [|c [|d l]]]]; try done. rewrite !len_cons. pose proof (len_nonneg l). lia.
Qed.

Lemma single_page_yields :
  match from_bin [] 16 1 with
  | Err _ => None
  | Ok single =>
    let '(y0, it) := next (pages single) in
    let '(y1, it) := next it in
    assert (bool_decide (y0 = Some 0));; assert (bool_decide (y1 = None))
  end = Some tt.
Proof.
  usize_bounds. destruct (from_bin [] 16 1) as [img|] eqn:Hf; cycle 1.
  { rewrite from_bin_unfold, (proj2 (Z.ltb_ge usize_max _)) in Hf by lia. done. }
  apply from_bin_ok_inv in Hf as (Hwf & _ & _ & Hap); [|lia..|constructor].
  unfold pages. destruct (next_remaining img 0) as (c1 & -> & ? & R1); [done..|].
  destruct (next_remaining img c1) as (c2 & -> & _); [done..|]. rewrite R1, (remaining_next img 0 0), remaining_none.
  - done.
  - intros. lia.
  - lia.
  - rewrite <- (must_write_footer img Hwf). f_equal. lia.
  - intros. lia.
Qed.

Lemma pages_yield_in_range_and_footer_returns data : bytes data -> len data <= 32 ->
  pages_yield_in_range_and_footer data = Some tt.
Proof.
  intros Hb Hl. unfold pages_yield_in_range_and_footer. usize_bounds.
  destruct (from_bin data 16 3) as [img|] eqn:Hf; cycle 1.
  { rewrite from_bin_unfold in Hf by lia. unfold FOOTER_LEN, PAGE_SIZE_MAX, PAYLOAD_MAX, FRAME_OVERHEAD in Hf.
    revert Hf. zcases; simpl; try done; lia. }
  apply from_bin_ok_inv in Hf as (Hwf & _ & _ & Hap); [|lia..|done].
  unfold pages. destruct (next_remaining img 0) as (c1 & -> & ? & R1); [done..|].
  destruct (next_remaining img c1) as (c2 & -> & ? & R2); [done..|]. rewrite R1 in R2 |- *.
  destruct (next_remaining img c2) as (c3 & -> & ? & R3); [done..|]. rewrite R2 in R3 |- *.
  destruct (next_remaining img c3) as (c4 & -> & _ & _); [done..|]. rewrite R3.
  pose proof (remaining_length img 0 Hwf ltac:(lia)) as Hrl.
  destruct (first_three (remaining img 0)) as [-> ->]; [lia|]. rewrite footer_page_index_wf, Hap by done.
  apply assert_true; [done|]. apply assert_true.
  { apply forallb_forall. intros i [_ ?]%list_elem_of_In%remaining_elem. apply Z.ltb_lt. lia. }
  apply assert_true.
  { apply existsb_exists. exists 2. split; [|done]. apply list_elem_of_In, remaining_elem. split; [|lia].
    rewrite <- (must_write_footer img Hwf). f_equal. lia. }
  apply single_page_yields.
Qed.

End image_harnesses.

Section session_harnesses.
Context `{PtrWidth}.
Import SessionProofs.

Lemma validate_total_returns M raw n expect_cmd : validate_total M raw n expect_cmd = Some tt.
Proof.
  apply assume_intro. intros _. destruct (get_to n raw) as [view|]; [|done]. unfold validate.
  destruct (decode_padded view) as [f|]; [|done]. destruct (Z.eqb_spec (frame_cmd f) expect_cmd); [|done]. cbn [negb].
  destruct (frame_payload f) as [|st rest]; [done|].
  destruct (Z.eqb_spec st ST_OK) as [->|Hok]; [|destruct (Z.eqb_spec st ST_BAD_FRAME) as [|Hbad]; [done|]].
  - apply assert_true; [done|]. by apply assert_done, bool_decide_true.
  - apply assert_done. by rewrite (proj2 (Z.eqb_neq _ _) Hok), (proj2 (Z.eqb_neq _ _) Hbad).
Qed.

Lemma parse_info_total_returns M raw n : 0 <= n -> parse_info_total M raw n = Some tt.
Proof.
  intros Hn. apply assume_intro. intros _. destruct (get_to n raw) as [view|] eqn:Hg; [|done].
  apply get_to_len in Hg as [Hl _]; [|done]. subst n. unfold parse_info.
  do 11 (destruct view as [|? view]; [done|]). destruct view as [|x view].
  - repeat (apply assert_true; [first [apply Z.eqb_refl|by apply bool_decide_true]|]). apply assert_done, eqb_reflx.
  - apply assert_done, negb_true_iff, Z.eqb_neq. rewrite !len_cons. pose proof (len_nonneg view).
    change (INFO_RSP_PAYLOAD - 1) with 11. lia.
Qed.
End session_harnesses.

Section stream_harnesses.
Context `{PtrWidth}.
Import StreamProofs.
Implicit Types buf : list Z.

Lemma push_total_any_state_returns M sc buf blen byte : push_total_any_state M sc buf blen byte = Some tt.
Proof. apply assume_intro. intros _. by destruct (get_to blen buf). Qed.

Lemma push_bytes sc b buf o sc' buf' : bytes buf -> is_u8 b -> push sc b buf = (o, (sc', buf')) -> bytes buf'.
Proof. intros. unfold push in *. repeat case_match; simplify_eq; try done; by apply Forall_insert. Qed.

Lemma done_is_decodable_returns M sc buf blen byte : bytes buf -> is_u8 byte -> 0 <= blen ->
  done_is_decodable M sc buf blen byte = Some tt.
Proof.
  intros Hb Hbyte Hbl. apply assume_intro. intros _. destruct (get_to blen buf) as [window|] eqn:Hg; [|done].
  apply get_to_len in Hg as [_ Hbw]; [|done].
  destruct (push sc byte window) as [[| |n|] [sc' window']] eqn:Hp; try done.
  pose proof (push_bytes _ _ _ _ _ _ (Hbw Hb) Hbyte Hp) as Hb'. apply push_done in Hp as (-> & Hn & f & Hf).
  rewrite get_to_Some by lia. rewrite Hf. apply decode_ok_inv in Hf as [Hw _]; [|auto with ota].
  apply assert_true; [|done]. apply Z.eqb_eq. change FRAME_OVERHEAD with 3.
  rewrite <- (len_wire (frame_cmd f)), <- Hw, len_take. lia.
Qed.

Lemma garbage_loop_hunts garbage buf k : k rx_new buf = Some tt -> garbage_loop garbage rx_new buf k = Some tt.
Proof.
  intros Hk. induction garbage as [|g garbage IH]; [done|]. cbn [garbage_loop]. apply assume_intro.
  intros Hg%negb_true_iff. unfold push. cbn [rx_in_frame rx_new negb]. by rewrite Hg.
Qed.

(** The loop over a frame whose outcomes are all [Frame] but the last. *)
Lemma frame_loop_returns w rest : forall j sc buf,
  outcomes sc buf rest = replicate (pred (length rest)) Scan.Frame ++ [Scan.Done (len w)] -> j + len rest = len w ->
  take (length w) (snd (after sc buf rest)) = w -> frame_loop w j rest sc buf = Some tt.
Proof.
  induction rest as [|b rest IH]; intros j sc buf Ho Hj Hw; [done|]. cbn [outcomes after frame_loop] in *.
  destruct (push sc b buf) as [o [sc1 buf1]] eqn:Hp. rewrite len_cons in Hj. cbn [length pred] in Ho.
  destruct rest as [|c rest].
  - injection Ho as ->. cbn [after snd] in Hw. apply push_done in Hp as (-> & Hn & _).
    do 2 (apply assert_true; [apply Z.eqb_eq; change (len []) with 0 in Hj; lia|]).
    rewrite get_to_Some by lia. rewrite to_nat_len, Hw, bool_decide_true by done. done.
  - injection Ho as -> Ho. apply assert_true; [|apply IH; [done|lia|done]].
    apply Z.ltb_lt. rewrite len_cons in Hj. pose proof (len_nonneg rest). lia.
Qed.

Lemma garbage_then_frame_roundtrip_returns M G payload n cmd garbage glen :
  M <= PAYLOAD_MAX -> bytes payload -> 0 <= n -> is_u8 cmd -> len garbage = G ->
  garbage_then_frame_roundtrip M G payload n cmd garbage glen = Some tt.
Proof.
  intros HM Hb Hn Hc HG. apply assume_intro. intros Hle%Z.leb_le. destruct (get_to n payload) as [pl|] eqn:Hg; [|done].
  apply get_to_len in Hg as [Hl Hbp]; [|done]. specialize (Hbp Hb). unfold FRAME_OVERHEAD. change PAYLOAD_MAX with 252 in *.
  set (buf := replicate (Z.to_nat (M + 3)) 0). assert (len buf = M + 3) as Hbl by (unfold buf; rewrite len_replicate; lia).
  rewrite encode_ok by (change PAYLOAD_MAX with 252; lia). apply assume_intro. intros Hgl%Z.leb_le.
  rewrite (get_to_Some glen) by lia. apply garbage_loop_hunts.
  usize_bounds. assert (slice buf) as Hs by (split; [apply bytes_replicate|]; lia).
  pose proof (outcomes_frame buf [] cmd pl Hs) as Ho. pose proof (after_frame buf [] cmd pl Hs) as Haf.
  change PAYLOAD_MAX with 252 in *. change FRAME_OVERHEAD with 3 in *.
  specialize (Ho (Forall_nil_2 _) Hc Hbp (Forall_nil_2 _) ltac:(lia) ltac:(lia)).
  specialize (Haf (Forall_nil_2 _) Hc Hbp (Forall_nil_2 _) ltac:(lia) ltac:(lia)).
  destruct (get_wire cmd pl (drop (length (wire cmd pl)) buf)) as [-> _].
  cbn [app outcomes after] in Ho, Haf. destruct (push rx_new SYNC buf) as [o [sc1 buf1]].
  pose proof (len_wire cmd pl) as Hlw. destruct (length (wire cmd pl)) as [|k] eqn:Hk; [unfold len in *; lia|].
  injection Ho as -> Ho. apply assert_true; [done|]. cbn [mbind option_bind].
  apply frame_loop_returns; [by rewrite Hk|lia|by rewrite Hk].
Qed.
End stream_harnesses.

(** ** Properties *)
Section properties.
Context `{PtrWidth}.

(** The harnesses of the wire codec hold without their bounds. Decoding
    any bytes returns; what [decode_padded] accepts is a frame [decode] accepts
    followed by filler; encoding round-trips, writes exactly the frame's bytes
    and nothing at all when it fails; filler round-trips and one other byte in
    it is refused. *)
Theorem frame_harnesses_return M raw payload before n cmd out_len read_len pos junk :
  bytes raw -> bytes payload -> M <= PAYLOAD_MAX -> len before = M + FRAME_OVERHEAD + 4 ->
  0 <= n -> is_u8 cmd -> 0 <= out_len -> 0 <= read_len -> 0 <= pos -> is_u8 junk ->
  FrameProofs.decode_total (len raw) raw n = Some tt
  /\ FrameProofs.decode_padded_total (len raw) raw n = Some tt
  /\ FrameProofs.encode_decode_roundtrip_proof M payload n cmd = Some tt
  /\ FrameProofs.encode_write_extent M payload n cmd before out_len = Some tt
  /\ FrameProofs.encode_rejects_oversized_payload cmd = Some tt
  /\ FrameProofs.decode_padded_roundtrip_with_filler M payload n cmd read_len pos junk = Some tt.
Proof.
  intros. split_and!.
  - apply decode_total_returns.
  - by apply decode_padded_total_returns.
  - by apply encode_decode_roundtrip_returns.
  - by apply encode_write_extent_returns.
  - apply encode_rejects_oversized_payload_returns.
  - by apply decode_padded_roundtrip_with_filler_returns.
Qed.

(** And those of the image: [from_bin] only refuses a geometry or a size
    and what it accepts keeps the documented invariants, for data of any
    length; [page_into] fails exactly as documented without touching the
    buffer and otherwise writes one page of it; the iterator ends, stays in
    range and never leaves the footer page out. *)
Theorem image_harnesses_return data ps ap index before out_len PAGE_SIZES APP_PAGES dlen :
  bytes data -> is_u16 ps -> is_u16 ap -> is_u16 index -> 0 <= dlen -> 0 <= out_len ->
  ImageProofs.from_bin_total (len data) data dlen ps ap = Some tt
  /\ ImageProofs.page_into_total (len data) (len before) PAGE_SIZES APP_PAGES data dlen ps ap index before out_len
     = Some tt
  /\ (len data <= 32 -> ImageProofs.pages_yield_in_range_and_footer data = Some tt).
Proof.
  intros. split_and!.
  - by apply from_bin_total_returns.
  - by apply page_into_total_returns.
  - by apply pages_yield_in_range_and_footer_returns.
Qed.

(** And those of the received bytes, in any scanner state: [push] returns;
    [Done] means a frame [decode] accepts of exactly that length and a scanner
    back to hunting; a frame behind garbage is found on its last byte and byte
    for byte; a response is accepted only as the frame it was waited for with
    [ST_OK] in front, and INFO is read from eleven bytes, field by field, or
    not at all. *)
Theorem reception_harnesses_return sc buf blen byte M payload n cmd garbage glen raw m expect_cmd :
  bytes buf -> is_u8 byte -> 0 <= blen -> M <= PAYLOAD_MAX -> bytes payload -> 0 <= n -> is_u8 cmd -> 0 <= m ->
  StreamProofs.push_total_any_state (len buf) sc buf blen byte = Some tt
  /\ StreamProofs.done_is_decodable (len buf) sc buf blen byte = Some tt
  /\ StreamProofs.garbage_then_frame_roundtrip M (len garbage) payload n cmd garbage glen = Some tt
  /\ SessionProofs.validate_total (len raw) raw m expect_cmd = Some tt
  /\ SessionProofs.parse_info_total (len raw) raw m = Some tt.
Proof.
  intros. split_and!.
  - apply push_total_any_state_returns.
  - by apply done_is_decodable_returns.
  - by apply garbage_then_frame_roundtrip_returns.
  - apply validate_total_returns.
  - by apply parse_info_total_returns.
Qed.
End properties.

Lemma frame_harnesses_return_witness :
  FrameProofs.encode_decode_roundtrip_proof 24 [7; 0xFF] 2 0x86 = Some tt
  /\ FrameProofs.decode_padded_roundtrip_with_filler 24 [7; 0xFF] 2 0x86 8 6 0 = Some tt.
Proof.
  pose proof (frame_harnesses_return 24 [0x86; 0; 1] [7; 0xFF] (replicate 31 0) 2 0x86 5 8 6 0
    ltac:(repeat constructor; lia) ltac:(repeat constructor; lia) ltac:(by vm_compute) ltac:(by vm_compute)
    ltac:(lia) ltac:(lia) ltac:(lia) ltac:(lia) ltac:(lia) ltac:(lia)) as (_ & _ & Hr & _ & _ & Hf).
  split; [exact Hr|exact Hf].
Defined.

Lemma image_harnesses_return_witness :
  ImageProofs.page_into_total 20 24 (16, 20) (1, 3) sample_data 20 16 3 2 (replicate 24 7) 18 = Some tt
  /\ ImageProofs.pages_yield_in_range_and_footer sample_data = Some tt.
Proof.
  pose proof (image_harnesses_return sample_data 16 3 2 (replicate 24 7) 18 (16, 20) (1, 3) 20
    sample_bytes ltac:(lia) ltac:(lia) ltac:(lia) ltac:(lia) ltac:(lia)) as (_ & Hp & Hy).
  split; [exact Hp|apply Hy; by vm_compute].
Defined.

Lemma reception_harnesses_return_witness :
  StreamProofs.garbage_then_frame_roundtrip 3 2 [1; 2; 3] 3 0x86 [0; 9] 2 = Some tt
  /\ StreamProofs.done_is_decodable 4 (mkRx 2 true) [5; 0; 0; 9] 4 0x41 = Some tt.
Proof.
  pose proof (reception_harnesses_return (mkRx 2 true) [5; 0; 0; 9] 4 0x41 3 [1; 2; 3] 3 0x86 [0; 9] 2 [] 0 0
    ltac:(repeat constructor; lia) ltac:(lia) ltac:(lia) ltac:(by vm_compute) ltac:(repeat constructor; lia)
    ltac:(lia) ltac:(lia) ltac:(lia)) as (_ & Hd & Hg & _).
  split; [exact Hg|exact Hd].
Defined.
