(* ===== verification/PropTests.v ===== *)
(** The property tests of the core ([updater-core/tests/prop.rs]) as programs
    over the generated inputs: [None] is a failed assertion. What proptest
    samples holds of every input the generators can make. *)
From S2P Require Import Prelude Asserts Errors Frame Image Kani.

Module PropTests.
Section tests.
Context `{PtrWidth}.

Definition frame_eqb (f g : Frame) : bool :=
  (frame_cmd f =? frame_cmd g) && bool_decide (frame_payload f = frame_payload g).

Definition roundtrip_full_payload_range (cmd : Z) (payload : list Z) : harness :=
  let '(r, out) := encode cmd payload (replicate (Z.to_nat (len payload + FRAME_OVERHEAD)) 0) in
  n ← unwrap r;
  assert (n =? len payload + FRAME_OVERHEAD);;
  wire ← get_to n out;
  f ← unwrap (decode wire);
  assert (frame_cmd f =? cmd);;
  assert (bool_decide (frame_payload f = payload)).

Definition decode_total_on_junk (raw : list Z) : harness :=
  let plain := decode raw in
  let padded := decode_padded raw in
  match plain with
  | Ok f => g ← unwrap padded; assert (frame_eqb f g)
  | Err _ => Some tt
  end.

(** [corrupt_at.index(filler)] is any place in the filler. *)
Definition decode_padded_is_decode_plus_filler (cmd : Z) (payload : list Z) (filler corrupt_at junk : Z) : harness :=
  let n := len payload + FRAME_OVERHEAD in
  let '(r, buf) := encode cmd payload (replicate (Z.to_nat (n + filler)) 0) in
  _ ← unwrap r;
  head ← get_to n buf;
  let buf := head ++ replicate (Z.to_nat (len buf - n)) 0xFF in
  f ← unwrap (decode_padded buf);
  wire ← get_to n buf;
  g ← unwrap (decode wire);
  assert (frame_eqb f g);;
  assert (frame_cmd f =? cmd);;
  assert (bool_decide (frame_payload f = payload));;
  if 0 <? filler then
    let pos := n + corrupt_at in
    _ ← get_at pos buf;
    let buf := <[Z.to_nat pos := junk]> buf in
    assert (negb (is_ok (decode_padded buf)))
  else Some tt.

(** [bit.index(n * 8)] is any bit of the frame. *)
Definition single_bit_flip_rejected (cmd : Z) (payload : list Z) (bit : Z) : harness :=
  let n := len payload + FRAME_OVERHEAD in
  let '(r, buf) := encode cmd payload (replicate (Z.to_nat n) 0) in
  _ ← unwrap r;
  b ← get_at (bit / 8) buf;
  let buf := <[Z.to_nat (bit / 8) := Z.lxor b (Z.shiftl 1 (bit mod 8))]> buf in
  assert (negb (is_ok (decode buf))).

(** [for index in 0..app_pages { .. rendered.extend_from_slice(&page) }] *)
Fixpoint render_all (img : Image) (indices : list Z) (page rendered : list Z) : option (list Z * list Z) :=
  match indices with
  | [] => Some (rendered, page)
  | index :: indices =>
    let '(r, page) := page_into img index page in
    _ ← unwrap r;
    render_all img indices page (rendered ++ page)
  end.

(** [a[from..to]] *)
Definition slice_of (from to : Z) (a : list Z) : option (list Z) :=
  if from <=? to then head ← get_to to a; get_from from head else None.

(** [yielded.windows(2).all(|w| w[0] < w[1])] *)
Fixpoint increasing (l : list Z) : bool :=
  match l with
  | a :: (b :: _) as rest => (a <? b) && increasing rest
  | _ => true
  end.

(** [chunk] of page [index], and whether it has to be written. *)
Fixpoint check_yielded (ps app_pages : Z) (rendered yielded indices : list Z) : harness :=
  match indices with
  | [] => Some tt
  | index :: indices =>
    rest ← get_from (index * ps) rendered;
    chunk ← get_to ps rest;
    let must_write := (index =? app_pages - 1) || any_ne 0xFF chunk in
    assert (eqb (existsb (Z.eqb index) yielded) must_write);;
    check_yielded ps app_pages rendered yielded indices
  end.

Definition image_pages_render_consistently (data : list Z) (page_size app_pages : Z) : harness :=
  let ps := page_size in
  region ← usize_checked_mul ps app_pages;
  capacity ← usize_checked_sub region FOOTER_LEN;
  match from_bin data page_size app_pages with
  | Err (Error.ImageTooLarge l cap) =>
      assert (l =? len data);; assert (cap =? capacity);; assert (capacity <? len data)
  | Err _ => None
  | Ok img =>
      assert (img_len img =? len data);;
      assert (img_crc img =? crc32 data);;
      '(rendered, page) ← render_all img (seqZ 0 app_pages) (replicate (Z.to_nat ps) 0) [];
      prefix ← get_to (len data) rendered;
      assert (bool_decide (prefix = data));;
      footer_at ← usize_checked_sub region FOOTER_LEN;
      fill ← slice_of (len data) footer_at rendered;
      assert (all_eq 0xFF fill);;
      tail ← get_from footer_at rendered;
      assert (bool_decide (tail = footer img));;
      magic ← get_to 4 (footer img);
      assert (bool_decide (magic = FOOTER_MAGIC));;
      let yielded := pages_list (pages img) in
      assert (increasing yielded);;
      check_yielded ps app_pages rendered yielded (seqZ 0 app_pages);;
      assert match fst (page_into img app_pages page) with Err (Error.PageOutOfRange index) => index =? app_pages | _ => false end;;
      let short := replicate (Z.to_nat (ps - 1)) 0 in
      assert match fst (page_into img 0 short) with Err (Error.BufferTooSmall needed) => needed =? ps | _ => false end
  end.

(** ** They return *)
Lemma frame_eqb_refl f : frame_eqb f f = true.
Proof. unfold frame_eqb. by rewrite Z.eqb_refl, bool_decide_true. Qed.

Lemma roundtrip_returns cmd payload : len payload <= PAYLOAD_MAX -> roundtrip_full_payload_range cmd payload = Some tt.
Proof.
  intros Hl. pose proof (len_nonneg payload). unfold roundtrip_full_payload_range, FRAME_OVERHEAD.
  rewrite encode_ok by (rewrite ?len_replicate; lia). cbn [unwrap mbind option_bind]. rewrite Z.eqb_refl. cbn [assert mbind option_bind].
  rewrite get_to_wire. cbn [mbind option_bind]. rewrite decode_wire by done. cbn [unwrap mbind option_bind frame_cmd frame_payload].
  rewrite Z.eqb_refl. cbn [assert mbind option_bind]. by rewrite bool_decide_true.
Qed.

Lemma decode_total_on_junk_returns raw : bytes raw -> decode_total_on_junk raw = Some tt.
Proof.
  intros Hb. unfold decode_total_on_junk. destruct (decode raw) as [f|e] eqn:Hd; [|done].
  rewrite (decode_padded_of_decode raw f) by done. cbn [unwrap mbind option_bind]. by rewrite frame_eqb_refl.
Qed.

Lemma filler_returns cmd payload filler corrupt_at junk : is_u8 cmd -> bytes payload -> len payload <= PAYLOAD_MAX ->
  0 <= filler -> (0 < filler -> 0 <= corrupt_at < filler) -> is_u8 junk -> junk <> 0xFF ->
  decode_padded_is_decode_plus_filler cmd payload filler corrupt_at junk = Some tt.
Proof.
  intros Hc Hb Hl Hf Hat Hj Hjn. pose proof (len_nonneg payload). pose proof (len_wire cmd payload) as Hlw.
  unfold decode_padded_is_decode_plus_filler, FRAME_OVERHEAD.
  rewrite encode_ok by (rewrite ?len_replicate; lia). cbn [unwrap mbind option_bind]. rewrite get_to_wire. cbn [mbind option_bind].
  rewrite drop_replicate, len_app, Hlw.
  replace (Z.to_nat (len payload + 3 + len (replicate _ 0) - (len payload + 3))) with (Z.to_nat filler)
    by (unfold len in *; rewrite length_replicate; lia).
  rewrite decode_padded_wire by done. cbn [unwrap mbind option_bind]. rewrite get_to_wire. cbn [mbind option_bind].
  rewrite decode_wire by done. cbn [unwrap mbind option_bind frame_cmd frame_payload].
  rewrite frame_eqb_refl. cbn [assert mbind option_bind]. rewrite Z.eqb_refl. cbn [assert mbind option_bind].
  rewrite bool_decide_true by done. cbn [assert mbind option_bind]. zcase; [|done].
  unfold get_at. assert (Z.to_nat (len payload + 3 + corrupt_at) = (length (wire cmd payload) + Z.to_nat corrupt_at)%nat) as ->.
  { specialize (Hat ltac:(lia)). unfold len in *. lia. }
  rewrite lookup_app_r, lookup_replicate_2 by lia. cbn [mbind option_bind]. rewrite insert_app_r, decode_padded_junk by (done || lia). done.
Qed.

Lemma flip_ne b k : is_u8 b -> 0 <= k < 8 -> is_u8 (Z.lxor b (Z.shiftl 1 k)) /\ Z.lxor b (Z.shiftl 1 k) <> b.
Proof.
  intros Hb Hk. rewrite Z.shiftl_1_l. assert (is_u8 (2 ^ k)) as Hp.
  { split; [lia|]. change 256 with (2 ^ 8). apply Z.pow_lt_mono_r; lia. }
  split; [by apply lxor_u8|]. intros Heq. apply (f_equal (fun x => Z.lxor b x)) in Heq.
  rewrite <- Z.lxor_assoc, Z.lxor_nilpotent, Z.lxor_0_l in Heq. pose proof (Z.pow_pos_nonneg 2 k). lia.
Qed.

Lemma bit_flip_returns cmd payload bit : is_u8 cmd -> bytes payload -> len payload <= PAYLOAD_MAX ->
  0 <= bit < (len payload + FRAME_OVERHEAD) * 8 -> single_bit_flip_rejected cmd payload bit = Some tt.
Proof.
  intros Hc Hb Hl Hbit. unfold FRAME_OVERHEAD in *. pose proof (len_nonneg payload).
  unfold single_bit_flip_rejected, FRAME_OVERHEAD. rewrite encode_ok by (rewrite ?len_replicate; lia).
  cbn [unwrap mbind option_bind]. rewrite drop_ge, app_nil_r by (rewrite length_replicate; pose proof (len_wire cmd payload); unfold len in *; lia).
  pose proof (Z.div_mod bit 8 ltac:(lia)) as Hdm. pose proof (Z.mod_pos_bound bit 8 ltac:(lia)) as Hm.
  unfold get_at. destruct (lookup_lt_is_Some_2 (wire cmd payload) (Z.to_nat (bit / 8))) as [b Hbt];
    [pose proof (len_wire cmd payload); unfold len in *; lia|].
  rewrite Hbt. cbn [mbind option_bind]. assert (bytes (wire cmd payload)) as Hw by (apply wire_bytes; [done..|change PAYLOAD_MAX with 252 in Hl; lia]).
  destruct (flip_ne b (bit mod 8) (bytes_lookup _ _ _ Hw Hbt) Hm) as [Hx Hne].
  erewrite decode_byte_error; [done|exact Hw|by apply decode_wire|exact Hbt|exact Hx|exact Hne].
Qed.

(** ** The image test *)
Section image.
Context (img : Image) (Hwf : image_wf img).
Abbreviation ps := (img_page_size img).
Abbreviation ap := (img_app_pages img).

Lemma render_all_pages n : forall i page rendered, 0 <= i -> i + Z.of_nat n = ap -> len page = ps ->
  rendered = take (Z.to_nat (i * ps)) (region img) ->
  exists page', render_all img (seqZ i (Z.of_nat n)) page rendered = Some (region img, page') /\ len page' = ps.
Proof.
  pose proof (len_region img Hwf) as Hlr. pose proof (wf_page_size _ Hwf) as Hps. change FOOTER_LEN with 16 in Hps.
  induction n as [|n IH]; intros i page rendered Hi Hn Hp ->.
  - exists page. split; [|done]. change (seqZ i (Z.of_nat 0)) with (@nil Z). cbn [render_all]. rewrite take_ge; [done|]. unfold len in *. nia.
  - rewrite seqZ_cons by lia. cbn [render_all]. rewrite page_into_ok by (done || lia). cbn [unwrap mbind option_bind].
    rewrite drop_ge, app_nil_r by (unfold len in *; lia). replace (Z.pred (Z.of_nat (S n))) with (Z.of_nat n) by lia.
    rewrite <- Z.add_1_r. apply IH; [lia|lia|by apply len_region_page; [|lia]|].
    unfold page_of. rewrite take_take_drop. f_equal. nia.
Qed.

Lemma check_yielded_pages l : Forall (fun i => 0 <= i < ap) l ->
  check_yielded ps ap (region img) (pages_list (pages img)) l = Some tt.
Proof.
  pose proof (len_region img Hwf) as Hlr. pose proof (wf_page_size _ Hwf) as Hps. change FOOTER_LEN with 16 in Hps.
  induction 1 as [|i l Hi _ IH]; [done|]. cbn [check_yielded]. unfold get_from. rewrite (proj2 (Z.leb_le _ _)) by nia.
  cbn [mbind option_bind]. rewrite get_to_Some by (rewrite len_drop; nia). cbn [mbind option_bind]. fold (page_of ps (region img) i).
  rewrite <- must_write_region by done. enough (existsb (Z.eqb i) (pages_list (pages img)) = must_write img i) as ->.
  { rewrite eqb_reflx. done. }
  unfold pages. rewrite pages_list_remaining by done. apply eq_true_iff_eq. rewrite existsb_exists. split.
  - intros (j & Hj & ->%Z.eqb_eq). apply list_elem_of_In, remaining_elem in Hj as [? _]. done.
  - intros Hm. exists i. split; [|by apply Z.eqb_refl]. apply list_elem_of_In, remaining_elem. split; [done|lia].
Qed.

Lemma increasing_filter (f : Z -> Prop) `{forall x, Decision (f x)} n : forall i, increasing (filter f (seqZ i (Z.of_nat n))) = true
  /\ forall j l, filter f (seqZ i (Z.of_nat n)) = j :: l -> i <= j.
Proof.
  induction n as [|n IH]; intros i; [done|]. rewrite seqZ_cons by lia. replace (Z.pred (Z.of_nat (S n))) with (Z.of_nat n) by lia.
  rewrite filter_cons. destruct (IH (Z.succ i)) as [Hin Hge]. case_decide.
  - split; [|by intros j l [= <- _]]. destruct (filter f (seqZ (Z.succ i) (Z.of_nat n))) as [|j l]; [done|].
    specialize (Hge j l eq_refl). change (((i <? j) && increasing (j :: l)) = true). rewrite Hin, andb_true_r. apply Z.ltb_lt. lia.
  - split; [done|]. intros j l Hl. specialize (Hge j l Hl). lia.
Qed.

(** The region is the data, erased bytes and the footer. *)
Lemma region_parts : let foot := ps * ap - FOOTER_LEN in
  get_to (len (img_data img)) (region img) = Some (img_data img)
  /\ slice_of (len (img_data img)) foot (region img) = Some (replicate (Z.to_nat (foot - len (img_data img))) 0xFF)
  /\ get_from foot (region img) = Some (footer img).
Proof.
  intros foot. pose proof Hwf as []. pose proof (len_region img Hwf) as Hlr. change FOOTER_LEN with 16 in *.
  pose proof (len_nonneg (img_data img)) as Hn. set (data := img_data img) in *. set (fill := replicate (Z.to_nat (foot - len data)) 0xFF).
  assert (len fill = foot - len data) as Hlf by (unfold fill, foot; rewrite len_replicate; nia).
  assert (region img = data ++ fill ++ footer img) as Hr by done. rewrite Hr in *.
  assert (len (data ++ fill) = foot) as Hdf by (rewrite len_app; lia).
  split_and!.
  - apply get_to_app.
  - unfold slice_of. rewrite (proj2 (Z.leb_le _ _)) by (unfold foot; nia). rewrite app_assoc, <- Hdf, get_to_app. cbn [mbind option_bind].
    unfold get_from. rewrite (proj2 (Z.leb_le _ _)) by (rewrite Hdf; unfold foot; nia). by rewrite to_nat_len, drop_app_length.
  - unfold get_from. rewrite Hlr, (proj2 (Z.leb_le _ _)) by (unfold foot; nia).
    rewrite app_assoc, <- Hdf, to_nat_len, drop_app_length. done.
Qed.
End image.

Lemma image_test_returns data ps ap : bytes data -> 16 <= ps <= 250 -> 1 <= ap <= 64 ->
  image_pages_render_consistently data ps ap = Some tt.
Proof.
  intros Hb Hps Hap. unfold image_pages_render_consistently. usize_bounds.
  unfold usize_checked_mul, usize_checked_sub. rewrite (proj2 (Z.leb_le _ _)) by nia. cbn [mbind option_bind].
  change FOOTER_LEN with 16. rewrite (proj2 (Z.leb_le _ _)) by nia. cbn [mbind option_bind].
  destruct (from_bin_correct data ps ap) as [Heq Hwf]; [lia|lia|done|]. rewrite Heq in *.
  destruct (Z.eqb_spec ap 0); [lia|]. change FOOTER_LEN with 16 in *. change PAGE_SIZE_MAX with 250 in *.
  rewrite (proj2 (Z.ltb_ge ps 16)), (proj2 (Z.ltb_ge 250 ps)), (proj2 (Z.ltb_ge usize_max (ps * ap))) in * by nia.
  cbn [orb] in *. zcase.
  { by rewrite !Z.eqb_refl. }
  set (img := mkImage data ps ap (len data) (crc32 data)) in *. specialize (Hwf img eq_refl). cbn [img_len img_crc].
  change (img_len img) with (len data). change (img_crc img) with (crc32 data). rewrite !Z.eqb_refl. cbn [assert mbind option_bind].
  destruct (render_all_pages img Hwf (Z.to_nat ap) 0 (replicate (Z.to_nat ps) 0) []) as (page & Hr & Hlp);
    [lia|change (img_app_pages img) with ap; lia|change (img_page_size img) with ps; rewrite len_replicate; lia|done|].
  rewrite Z2Nat.id in Hr by lia. rewrite Hr. cbn [mbind option_bind].
  destruct (region_parts img Hwf) as (Hdata & Hfill & Hfoot). change (img_data img) with data in *.
  change (img_page_size img * img_app_pages img - FOOTER_LEN) with (ps * ap - 16) in *.
  rewrite Hdata. cbn [mbind option_bind]. rewrite bool_decide_true by done. cbn [assert mbind option_bind].
  rewrite Hfill. cbn [mbind option_bind]. rewrite all_eq_replicate. cbn [assert mbind option_bind].
  rewrite Hfoot. cbn [mbind option_bind]. rewrite bool_decide_true by done. cbn [assert mbind option_bind].
  assert (get_to 4 (footer img) = Some FOOTER_MAGIC) as -> by done. cbn [mbind option_bind].
  rewrite bool_decide_true by done. cbn [assert mbind option_bind].
  assert (increasing (pages_list (pages img)) = true) as ->.
  { unfold pages. rewrite pages_list_remaining by done. unfold remaining. rewrite Z.sub_0_r.
    change (img_app_pages img) with ap. rewrite <- (Z2Nat.id ap) by lia. apply increasing_filter. }
  cbn [assert mbind option_bind].
  pose proof (check_yielded_pages img Hwf (seqZ 0 ap)) as Hy. change (img_page_size img) with ps in Hy. change (img_app_pages img) with ap in Hy.
  rewrite Hy by (apply Forall_forall; intros i Hi%elem_of_seqZ; lia). cbn [mbind option_bind].
  rewrite (page_into_err img ap page) by (done || (left; change (img_app_pages img) with ap; lia)). change (img_app_pages img) with ap.
  rewrite (proj2 (Z.leb_le _ _)) by lia. cbn [fst]. rewrite Z.eqb_refl. cbn [assert mbind option_bind].
  rewrite (page_into_err img 0) by (done || (right; change (img_page_size img) with ps; rewrite len_replicate; lia)).
  change (img_app_pages img) with ap. rewrite (proj2 (Z.leb_gt _ _)) by lia. cbn [fst]. by rewrite Z.eqb_refl.
Qed.
End tests.

(** The properties the core's tests sample hold of all that they sample
    from. Frames of any payload round-trip with their exact length; both
    decoders return on any bytes and the padded one accepts what the plain one
    does; filler changes nothing and any other byte in it is refused; every
    single-bit error is caught; and for every image the pages, rendered one by
    one, are the data, erased bytes and the footer, those yielded are in order
    and are exactly the ones that hold something, and bad indices and short
    buffers are the documented errors. *)
Theorem prop_tests_hold `{PtrWidth} cmd payload raw filler corrupt_at junk bit data ps ap :
  is_u8 cmd -> bytes payload -> len payload <= PAYLOAD_MAX -> bytes raw ->
  0 <= filler <= 48 -> (0 < filler -> 0 <= corrupt_at < filler) -> is_u8 junk -> junk <> 0xFF ->
  0 <= bit < (len payload + FRAME_OVERHEAD) * 8 ->
  bytes data -> 16 <= ps <= 250 -> 1 <= ap <= 64 ->
  roundtrip_full_payload_range cmd payload = Some tt
  /\ decode_total_on_junk raw = Some tt
  /\ decode_padded_is_decode_plus_filler cmd payload filler corrupt_at junk = Some tt
  /\ single_bit_flip_rejected cmd payload bit = Some tt
  /\ image_pages_render_consistently data ps ap = Some tt.
Proof.
  intros. split_and!; [by apply roundtrip_returns|by apply decode_total_on_junk_returns|apply filler_returns; try done; lia
    |by apply bit_flip_returns|by apply image_test_returns].
Qed.

Lemma prop_tests_hold_witness : image_pages_render_consistently (H:=ptr64) (replicate 20 0x42) 16 4 = Some tt
  /\ single_bit_flip_rejected (H:=ptr64) 6 [1; 2] 9 = Some tt.
Proof.
  assert (forall l, forallb (fun b => (0 <=? b) && (b <? 256)) l = true -> bytes l) as Hd.
  { intros l Hf. apply Forall_forall. intros b Hb. rewrite forallb_forall in Hf. specialize (Hf b (proj1 (list_elem_of_In _ _) Hb)). lia. }
  destruct (prop_tests_hold (H:=ptr64) 6 [1; 2] [] 2 1 7 9 (replicate 20 0x42) 16 4) as (_ & _ & _ & Hb & Hi);
    [lia|by apply Hd|by vm_compute|by apply Hd|lia|lia|lia|lia|unfold FRAME_OVERHEAD, len; cbn; lia|by apply Hd|lia|lia|].
  split; [exact Hi|exact Hb].
Defined.
End PropTests.
