(* ===== verification/Recorded.v ===== *)
(** The session over a transport and over a view of it. A homomorphism of
    transports carries every session operation along; the recorder of
    [Transport.v] is one, so what is proved of the recorded traffic holds of
    the transport itself. *)
From S2P Require Import Prelude Errors Frame Image Transport Session.

Class TransportHom {T1 T2 E} `{Transport T1 E, Transport T2 E} (f : T1 -> T2) : Prop :=
  request_hom t req rsp :
    request (f t) req rsp = let '(r, (t', rsp')) := request t req rsp in (r, (f t', rsp')).

#[global] Instance recorder_hom {T E} `{Transport T E} : TransportHom (E:=E) (@lg_inner T E).
Proof.
  intros l req rsp. unfold request at 2, transport_logged. by destruct (request _ _ _) as [? [??]].
Qed.

Section hom.
Context `{PtrWidth} {T1 T2 E : Type} `{Transport T1 E, Transport T2 E}.
Context (f : T1 -> T2) {Hf : TransportHom f} {P : Type} (progress : Z -> Z -> P -> P).

Definition over (s : Session T1) : Session T2 := mkSession (f (transport s)) (buf s).
(** The operation on the view is the operation seen through the view. *)
Definition carried {A} (m2 : stm (Session T2) (Error.t E) A) (m1 : stm (Session T1) (Error.t E) A) : Prop :=
  forall s, m2 (over s) = let '(r, s') := m1 s in (r, over s').
Definition carried_p {A} (m2 : stm (Session T2 * P) (Error.t E) A)
    (m1 : stm (Session T1 * P) (Error.t E) A) : Prop :=
  forall s p, m2 (over s, p) = let '(r, (s', p')) := m1 (s, p) in (r, (over s', p')).

Lemma exchange_loop_hom k c tx : forall last t rx,
  exchange_loop k last (f t) tx rx c
    = let '(r, (t', rx')) := exchange_loop k last t tx rx c in (r, (f t', rx')).
Proof.
  induction k as [|k IH]; intros last t rx; cbn [exchange_loop]; [done|]. rewrite request_hom.
  destruct (request t tx rx) as [[n|e] [t1 rx1]]; [|apply IH].
  by destruct (validate _ _) as [|[]].
Qed.

Lemma exchange_hom t tx rx c :
  exchange (f t) tx rx c = let '(r, (t', rx')) := exchange t tx rx c in (r, (f t', rx')).
Proof. apply exchange_loop_hom. Qed.

Lemma transact_hom cmd payload cap : carried (transact cmd payload cap) (transact cmd payload cap).
Proof.
  intros s. unfold transact. cbn [over transport buf]. destruct (usize_checked_add _ _) as [tx_len|]; [|done].
  destruct (split_windows _ _ _) as [[[tx rx] bh]|e]; [|done].
  destruct (encode _ _ _) as [[n|e] tx1]; [|done]. rewrite exchange_hom.
  destruct (exchange _ _ _ _) as [[rlen|e] [t1 rx1]]; [|done]. by repeat case_match.
Qed.

Lemma write_page_hom img i : carried (write_page img i) (write_page img i).
Proof.
  intros s. unfold write_page. cbn [over transport buf].
  destruct (split_windows _ _ _) as [[[tx rx] bh]|e]; [|done].
  destruct (u8_try_from _); [|done]. destruct (split_at_checked 4 tx) as [[h rest]|]; [|done].
  destruct (split_at_checked _ rest) as [[page tail]|]; [|done].
  destruct (page_into _ _ _) as [[u|e] page1]; [|done].
  destruct (get_to _ _); [|done]. destruct (get_at _ _); [|done]. rewrite exchange_hom.
  by destruct (exchange _ _ _ _) as [[rlen|e] [t1 rx1]].
Qed.

Lemma sbind_hom {A B} m2 m1 (k2 : A -> stm (Session T2) (Error.t E) B) k1 :
  carried m2 m1 -> (forall a, carried (k2 a) (k1 a)) -> carried (sbind m2 k2) (sbind m1 k1).
Proof. intros Hm Hk s. unfold sbind. rewrite Hm. destruct (m1 s) as [[a|e] s']; [apply Hk|done]. Qed.
Lemma sbind_hom_p {A B} m2 m1 (k2 : A -> stm (Session T2 * P) (Error.t E) B) k1 :
  carried_p m2 m1 -> (forall a, carried_p (k2 a) (k1 a)) -> carried_p (sbind m2 k2) (sbind m1 k1).
Proof.
  intros Hm Hk s p. unfold sbind. rewrite Hm. destruct (m1 (s, p)) as [[a|e] [s' p']]; [apply Hk|done].
Qed.

Lemma info_hom : carried info info.
Proof. by apply sbind_hom; [apply transact_hom|]. Qed.
Lemma boot_hom : carried boot boot.
Proof. by apply sbind_hom; [apply transact_hom|]. Qed.
Lemma echo_hom data : carried (echo data) (echo data).
Proof.
  unfold echo. case_match; [done|]. apply sbind_hom; [apply transact_hom|]. intros rest. by case_decide.
Qed.

Lemma on_session_hom {A} (m2 : stm (Session T2) (Error.t E) A) m1 :
  carried m2 m1 -> carried_p (on_session m2) (on_session m1).
Proof. intros Hm s p. unfold on_session. rewrite Hm. by destruct (m1 s). Qed.

Lemma flash_pages_hom img total indices : forall done,
  carried_p (flash_pages progress img total indices done) (flash_pages progress img total indices done).
Proof.
  induction indices as [|i indices IH]; intros done; cbn [flash_pages]; [by intros s p|].
  apply sbind_hom_p; [apply on_session_hom, write_page_hom|]. intros _.
  apply sbind_hom_p; [by intros s p|]. intros _. apply IH.
Qed.

Lemma flash_hom img : carried_p (flash progress img) (flash progress img).
Proof.
  apply sbind_hom_p; [apply on_session_hom, info_hom|]. intros i.
  destruct (negb _); [by intros s p|]. destruct (negb _ || negb _); [by intros s p|].
  apply sbind_hom_p; [apply on_session_hom, transact_hom|]. intros _.
  apply sbind_hom_p; [by intros s p|]. intros _.
  apply sbind_hom_p; [apply flash_pages_hom|]. intros _.
  apply sbind_hom_p; [apply on_session_hom, transact_hom|]. by intros _ s p.
Qed.
End hom.

(** A session with an empty recording. *)
Section recorded.
Context `{PtrWidth} {T E : Type} `{Transport T E}.

Definition recorded (s : Session T) : Session (Logged T E) :=
  mkSession (mkLogged (transport s) []) (buf s).

Lemma over_recorded s : over (@lg_inner T E) (recorded s) = s.
Proof. by destruct s. Qed.

Lemma carried_recorded {A} (m : stm (Session T) (Error.t E) A) m1 s r s' :
  carried (@lg_inner T E) m m1 -> m s = (r, s') ->
  exists l, m1 (recorded s) = (r, l) /\ over (@lg_inner T E) l = s'.
Proof.
  intros Hc. rewrite <- (over_recorded s) at 1. rewrite Hc.
  destruct (m1 (recorded s)) as [r1 l]. intros [= -> <-]. by exists l.
Qed.
End recorded.
