(* ===== verification/Hal.v ===== *)
(** The embedded-hal and embedded-io traits the master adapters are generic
    over. They are third-party interfaces, so they are parameters here: classes
    of operations on the state [W] of the peripherals and everything they act
    on, with the laws the adapters need, each of them what the Rust signature
    enforces. *)
From S2P Require Import Prelude Errors Transport.

(** [embedded_hal::delay::DelayNs] *)
Class DelayNs (W : Type) := delay_ns : Z -> W -> W.

(** [embedded_hal::i2c::I2c] with seven-bit addresses: [read] fills the whole
    buffer or fails. *)
Class I2c (W E : Type) := {
  i2c_write : Z -> list Z -> W -> result unit E * W;
  i2c_read : Z -> list Z -> W -> result unit E * (list Z * W);
}.

(** [embedded_hal::spi::SpiDevice]: a transaction of writes under one
    chip-select, and a read. *)
Class SpiDevice (W E : Type) := {
  spi_transaction : list (list Z) -> W -> result unit E * W;
  spi_read : list Z -> W -> result unit E * (list Z * W);
}.

(** [embedded_io::Read + embedded_io::Write] *)
Class Serial (W E : Type) := {
  io_write_all : list Z -> W -> result unit E * W;
  io_flush : W -> result unit E * W;
  io_read : list Z -> W -> result Z E * (list Z * W);
}.

(** [embedded_hal::digital::{OutputPin, InputPin}] *)
Class Pins (W TE RE : Type) := {
  tx_set_high : W -> result unit TE * W;
  tx_set_low : W -> result unit TE * W;
  rx_is_high : W -> result bool RE * W;
  rx_is_low : W -> result bool RE * W;
}.

(** What [&mut [u8]] and [usize] guarantee of a read, whatever its outcome. *)
Class I2cTyped {W E} (hal : I2c W E) : Prop :=
  i2c_read_typed addr buf w r buf' w' :
    bytes buf -> i2c_read addr buf w = (r, (buf', w')) -> len buf' = len buf /\ bytes buf'.
Class SpiTyped {W E} (hal : SpiDevice W E) : Prop :=
  spi_read_typed buf w r buf' w' :
    bytes buf -> spi_read buf w = (r, (buf', w')) -> len buf' = len buf /\ bytes buf'.
Class SerialTyped {W E} (hal : Serial W E) : Prop :=
  io_read_typed buf w r buf' w' :
    bytes buf -> io_read buf w = (r, (buf', w')) ->
    len buf' = len buf /\ bytes buf' /\ forall n, r = Ok n -> 0 <= n.

(** A delay that changes nothing: time is then counted in operations. *)
Class Still {W} (delay : DelayNs W) : Prop := still ns (w : W) : delay_ns ns w = w.

Definition DEFAULT_POLL_ATTEMPTS : Z := 200.
Definition DEFAULT_POLL_INTERVAL_NS : Z := 5000000.
Definition DEFAULT_SCAN_LIMIT : Z := 4096.
