(* ===== verification/EhI2c.v ===== *)
(** The I2C master adapter ([updater-eh/src/i2c.rs]): one write, then
    NACK-polling reads under an attempt budget. *)
From S2P Require Import Prelude Errors Frame Transport Hal.

Inductive I2cTransportError (E : Type) :=
| I2cWrite (e : E)
| I2cExhausted (attempts : Z) (last : E).
Arguments I2cWrite {E} e.
Arguments I2cExhausted {E} attempts last.

Record I2cTransport (W : Type) := mkI2c {
  i2c_hal : W;
  i2c_addr : Z;
  i2c_poll_attempts : Z;
  i2c_poll_interval_ns : Z;
}.
Arguments mkI2c {W} i2c_hal i2c_addr i2c_poll_attempts i2c_poll_interval_ns.
Arguments i2c_hal {W} i.
Arguments i2c_addr {W} i.
Arguments i2c_poll_attempts {W} i.
Arguments i2c_poll_interval_ns {W} i.

Section i2c.
Context {W : Type}.

Definition i2c_new (hal : W) (addr : Z) : I2cTransport W :=
  mkI2c hal addr DEFAULT_POLL_ATTEMPTS DEFAULT_POLL_INTERVAL_NS.
Definition i2c_set_poll (attempts interval_ns : Z) (t : I2cTransport W) : I2cTransport W :=
  mkI2c (i2c_hal t) (i2c_addr t) (Z.max attempts 1) interval_ns.
Definition i2c_with_poll (attempts interval_ns : Z) (t : I2cTransport W) : I2cTransport W :=
  i2c_set_poll attempts interval_ns t.
Definition i2c_release (t : I2cTransport W) : W := i2c_hal t.

Definition i2c_with_hal (t : I2cTransport W) (w : W) : I2cTransport W :=
  mkI2c w (i2c_addr t) (i2c_poll_attempts t) (i2c_poll_interval_ns t).

Context {E : Type} `{I2c W E, DelayNs W}.

(** The poll loop. [more] bounds the turns still to come; with the
    [poll_attempts] turns [request] grants it, it is never what ends it. *)
Fixpoint i2c_poll (more : nat) (t : I2cTransport W) (attempt : Z) (rsp : list Z)
  : result Z (I2cTransportError E) * (I2cTransport W * list Z) :=
  let attempt := u32_wrapping_add attempt 1 in
  match i2c_read (i2c_addr t) rsp (i2c_hal t) with
  | (Ok _, (rsp, w)) => (Ok (len rsp), (i2c_with_hal t w, rsp))
  | (Err e, (rsp, w)) =>
    if i2c_poll_attempts t <=? attempt
    then (Err (I2cExhausted attempt e), (i2c_with_hal t w, rsp))
    else
      let t := i2c_with_hal t (delay_ns (i2c_poll_interval_ns t) w) in
      match more with
      | O => (Err (I2cExhausted attempt e), (t, rsp))
      | S more => i2c_poll more t attempt rsp
      end
  end.

#[global] Instance i2c_transport : Transport (I2cTransport W) (I2cTransportError E) :=
  fun t req rsp =>
    match i2c_write (i2c_addr t) req (i2c_hal t) with
    | (Err e, w) => (Err (I2cWrite e), (i2c_with_hal t w, rsp))
    | (Ok _, w) => i2c_poll (Z.to_nat (i2c_poll_attempts t)) (i2c_with_hal t w) 0 rsp
    end.

(** ** Specification *)

(** [n] failed reads, each followed by the poll delay. *)
Inductive polled (addr interval : Z) : nat -> W -> list Z -> W -> list Z -> Prop :=
| polled_0 w rsp : polled addr interval 0 w rsp w rsp
| polled_S n w rsp e w1 rsp1 w2 rsp2 :
    i2c_read addr rsp w = (Err e, (rsp1, w1)) ->
    polled addr interval n (delay_ns interval w1) rsp1 w2 rsp2 ->
    polled addr interval (S n) w rsp w2 rsp2.

(** The budget [set_poll] and [new] establish. *)
Definition i2c_ok (t : I2cTransport W) : Prop := 1 <= i2c_poll_attempts t < 2 ^ 32.

Lemma i2c_poll_spec more : forall t attempt rsp r t' rsp',
  i2c_ok t -> 0 <= attempt < i2c_poll_attempts t ->
  i2c_poll_attempts t <= attempt + Z.of_nat more ->
  i2c_poll more t attempt rsp = (r, (t', rsp')) ->
  exists k w1 rsp1 w2, t' = i2c_with_hal t w2
    /\ attempt + Z.of_nat k < i2c_poll_attempts t
    /\ polled (i2c_addr t) (i2c_poll_interval_ns t) k (i2c_hal t) rsp w1 rsp1
    /\ ((i2c_read (i2c_addr t) rsp1 w1 = (Ok tt, (rsp', w2)) /\ r = Ok (len rsp'))
        \/ exists e, i2c_read (i2c_addr t) rsp1 w1 = (Err e, (rsp', w2))
           /\ attempt + Z.of_nat k + 1 = i2c_poll_attempts t
           /\ r = Err (I2cExhausted (i2c_poll_attempts t) e)).
Proof.
  induction more as [|more IH]; intros t attempt rsp r t' rsp' Hok Ha Hm; [lia|].
  cbn [i2c_poll]. destruct (i2c_read _ _ _) as [[[]|e] [rsp1 w1]] eqn:Hr.
  { intros [= <- <- <-]. exists 0%nat, (i2c_hal t), rsp, w1.
    split_and!; [done|lia|constructor|]. by left. }
  unfold i2c_ok, u32_wrapping_add in *. rewrite Z.mod_small by lia. zcase.
  { intros [= <- <- <-]. exists 0%nat, (i2c_hal t), rsp, w1.
    split_and!; [done|lia|constructor|]. right. exists e.
    split_and!; [done|lia|]. by replace (i2c_poll_attempts t) with (attempt + 1) by lia. }
  intros Hp. apply IH in Hp as (k & w2 & rsp2 & w3 & -> & Hk & Hpd & Hres); [|simpl; lia..].
  exists (S k), w2, rsp2, w3. cbn [i2c_with_hal i2c_addr i2c_poll_attempts i2c_poll_interval_ns i2c_hal] in *.
  split_and!; [done|lia|by econstructor|].
  destruct Hres as [?|(e' & ? & ? & ?)]; [by left|]. right. exists e'. split_and!; [done|lia|done].
Qed.

Lemma polled_typed {Hty : I2cTyped _} addr interval n w rsp w' rsp' :
  bytes rsp -> polled addr interval n w rsp w' rsp' -> len rsp' = len rsp /\ bytes rsp'.
Proof.
  intros Hb. induction 1 as [|n w rsp e w1 rsp1 w2 rsp2 Hr _ IH]; [done|].
  apply i2c_read_typed in Hr as [Hl Hb1]; [|done]. rewrite <- Hl. by apply IH.
Qed.

End i2c.

Section contract.
Context {W E : Type} (hal : I2c W E) `{DelayNs W} {Hty : I2cTyped hal} `{PtrWidth}.

Lemma i2c_request_spec (t : I2cTransport W) req rsp r t' rsp' :
  i2c_ok t -> request t req rsp = (r, (t', rsp')) ->
  match i2c_write (i2c_addr t) req (i2c_hal t) with
  | (Err e, w) => r = Err (I2cWrite e) /\ t' = i2c_with_hal t w /\ rsp' = rsp
  | (Ok _, w) =>
      exists k w1 rsp1 w2, t' = i2c_with_hal t w2
        /\ Z.of_nat k < i2c_poll_attempts t
        /\ polled (i2c_addr t) (i2c_poll_interval_ns t) k w rsp w1 rsp1
        /\ ((i2c_read (i2c_addr t) rsp1 w1 = (Ok tt, (rsp', w2)) /\ r = Ok (len rsp'))
            \/ exists e, i2c_read (i2c_addr t) rsp1 w1 = (Err e, (rsp', w2))
               /\ Z.of_nat k + 1 = i2c_poll_attempts t
               /\ r = Err (I2cExhausted (i2c_poll_attempts t) e))
  end.
Proof.
  intros Hok. unfold request, i2c_transport.
  destruct (i2c_write _ _ _) as [[[]|e] w]; [|by intros [= <- <- <-]].
  intros Hp. apply i2c_poll_spec in Hp; [exact Hp|done|unfold i2c_ok in *; simpl; lia|simpl; lia].
Qed.

#[global] Instance i2c_contract : TransportContract (@i2c_transport W E hal _) i2c_ok.
Proof.
  assert (forall (t : I2cTransport W) req rsp r t' rsp', i2c_ok t -> slice rsp ->
    request t req rsp = (r, (t', rsp')) ->
    i2c_ok t' /\ len rsp' = len rsp /\ bytes rsp' /\ forall n, r = Ok n -> n = len rsp) as Hall.
  { intros t req rsp r t' rsp' Hok [Hb _] Hr. apply i2c_request_spec in Hr; [|done].
    destruct (i2c_write _ _ _) as [[[]|e] w].
    - destruct Hr as (k & w1 & rsp1 & w2 & -> & _ & Hp & Hres).
      apply (polled_typed _ _ _ _ _ _ _ Hb) in Hp as [Hl1 Hb1].
      destruct Hres as [[Hr ->]|(e & Hr & _ & ->)];
        apply i2c_read_typed in Hr as [Hl Hb2]; [|done| |done];
        (split_and!; [done|lia|done|]); [intros n [= <-]; lia|done].
    - by destruct Hr as (-> & -> & ->). }
  split.
  - intros t req rsp r t' rsp' Hok _ Hs Hr. destruct (Hall _ _ _ _ _ _ Hok Hs Hr) as (? & ? & ? & Hn).
    split_and!; [done..|]. intros n ->. rewrite (Hn n eq_refl). apply len_nonneg.
  - intros t req rsp n t' rsp' Hok _ Hs Hr. destruct (Hall _ _ _ _ _ _ Hok Hs Hr) as (_ & _ & _ & Hn).
    rewrite (Hn n eq_refl). lia.
Qed.
End contract.

(** ** A scripted bus *)
Record I2cScript := mkI2cScript { is_reads : list (result (list Z) Z); is_delays : list Z }.

#[global] Instance i2c_script : I2c I2cScript Z := {|
  i2c_write _ _ w := (Ok tt, w);
  i2c_read _ buf w :=
    match is_reads w with
    | [] => (Err 0, (buf, w))
    | Err e :: l => (Err e, (buf, mkI2cScript l (is_delays w)))
    | Ok bs :: l =>
        (Ok tt, (take (length buf) (bs ++ replicate (length buf) 0xFF), mkI2cScript l (is_delays w)))
    end;
|}.
#[global] Instance i2c_script_delay : DelayNs I2cScript :=
  fun ns w => mkI2cScript (is_reads w) (is_delays w ++ [ns]).

(** ** Properties *)

(** The I2C adapter's request, over any bus, ends: it is the write's
    error, or the first successful one of at most [poll_attempts] fixed-length
    reads with the poll delay between them, or after exactly [poll_attempts]
    failed reads the exhaustion error with the last bus error. The clamp of
    [set_poll] and the defaults are the budgets this needs, and a request
    keeps them; a success reports the whole response window. *)
Theorem i2c_request_correct {W E} (hal : I2c W E) `{DelayNs W}
    (t : I2cTransport W) req rsp r t' rsp' :
  i2c_ok t -> request t req rsp = (r, (t', rsp')) ->
  (forall (w : W) addr n ns, 0 <= n < 2 ^ 32 ->
     i2c_ok (i2c_new w addr) /\ i2c_ok (i2c_with_poll n ns (i2c_new w addr)) /\ i2c_ok t')
  /\ match i2c_write (i2c_addr t) req (i2c_hal t) with
     | (Err e, w) => r = Err (I2cWrite e) /\ t' = i2c_with_hal t w /\ rsp' = rsp
     | (Ok _, w) =>
         exists k w1 rsp1 w2, t' = i2c_with_hal t w2
           /\ Z.of_nat k < i2c_poll_attempts t
           /\ polled (i2c_addr t) (i2c_poll_interval_ns t) k w rsp w1 rsp1
           /\ ((i2c_read (i2c_addr t) rsp1 w1 = (Ok tt, (rsp', w2)) /\ r = Ok (len rsp'))
               \/ exists e, i2c_read (i2c_addr t) rsp1 w1 = (Err e, (rsp', w2))
                  /\ Z.of_nat k + 1 = i2c_poll_attempts t
                  /\ r = Err (I2cExhausted (i2c_poll_attempts t) e))
     end.
Proof.
  intros Hok Hr. apply i2c_request_spec in Hr; [|done]. split; [|exact Hr].
  intros w addr n ns Hn. split_and!.
  - done.
  - unfold i2c_ok, i2c_with_poll, i2c_set_poll; simpl. lia.
  - destruct (i2c_write _ _ _) as [[[]|e] w'].
    + by destruct Hr as (? & ? & ? & ? & -> & _).
    + by destruct Hr as (_ & -> & _).
Qed.

Lemma i2c_request_correct_witness :
  let t := i2c_with_poll 2 7 (i2c_new (mkI2cScript [Err 1; Err 2; Ok [5]] []) 0x20) in
  fst (request t [1] [0; 0]) = Err (I2cExhausted 2 2)
  /\ i2c_ok (fst (snd (request t [1] [0; 0]))).
Proof.
  intros t. pose (res := request t [1] [0; 0] : result Z (I2cTransportError Z) * _).
  assert (i2c_ok t) as Ht by (split; vm_compute; [discriminate|reflexivity]).
  destruct (i2c_request_correct i2c_script t [1] [0; 0] (fst res) (fst (snd res)) (snd (snd res)))
    as [Hok _].
  - exact Ht.
  - subst res. by destruct (request t [1] [0; 0]) as [? [??]].
  - split; [vm_compute; reflexivity|]. apply (Hok (mkI2cScript [] []) 0 1 1); lia.
Defined.
