(* ===== verification/EhSpi.v ===== *)
(** The SPI master adapter ([updater-eh/src/spi.rs]): the request in one
    transaction, then idle bytes clocked into the stream scanner under an
    attempt budget. *)
From S2P Require Import Prelude Errors Frame Stream Transport Hal.

Definition DEFAULT_SPI_BYTE_INTERVAL_NS : Z := 50000.

Inductive SpiTransportError (E : Type) :=
| SpiWrite (e : E)
| SpiRead (e : E)
| SpiExhausted (attempts : Z).
Arguments SpiWrite {E} e.
Arguments SpiRead {E} e.
Arguments SpiExhausted {E} attempts.

Record SpiTransport (W : Type) := mkSpi {
  spi_hal : W;
  spi_poll_attempts : Z;
  spi_poll_interval_ns : Z;
  spi_byte_interval_ns : Z;
}.
Arguments mkSpi {W} spi_hal spi_poll_attempts spi_poll_interval_ns spi_byte_interval_ns.
Arguments spi_hal {W} s.
Arguments spi_poll_attempts {W} s.
Arguments spi_poll_interval_ns {W} s.
Arguments spi_byte_interval_ns {W} s.

Section spi.
Context {W : Type}.

Definition spi_new (hal : W) : SpiTransport W :=
  mkSpi hal DEFAULT_POLL_ATTEMPTS DEFAULT_POLL_INTERVAL_NS DEFAULT_SPI_BYTE_INTERVAL_NS.
Definition spi_set_poll (attempts interval_ns : Z) (t : SpiTransport W) : SpiTransport W :=
  mkSpi (spi_hal t) (Z.max attempts 1) interval_ns (spi_byte_interval_ns t).
Definition spi_with_poll (attempts interval_ns : Z) (t : SpiTransport W) : SpiTransport W :=
  spi_set_poll attempts interval_ns t.
Definition spi_with_pacing (byte_interval_ns : Z) (t : SpiTransport W) : SpiTransport W :=
  mkSpi (spi_hal t) (spi_poll_attempts t) (spi_poll_interval_ns t) byte_interval_ns.
Definition spi_release (t : SpiTransport W) : W := spi_hal t.

Definition spi_with_hal (t : SpiTransport W) (w : W) : SpiTransport W :=
  mkSpi w (spi_poll_attempts t) (spi_poll_interval_ns t) (spi_byte_interval_ns t).

Context {E : Type} `{SpiDevice W E, DelayNs W, PtrWidth}.

(** The scan loop; [None] when the fuel, one unit per byte clocked, runs
    out. *)
Fixpoint spi_loop (fuel : nat) (t : SpiTransport W) (sc : RxScanner) (attempts : Z) (rsp : list Z)
  : option (result Z (SpiTransportError E) * (SpiTransport W * list Z)) :=
  match fuel with
  | O => None
  | S fuel =>
    match spi_read [0] (spi_hal t) with
    | (Err e, (_, w)) => Some (Err (SpiRead e), (spi_with_hal t w, rsp))
    | (Ok _, (byte, w)) =>
      match push sc (default 0 (byte !! 0%nat)) rsp with
      | (Scan.Done n, (_, rsp)) => Some (Ok n, (spi_with_hal t w, rsp))
      | (Scan.Frame, (sc, rsp)) =>
          spi_loop fuel (spi_with_hal t (delay_ns (spi_byte_interval_ns t) w)) sc attempts rsp
      | ((Scan.Hunt | Scan.Dropped), (sc, rsp)) =>
          let attempts := u32_wrapping_add attempts 1 in
          if spi_poll_attempts t <=? attempts
          then Some (Err (SpiExhausted attempts), (spi_with_hal t w, rsp))
          else spi_loop fuel (spi_with_hal t (delay_ns (spi_poll_interval_ns t) w)) sc attempts rsp
      end
    end
  end.

(** 256 bytes per attempt: a sync byte and the longest frame. *)
Definition spi_fuel (t : SpiTransport W) : nat := Z.to_nat (spi_poll_attempts t * 256).

Definition spi_request (t : SpiTransport W) (req rsp : list Z)
  : option (result Z (SpiTransportError E) * (SpiTransport W * list Z)) :=
  match spi_transaction [[SYNC]; req] (spi_hal t) with
  | (Err e, w) => Some (Err (SpiWrite e), (spi_with_hal t w, rsp))
  | (Ok _, w) => spi_loop (spi_fuel t) (spi_with_hal t w) rx_new 0 rsp
  end.

#[global] Instance spi_transport : Transport (SpiTransport W) (SpiTransportError E) :=
  fun t req rsp => default (Err (SpiExhausted 0), (t, rsp)) (spi_request t req rsp).

(** ** Specification *)
Definition spi_ok (t : SpiTransport W) : Prop := 1 <= spi_poll_attempts t < 2 ^ 32.

(** What a scan ends in. *)
Definition spi_result (t : SpiTransport W) (rsp : list Z)
    (res : result Z (SpiTransportError E) * (SpiTransport W * list Z)) : Prop :=
  let '(r, (t', rsp')) := res in
  (exists w, t' = spi_with_hal t w) /\ len rsp' = len rsp /\ bytes rsp'
  /\ match r with
     | Ok n => 0 <= n <= len rsp' /\ exists f, decode (take (Z.to_nat n) rsp') = Ok f
     | Err (SpiExhausted a) => a = spi_poll_attempts t
     | Err (SpiRead e) => True
     | Err (SpiWrite e) => False
     end.

(** The bytes a device shifts out from state [w] on, however the master paces
    its reads. *)
Fixpoint spi_yields (w : W) (bs : list Z) : Prop :=
  match bs with
  | [] => True
  | b :: bs => exists w1, spi_read [0] w = (Ok tt, ([b], w1))
      /\ spi_yields w1 bs /\ forall ns, spi_yields (delay_ns ns w1) bs
  end.

End spi.

Section spi_proofs.
Context {W E : Type} (hal : SpiDevice W E) `{DelayNs W} {Hty : SpiTyped hal} `{PtrWidth}.
Implicit Types t : SpiTransport W.

Lemma spi_loop_total fuel : forall t sc attempts rsp,
  spi_ok t -> 0 <= attempts < spi_poll_attempts t -> scan_inv sc rsp -> slice rsp ->
  (spi_poll_attempts t - 1 - attempts) * 256 + rx_left sc rsp <= Z.of_nat fuel ->
  1 <= rx_left sc rsp ->
  exists res, spi_loop fuel t sc attempts rsp = Some res /\ spi_result t rsp res.
Proof.
  induction fuel as [|fuel IH]; intros t sc attempts rsp Hok Ha Hinv Hs Hf Hleft.
  { unfold spi_ok in *. lia. }
  cbn [spi_loop]. destruct (spi_read [0] (spi_hal t)) as [[[]|e] [byte w]] eqn:Hr.
  2: { eexists. split; [done|]. unfold spi_result. split_and!; [by eexists|done|by apply slice_bytes|done]. }
  apply spi_read_typed in Hr as [Hl Hb]; [|by repeat constructor].
  assert (is_u8 (default 0 (byte !! 0%nat))) as Hbyte.
  { destruct byte as [|b byte]; [done|]. simpl. by apply bytes_cons in Hb as [? _]. }
  set (b := default 0 (byte !! 0%nat)) in *. clearbody b.
  destruct (push sc b rsp) as [o [sc1 rsp1]] eqn:Hp.
  destruct (push_measure sc b rsp o sc1 rsp1) as (Hinv1 & Hs1 & Hl1 & Hleft1 & Hdec); [done..|].
  change PAYLOAD_MAX with 252 in Hleft1. change FRAME_OVERHEAD with 3 in Hleft1.
  assert (forall t1, (exists w1, t1 = spi_with_hal t w1) -> forall a1,
    0 <= a1 < spi_poll_attempts t ->
    (spi_poll_attempts t - 1 - a1) * 256 + rx_left sc1 rsp1 <= Z.of_nat fuel ->
    exists res, spi_loop fuel t1 sc1 a1 rsp1 = Some res /\ spi_result t rsp res) as Hnext.
  { intros t1 [w1 ->] a1 Ha1 Hf1.
    destruct (IH (spi_with_hal t w1) sc1 a1 rsp1) as ([r [t' rsp']] & -> & (w' & ->) & Hl' & Hb' & Hres);
      [done..|lia|].
    eexists. split; [done|]. unfold spi_result. split_and!; [by eexists|lia|done|exact Hres]. }
  assert (spi_poll_attempts t <= (attempts + 1) mod 2 ^ 32 -> forall w1,
    spi_result (E:=E) t rsp (Err (SpiExhausted ((attempts + 1) mod 2 ^ 32)), (spi_with_hal t w1, rsp1))) as Hex.
  { intros Hle w1. unfold spi_ok in *. rewrite Z.mod_small in * by lia.
    unfold spi_result. split_and!; [by eexists|done|by apply slice_bytes|simpl; lia]. }
  unfold u32_wrapping_add. pose proof (Z.mod_small (attempts + 1) (2 ^ 32)) as Hmod.
  unfold spi_ok in Hok.
  destruct o as [| |n|].
  - zcase; [eexists; split; [done|by apply Hex]|]. apply Hnext; [by eexists|lia..].
  - apply Hnext; [by eexists|lia|]. specialize (Hdec eq_refl). lia.
  - apply push_done in Hp as (-> & Hn & Hd). eexists. split; [done|].
    unfold spi_result. split_and!; [by eexists|done|by apply slice_bytes|lia|lia|done].
  - zcase; [eexists; split; [done|by apply Hex]|]. apply Hnext; [by eexists|lia..].
Qed.

Lemma spi_request_total t req rsp : spi_ok t -> slice rsp ->
  exists r t' rsp', spi_request t req rsp = Some (r, (t', rsp'))
    /\ (exists w, t' = spi_with_hal t w) /\ len rsp' = len rsp /\ bytes rsp'
    /\ match r with
       | Ok n => 0 <= n <= len rsp' /\ exists f, decode (take (Z.to_nat n) rsp') = Ok f
       | Err (SpiExhausted a) => a = spi_poll_attempts t
       | Err (SpiRead e) => True
       | Err (SpiWrite e) =>
           exists w, spi_transaction [[SYNC]; req] (spi_hal t) = (Err e, w)
       end.
Proof.
  intros Hok Hs. unfold spi_request.
  destruct (spi_transaction _ _) as [[[]|e] w].
  2: { eexists _, _, _. split; [done|]. split_and!; [by eexists|done|by apply slice_bytes|by eexists]. }
  destruct (spi_loop_total (spi_fuel t) (spi_with_hal t w) rx_new 0 rsp)
    as ([r [t' rsp']] & -> & (w' & ->) & ? & ? & Hr); [done|unfold spi_ok in *; simpl; lia|done|done| |done|].
  { unfold spi_fuel, rx_left, spi_ok in *; simpl. change PAYLOAD_MAX with 252.
    change FRAME_OVERHEAD with 3. lia. }
  eexists _, _, _. split; [done|]. split_and!; [by eexists|done|done|].
  by destruct r as [|[]].
Qed.

#[global] Instance spi_contract : TransportContract (@spi_transport W E hal _ _) spi_ok.
Proof.
  assert (forall t req rsp r t' rsp', spi_ok t -> slice rsp ->
    request t req rsp = (r, (t', rsp')) ->
    spi_ok t' /\ len rsp' = len rsp /\ bytes rsp' /\ forall n, r = Ok n -> 0 <= n <= len rsp) as Hall.
  { intros t req rsp r t' rsp' Hok Hs. unfold request, spi_transport.
    destruct (spi_request_total t req rsp Hok Hs) as (r1 & t1 & rsp1 & -> & (w & ->) & Hl & Hb & Hr).
    simpl. intros [= <- <- <-]. split_and!; [done..|]. intros n ->. destruct Hr. lia. }
  split.
  - intros t req rsp r t' rsp' Hok _ Hs Hr. destruct (Hall _ _ _ _ _ _ Hok Hs Hr) as (? & ? & ? & Hn).
    split_and!; [done..|]. intros n ->. by apply Hn.
  - intros t req rsp n t' rsp' Hok _ Hs Hr. destruct (Hall _ _ _ _ _ _ Hok Hs Hr) as (_ & _ & _ & Hn).
    by apply Hn.
Qed.

(** A device that shifts out a stream ending in its first whole frame. *)
Lemma spi_loop_finds bs : forall fuel t sc attempts rsp n,
  spi_ok t -> scan_inv sc rsp -> slice rsp -> bytes bs ->
  0 <= attempts -> attempts + junk (outcomes sc rsp bs) < spi_poll_attempts t ->
  ends_done (outcomes sc rsp bs) n -> spi_yields (spi_hal t) bs -> (length bs <= fuel)%nat ->
  exists w, spi_loop fuel t sc attempts rsp = Some (Ok n, (spi_with_hal t w, snd (after sc rsp bs))).
Proof.
  induction bs as [|b bs IH]; intros fuel t sc attempts rsp n Hok Hinv Hs Hbs Ha Hj Hd Hy Hf.
  { by destruct Hd as ([] & ? & _). }
  destruct fuel as [|fuel]; simpl in Hf; [lia|]. apply bytes_cons in Hbs as [Hb Hbs].
  destruct Hy as (w1 & Hr & Hy1 & Hyd). cbn [spi_loop]. rewrite Hr.
  change (default 0 ([b] !! 0%nat)) with b. cbn [outcomes after] in *.
  destruct (push sc b rsp) as [o [sc1 rsp1]] eqn:Hp.
  destruct (push_measure sc b rsp o sc1 rsp1) as (Hinv1 & Hs1 & _); [done..|].
  rewrite junk_cons in Hj. pose proof (junk_nonneg (outcomes sc1 rsp1 bs)). unfold spi_ok in *.
  assert (forall ns a1, 0 <= a1 -> a1 + junk (outcomes sc1 rsp1 bs) < spi_poll_attempts t ->
    ends_done (outcomes sc1 rsp1 bs) n ->
    exists w, spi_loop fuel (spi_with_hal t (delay_ns ns w1)) sc1 a1 rsp1
      = Some (Ok n, (spi_with_hal t w, snd (after sc1 rsp1 bs)))) as Hnext.
  { intros ns a1 Ha1 Hj1 Hd1.
    destruct (IH fuel (spi_with_hal t (delay_ns ns w1)) sc1 a1 rsp1 n) as [w ->]; try done.
    - apply Hyd.
    - lia.
    - by exists w. }
  apply ends_done_cons in Hd as [[Hnil ->]|[Hno Hd]].
  { assert (bs = []) as -> by (destruct bs; cbn [outcomes] in Hnil; repeat case_match; done).
    by exists w1. }
  unfold u32_wrapping_add.
  destruct o as [| |k|]; cbn [is_junk] in Hj; [| |by destruct (Hno k)|].
  - rewrite Z.mod_small by lia. zcase; [lia|]. apply Hnext; [lia..|done].
  - apply Hnext; [lia..|done].
  - rewrite Z.mod_small by lia. zcase; [lia|]. apply Hnext; [lia..|done].
Qed.

End spi_proofs.

(** ** A scripted device: what MISO shifts out *)
Record SpiScript := mkSpiScript { ss_mosi : list (list Z); ss_miso : list Z }.

#[global] Instance spi_script : SpiDevice SpiScript unit := {|
  spi_transaction ws w := (Ok tt, mkSpiScript (ss_mosi w ++ ws) (ss_miso w));
  spi_read buf w :=
    (Ok tt, ((fun b => b mod 256) <$> take (length buf) (ss_miso w ++ replicate (length buf) 0),
             mkSpiScript (ss_mosi w) (drop (length buf) (ss_miso w))));
|}.
#[global] Instance spi_script_delay : DelayNs SpiScript := fun _ w => w.

Lemma spi_script_yields bs mosi rest : bytes bs ->
  spi_yields (mkSpiScript mosi (bs ++ rest)) bs.
Proof.
  induction 1 as [|b bs Hb _ IH]; [done|]. cbn [spi_yields app].
  exists (mkSpiScript mosi (bs ++ rest)). split_and!; [|done|intros ns; exact IH].
  cbn. rewrite Z.mod_small by lia. done.
Qed.
#[global] Instance spi_script_typed : SpiTyped spi_script.
Proof.
  intros buf w r buf' w' Hb. cbn [spi_read spi_script]. intros [= <- <- <-]. split.
  - unfold len. rewrite length_fmap, length_take, length_app, length_replicate. lia.
  - apply Forall_fmap, Forall_true. intros x; simpl. apply Z.mod_pos_bound. lia.
Qed.

(** ** Properties *)
Section properties.
Context {W E : Type} (hal : SpiDevice W E) `{DelayNs W} `{PtrWidth}.

(** The SPI adapter's request always ends, after at most 256 bytes
    clocked per allowed attempt, whatever the device shifts out, and ends in
    what it says: a length only if that many bytes at the front of the
    response window decode as a frame, an exhaustion only at exactly the
    attempt budget. The window keeps its size. *)
Theorem spi_request_terminates {Hty : SpiTyped hal} (t : SpiTransport W) req rsp :
  spi_ok t -> slice rsp ->
  exists r t' rsp', spi_request t req rsp = Some (r, (t', rsp'))
    /\ request t req rsp = (r, (t', rsp'))
    /\ (exists w, t' = spi_with_hal t w) /\ len rsp' = len rsp /\ bytes rsp'
    /\ match r with
       | Ok n => 0 <= n <= len rsp' /\ exists f, decode (take (Z.to_nat n) rsp') = Ok f
       | Err (SpiExhausted a) => a = spi_poll_attempts t
       | Err (SpiRead e) => True
       | Err (SpiWrite e) =>
           exists w, spi_transaction [[SYNC]; req] (spi_hal t) = (Err e, w)
       end.
Proof.
  intros Hok Hs. destruct (spi_request_total hal t req rsp Hok Hs) as (r & t' & rsp' & Hr & Hrest).
  exists r, t', rsp'. split; [done|]. split; [|done]. unfold request, spi_transport. by rewrite Hr.
Qed.

(** A response is not missed. If behind fewer busy bytes than the attempt
    budget the device shifts out a sync and a whole frame that fits the
    window, the request returns that frame's length with the frame at the
    front of the window. *)
Theorem spi_request_receives (t : SpiTransport W) req rsp w noise cmd payload :
  spi_ok t -> slice rsp -> bytes noise -> is_u8 cmd -> bytes payload ->
  spi_transaction [[SYNC]; req] (spi_hal t) = (Ok tt, w) ->
  spi_yields w (noise ++ SYNC :: wire cmd payload) ->
  Forall (fun b => b <> SYNC) noise -> len noise < spi_poll_attempts t ->
  len payload <= PAYLOAD_MAX -> len payload + FRAME_OVERHEAD <= len rsp ->
  exists t' rsp', request t req rsp = (Ok (len payload + 3), (t', rsp'))
    /\ take (length (wire cmd payload)) rsp' = wire cmd payload.
Proof.
  intros Hok Hs Hn Hcmd Hp Htx Hy Hno Hlen Hmax Hfit. pose proof (len_nonneg payload).
  assert (len payload <= 252) by done.
  destruct (frame_ends_done rsp noise cmd payload) as [Hd Hj]; [done..|].
  destruct (spi_loop_finds hal (noise ++ SYNC :: wire cmd payload) (spi_fuel t) (spi_with_hal t w)
    rx_new 0 rsp (len payload + 3)) as [w' Hl]; [done|done|done| |lia|cbn [spi_with_hal spi_poll_attempts]; lia|done|done| |].
  - apply bytes_app. split; [done|]. apply bytes_cons. split; [by unfold SYNC|].
    apply wire_bytes; [done..|lia].
  - unfold spi_fuel, spi_ok in *. pose proof (len_wire cmd payload).
    unfold len in *. rewrite length_app. cbn [length]. lia.
  - unfold request, spi_transport, spi_request. rewrite Htx, Hl. eexists _, _. split; [done|].
    by apply after_frame.
Qed.

End properties.

Lemma spi_request_terminates_witness :
  let t := spi_with_poll 3 7 (spi_new (mkSpiScript [] [0; SYNC; 9; 250; 1])) in
  exists t' rsp', request t [1] [0; 0; 0; 0] = (Err (SpiExhausted (E:=unit) 3), (t', rsp'))
    /\ len rsp' = 4.
Proof.
  intros t.
  destruct (spi_request_terminates spi_script t [1] [0; 0; 0; 0])
    as (r & t' & rsp' & _ & Hr & _ & Hl & _).
  - split; vm_compute; [discriminate|reflexivity].
  - split; [repeat constructor; lia|by vm_compute].
  - exists t', rsp'. split; [|exact Hl]. rewrite Hr. f_equal.
    assert (fst (request t [1] [0; 0; 0; 0]) = Err (SpiExhausted (E:=unit) 3)) as Hx by (vm_compute; reflexivity).
    rewrite Hr in Hx. exact Hx.
Defined.

Lemma spi_request_receives_witness :
  let t := spi_new (mkSpiScript [] ([0; 0; 0xFF] ++ SYNC :: wire 0x85 [0])) in
  exists t' rsp', request t (wire 5 []) [0; 0; 0; 0] = (Ok (E:=SpiTransportError unit) 4, (t', rsp'))
    /\ take 4 rsp' = wire 0x85 [0].
Proof.
  intros t.
  apply (spi_request_receives spi_script t (wire 5 []) [0; 0; 0; 0]
    (mkSpiScript [[SYNC]; wire 5 []] ([0; 0; 0xFF] ++ SYNC :: wire 0x85 [0])) [0; 0; 0xFF] 0x85 [0]).
  - split; vm_compute; [discriminate|reflexivity].
  - split; [repeat constructor; lia|by vm_compute].
  - repeat constructor; lia.
  - lia.
  - repeat constructor; lia.
  - reflexivity.
  - rewrite <- (app_nil_r ([0; 0; 0xFF] ++ SYNC :: wire 0x85 [0])) at 1. apply spi_script_yields.
    repeat constructor; by vm_compute.
  - repeat constructor; unfold SYNC; lia.
  - by vm_compute.
  - by vm_compute.
  - by vm_compute.
Defined.
