(* ===== verification/EhUart.v ===== *)
(** The UART master adapter ([updater-eh/src/uart.rs]): the request written
    with its sync byte, then chunked reads fed to the stream scanner, bounded
    by an idle budget and a babble budget. *)
From S2P Require Import Prelude Errors Frame Stream Transport Hal.

Inductive UartTransportError (E : Type) :=
| UartWrite (e : E)
| UartRead (e : E)
| UartExhausted (attempts : Z)
| UartDesync (scanned : Z).
Arguments UartWrite {E} e.
Arguments UartRead {E} e.
Arguments UartExhausted {E} attempts.
Arguments UartDesync {E} scanned.

Record UartTransport (W : Type) := mkUart {
  uart_io : W;
  uart_poll_attempts : Z;
  uart_poll_interval_ns : Z;
  uart_scan_limit : Z;
}.
Arguments mkUart {W} uart_io uart_poll_attempts uart_poll_interval_ns uart_scan_limit.
Arguments uart_io {W} u.
Arguments uart_poll_attempts {W} u.
Arguments uart_poll_interval_ns {W} u.
Arguments uart_scan_limit {W} u.

Section uart.
Context {W : Type}.

Definition uart_new (io : W) : UartTransport W :=
  mkUart io DEFAULT_POLL_ATTEMPTS DEFAULT_POLL_INTERVAL_NS DEFAULT_SCAN_LIMIT.
Definition uart_set_poll (attempts interval_ns : Z) (t : UartTransport W) : UartTransport W :=
  mkUart (uart_io t) (Z.max attempts 1) interval_ns (uart_scan_limit t).
Definition uart_with_poll (attempts interval_ns : Z) (t : UartTransport W) : UartTransport W :=
  uart_set_poll attempts interval_ns t.
Definition uart_with_scan_limit (n : Z) (t : UartTransport W) : UartTransport W :=
  mkUart (uart_io t) (uart_poll_attempts t) (uart_poll_interval_ns t) (Z.max n 1).
Definition uart_release (t : UartTransport W) : W := uart_io t.

Definition uart_with_io (t : UartTransport W) (w : W) : UartTransport W :=
  mkUart w (uart_poll_attempts t) (uart_poll_interval_ns t) (uart_scan_limit t).

Context {E : Type} `{Serial W E, DelayNs W, PtrWidth}.

(** The [for] loop over one chunk: [Some r] when it returns from [request],
    [None] when it runs to its end; then the scanner, the junk count and the
    response window. *)
Fixpoint uart_bytes (limit : Z) (bs : list Z) (sc : RxScanner) (junk : Z) (rsp : list Z)
  : option (result Z (UartTransportError E)) * (RxScanner * Z * list Z) :=
  match bs with
  | [] => (None, (sc, junk, rsp))
  | b :: bs =>
    match push sc b rsp with
    | (Scan.Done n, (sc, rsp)) => (Some (Ok n), (sc, junk, rsp))
    | (Scan.Frame, (sc, rsp)) => uart_bytes limit bs sc junk rsp
    | ((Scan.Hunt | Scan.Dropped), (sc, rsp)) =>
        let junk := u32_wrapping_add junk 1 in
        if limit <=? junk then (Some (Err (UartDesync junk)), (sc, junk, rsp))
        else uart_bytes limit bs sc junk rsp
    end
  end.

(** The outer loop; [None] when the fuel, one unit per read, runs out. *)
Fixpoint uart_loop (fuel : nat) (t : UartTransport W) (chunk : list Z) (sc : RxScanner)
    (attempts junk : Z) (rsp : list Z)
  : option (result Z (UartTransportError E) * (UartTransport W * list Z)) :=
  match fuel with
  | O => None
  | S fuel =>
    match io_read chunk (uart_io t) with
    | (Err e, (_, w)) => Some (Err (UartRead e), (uart_with_io t w, rsp))
    | (Ok n, (chunk, w)) =>
      if n =? 0 then
        let attempts := u32_wrapping_add attempts 1 in
        if uart_poll_attempts t <=? attempts
        then Some (Err (UartExhausted attempts), (uart_with_io t w, rsp))
        else uart_loop fuel (uart_with_io t (delay_ns (uart_poll_interval_ns t) w))
               chunk sc attempts junk rsp
      else
        match uart_bytes (uart_scan_limit t) (default [] (get_to (Z.min n (len chunk)) chunk))
                sc junk rsp with
        | (Some r, (_, _, rsp)) => Some (r, (uart_with_io t w, rsp))
        | (None, (sc, junk, rsp)) => uart_loop fuel (uart_with_io t w) chunk sc attempts junk rsp
        end
    end
  end.

(** A read is idle, or brings at least one byte. *)
Definition uart_fuel (t : UartTransport W) : nat :=
  Z.to_nat (uart_poll_attempts t + uart_scan_limit t * 256).

Definition uart_request (t : UartTransport W) (req rsp : list Z)
  : option (result Z (UartTransportError E) * (UartTransport W * list Z)) :=
  match io_write_all [SYNC] (uart_io t) with
  | (Err e, w) => Some (Err (UartWrite e), (uart_with_io t w, rsp))
  | (Ok _, w) =>
    match io_write_all req w with
    | (Err e, w) => Some (Err (UartWrite e), (uart_with_io t w, rsp))
    | (Ok _, w) =>
      match io_flush w with
      | (Err e, w) => Some (Err (UartWrite e), (uart_with_io t w, rsp))
      | (Ok _, w) =>
          uart_loop (uart_fuel t) (uart_with_io t w) (replicate 32 0) rx_new 0 0 rsp
      end
    end
  end.

#[global] Instance uart_transport : Transport (UartTransport W) (UartTransportError E) :=
  fun t req rsp => default (Err (UartExhausted 0), (t, rsp)) (uart_request t req rsp).

(** ** Specification *)
Definition uart_ok (t : UartTransport W) : Prop :=
  1 <= uart_poll_attempts t < 2 ^ 32 /\ 1 <= uart_scan_limit t < 2 ^ 32.

(** What a request may end in, once the writes went through. *)
Definition uart_verdict (t : UartTransport W) (rsp' : list Z)
    (r : result Z (UartTransportError E)) : Prop :=
  match r with
  | Ok n => 0 <= n <= len rsp' /\ exists f, decode (take (Z.to_nat n) rsp') = Ok f
  | Err (UartExhausted a) => a = uart_poll_attempts t
  | Err (UartDesync j) => j = uart_scan_limit t
  | Err (UartRead e) => True
  | Err (UartWrite e) => False
  end.

(** The reads a port serves from state [w] on, however long the adapter waits
    between them; an empty one is a timeout. *)
Fixpoint uart_yields (w : W) (reads : list (list Z)) : Prop :=
  match reads with
  | [] => True
  | bs :: reads => forall chunk, len chunk = 32 -> bytes chunk ->
      exists chunk' w1, io_read chunk w = (Ok (len bs), (chunk', w1))
        /\ len bs <= 32 /\ len chunk' = 32 /\ bytes chunk' /\ take (length bs) chunk' = bs
        /\ uart_yields w1 reads /\ forall ns, uart_yields (delay_ns ns w1) reads
  end.

Definition idle_reads (reads : list (list Z)) : Z :=
  len (List.filter (fun bs => len bs =? 0) reads).

End uart.

Section uart_proofs.
Context {W E : Type} (hal : Serial W E) `{DelayNs W} `{PtrWidth}.
Implicit Types t : UartTransport W.

(** One chunk consumes budget byte by byte. *)
Lemma uart_bytes_spec t bs : forall sc j rsp o sc' j' rsp',
  uart_ok t -> bytes bs -> 0 <= j < uart_scan_limit t -> scan_inv sc rsp -> slice rsp ->
  1 <= rx_left sc rsp ->
  uart_bytes (E:=E) (uart_scan_limit t) bs sc j rsp = (o, (sc', j', rsp')) ->
  slice rsp' /\ len rsp' = len rsp
  /\ match o with
     | Some r => uart_verdict t rsp' r
     | None => scan_inv sc' rsp' /\ 0 <= j' < uart_scan_limit t /\ 1 <= rx_left sc' rsp'
         /\ j * 256 - rx_left sc rsp + len bs <= j' * 256 - rx_left sc' rsp'
     end.
Proof.
  induction bs as [|b bs IH]; intros sc j rsp o sc' j' rsp' Hok Hbs Hj Hinv Hs Hleft.
  { intros [= <- <- <- <-]. change (len (@nil Z)) with 0. split_and!; first [done|lia]. }
  apply bytes_cons in Hbs as [Hb Hbs]. cbn [uart_bytes]. rewrite len_cons.
  destruct (push sc b rsp) as [oc [sc1 rsp1]] eqn:Hp.
  destruct (push_measure sc b rsp oc sc1 rsp1) as (Hinv1 & Hs1 & Hl1 & Hleft1 & Hdec); [done..|].
  change PAYLOAD_MAX with 252 in Hleft1. change FRAME_OVERHEAD with 3 in Hleft1.
  assert (forall j1, 0 <= j1 < uart_scan_limit t ->
    j * 256 - rx_left sc rsp + 1 <= j1 * 256 - rx_left sc1 rsp1 ->
    uart_bytes (E:=E) (uart_scan_limit t) bs sc1 j1 rsp1 = (o, (sc', j', rsp')) ->
    slice rsp' /\ len rsp' = len rsp
    /\ match o with
       | Some r => uart_verdict t rsp' r
       | None => scan_inv sc' rsp' /\ 0 <= j' < uart_scan_limit t /\ 1 <= rx_left sc' rsp'
           /\ j * 256 - rx_left sc rsp + (1 + len bs) <= j' * 256 - rx_left sc' rsp'
       end) as Hnext.
  { intros j1 Hj1 Hlt Hu. apply IH in Hu as (? & ? & Ho); [|done..|lia].
    split_and!; [done|lia|]. destruct o; [done|]. destruct Ho as (? & ? & ? & ?).
    split_and!; first [done|lia]. }
  destruct Hok as [_ Hlim].
  assert (u32_wrapping_add j 1 = j + 1) as -> by (apply Z.mod_small; lia).
  assert (uart_scan_limit t <= j + 1 -> forall sc2 j2,
    (Some (Err (UartDesync (j + 1))), (sc2, j2, rsp1)) = (o, (sc', j', rsp')) ->
    slice rsp' /\ len rsp' = len rsp
    /\ match o with
       | Some r => uart_verdict (E:=E) t rsp' r
       | None => scan_inv sc' rsp' /\ 0 <= j' < uart_scan_limit t /\ 1 <= rx_left sc' rsp'
           /\ j * 256 - rx_left sc rsp + (1 + len bs) <= j' * 256 - rx_left sc' rsp'
       end) as Hdesync.
  { intros Hle sc2 j2 [= <- <- <- <-]. split_and!; [done|done|]. simpl. lia. }
  destruct oc as [| |n|].
  - zcase; [by apply Hdesync|]. apply Hnext; lia.
  - specialize (Hdec eq_refl). apply Hnext; lia.
  - intros [= <- <- <- <-]. apply push_done in Hp as (_ & ? & ?). by split_and!.
  - zcase; [by apply Hdesync|]. apply Hnext; lia.
Qed.

Lemma uart_loop_total {Hty : SerialTyped hal} fuel : forall t chunk sc a j rsp,
  uart_ok t -> len chunk = 32 -> bytes chunk ->
  0 <= a < uart_poll_attempts t -> 0 <= j < uart_scan_limit t ->
  scan_inv sc rsp -> slice rsp -> 1 <= rx_left sc rsp ->
  uart_poll_attempts t - 1 - a + (uart_scan_limit t - 1 - j) * 256 + rx_left sc rsp
    <= Z.of_nat fuel ->
  exists r w rsp', uart_loop fuel t chunk sc a j rsp = Some (r, (uart_with_io t w, rsp'))
    /\ len rsp' = len rsp /\ slice rsp' /\ uart_verdict t rsp' r.
Proof.
  induction fuel as [|fuel IH]; intros t chunk sc a j rsp Hok Hc Hcb Ha Hj Hinv Hs Hleft Hf; [lia|].
  cbn [uart_loop]. destruct (io_read chunk (uart_io t)) as [[n|e] [chunk1 w]] eqn:Hr.
  2: { by eexists _, _, _. }
  apply io_read_typed in Hr as (Hc1 & Hcb1 & Hn); [|done]. specialize (Hn n eq_refl).
  assert (forall w1 sc1 a1 j1 rsp1, 0 <= a1 < uart_poll_attempts t -> 0 <= j1 < uart_scan_limit t ->
    scan_inv sc1 rsp1 -> slice rsp1 -> len rsp1 = len rsp -> 1 <= rx_left sc1 rsp1 ->
    uart_poll_attempts t - 1 - a1 + (uart_scan_limit t - 1 - j1) * 256 + rx_left sc1 rsp1
      <= Z.of_nat fuel ->
    exists r w rsp', uart_loop fuel (uart_with_io t w1) chunk1 sc1 a1 j1 rsp1
      = Some (r, (uart_with_io t w, rsp'))
    /\ len rsp' = len rsp /\ slice rsp' /\ uart_verdict t rsp' r) as Hnext.
  { intros w1 sc1 a1 j1 rsp1 ???? Hl1 ??.
    destruct (IH (uart_with_io t w1) chunk1 sc1 a1 j1 rsp1) as (r & w2 & rsp2 & -> & Hl2 & ? & ?);
      [done|lia|done..|].
    exists r, w2, rsp2. by rewrite <- Hl1. }
  destruct (Z.eqb_spec n 0).
  - destruct Hok as [Hpa _].
    assert (u32_wrapping_add a 1 = a + 1) as Hw by (apply Z.mod_small; lia). zcase.
    + eexists _, _, _. split; [done|]. split_and!; [done|done|]. simpl. lia.
    + by apply Hnext; try lia.
  - rewrite get_to_Some by lia. cbn [default]. unfold id.
    destruct (uart_bytes _ _ _ _ _) as [o [[sc1 j1] rsp1]] eqn:Hu.
    apply (uart_bytes_spec t) in Hu as (Hs1 & Hl1 & Ho); [|done|auto with ota|done..].
    destruct o as [r|].
    + by eexists _, _, _.
    + destruct Ho as (? & ? & ? & Hlt). rewrite len_take in Hlt. apply Hnext; try done. lia.
Qed.

Lemma uart_request_total {Hty : SerialTyped hal} t req rsp : uart_ok t -> slice rsp ->
  exists r w rsp', uart_request t req rsp = Some (r, (uart_with_io t w, rsp'))
    /\ len rsp' = len rsp /\ slice rsp'
    /\ (uart_verdict t rsp' r \/ exists e, r = Err (UartWrite e)).
Proof.
  intros Hok Hs. unfold uart_request.
  destruct (io_write_all [SYNC] _) as [[[]|e] w1];
    [|eexists _, _, _; split; [done|]; split_and!; [done|done|by right; exists e]].
  destruct (io_write_all req _) as [[[]|e] w2];
    [|eexists _, _, _; split; [done|]; split_and!; [done|done|by right; exists e]].
  destruct (io_flush _) as [[[]|e] w3];
    [|eexists _, _, _; split; [done|]; split_and!; [done|done|by right; exists e]].
  destruct (uart_loop_total (uart_fuel t) (uart_with_io t w3) (replicate 32 0) rx_new 0 0 rsp)
    as (r & w & rsp' & -> & Hl & Hs' & Hv);
    [done|done|by apply bytes_replicate|unfold uart_ok in *; simpl; lia..|done|done|done| |].
  - unfold uart_fuel, uart_ok in *. unfold rx_left; simpl. change PAYLOAD_MAX with 252.
    change FRAME_OVERHEAD with 3. lia.
  - exists r, w, rsp'. split_and!; [done|done|done|]. by left.
Qed.

#[global] Instance uart_contract {Hty : SerialTyped hal} :
  TransportContract (@uart_transport W E hal _ _) uart_ok.
Proof.
  assert (forall t req rsp r t' rsp', uart_ok t -> slice rsp ->
    request t req rsp = (r, (t', rsp')) ->
    uart_ok t' /\ len rsp' = len rsp /\ bytes rsp' /\ forall n, r = Ok n -> 0 <= n <= len rsp) as Hall.
  { intros t req rsp r t' rsp' Hok Hs. unfold request, uart_transport.
    destruct (uart_request_total t req rsp Hok Hs) as (r1 & w & rsp1 & -> & Hl & Hb & Hv).
    simpl. intros [= <- <- <-]. split_and!; [done|done|by apply slice_bytes|].
    intros n ->. destruct Hv as [[? _]|[? ?]]; [lia|done]. }
  split.
  - intros t req rsp r t' rsp' Hok _ Hs Hr. destruct (Hall _ _ _ _ _ _ Hok Hs Hr) as (? & ? & ? & Hn).
    split_and!; [done..|]. intros n ->. by apply Hn.
  - intros t req rsp n t' rsp' Hok _ Hs Hr. destruct (Hall _ _ _ _ _ _ Hok Hs Hr) as (_ & _ & _ & Hn).
    by apply Hn.
Qed.

(** A chunk of a stream that ends in a whole frame: either the frame ends in
    it, or the scan goes on with what is left of the stream. *)
Lemma uart_bytes_finds t bs : forall stream sc j rsp n,
  uart_ok t -> bytes bs -> bytes stream -> scan_inv sc rsp -> slice rsp ->
  bs `prefix_of` stream \/ stream `prefix_of` bs ->
  0 <= j -> j + junk (outcomes sc rsp stream) < uart_scan_limit t ->
  ends_done (outcomes sc rsp stream) n ->
  (exists st j', uart_bytes (E:=E) (uart_scan_limit t) bs sc j rsp
     = (Some (Ok n), (st, j', snd (after sc rsp stream))))
  \/ exists stream' sc' j' rsp', stream = bs ++ stream'
     /\ uart_bytes (E:=E) (uart_scan_limit t) bs sc j rsp = (None, (sc', j', rsp'))
     /\ scan_inv sc' rsp' /\ slice rsp'
     /\ 0 <= j' /\ j' + junk (outcomes sc' rsp' stream') < uart_scan_limit t
     /\ ends_done (outcomes sc' rsp' stream') n
     /\ snd (after sc rsp stream) = snd (after sc' rsp' stream').
Proof.
  induction bs as [|b bs IH]; intros stream sc j rsp n Hok Hbs Hst Hinv Hs Hpre Hj Hjunk Hd.
  { right. exists stream, sc, j, rsp. by split_and!. }
  destruct stream as [|b' stream]; [by destruct Hd as ([] & ? & _)|].
  assert (b' = b) as ->.
  { destruct Hpre as [[k Hk]|[k Hk]]; by injection Hk. }
  assert (bs `prefix_of` stream \/ stream `prefix_of` bs) as Hpre'.
  { destruct Hpre as [Hk|Hk]; apply prefix_cons_inv_2 in Hk; auto. }
  apply bytes_cons in Hbs as [Hb Hbs]. apply bytes_cons in Hst as [_ Hst].
  cbn [outcomes after uart_bytes] in *. destruct (push sc b rsp) as [o [sc1 rsp1]] eqn:Hp.
  destruct (push_measure sc b rsp o sc1 rsp1) as (Hinv1 & Hs1 & _); [done..|].
  rewrite junk_cons in Hjunk. pose proof (junk_nonneg (outcomes sc1 rsp1 stream)).
  apply ends_done_cons in Hd as [[Hnil ->]|[Hno Hd]].
  { assert (stream = []) as -> by (destruct stream; cbn [outcomes] in Hnil; repeat case_match; done).
    left. by eexists _, _. }
  assert (forall j1, 0 <= j1 -> j1 + junk (outcomes sc1 rsp1 stream) < uart_scan_limit t ->
    (exists st j', uart_bytes (E:=E) (uart_scan_limit t) bs sc1 j1 rsp1
       = (Some (Ok n), (st, j', snd (after sc1 rsp1 stream))))
    \/ exists stream' sc' j' rsp', b :: stream = (b :: bs) ++ stream'
       /\ uart_bytes (E:=E) (uart_scan_limit t) bs sc1 j1 rsp1 = (None, (sc', j', rsp'))
       /\ scan_inv sc' rsp' /\ slice rsp'
       /\ 0 <= j' /\ j' + junk (outcomes sc' rsp' stream') < uart_scan_limit t
       /\ ends_done (outcomes sc' rsp' stream') n
       /\ snd (after sc1 rsp1 stream) = snd (after sc' rsp' stream')) as Hnext.
  { intros j1 Hj1 Hlt. destruct (IH stream sc1 j1 rsp1 n) as [Hl|Hr]; [done..|by left|right].
    destruct Hr as (stream' & sc' & j' & rsp' & -> & Hr). by exists stream', sc', j', rsp'. }
  assert (o <> Scan.Frame -> u32_wrapping_add j 1 = j + 1) as Hw.
  { intros Ho. unfold uart_ok in *. destruct o; cbn [is_junk] in *; try done;
      first [by destruct (Hno len)|apply Z.mod_small; lia]. }
  destruct o as [| |k|]; cbn [is_junk] in Hjunk; [| |by destruct (Hno k)|].
  - rewrite Hw by done. zcase; [lia|]. apply Hnext; lia.
  - apply Hnext; lia.
  - rewrite Hw by done. zcase; [lia|]. apply Hnext; lia.
Qed.

Lemma idle_reads_cons bs reads :
  idle_reads (bs :: reads) = (if len bs =? 0 then 1 else 0) + idle_reads reads.
Proof. unfold idle_reads. simpl. zcase; rewrite ?len_cons; lia. Qed.

Lemma uart_loop_finds reads : forall fuel t chunk stream sc a j rsp n,
  uart_ok t -> len chunk = 32 -> bytes chunk -> Forall (fun bs => bytes bs) reads -> bytes stream ->
  scan_inv sc rsp -> slice rsp -> stream `prefix_of` concat reads ->
  0 <= a -> a + idle_reads reads < uart_poll_attempts t ->
  0 <= j -> j + junk (outcomes sc rsp stream) < uart_scan_limit t ->
  ends_done (outcomes sc rsp stream) n -> uart_yields (uart_io t) reads ->
  (length reads <= fuel)%nat ->
  exists w, uart_loop fuel t chunk sc a j rsp
    = Some (Ok n, (uart_with_io t w, snd (after sc rsp stream))).
Proof.
  induction reads as [|bs reads IH]; intros fuel t chunk stream sc a j rsp n
    Hok Hc Hcb Hrb Hst Hinv Hs Hpre Ha Hidle Hj Hjunk Hd Hy Hf.
  { apply prefix_nil_inv in Hpre as ->. by destruct Hd as ([] & ? & _). }
  destruct fuel as [|fuel]; simpl in Hf; [lia|]. apply Forall_cons in Hrb as [Hb Hrb].
  destruct (Hy chunk Hc Hcb) as (chunk1 & w1 & Hr & Hlb & Hc1 & Hcb1 & Htk & Hy1 & Hyd).
  cbn [uart_loop]. rewrite Hr. rewrite idle_reads_cons in Hidle.
  assert (0 <= idle_reads reads) by apply len_nonneg.
  destruct (Z.eqb_spec (len bs) 0) as [H0b|Hne].
  - apply len_zero_nil in H0b as ->. destruct Hok as [Hpa Hsl].
    assert (u32_wrapping_add a 1 = a + 1) as -> by (apply Z.mod_small; lia). zcase; [lia|].
    destruct (IH fuel (uart_with_io t (delay_ns (uart_poll_interval_ns t) w1)) chunk1 stream sc (a + 1) j
      rsp n) as [w Hw]; try done; [lia|cbn [uart_with_io uart_poll_attempts]; lia|apply Hyd|lia|by exists w].
  - pose proof (len_nonneg bs). rewrite get_to_Some by lia. cbn [default]. unfold id.
    replace (take (Z.to_nat (Z.min (len bs) (len chunk1))) chunk1) with bs.
    2: { rewrite Z.min_l by lia. by rewrite to_nat_len. }
    destruct (uart_bytes_finds t bs stream sc j rsp n) as [Hl|Hr']; try done.
    + cbn [concat] in Hpre. apply (prefix_weak_total _ _ (bs ++ concat reads)); [by apply prefix_app_r|done].
    + destruct Hl as (st & j' & ->). destruct st. by exists w1.
    + destruct Hr' as (stream' & sc' & j' & rsp' & -> & -> & ? & ? & ? & ? & ? & ->).
      apply bytes_app in Hst as [_ Hst]. apply prefix_app_inv in Hpre.
      destruct (IH fuel (uart_with_io t w1) chunk1 stream' sc' a j' rsp' n) as [w Hw];
        try done; [lia|]. by exists w.
Qed.

End uart_proofs.

(** ** A scripted port *)
Definition UartScript : Type := list (list Z).

#[global] Instance uart_script : Serial UartScript unit := {|
  io_write_all _ w := (Ok tt, w);
  io_flush w := (Ok tt, w);
  io_read chunk w :=
    match w with
    | [] => (Ok 0, (chunk, []))
    | bs :: w =>
        let bs := (fun b => b mod 256) <$> take (length chunk) bs in
        (Ok (len bs), (bs ++ drop (length bs) chunk, w))
    end;
|}.
#[global] Instance uart_script_delay : DelayNs UartScript := fun _ w => w.

#[global] Instance uart_script_typed : SerialTyped uart_script.
Proof.
  intros chunk w r chunk' w' Hb. destruct w as [|bs w]; cbn [io_read uart_script].
  - intros [= <- <- <-]. split_and!; [done|done|]. by intros n [= <-].
  - intros [= <- <- <-]. split_and!.
    + unfold len. rewrite length_app, length_drop, length_fmap, length_take. lia.
    + apply bytes_app. split; [|auto with ota]. apply Forall_fmap, Forall_true.
      intros x; simpl. apply Z.mod_pos_bound. lia.
    + intros n [= <-]. apply len_nonneg.
Qed.

Lemma uart_script_yields reads : Forall (fun bs => bytes bs /\ len bs <= 32) reads ->
  uart_yields reads reads.
Proof.
  induction 1 as [|bs reads [Hb Hl] _ IH]; [done|]. cbn [uart_yields]. intros chunk Hc Hcb.
  assert ((fun b => b mod 256) <$> take (length chunk) bs = bs) as Hid.
  { rewrite take_ge by (unfold len in *; lia). clear -Hb. induction Hb as [|b bs Hb _ IH]; [done|].
    cbn. f_equal; [apply Z.mod_small; lia|exact IH]. }
  exists (bs ++ drop (length bs) chunk), reads. cbn [io_read uart_script]. rewrite Hid.
  split_and!; [done|done| | | |exact IH|intros ns; exact IH].
  - rewrite len_app. unfold len in *. rewrite length_drop. lia.
  - apply bytes_app. auto with ota.
  - apply take_app_length.
Qed.

(** ** Properties *)
Section properties.
Context {W E : Type} (hal : Serial W E) `{DelayNs W} `{PtrWidth}.

(** The UART adapter's request always ends, after at most
    [poll_attempts] idle reads and [256 * scan_limit] others, whatever arrives
    on the line, however it is chunked, and even if the port reports more
    bytes than it was given room for; it ends in what it says, as for SPI. *)
Theorem uart_request_terminates {Hty : SerialTyped hal} (t : UartTransport W) req rsp :
  uart_ok t -> slice rsp ->
  exists r w rsp', uart_request t req rsp = Some (r, (uart_with_io t w, rsp'))
    /\ request t req rsp = (r, (uart_with_io t w, rsp'))
    /\ len rsp' = len rsp /\ slice rsp'
    /\ (uart_verdict t rsp' r \/ exists e, r = Err (UartWrite e)).
Proof.
  intros Hok Hs. destruct (uart_request_total hal t req rsp Hok Hs) as (r & w & rsp' & Hr & Hrest).
  exists r, w, rsp'. split; [done|]. split; [|done]. unfold request, uart_transport. by rewrite Hr.
Qed.

(** A response is not missed, however the port chunks it. If the reads,
    with fewer timeouts than the idle budget between them, bring less noise
    than the babble budget, then a sync and a whole frame that fits the
    window, the request returns that frame's length with the frame at the
    front of the window. *)
Theorem uart_request_receives (t : UartTransport W) req rsp w1 w2 w3 reads noise cmd payload rest :
  uart_ok t -> slice rsp -> bytes noise -> is_u8 cmd -> bytes payload ->
  io_write_all [SYNC] (uart_io t) = (Ok tt, w1) -> io_write_all req w1 = (Ok tt, w2) ->
  io_flush w2 = (Ok tt, w3) ->
  uart_yields w3 reads -> Forall (fun bs => bytes bs) reads ->
  concat reads = noise ++ SYNC :: wire cmd payload ++ rest ->
  idle_reads reads < uart_poll_attempts t -> (length reads <= uart_fuel t)%nat ->
  Forall (fun b => b <> SYNC) noise -> len noise < uart_scan_limit t ->
  len payload <= PAYLOAD_MAX -> len payload + FRAME_OVERHEAD <= len rsp ->
  exists t' rsp', request t req rsp = (Ok (len payload + 3), (t', rsp'))
    /\ take (length (wire cmd payload)) rsp' = wire cmd payload.
Proof.
  intros Hok Hs Hn Hcmd Hp Hw1 Hw2 Hw3 Hy Hrb Hcat Hidle Hfuel Hno Hlen Hmax Hfit.
  pose proof (len_nonneg payload). assert (len payload <= 252) by done.
  destruct (frame_ends_done rsp noise cmd payload) as [Hd Hj]; [done..|].
  destruct (uart_loop_finds hal reads (uart_fuel t) (uart_with_io t w3) (replicate 32 0)
    (noise ++ SYNC :: wire cmd payload) rx_new 0 0 rsp (len payload + 3)) as [w' Hl];
    try done; try lia.
  - by apply bytes_replicate.
  - apply bytes_app. split; [done|]. apply bytes_cons. split; [by unfold SYNC|].
    apply wire_bytes; [done..|lia].
  - rewrite Hcat. exists rest. by rewrite <- app_assoc.
  - cbn [uart_with_io uart_scan_limit]. lia.
  - unfold request, uart_transport, uart_request. rewrite Hw1, Hw2, Hw3, Hl.
    eexists _, _. split; [done|]. by apply after_frame.
Qed.

End properties.

Lemma uart_request_terminates_witness :
  let t := uart_with_scan_limit 2 (uart_with_poll 3 7 (uart_new (W:=UartScript) [[0; 0; 0]])) in
  exists w rsp', request t [1] [0; 0; 0; 0] = (Err (UartDesync (E:=unit) 2), (uart_with_io t w, rsp'))
    /\ len rsp' = 4.
Proof.
  intros t.
  destruct (uart_request_terminates uart_script t [1] [0; 0; 0; 0])
    as (r & w & rsp' & _ & Hr & Hl & _).
  - split; split; vm_compute; done.
  - split; [repeat constructor; lia|by vm_compute].
  - exists w, rsp'. split; [|exact Hl]. rewrite Hr. f_equal.
    assert (fst (request t [1] [0; 0; 0; 0]) = Err (UartDesync (E:=unit) 2)) as Hx by (vm_compute; reflexivity).
    rewrite Hr in Hx. exact Hx.
Defined.

Lemma uart_request_receives_witness :
  let t := uart_new (W:=UartScript) [[9]; []; [SYNC; 0x85; 1]; [0; 0xDE; 4]] in
  exists t' rsp', request t (wire 5 []) [0; 0; 0; 0] = (Ok (E:=UartTransportError unit) 4, (t', rsp'))
    /\ take 4 rsp' = wire 0x85 [0].
Proof.
  intros t.
  apply (uart_request_receives uart_script t (wire 5 []) [0; 0; 0; 0] (uart_io t) (uart_io t)
    (uart_io t) (uart_io t) [9] 0x85 [0] [4]).
  all: try reflexivity.
  - split; split; vm_compute; done.
  - split; [repeat constructor; lia|by vm_compute].
  - repeat constructor; lia.
  - lia.
  - repeat constructor; lia.
  - apply uart_script_yields. repeat constructor; by vm_compute.
  - repeat constructor; by vm_compute.
  - apply Nat.leb_le. vm_compute. reflexivity.
  - repeat constructor; unfold SYNC; lia.
  - by vm_compute.
Defined.
