(* ===== verification/EhSoftUart.v ===== *)
(** The bit-banged UART master adapter ([updater-eh/src/softuart.rs]): 8N1
    bytes sent and sampled on two pins, with the delay as the only time base,
    fed to the stream scanner under an idle and a babble budget. *)
From S2P Require Import Prelude Errors Frame Stream Transport Hal.

Definition SOFTUART_BIT_NS : Z := 104167.
Definition HALF_BIT_NS : Z := SOFTUART_BIT_NS / 2.
Definition BIT_1_5_NS : Z := u32_saturating_add SOFTUART_BIT_NS HALF_BIT_NS.
Definition DEFAULT_SOFTUART_POLL_ATTEMPTS : Z := 500000.
Definition DEFAULT_SOFTUART_POLL_INTERVAL_NS : Z := 2000.

Inductive SoftUartTransportError (TE RE : Type) :=
| SoftTx (e : TE)
| SoftRx (e : RE)
| SoftExhausted (attempts : Z)
| SoftDesync (scanned : Z).
Arguments SoftTx {TE RE} e.
Arguments SoftRx {TE RE} e.
Arguments SoftExhausted {TE RE} attempts.
Arguments SoftDesync {TE RE} scanned.

Record SoftUartTransport (W : Type) := mkSoft {
  soft_hal : W;
  soft_poll_attempts : Z;
  soft_poll_interval_ns : Z;
  soft_scan_limit : Z;
}.
Arguments mkSoft {W} soft_hal soft_poll_attempts soft_poll_interval_ns soft_scan_limit.
Arguments soft_hal {W} s.
Arguments soft_poll_attempts {W} s.
Arguments soft_poll_interval_ns {W} s.
Arguments soft_scan_limit {W} s.

Section softuart.
Context {W : Type}.

Definition soft_new (hal : W) : SoftUartTransport W :=
  mkSoft hal DEFAULT_SOFTUART_POLL_ATTEMPTS DEFAULT_SOFTUART_POLL_INTERVAL_NS DEFAULT_SCAN_LIMIT.
Definition soft_set_poll (attempts interval_ns : Z) (t : SoftUartTransport W) : SoftUartTransport W :=
  mkSoft (soft_hal t) (Z.max attempts 1) interval_ns (soft_scan_limit t).
Definition soft_with_poll (attempts interval_ns : Z) (t : SoftUartTransport W) : SoftUartTransport W :=
  soft_set_poll attempts interval_ns t.
Definition soft_with_scan_limit (n : Z) (t : SoftUartTransport W) : SoftUartTransport W :=
  mkSoft (soft_hal t) (soft_poll_attempts t) (soft_poll_interval_ns t) (Z.max n 1).
Definition soft_release (t : SoftUartTransport W) : W := soft_hal t.

Definition soft_with_hal (t : SoftUartTransport W) (w : W) : SoftUartTransport W :=
  mkSoft w (soft_poll_attempts t) (soft_poll_interval_ns t) (soft_scan_limit t).

Context {TE RE : Type} `{Pins W TE RE, DelayNs W, PtrWidth}.

(** Pin operations with their errors wrapped, and the delay. *)
Abbreviation line := (stm W (SoftUartTransportError TE RE)).
Definition set_high : line unit := fun w => let '(r, w) := tx_set_high w in (map_err SoftTx r, w).
Definition set_low : line unit := fun w => let '(r, w) := tx_set_low w in (map_err SoftTx r, w).
Definition is_high : line bool := fun w => let '(r, w) := rx_is_high w in (map_err SoftRx r, w).
Definition is_low : line bool := fun w => let '(r, w) := rx_is_low w in (map_err SoftRx r, w).
Definition delay (ns : Z) : line unit := fun w => (Ok tt, delay_ns ns w).

Local Open Scope stm_scope.

(** [for bit in 0..8]: LSB first. *)
Fixpoint send_bits (bits : list Z) (byte : Z) : line unit :=
  match bits with
  | [] => sret tt
  | bit :: bits =>
      (if negb (Z.land (u8_wrapping_shr byte bit) 1 =? 0) then set_high else set_low) ;?
      delay SOFTUART_BIT_NS ;?
      send_bits bits byte
  end.

Definition send_byte (byte : Z) : line unit :=
  set_low ;?
  delay SOFTUART_BIT_NS ;?
  send_bits (seqZ 0 8) byte ;?
  set_high ;?
  delay SOFTUART_BIT_NS ;?
  sret tt.

Fixpoint send_all (req : list Z) : line unit :=
  match req with
  | [] => sret tt
  | b :: req => send_byte b ;? send_all req
  end.

(** The start-edge hunt; [None] when the fuel, one unit per sample, runs out.
    Returns the attempt count. *)
Fixpoint hunt (fuel : nat) (t : SoftUartTransport W) (attempts : Z) (w : W)
  : option (result Z (SoftUartTransportError TE RE) * W) :=
  match fuel with
  | O => None
  | S fuel =>
    match is_high w with
    | (Err e, w) => Some (Err e, w)
    | (Ok false, w) => Some (Ok attempts, w)
    | (Ok true, w) =>
        let attempts := u32_wrapping_add attempts 1 in
        if soft_poll_attempts t <=? attempts then Some (Err (SoftExhausted attempts), w)
        else hunt fuel t attempts (delay_ns (soft_poll_interval_ns t) w)
    end
  end.

Fixpoint recv_bits (bits : list Z) (byte : Z) : line Z :=
  match bits with
  | [] => sret byte
  | bit :: bits =>
      let? high := is_high in
      delay SOFTUART_BIT_NS ;?
      recv_bits bits (if high then Z.lor byte (u8_wrapping_shl 1 bit) else byte)
  end.

(** [for _ in 0..20]: the bounded wait for mark after a framing error. *)
Fixpoint wait_mark (n : nat) : line unit :=
  match n with
  | O => sret tt
  | S n =>
      let? high := is_high in
      if high then sret tt else delay HALF_BIT_NS ;? wait_mark n
  end.

(** From the start edge to the stop-bit sample: the byte, or [None] for a
    framing error, after the wait for mark. *)
Definition recv_byte : line (option Z) :=
  delay BIT_1_5_NS ;?
  let? byte := recv_bits (seqZ 0 8) 0 in
  let? low := is_low in
  if low then wait_mark 20 ;? sret None else sret (Some byte).

(** The outer loop; [None] when the fuel, one unit per byte, runs out. *)
Fixpoint soft_loop (fuel : nat) (t : SoftUartTransport W) (sc : RxScanner)
    (attempts junk : Z) (rsp : list Z)
  : option (result Z (SoftUartTransportError TE RE) * (SoftUartTransport W * list Z)) :=
  match fuel with
  | O => None
  | S fuel =>
    match hunt (Z.to_nat (soft_poll_attempts t - attempts)) t attempts (soft_hal t) with
    | None => None
    | Some (Err e, w) => Some (Err e, (soft_with_hal t w, rsp))
    | Some (Ok attempts, w) =>
      match recv_byte w with
      | (Err e, w) => Some (Err e, (soft_with_hal t w, rsp))
      | (Ok None, w) =>
          let junk := u32_wrapping_add junk 1 in
          if soft_scan_limit t <=? junk
          then Some (Err (SoftDesync junk), (soft_with_hal t w, rsp))
          else soft_loop fuel (soft_with_hal t w) sc attempts junk rsp
      | (Ok (Some byte), w) =>
        match push sc byte rsp with
        | (Scan.Done n, (_, rsp)) => Some (Ok n, (soft_with_hal t w, rsp))
        | (Scan.Frame, (sc, rsp)) => soft_loop fuel (soft_with_hal t w) sc attempts junk rsp
        | ((Scan.Hunt | Scan.Dropped), (sc, rsp)) =>
            let junk := u32_wrapping_add junk 1 in
            if soft_scan_limit t <=? junk
            then Some (Err (SoftDesync junk), (soft_with_hal t w, rsp))
            else soft_loop fuel (soft_with_hal t w) sc attempts junk rsp
        end
      end
    end
  end.

Definition soft_fuel (t : SoftUartTransport W) : nat := Z.to_nat (soft_scan_limit t * 256).

Definition soft_send (req : list Z) : line unit :=
  set_high ;?
  delay SOFTUART_BIT_NS ;?
  send_byte SYNC ;?
  send_all req.

Definition soft_request (t : SoftUartTransport W) (req rsp : list Z)
  : option (result Z (SoftUartTransportError TE RE) * (SoftUartTransport W * list Z)) :=
  match soft_send req (soft_hal t) with
  | (Err e, w) => Some (Err e, (soft_with_hal t w, rsp))
  | (Ok _, w) => soft_loop (soft_fuel t) (soft_with_hal t w) rx_new 0 0 rsp
  end.

#[global] Instance soft_transport : Transport (SoftUartTransport W) (SoftUartTransportError TE RE) :=
  fun t req rsp => default (Err (SoftExhausted 0), (t, rsp)) (soft_request t req rsp).

(** ** Specification *)
Definition soft_ok (t : SoftUartTransport W) : Prop :=
  1 <= soft_poll_attempts t < 2 ^ 32 /\ 1 <= soft_scan_limit t < 2 ^ 32.

Definition soft_verdict (t : SoftUartTransport W) (rsp' : list Z)
    (r : result Z (SoftUartTransportError TE RE)) : Prop :=
  match r with
  | Ok n => 0 <= n <= len rsp' /\ exists f, decode (take (Z.to_nat n) rsp') = Ok f
  | Err (SoftExhausted a) => a = soft_poll_attempts t
  | Err (SoftDesync j) => j = soft_scan_limit t
  | Err (SoftTx _) | Err (SoftRx _) => True
  end.

(** Errors of a pin. *)
Definition pin_error (e : SoftUartTransportError TE RE) : Prop :=
  match e with SoftTx _ | SoftRx _ => True | _ => False end.

End softuart.

(** ** Termination over any pins *)
Section soft_total.
Context {W TE RE : Type} (hal : Pins W TE RE) `{DelayNs W} `{PtrWidth}.
Implicit Types t : SoftUartTransport W.

Lemma hunt_total fuel : forall t a w,
  soft_ok t -> 0 <= a < soft_poll_attempts t -> soft_poll_attempts t - a <= Z.of_nat fuel ->
  exists r w', hunt fuel t a w = Some (r, w')
    /\ match r with
       | Ok a' => a <= a' < soft_poll_attempts t
       | Err (SoftExhausted a') => a' = soft_poll_attempts t
       | Err e => pin_error e
       end.
Proof.
  induction fuel as [|fuel IH]; intros t a w Hok Ha Hf; [lia|]. cbn [hunt].
  unfold is_high. destruct (rx_is_high w) as [[[|]|e] w1]; cbn [map_err].
  - destruct Hok as [Hpa Hsl].
    assert (u32_wrapping_add a 1 = a + 1) as -> by (apply Z.mod_small; lia). zcase.
    + eexists _, _. split; [done|]. simpl. lia.
    + destruct (IH t (a + 1) (delay_ns (soft_poll_interval_ns t) w1)) as (r & w' & -> & Hr);
        [done|lia|lia|]. eexists _, _. split; [done|]. destruct r as [a'|]; [lia|done].
  - eexists _, _. split; [done|]. simpl. lia.
  - by eexists _, _.
Qed.

Lemma is_high_err w e w' : is_high (H:=hal) w = (Err e, w') -> pin_error e.
Proof. unfold is_high. destruct (rx_is_high w) as [[|] ?]; [done|]. by intros [= <- <-]. Qed.
Lemma is_low_err w e w' : is_low (H:=hal) w = (Err e, w') -> pin_error e.
Proof. unfold is_low. destruct (rx_is_low w) as [[|] ?]; [done|]. by intros [= <- <-]. Qed.

Lemma shl_u8 bit : is_u8 (u8_wrapping_shl 1 bit).
Proof. apply Z.mod_pos_bound. lia. Qed.

Lemma recv_bits_spec bits : forall byte w r w',
  is_u8 byte -> recv_bits bits byte w = (r, w') ->
  match r with Ok b => is_u8 b | Err e => pin_error e end.
Proof.
  induction bits as [|bit bits IH]; intros byte w r w' Hb; cbn [recv_bits].
  { by intros [= <- <-]. }
  unfold sbind at 1. destruct (is_high w) as [[h|e] w1] eqn:Hh.
  - cbn [sbind delay]. apply IH. destruct h; [|done]. apply lor_u8; [done|apply shl_u8].
  - intros [= <- <-]. by eapply is_high_err.
Qed.

Lemma wait_mark_spec n : forall w r w', wait_mark n w = (r, w') ->
  match r with Ok _ => True | Err e => pin_error e end.
Proof.
  induction n as [|n IH]; intros w r w'; cbn [wait_mark]; [by intros [= <- <-]|].
  unfold sbind at 1. destruct (is_high w) as [[[|]|e] w1] eqn:Hh.
  - by intros [= <- <-].
  - apply IH.
  - intros [= <- <-]. by eapply is_high_err.
Qed.

Lemma recv_byte_spec w r w' : recv_byte w = (r, w') ->
  match r with Ok (Some b) => is_u8 b | Ok None => True | Err e => pin_error e end.
Proof.
  unfold recv_byte. unfold sbind at 1, delay, sbind at 1.
  destruct (recv_bits _ _ _) as [[b|e] w1] eqn:Hb.
  - apply recv_bits_spec in Hb; [|lia]. unfold sbind at 1.
    destruct (is_low w1) as [[[|]|e] w2] eqn:Hl.
    + unfold sbind. destruct (wait_mark _ _) as [[u|e] w3] eqn:Hm; intros [= <- <-]; [done|].
      by apply wait_mark_spec in Hm.
    + by intros [= <- <-].
    + intros [= <- <-]. by eapply is_low_err.
  - intros [= <- <-]. by apply recv_bits_spec in Hb; [|lia].
Qed.

Lemma soft_loop_total fuel : forall t sc a j rsp,
  soft_ok t -> 0 <= a < soft_poll_attempts t -> 0 <= j < soft_scan_limit t ->
  scan_inv sc rsp -> slice rsp -> 1 <= rx_left sc rsp <= 256 ->
  (soft_scan_limit t - 1 - j) * 256 + rx_left sc rsp <= Z.of_nat fuel ->
  exists r w rsp', soft_loop fuel t sc a j rsp = Some (r, (soft_with_hal t w, rsp'))
    /\ len rsp' = len rsp /\ slice rsp' /\ soft_verdict t rsp' r.
Proof.
  induction fuel as [|fuel IH]; intros t sc a j rsp Hok Ha Hj Hinv Hs Hleft Hf; [lia|].
  cbn [soft_loop].
  destruct (hunt_total (Z.to_nat (soft_poll_attempts t - a)) t a (soft_hal t))
    as (r & w1 & -> & Hr); [done|done|lia|].
  destruct r as [a1|e].
  2: { eexists _, _, _. split; [done|]. split_and!; [done|done|]. by destruct e. }
  destruct (recv_byte w1) as [[ob|e] w2] eqn:Hb; apply recv_byte_spec in Hb.
  2: { eexists _, _, _. split; [done|]. split_and!; [done|done|]. by destruct e. }
  assert (u32_wrapping_add j 1 = j + 1) as Hw by (destruct Hok; apply Z.mod_small; lia).
  assert (forall sc1 j1 rsp1, 0 <= j1 < soft_scan_limit t ->
    scan_inv sc1 rsp1 -> slice rsp1 -> len rsp1 = len rsp -> 1 <= rx_left sc1 rsp1 <= 256 ->
    (soft_scan_limit t - 1 - j1) * 256 + rx_left sc1 rsp1 <= Z.of_nat fuel ->
    exists r w rsp', soft_loop fuel (soft_with_hal t w2) sc1 a1 j1 rsp1
      = Some (r, (soft_with_hal t w, rsp'))
    /\ len rsp' = len rsp /\ slice rsp' /\ soft_verdict t rsp' r) as Hnext.
  { intros sc1 j1 rsp1 ??? Hl1 ??.
    destruct (IH (soft_with_hal t w2) sc1 a1 j1 rsp1) as (r & w3 & rsp2 & -> & Hl2 & ? & ?);
      [done|simpl; lia|done..|].
    exists r, w3, rsp2. by rewrite <- Hl1. }
  assert (forall rsp1, soft_scan_limit t <= j + 1 -> len rsp1 = len rsp -> slice rsp1 ->
    exists r w rsp', Some (Err (SoftDesync (u32_wrapping_add j 1)), (soft_with_hal t w2, rsp1))
      = Some (r, (soft_with_hal t w, rsp'))
    /\ len rsp' = len rsp /\ slice rsp' /\ soft_verdict (TE:=TE) (RE:=RE) t rsp' r) as Hdesync.
  { intros rsp1 ? ? ?. eexists _, _, _. split; [done|]. split_and!; [done|done|]. simpl. lia. }
  destruct ob as [b|].
  2: { destruct (Z.leb_spec (soft_scan_limit t) (u32_wrapping_add j 1));
         [by apply Hdesync; first [lia|done]|]. apply Hnext; try done; lia. }
  destruct (push sc b rsp) as [o [sc1 rsp1]] eqn:Hp.
  destruct (push_measure sc b rsp o sc1 rsp1) as (Hinv1 & Hs1 & Hl1 & Hleft1 & Hdec); [done..|].
  change PAYLOAD_MAX with 252 in Hleft1. change FRAME_OVERHEAD with 3 in Hleft1.
  destruct o as [| |n|].
  - destruct (Z.leb_spec (soft_scan_limit t) (u32_wrapping_add j 1));
      [by apply Hdesync; first [lia|done]|]. apply Hnext; try done; lia.
  - specialize (Hdec eq_refl). apply Hnext; try done; lia.
  - apply push_done in Hp as (_ & ? & ?). eexists _, _, _. split; [done|]. by split_and!.
  - destruct (Z.leb_spec (soft_scan_limit t) (u32_wrapping_add j 1));
      [by apply Hdesync; first [lia|done]|]. apply Hnext; try done; lia.
Qed.

(** Computations whose only errors are those of the pins. *)
Definition pin_only {A} (m : stm W (SoftUartTransportError TE RE) A) : Prop :=
  forall w e w', m w = (Err e, w') -> pin_error e.

Lemma pin_only_seq {A B} (m : stm W (SoftUartTransportError TE RE) A) (k : stm W _ B) :
  pin_only m -> pin_only k -> pin_only (sbind m (fun _ => k)).
Proof.
  intros Hm Hk w e w'. unfold sbind. destruct (m w) as [[x|e1] w1] eqn:E.
  - apply Hk.
  - intros [= <- <-]. by apply Hm in E.
Qed.
Lemma pin_only_high : pin_only (set_high (H:=hal)).
Proof. intros ???. unfold set_high. destruct (tx_set_high _) as [[|] ?]; by intros [= <- <-]. Qed.
Lemma pin_only_low : pin_only (set_low (H:=hal)).
Proof. intros ???. unfold set_low. destruct (tx_set_low _) as [[|] ?]; by intros [= <- <-]. Qed.
Lemma pin_only_delay ns : pin_only (delay ns).
Proof. by intros ???. Qed.
Lemma pin_only_ret {A} (x : A) : pin_only (sret x).
Proof. by intros ???. Qed.
#[local] Hint Resolve pin_only_seq pin_only_high pin_only_low pin_only_delay pin_only_ret : core.

Lemma pin_only_bits bits b : pin_only (send_bits (H:=hal) bits b).
Proof.
  induction bits as [|bit bits IH]; cbn [send_bits]; [done|].
  apply pin_only_seq; [by destruct (negb _)|auto].
Qed.
#[local] Hint Resolve pin_only_bits : core.
Lemma pin_only_byte b : pin_only (send_byte (H:=hal) b).
Proof. unfold send_byte. auto 10. Qed.
#[local] Hint Resolve pin_only_byte : core.
Lemma pin_only_all req : pin_only (send_all (H:=hal) req).
Proof. induction req as [|b req IH]; cbn [send_all]; auto. Qed.
#[local] Hint Resolve pin_only_all : core.
Lemma pin_only_send req : pin_only (soft_send (H:=hal) req).
Proof. unfold soft_send. auto 10. Qed.

Lemma soft_request_total t req rsp : soft_ok t -> slice rsp ->
  exists r w rsp', soft_request t req rsp = Some (r, (soft_with_hal t w, rsp'))
    /\ len rsp' = len rsp /\ slice rsp' /\ soft_verdict t rsp' r.
Proof.
  intros Hok Hs. unfold soft_request.
  destruct (soft_send req (soft_hal t)) as [[[]|e] w] eqn:Hsend.
  2: { apply pin_only_send in Hsend. eexists _, _, _. split; [done|].
       split_and!; [done|done|]. by destruct e. }
  destruct (soft_loop_total (soft_fuel t) (soft_with_hal t w) rx_new 0 0 rsp)
    as (r & w' & rsp' & -> & ? & ? & ?);
    [done|unfold soft_ok in *; simpl; lia..|done|done|done| |by exists r, w', rsp'].
  unfold soft_fuel, soft_ok in *. unfold rx_left; simpl. change PAYLOAD_MAX with 252.
  change FRAME_OVERHEAD with 3. lia.
Qed.

#[global] Instance soft_contract :
  TransportContract (@soft_transport W TE RE hal _ _) soft_ok.
Proof.
  assert (forall t req rsp r t' rsp', soft_ok t -> slice rsp ->
    request t req rsp = (r, (t', rsp')) ->
    soft_ok t' /\ len rsp' = len rsp /\ bytes rsp' /\ forall n, r = Ok n -> 0 <= n <= len rsp) as Hall.
  { intros t req rsp r t' rsp' Hok Hs. unfold request, soft_transport.
    destruct (soft_request_total t req rsp Hok Hs) as (r1 & w & rsp1 & -> & Hl & Hb & Hv).
    simpl. intros [= <- <- <-]. destruct Hb as [Hb _]. split_and!; [done|done|done|].
    intros n ->. destruct Hv as [? _]. lia. }
  split.
  - intros t req rsp r t' rsp' Hok _ Hs Hr. destruct (Hall _ _ _ _ _ _ Hok Hs Hr) as (? & ? & ? & Hn).
    split_and!; [done..|]. intros n ->. by apply Hn.
  - intros t req rsp n t' rsp' Hok _ Hs Hr. destruct (Hall _ _ _ _ _ _ Hok Hs Hr) as (_ & _ & _ & Hn).
    by apply Hn.
Qed.

End soft_total.

(** ** A line: exact time, a received waveform, the edges driven *)
Record Line := mkLine { ln_now : Z; ln_rx : Z -> bool; ln_tx : list (Z * bool) }.

#[global] Instance line_pins : Pins Line Empty_set Empty_set := {|
  tx_set_high w := (Ok tt, mkLine (ln_now w) (ln_rx w) (ln_tx w ++ [(ln_now w, true)]));
  tx_set_low w := (Ok tt, mkLine (ln_now w) (ln_rx w) (ln_tx w ++ [(ln_now w, false)]));
  rx_is_high w := (Ok (ln_rx w (ln_now w)), w);
  rx_is_low w := (Ok (negb (ln_rx w (ln_now w))), w);
|}.
#[global] Instance line_delay : DelayNs Line :=
  fun ns w => mkLine (ln_now w + ns) (ln_rx w) (ln_tx w).

(** Slot [k] of an 8N1 byte: start bit, eight data bits LSB first, stop bit. *)
Definition slot_8n1 (b k : Z) : bool :=
  if k =? 0 then false else if k <=? 8 then Z.testbit b (k - 1) else true.

(** [rx] carries these bytes, each starting at its time, at [B] ns per bit,
    with the line at mark from [from] on and between bytes. *)
Fixpoint carries (B : Z) (rx : Z -> bool) (from : Z) (tr : list (Z * Z)) : Prop :=
  match tr with
  | [] => True
  | (start, b) :: tr =>
      from <= start /\ (forall x, from <= x < start -> rx x = true)
      /\ (forall x, 0 <= x < 10 * B -> rx (start + x) = slot_8n1 b (x / B))
      /\ carries B rx (start + 10 * B) tr
  end.

(** The sampling plan works out for a sender's bit time [B] when the edge is
    found less than [I] ns late: each of the nine samples falls in its slot. *)
Definition timing (B I : Z) : Prop :=
  1 <= I /\ forall k, 0 <= k <= 8 ->
    (k + 1) * B <= BIT_1_5_NS + k * SOFTUART_BIT_NS
    /\ I - 1 + BIT_1_5_NS + k * SOFTUART_BIT_NS < (k + 2) * B.

(** Less than half a bit of latency is what a sender on the same clock leaves;
    at the default interval the sender may be 4.8% fast to 5.5% slow. *)
Lemma timing_same_clock I : 1 <= I <= HALF_BIT_NS + 1 -> timing SOFTUART_BIT_NS I.
Proof.
  change HALF_BIT_NS with 52083. unfold timing. change BIT_1_5_NS with 156250.
  unfold SOFTUART_BIT_NS. intros HI. split; [lia|]. intros k Hk. lia.
Qed.
Lemma timing_default B : 99159 <= B <= 109954 -> timing B DEFAULT_SOFTUART_POLL_INTERVAL_NS.
Proof.
  unfold timing, DEFAULT_SOFTUART_POLL_INTERVAL_NS. change BIT_1_5_NS with 156250.
  unfold SOFTUART_BIT_NS. intros HB. split; [lia|]. intros k Hk. split; nia.
Qed.

Section receive.
Context `{PtrWidth} (rx : Z -> bool) (tx : list (Z * bool)).
Abbreviation at_ x := (mkLine x rx tx).

Lemma hunt_finds fuel : forall t a s now,
  soft_ok t -> 1 <= soft_poll_interval_ns t -> 0 <= a < soft_poll_attempts t -> now <= s ->
  (forall x, now <= x < s -> rx x = true) ->
  (forall x, 0 <= x < soft_poll_interval_ns t -> rx (s + x) = false) ->
  a * soft_poll_interval_ns t + (s - now) <= (soft_poll_attempts t - 1) * soft_poll_interval_ns t ->
  soft_poll_attempts t - a <= Z.of_nat fuel ->
  exists a' d, hunt (TE:=Empty_set) (RE:=Empty_set) fuel t a (at_ now) = Some (Ok a', at_ (s + d))
    /\ 0 <= d < soft_poll_interval_ns t /\ a <= a' < soft_poll_attempts t
    /\ (a' - a) * soft_poll_interval_ns t = s + d - now.
Proof.
  induction fuel as [|fuel IH]; intros t a s now Hok HI Ha Hs Hhigh Hlow Hb Hf; [lia|].
  cbn [hunt]. unfold is_high. cbn [rx_is_high line_pins map_err ln_rx ln_now].
  destruct (decide (now = s)) as [->|Hne].
  { specialize (Hlow 0). rewrite Z.add_0_r in Hlow. rewrite Hlow by lia.
    exists a, 0. rewrite Z.add_0_r. split_and!; [done|lia..]. }
  rewrite Hhigh by lia. destruct Hok as [Hpa Hsl].
  assert (u32_wrapping_add a 1 = a + 1) as -> by (apply Z.mod_small; lia).
  assert (a + 1 < soft_poll_attempts t) as Hlt by nia.
  zcase; [lia|]. unfold delay_ns, line_delay. cbn [ln_now ln_rx ln_tx].
  set (ivl := soft_poll_interval_ns t) in *.
  destruct (decide (now + ivl <= s)) as [Hle|Hgt].
  - destruct (IH t (a + 1) s (now + ivl)) as (a' & d & Hh & ? & ? & ?); try done; try lia.
    + intros. apply Hhigh. lia.
    + exists a', d. split; [exact Hh|]. lia.
  - destruct fuel as [|fuel']; [lia|]. cbn [hunt]. unfold is_high.
    cbn [rx_is_high line_pins map_err ln_rx ln_now].
    replace (now + ivl) with (s + (now + ivl - s)) by lia. rewrite Hlow by lia.
    exists (a + 1), (now + ivl - s). split_and!; [done|lia..].
Qed.

Definition or_bit (b acc i : Z) : Z :=
  if Z.testbit b i then Z.lor acc (u8_wrapping_shl 1 i) else acc.

Lemma recv_bits_line b n : forall k acc now, 0 <= k ->
  (forall i, 0 <= i < Z.of_nat n -> rx (now + i * SOFTUART_BIT_NS) = Z.testbit b (k + i)) ->
  recv_bits (TE:=Empty_set) (RE:=Empty_set) (seqZ k (Z.of_nat n)) acc (at_ now)
    = (Ok (fold_left (or_bit b) (seqZ k (Z.of_nat n)) acc),
       at_ (now + Z.of_nat n * SOFTUART_BIT_NS)).
Proof.
  induction n as [|n IH]; intros k acc now Hk Hrx.
  { rewrite seqZ_nil by lia. cbn [recv_bits fold_left]. by rewrite Z.add_0_r. }
  rewrite seqZ_cons by lia. replace (Z.pred (Z.of_nat (S n))) with (Z.of_nat n) by lia.
  cbn [recv_bits fold_left]. unfold sbind, is_high, delay, delay_ns, line_delay.
  cbn [rx_is_high line_pins map_err ln_rx ln_now ln_tx].
  pose proof (Hrx 0 ltac:(lia)) as H0. rewrite Z.add_0_r, Z.add_0_r in H0. rewrite H0.
  rewrite IH.
  - unfold or_bit at 2. f_equal. f_equal. lia.
  - lia.
  - intros i Hi. replace (Z.succ k + i) with (k + (i + 1)) by lia.
    rewrite <- Hrx by lia. f_equal. lia.
Qed.

Lemma or_bits_u8 b : is_u8 b -> fold_left (or_bit b) (seqZ 0 8) 0 = b.
Proof.
  intros. apply Z.eqb_eq. revert b H0. apply forall_u8. vm_compute. reflexivity.
Qed.

Lemma recv_byte_line B I b s d : timing B I -> is_u8 b -> 0 <= d < I ->
  (forall x, 0 <= x < 10 * B -> rx (s + x) = slot_8n1 b (x / B)) ->
  recv_byte (TE:=Empty_set) (RE:=Empty_set) (at_ (s + d))
    = (Ok (Some b), at_ (s + d + BIT_1_5_NS + 8 * SOFTUART_BIT_NS))
  /\ s + 9 * B <= s + d + BIT_1_5_NS + 8 * SOFTUART_BIT_NS < s + 10 * B.
Proof.
  intros [HI Ht] Hb Hd Hrx.
  assert (forall k, 0 <= k <= 8 ->
    rx (s + d + BIT_1_5_NS + k * SOFTUART_BIT_NS) = slot_8n1 b (k + 1)) as Hslot.
  { intros k Hk. destruct (Ht k Hk) as [Hlo Hhi]. pose proof (Ht 0 ltac:(lia)).
    replace (s + d + BIT_1_5_NS + k * SOFTUART_BIT_NS)
      with (s + (d + BIT_1_5_NS + k * SOFTUART_BIT_NS)) by lia.
    rewrite Hrx by nia. f_equal. symmetry. apply (Z.div_unique _ _ _ (d + BIT_1_5_NS + k * SOFTUART_BIT_NS - (k + 1) * B)); lia. }
  split; [|destruct (Ht 8 ltac:(lia)); lia].
  unfold recv_byte, sbind at 1, delay, delay_ns, line_delay. cbn [ln_now ln_rx ln_tx].
  unfold sbind at 1. change 8 with (Z.of_nat 8) at 1. rewrite (recv_bits_line b).
  - change (Z.of_nat 8) with 8. rewrite or_bits_u8 by done.
    unfold sbind, is_low. cbn [rx_is_low line_pins map_err ln_rx ln_now].
    rewrite Hslot by lia. by vm_compute.
  - lia.
  - intros i Hi. rewrite Hslot by lia. unfold slot_8n1.
    destruct (Z.eqb_spec (i + 1) 0); [lia|]. destruct (Z.leb_spec (i + 1) 8); [|lia].
    f_equal. lia.
Qed.

(** A response carried by the line reaches the scanner byte for byte. *)
Lemma soft_loop_finds B tr : forall fuel t sc a j rsp n now final,
  soft_ok t -> timing B (soft_poll_interval_ns t) ->
  Forall (fun '(_, b) => is_u8 b) tr ->
  scan_inv sc rsp -> slice rsp ->
  carries B rx now tr -> Forall (fun '(s, _) => s <= final) tr ->
  soft_hal t = at_ now ->
  0 <= a < soft_poll_attempts t ->
  a * soft_poll_interval_ns t + (final - now)
    <= (soft_poll_attempts t - 1) * soft_poll_interval_ns t ->
  0 <= j -> j + junk (outcomes sc rsp (snd <$> tr)) < soft_scan_limit t ->
  ends_done (outcomes sc rsp (snd <$> tr)) n -> (length tr <= fuel)%nat ->
  exists w, soft_loop (TE:=Empty_set) (RE:=Empty_set) fuel t sc a j rsp
    = Some (Ok n, (soft_with_hal t w, snd (after sc rsp (snd <$> tr)))).
Proof.
  induction tr as [|[s b] tr IH]; intros fuel t sc a j rsp n now final
    Hok Ht Htb Hinv Hs Hc Hfin Hw Ha Hbud Hj Hjunk Hd Hf.
  { by destruct Hd as ([] & ? & _). }
  destruct fuel as [|fuel]; simpl in Hf; [lia|].
  apply Forall_cons in Htb as [Hb Htb]. apply Forall_cons in Hfin as [Hsf Hfin].
  destruct Hc as (Hnow & Hmark & Hbyte & Hc). pose proof Ht as [HI Hk].
  pose proof (Hk 0 ltac:(lia)) as [HB1 HB2].
  cbn [soft_loop]. rewrite Hw.
  destruct (hunt_finds (Z.to_nat (soft_poll_attempts t - a)) t a s now)
    as (a' & d & -> & Hdl & Ha' & Heq); try done; try lia; try nia.
  { intros x Hx. rewrite Hbyte by lia. rewrite Z.div_small by lia. done. }
  destruct (recv_byte_line B (soft_poll_interval_ns t) b s d) as [-> Hend]; [done..|].
  set (now1 := s + d + BIT_1_5_NS + 8 * SOFTUART_BIT_NS) in *.
  cbn [fmap list_fmap snd outcomes after] in *. fold (fmap (M:=list) (snd (A:=Z) (B:=Z))) in *.
  destruct (push sc b rsp) as [o [sc1 rsp1]] eqn:Hp.
  destruct (push_measure sc b rsp o sc1 rsp1) as (Hinv1 & Hs1 & _); [done..|].
  rewrite junk_cons in Hjunk. pose proof (junk_nonneg (outcomes sc1 rsp1 (snd <$> tr))).
  apply ends_done_cons in Hd as [[Hnil ->]|[Hno Hd]].
  { assert (snd <$> tr = []) as -> by (destruct (snd <$> tr); cbn [outcomes] in Hnil; repeat case_match; done).
    by eexists. }
  assert (carries B rx now1 tr) as Hc1.
  { destruct tr as [|[s2 b2] tr2]; [done|]. destruct Hc as (Hs2 & Hm2 & Hb2 & Hc2).
    split_and!; [lia| |done|done]. intros x Hx.
    destruct (decide (x < s + 10 * B)) as [Hlt|]; [|apply Hm2; lia].
    replace x with (s + (x - s)) by lia. rewrite Hbyte by lia.
    replace ((x - s) / B) with 9 by (apply (Z.div_unique _ _ _ (x - s - 9 * B)); lia). done. }
  assert (forall j1, 0 <= j1 -> j1 + junk (outcomes sc1 rsp1 (snd <$> tr)) < soft_scan_limit t ->
    exists w, soft_loop (TE:=Empty_set) (RE:=Empty_set) fuel (soft_with_hal t (at_ now1)) sc1 a' j1 rsp1
      = Some (Ok n, (soft_with_hal t w, snd (after sc1 rsp1 (snd <$> tr))))) as Hnext.
  { intros j1 Hj1 Hlt.
    destruct (IH fuel (soft_with_hal t (at_ now1)) sc1 a' j1 rsp1 n now1 final) as [w ->];
      try done; cbn [soft_with_hal soft_poll_attempts soft_poll_interval_ns]; try lia; try nia.
    by exists w. }
  assert (o <> Scan.Frame -> u32_wrapping_add j 1 = j + 1) as Hwj.
  { intros Ho. unfold soft_ok in *. destruct o as [| |k|]; cbn [is_junk] in *; try done;
      first [by destruct (Hno k)|apply Z.mod_small; lia]. }
  destruct o as [| |k|]; cbn [is_junk] in Hjunk; [| |by destruct (Hno k)|].
  - rewrite Hwj by done. zcase; [lia|]. apply Hnext; lia.
  - apply Hnext; lia.
  - rewrite Hwj by done. zcase; [lia|]. apply Hnext; lia.
Qed.

End receive.

(** ** The waveform sent *)

(** The level the driven edges leave on the line at time [x]; mark before the
    first. *)
Definition level_step (x : Z) (lvl : bool) (e : Z * bool) : bool :=
  if e.1 <=? x then e.2 else lvl.
Definition level_from (lvl : bool) (edges : list (Z * bool)) (x : Z) : bool :=
  fold_left (level_step x) edges lvl.
Definition level_at (edges : list (Z * bool)) (x : Z) : bool := level_from true edges x.

(** The edges of bytes sent back to back at [B] per bit. *)
Definition byte_edges (B s b : Z) : list (Z * bool) :=
  (fun k => (s + k * B, slot_8n1 b k)) <$> seqZ 0 10.
Fixpoint all_edges (B s : Z) (bs : list Z) : list (Z * bool) :=
  match bs with
  | [] => []
  | b :: bs => byte_edges B s b ++ all_edges B (s + 10 * B) bs
  end.
(** Start time and value of back-to-back bytes. *)
Fixpoint starts (B s : Z) (bs : list Z) : list (Z * Z) :=
  match bs with
  | [] => []
  | b :: bs => (s, b) :: starts B (s + 10 * B) bs
  end.
Lemma starts_bytes B bs : forall s, snd <$> starts B s bs = bs.
Proof. induction bs as [|b bs IH]; intros s; [done|]. cbn. by f_equal. Qed.

Section send.
Implicit Types rx : Z -> bool.

Lemma shr_testbit b i : 0 <= i < 8 ->
  negb (Z.land (u8_wrapping_shr b i) 1 =? 0) = Z.testbit b i.
Proof.
  intros. unfold u8_wrapping_shr. rewrite Z.mod_small, Z.testbit_odd by lia.
  change 1 with (Z.ones 1) at 1. rewrite Z.land_ones by lia. change (2 ^ 1) with 2.
  rewrite Zmod_odd. by destruct (Z.odd _).
Qed.

Lemma send_bits_line b n : forall k now rx tx, 0 <= k -> k + Z.of_nat n <= 8 ->
  send_bits (seqZ k (Z.of_nat n)) b (mkLine now rx tx)
    = (Ok (E:=SoftUartTransportError Empty_set Empty_set) tt,
       mkLine (now + Z.of_nat n * SOFTUART_BIT_NS) rx
        (tx ++ ((fun i => (now + (i - k) * SOFTUART_BIT_NS, Z.testbit b i)) <$> seqZ k (Z.of_nat n)))).
Proof.
  induction n as [|n IH]; intros k now rx tx Hk Hn.
  { rewrite seqZ_nil by lia. cbn. by rewrite app_nil_r, Z.add_0_r. }
  rewrite seqZ_cons by lia. replace (Z.pred (Z.of_nat (S n))) with (Z.of_nat n) by lia.
  cbn [send_bits]. rewrite shr_testbit by lia. unfold sbind.
  assert ((if Z.testbit b k then set_high (W:=Line) (RE:=Empty_set) else set_low) (mkLine now rx tx)
    = (Ok (E:=SoftUartTransportError Empty_set Empty_set) tt,
       mkLine now rx (tx ++ [(now, Z.testbit b k)]))) as -> by (by destruct (Z.testbit b k)).
  unfold delay, delay_ns, line_delay. cbn [ln_now ln_rx ln_tx]. rewrite IH by lia.
  f_equal. f_equal; [lia|]. rewrite <- app_assoc. f_equal. cbn. f_equal; [f_equal; lia|].
  apply list_fmap_ext. intros i x _. f_equal. lia.
Qed.

Lemma send_byte_line b now rx tx :
  send_byte b (mkLine now rx tx)
    = (Ok (E:=SoftUartTransportError Empty_set Empty_set) tt,
       mkLine (now + 10 * SOFTUART_BIT_NS) rx (tx ++ byte_edges SOFTUART_BIT_NS now b)).
Proof.
  unfold send_byte, sbind, set_low, set_high, delay, delay_ns, line_delay, sret.
  cbn [tx_set_low tx_set_high line_pins map_err ln_now ln_rx ln_tx].
  change 8 with (Z.of_nat 8) at 1. rewrite send_bits_line by lia.
  cbn [tx_set_low tx_set_high line_pins map_err ln_now ln_rx ln_tx].
  f_equal. f_equal; [lia|]. rewrite <- !app_assoc. f_equal. unfold byte_edges.
  change (seqZ 0 (Z.of_nat 8)) with [0; 1; 2; 3; 4; 5; 6; 7].
  change (seqZ 0 10) with [0; 1; 2; 3; 4; 5; 6; 7; 8; 9].
  cbn [fmap list_fmap app]. unfold slot_8n1.
  repeat (f_equal; [f_equal; lia|]). f_equal. f_equal. lia.
Qed.

Lemma send_all_line bs : forall now rx tx,
  send_all bs (mkLine now rx tx)
    = (Ok (E:=SoftUartTransportError Empty_set Empty_set) tt,
       mkLine (now + 10 * len bs * SOFTUART_BIT_NS) rx (tx ++ all_edges SOFTUART_BIT_NS now bs)).
Proof.
  induction bs as [|b bs IH]; intros now rx tx; cbn [send_all all_edges].
  { change (len []) with 0. by rewrite app_nil_r, Z.add_0_r. }
  unfold sbind. rewrite send_byte_line, IH, len_cons, <- app_assoc. f_equal. f_equal. lia.
Qed.

Lemma soft_send_line req now rx tx :
  soft_send req (mkLine now rx tx)
    = (Ok (E:=SoftUartTransportError Empty_set Empty_set) tt,
       mkLine (now + (11 + 10 * len req) * SOFTUART_BIT_NS) rx
        (tx ++ (now, true) :: all_edges SOFTUART_BIT_NS (now + SOFTUART_BIT_NS) (SYNC :: req))).
Proof.
  unfold soft_send, sbind, set_high, delay, delay_ns, line_delay.
  cbn [tx_set_high line_pins map_err ln_now ln_rx ln_tx].
  rewrite send_byte_line, send_all_line. cbn [all_edges]. rewrite <- !app_assoc.
  f_equal. f_equal. lia.
Qed.

Lemma level_from_app lvl e1 e2 x : level_from lvl (e1 ++ e2) x = level_from (level_from lvl e1 x) e2 x.
Proof. apply fold_left_app. Qed.

(** Edges still to come do not matter. *)
Lemma level_from_later lvl edges x : Forall (fun e => x < e.1) edges -> level_from lvl edges x = lvl.
Proof.
  unfold level_from. induction 1 as [|[t v] edges Ht _ IH]; [done|]. cbn [fold_left].
  simpl in Ht. assert (level_step x lvl (t, v) = lvl) as ->; [|done].
  unfold level_step; cbn [fst snd]. by zcase; [lia|].
Qed.

Context (B : Z) (HB : 0 < B).

Lemma byte_edges_after s b : Forall (fun e => s <= e.1) (byte_edges B s b).
Proof.
  unfold byte_edges. apply Forall_fmap, Forall_forall. intros k Hk%elem_of_seqZ. simpl. nia.
Qed.
Lemma all_edges_after bs : forall s, Forall (fun e => s <= e.1) (all_edges B s bs).
Proof.
  induction bs as [|b bs IH]; intros s; cbn [all_edges]; [done|].
  apply Forall_app. split; [apply byte_edges_after|].
  eapply Forall_impl; [apply IH|]. simpl. lia.
Qed.

Lemma level_byte lvl s b x n : s <= x -> (0 < n)%nat ->
  level_from lvl ((fun k => (s + k * B, slot_8n1 b k)) <$> seqZ 0 (Z.of_nat n)) x
    = slot_8n1 b (Z.min (Z.of_nat n - 1) ((x - s) / B)).
Proof.
  intros Hx. induction n as [|n IH]; intros Hn; [lia|].
  replace (Z.of_nat (S n)) with (Z.of_nat n + 1) by lia.
  rewrite seqZ_app, fmap_app, level_from_app by lia. rewrite Z.add_0_l.
  rewrite (seqZ_cons (Z.of_nat n)) by lia. rewrite (seqZ_nil _ (Z.pred 1)) by lia.
  unfold level_from at 1, level_step. cbn [fold_left fmap list_fmap fst snd].
  assert (0 <= (x - s) / B) by (apply Z.div_pos; lia).
  pose proof (Z.mul_div_le (x - s) B HB). pose proof (Z.mul_succ_div_gt (x - s) B HB).
  zcase.
  - rewrite Z.min_l by nia. f_equal. lia.
  - destruct n as [|n]; [lia|]. rewrite IH by lia. f_equal. nia.
Qed.

Lemma level_byte_past lvl s b x : s + 10 * B <= x -> level_from lvl (byte_edges B s b) x = true.
Proof.
  intros. unfold byte_edges. change 10 with (Z.of_nat 10). rewrite level_byte by lia.
  assert (9 <= (x - s) / B) by (apply Z.div_le_lower_bound; lia). by rewrite Z.min_l by lia.
Qed.

Lemma level_all bs : forall pre s, (forall x, s <= x -> level_from true pre x = true) ->
  carries B (level_at (pre ++ all_edges B s bs)) s (starts B s bs).
Proof.
  induction bs as [|b bs IH]; intros pre s Hpre; cbn [all_edges starts carries]; [done|].
  split_and!; [lia|lia| |].
  - intros x Hx. unfold level_at. rewrite !level_from_app, level_from_later.
    + unfold byte_edges. change 10 with (Z.of_nat 10). rewrite level_byte by lia.
      replace (s + x - s) with x by lia. f_equal. pose proof (Z.mul_div_le x B HB). nia.
    + eapply Forall_impl; [apply all_edges_after|]. simpl. lia.
  - rewrite app_assoc. apply IH. intros x Hx. rewrite level_from_app. by apply level_byte_past.
Qed.

(** Behind the last byte the line stays at mark. *)
Lemma level_rest bs : forall pre s x, (forall x, s <= x -> level_from true pre x = true) ->
  s + 10 * len bs * B <= x -> level_at (pre ++ all_edges B s bs) x = true.
Proof.
  induction bs as [|b bs IH]; intros pre s x Hpre Hx; cbn [all_edges].
  - rewrite app_nil_r. apply Hpre. change (len []) with 0 in Hx. lia.
  - rewrite len_cons in Hx. pose proof (len_nonneg bs). rewrite app_assoc. apply IH; [|nia].
    intros y Hy. rewrite level_from_app. by apply level_byte_past.
Qed.

End send.

(** ** Properties *)

(** The bit-banged adapter's request always ends, on any pins: the hunts
    take at most [poll_attempts] samples together, at most [256 * scan_limit]
    bytes are received, and it ends in what it says, as for SPI and UART. *)
Theorem soft_request_terminates {W TE RE} (hal : Pins W TE RE) `{DelayNs W} `{PtrWidth}
    (t : SoftUartTransport W) req rsp :
  soft_ok t -> slice rsp ->
  exists r w rsp', soft_request t req rsp = Some (r, (soft_with_hal t w, rsp'))
    /\ request t req rsp = (r, (soft_with_hal t w, rsp'))
    /\ len rsp' = len rsp /\ slice rsp' /\ soft_verdict t rsp' r.
Proof.
  intros Hok Hs. destruct (soft_request_total hal t req rsp Hok Hs) as (r & w & rsp' & Hr & Hrest).
  exists r, w, rsp'. split; [done|]. split; [|done]. unfold request, soft_transport. by rewrite Hr.
Qed.

(** Sampling 1.5 bit times after the edge and then every bit time reads
    what was sent. If, after the request has left, the line carries less noise
    than the babble budget, then a sync and a whole frame that fits the window,
    from a sender whose bit time the sampling plan tolerates ([timing]: any
    edge latency up to half a bit on the same clock, 4.8% fast to 5.5% slow at
    the default interval), and the last byte starts within
    [(poll_attempts - 1) * interval] ns, the request returns that frame. *)
Theorem soft_request_receives `{PtrWidth} (t : SoftUartTransport Line) req rsp B tr final
    noise cmd payload :
  let sent := ln_now (soft_hal t) + (11 + 10 * len req) * SOFTUART_BIT_NS in
  soft_ok t -> slice rsp -> timing B (soft_poll_interval_ns t) ->
  carries B (ln_rx (soft_hal t)) sent tr -> snd <$> tr = noise ++ SYNC :: wire cmd payload ->
  Forall (fun '(s, _) => s <= final) tr ->
  final - sent <= (soft_poll_attempts t - 1) * soft_poll_interval_ns t ->
  bytes noise -> is_u8 cmd -> bytes payload ->
  Forall (fun b => b <> SYNC) noise -> len noise < soft_scan_limit t ->
  len payload <= PAYLOAD_MAX -> len payload + FRAME_OVERHEAD <= len rsp ->
  exists t' rsp', request t req rsp
      = (Ok (E:=SoftUartTransportError Empty_set Empty_set) (len payload + 3), (t', rsp'))
    /\ take (length (wire cmd payload)) rsp' = wire cmd payload.
Proof.
  intros sent Hok Hs Ht Hc Htr Hfin Hbud Hn Hcmd Hp Hno Hlen Hmax Hfit.
  pose proof (len_nonneg payload). assert (len payload <= 252) by done.
  assert (bytes (noise ++ SYNC :: wire cmd payload)) as Hb.
  { apply bytes_app. split; [done|]. apply bytes_cons. split; [by unfold SYNC|].
    apply wire_bytes; [done..|lia]. }
  destruct (frame_ends_done rsp noise cmd payload) as [Hd Hj]; [done..|].
  destruct t as [[now rx tx] pa ivl sl]. cbn [soft_hal ln_now ln_rx] in *.
  destruct (soft_loop_finds rx (tx ++ (now, true) :: all_edges SOFTUART_BIT_NS (now + SOFTUART_BIT_NS) (SYNC :: req))
    B tr (soft_fuel (mkSoft (mkLine now rx tx) pa ivl sl))
    (mkSoft (mkLine sent rx (tx ++ (now, true) :: all_edges SOFTUART_BIT_NS (now + SOFTUART_BIT_NS) (SYNC :: req))) pa ivl sl)
    rx_new 0 0 rsp (len payload + 3) sent final) as [w Hl];
    try done; cbn [soft_poll_attempts soft_poll_interval_ns soft_scan_limit] in *;
    try (rewrite Htr; done); try lia.
  - rewrite <- Htr in Hb. apply Forall_fmap in Hb. eapply Forall_impl; [exact Hb|]. by intros [].
  - destruct Hok as [? _]. simpl in *. lia.
  - rewrite Htr, Hj. lia.
  - apply (f_equal length) in Htr. rewrite length_fmap, length_app in Htr. cbn [length] in Htr.
    pose proof (len_wire cmd payload). destruct Hok as [_ ?]. cbn [soft_scan_limit] in *.
    unfold soft_fuel, len in *. cbn [soft_scan_limit]. lia.
  - unfold request, soft_transport, soft_request. cbn [soft_hal]. rewrite soft_send_line.
    unfold soft_with_hal at 1. cbn [soft_poll_attempts soft_poll_interval_ns soft_scan_limit].
    fold sent. rewrite Hl. eexists _, _. split; [done|]. rewrite Htr. by apply after_frame.
Qed.

(** The transmitter is the receiver's counterpart. Whatever was on the
    line before, sending a request drives it to mark for one bit time and then
    carries the sync byte and the request's bytes back to back, each as start
    bit, eight data bits LSB first and stop bit of exactly one bit time, the
    waveform the receiving side's [carries] describes. *)
Theorem soft_send_waveform req now rx tx :
  exists edges, soft_send req (mkLine now rx tx)
      = (Ok (E:=SoftUartTransportError Empty_set Empty_set) tt,
         mkLine (now + (11 + 10 * len req) * SOFTUART_BIT_NS) rx (tx ++ edges))
    /\ (forall x, now <= x < now + SOFTUART_BIT_NS -> level_at (tx ++ edges) x = true)
    /\ carries SOFTUART_BIT_NS (level_at (tx ++ edges)) (now + SOFTUART_BIT_NS)
         (starts SOFTUART_BIT_NS (now + SOFTUART_BIT_NS) (SYNC :: req))
    /\ snd <$> starts SOFTUART_BIT_NS (now + SOFTUART_BIT_NS) (SYNC :: req) = SYNC :: req.
Proof.
  exists ((now, true) :: all_edges SOFTUART_BIT_NS (now + SOFTUART_BIT_NS) (SYNC :: req)).
  rewrite soft_send_line. split; [done|].
  change ((now, true) :: all_edges SOFTUART_BIT_NS (now + SOFTUART_BIT_NS) (SYNC :: req))
    with ([(now, true)] ++ all_edges SOFTUART_BIT_NS (now + SOFTUART_BIT_NS) (SYNC :: req)).
  rewrite app_assoc.
  assert (forall x, now <= x -> level_from true (tx ++ [(now, true)]) x = true) as Hmark.
  { intros x Hx. rewrite level_from_app. unfold level_from at 1, level_step.
    cbn [fold_left fst snd]. by zcase; [|lia]. }
  split_and!.
  - intros x Hx. unfold level_at. rewrite level_from_app, level_from_later; [apply Hmark; lia|].
    eapply Forall_impl; [by apply all_edges_after|]. simpl. lia.
  - apply level_all; [done|]. intros x Hx. apply Hmark. unfold SOFTUART_BIT_NS in *. lia.
  - apply starts_bytes.
Qed.

Lemma soft_request_terminates_witness :
  let t := soft_with_poll 3 7 (soft_new (mkLine 0 (fun _ => true) [])) in
  exists w rsp', request t [] [0; 0; 0]
      = (Err (SoftExhausted (TE:=Empty_set) (RE:=Empty_set) 3), (soft_with_hal t w, rsp'))
    /\ len rsp' = 3.
Proof.
  intros t.
  destruct (soft_request_terminates line_pins t [] [0; 0; 0]) as (r & w & rsp' & _ & Hr & Hl & _).
  - split; split; vm_compute; done.
  - split; [repeat constructor; lia|by vm_compute].
  - exists w, rsp'. split; [|exact Hl]. rewrite Hr. f_equal.
    assert (fst (request t [] [0; 0; 0]) = Err (SoftExhausted (TE:=Empty_set) (RE:=Empty_set) 3)) as Hx by (vm_compute; reflexivity).
    rewrite Hr in Hx. exact Hx.
Defined.

(** A device that answers ERASE with OK, heard through its own waveform. *)
Lemma soft_request_receives_witness :
  let t := soft_new (mkLine 0 (level_at (all_edges SOFTUART_BIT_NS (21 * SOFTUART_BIT_NS) (SYNC :: wire 0x82 [0]))) []) in
  exists t' rsp', request t [7] [0; 0; 0; 0]
      = (Ok (E:=SoftUartTransportError Empty_set Empty_set) 4, (t', rsp'))
    /\ take 4 rsp' = wire 0x82 [0].
Proof.
  intros t.
  apply (soft_request_receives t [7] [0; 0; 0; 0] SOFTUART_BIT_NS
    (starts SOFTUART_BIT_NS (21 * SOFTUART_BIT_NS) (SYNC :: wire 0x82 [0])) (100 * SOFTUART_BIT_NS) [] 0x82 [0]).
  - split; split; vm_compute; done.
  - split; [repeat constructor; lia|by vm_compute].
  - apply timing_same_clock. split; by vm_compute.
  - by apply (level_all SOFTUART_BIT_NS ltac:(by vm_compute) (SYNC :: wire 0x82 [0]) []).
  - reflexivity.
  - repeat constructor; by vm_compute.
  - by vm_compute.
  - constructor.
  - lia.
  - repeat constructor; lia.
  - constructor.
  - by vm_compute.
  - by vm_compute.
  - by vm_compute.
Defined.
