(* ===== verification/Text.v ===== *)
(** Rust strings as the command-line tool uses them: a [&str] is the list of
    its Unicode scalar values; the standard library's [lines], [trim],
    [find], [strip_prefix], [from_str_radix] and the UTF-8 view [as_bytes]. *)
From Stdlib Require Import Ascii.
From S2P Require Import Prelude.

Abbreviation text := (list Z).

(** A literal. *)
Fixpoint str (s : string) : text :=
  match s with
  | EmptyString => []
  | String a s => Z.of_N (N_of_ascii a) :: str s
  end.

(** [char::is_whitespace]: the Unicode [White_Space] property. *)
Definition is_whitespace (c : Z) : bool :=
  ((9 <=? c) && (c <=? 13)) || (c =? 0x20) || (c =? 0x85) || (c =? 0xA0) || (c =? 0x1680)
  || ((0x2000 <=? c) && (c <=? 0x200A)) || (c =? 0x2028) || (c =? 0x2029) || (c =? 0x202F)
  || (c =? 0x205F) || (c =? 0x3000).

Fixpoint trim_start (s : text) : text :=
  match s with
  | c :: s' => if is_whitespace c then trim_start s' else s
  | [] => []
  end.
Definition trim (s : text) : text := reverse (trim_start (reverse (trim_start s))).

(** [s.find(c)] with the text before and behind the first match. *)
Fixpoint split_once (c : Z) (s : text) : option (text * text) :=
  match s with
  | [] => None
  | x :: s' =>
      if x =? c then Some ([], s')
      else match split_once c s' with
           | Some (before, behind) => Some (x :: before, behind)
           | None => None
           end
  end.

(** [s.split(c)]: the pieces between the separators. *)
Fixpoint split_on (c : Z) (s : text) : list text :=
  match s with
  | [] => [[]]
  | x :: s' =>
      match split_on c s' with
      | piece :: pieces => if x =? c then [] :: piece :: pieces else (x :: piece) :: pieces
      | [] => []
      end
  end.

Definition strip_cr (l : text) : text :=
  match split_last l with
  | Some (13, l') => l'
  | _ => l
  end.

(** [str::lines]: no final empty line, and a carriage return ahead of a line
    feed is part of the line ending. *)
Definition lines (s : text) : list text :=
  match split_last (split_on 10 s) with
  | Some ([], ls) => strip_cr <$> ls
  | Some (l, ls) => (strip_cr <$> ls) ++ [l]
  | None => []
  end.

Definition strip_prefix (p s : text) : option text :=
  if decide (take (length p) s = p) then Some (drop (length p) s) else None.

(** UTF-8. *)
Definition utf8_char (c : Z) : list Z :=
  if c <? 0x80 then [c]
  else if c <? 0x800 then [0xC0 + c / 64; 0x80 + c mod 64]
  else if c <? 0x10000 then [0xE0 + c / 4096; 0x80 + c / 64 mod 64; 0x80 + c mod 64]
  else [0xF0 + c / 262144; 0x80 + c / 4096 mod 64; 0x80 + c / 64 mod 64; 0x80 + c mod 64].
Definition as_bytes (s : text) : list Z := s ≫= utf8_char.

(** [str::from_utf8] on two bytes: two ASCII characters, or one two-byte one. *)
Definition from_utf8_pair (b0 b1 : Z) : option text :=
  if (b0 <? 0x80) && (b1 <? 0x80) then Some [b0; b1]
  else if (0xC2 <=? b0) && (b0 <=? 0xDF) && (0x80 <=? b1) && (b1 <=? 0xBF)
  then Some [(b0 - 0xC0) * 64 + (b1 - 0x80)]
  else None.

(** [char::to_digit] *)
Definition to_digit (radix c : Z) : option Z :=
  let d :=
    if (0x30 <=? c) && (c <=? 0x39) then Some (c - 0x30)
    else if (0x61 <=? c) && (c <=? 0x7A) then Some (c - 0x61 + 10)
    else if (0x41 <=? c) && (c <=? 0x5A) then Some (c - 0x41 + 10)
    else None in
  match d with Some d => if d <? radix then Some d else None | None => None end.

Fixpoint parse_digits (radix max acc : Z) (s : text) : option Z :=
  match s with
  | [] => Some acc
  | c :: s =>
      match to_digit radix c with
      | None => None
      | Some d =>
          let acc := acc * radix + d in
          if acc <=? max then parse_digits radix max acc s else None
      end
  end.

(** [uN::from_str_radix] for an unsigned type with maximum [max]: one leading
    plus sign is accepted, a lone sign is not a number. *)
Definition from_str_radix (radix max : Z) (s : text) : option Z :=
  match s with
  | [] => None
  | [c] => if (c =? 0x2B) || (c =? 0x2D) then None else parse_digits radix max 0 s
  | c :: s' => if c =? 0x2B then parse_digits radix max 0 s' else parse_digits radix max 0 s
  end.

(** ** Lemmas *)
Lemma trim_start_id c s : is_whitespace c = false -> trim_start (c :: s) = c :: s.
Proof. intros Hc. cbn. by rewrite Hc. Qed.

Lemma trim_id c s d : is_whitespace c = false -> is_whitespace d = false ->
  trim (c :: s ++ [d]) = c :: s ++ [d].
Proof.
  intros Hc Hd. unfold trim. rewrite trim_start_id by done.
  change (c :: s ++ [d]) with ((c :: s) ++ [d]). rewrite reverse_app.
  change (reverse [d] ++ reverse (c :: s)) with (d :: reverse (c :: s)).
  rewrite trim_start_id by done. by rewrite reverse_cons, reverse_involutive.
Qed.

Lemma split_on_nonempty c s : split_on c s <> [].
Proof. induction s as [|x s IH]; [done|]. cbn. destruct (split_on c s); [done|]. by case_match.
Qed.

Lemma split_on_line c l s : Forall (fun x => x <> c) l ->
  split_on c (l ++ c :: s) = l :: split_on c s.
Proof.
  induction 1 as [|x l Hx _ IH]; cbn [app split_on].
  - destruct (split_on c s) eqn:E; [by apply split_on_nonempty in E|]. by rewrite Z.eqb_refl.
  - rewrite IH. by destruct (Z.eqb_spec x c).
Qed.

(** Lines that end in a line feed are read back. *)
Lemma lines_unlines (ls : list text) :
  Forall (fun l => Forall (fun x => x <> 10) l /\ strip_cr l = l) ls ->
  lines (concat ((fun l => l ++ [10]) <$> ls)) = ls.
Proof.
  intros Hls. unfold lines.
  assert (split_on 10 (concat ((fun l => l ++ [10]) <$> ls)) = ls ++ [[]]) as ->.
  { induction Hls as [|l ls [Hl _] _ IH]; [done|]. cbn [fmap list_fmap concat].
    rewrite <- app_assoc. cbn [app]. by rewrite split_on_line, IH. }
  rewrite split_last_snoc. induction Hls as [|l ls [_ Hl] _ IH]; [done|].
  cbn [fmap list_fmap]. by rewrite Hl, IH.
Qed.

Lemma as_bytes_ascii s : Forall (fun c => 0 <= c < 0x80) s -> as_bytes s = s.
Proof.
  induction 1 as [|c s Hc _ IH]; [done|]. unfold as_bytes in *. cbn. rewrite IH.
  unfold utf8_char. by zcase; [|lia].
Qed.
