(* ===== verification/Fmt.v ===== *)
(** What Rust's formatting macros write for the arguments the program prints:
    decimal and hexadecimal numbers with their widths, lists of numbers, joined
    lists and the [Debug] form of a string. Each is read back by the inverse
    the standard library has for it ([from_str_radix]) or by one given here. *)
From S2P Require Import Prelude Text.

(** A character that a [string] literal here cannot hold. *)
Definition em_dash : text := [0x2014].

Definition digit_char (upper : bool) (d : Z) : Z :=
  if d <? 10 then 0x30 + d else (if upper then 0x41 else 0x61) + (d - 10).

(** The digits of [n], most significant first; one unit of fuel per bit is
    enough for any radix. *)
Fixpoint digits_loop (fuel : nat) (upper : bool) (radix n : Z) (acc : text) : text :=
  match fuel with
  | O => acc
  | S fuel =>
    let acc := digit_char upper (n mod radix) :: acc in
    if n <? radix then acc else digits_loop fuel upper radix (n / radix) acc
  end.
Definition digits (upper : bool) (radix n : Z) : text :=
  digits_loop (S (Z.to_nat (Z.log2 n))) upper radix n [].

(** [{n}] *)
Definition dec (n : Z) : text := digits false 10 n.
Definition pad0 (width : nat) (s : text) : text := replicate (width - length s) 0x30 ++ s.
(** [{n:02X}], [{n:08X}] and [{n:#04x}] *)
Definition hex_02X (n : Z) : text := pad0 2 (digits true 16 n).
Definition hex_08X (n : Z) : text := pad0 8 (digits true 16 n).
Definition hex_alt (n : Z) : text := str "0x" ++ pad0 2 (digits false 16 n).

(** [pieces.join(sep)] *)
Fixpoint join_with (sep : text) (pieces : list text) : text :=
  match pieces with
  | [] => []
  | [p] => p
  | p :: pieces => p ++ sep ++ join_with sep pieces
  end.

(** [{l:?}] of a list of numbers *)
Definition debug_list (l : list Z) : text := str "[" ++ join_with (str ", ") (dec <$> l) ++ str "]".

(** [{s:?}]: quotes, with the quote, the backslash and what cannot be printed
    escaped. Which characters beyond ASCII can be printed is the standard
    library's Unicode table. *)
Class Printable := printable : Z -> bool.

Section debug.
Context `{Printable}.

Definition escape_debug (c : Z) : text :=
  if c =? 0 then str "\0"
  else if c =? 9 then str "\t"
  else if c =? 13 then str "\r"
  else if c =? 10 then str "\n"
  else if c =? 0x22 then [0x5C; 0x22]
  else if c =? 0x5C then [0x5C; 0x5C]
  else if (0x20 <=? c) && (c <=? 0x7E) || (0x7F <? c) && printable c then [c]
  else str "\u{" ++ digits false 16 c ++ str "}".

Definition debug_str (s : text) : text := [0x22] ++ (s ≫= escape_debug) ++ [0x22].
End debug.

(** [hay.contains(needle)] *)
Definition contains (needle hay : text) : Prop := exists before behind, hay = before ++ needle ++ behind.

(** ** Numbers are read back *)
Lemma to_digit_char upper radix d : 2 <= radix <= 16 -> 0 <= d < radix ->
  to_digit radix (digit_char upper d) = Some d.
Proof.
  intros Hr Hd. unfold digit_char. assert (d ∈ seqZ 0 16) as Hin by (apply elem_of_seqZ; lia).
  unfold to_digit. destruct (Z.ltb_spec d 10).
  - zcases; try lia. simpl. zcases; try lia. f_equal. lia.
  - destruct upper; zcases; try lia; simpl; zcases; try lia; f_equal; lia.
Qed.

Lemma digits_loop_app fuel upper radix : forall n acc,
  digits_loop fuel upper radix n acc = digits_loop fuel upper radix n [] ++ acc.
Proof.
  induction fuel as [|fuel IH]; intros n acc; [done|]. cbn [digits_loop]. case_match; [done|].
  rewrite IH, (IH _ [_]), <- app_assoc. done.
Qed.

Lemma parse_digits_app radix max s1 s2 : forall acc,
  parse_digits radix max acc (s1 ++ s2) = a ← parse_digits radix max acc s1; parse_digits radix max a s2.
Proof.
  induction s1 as [|c s1 IH]; intros acc; [done|]. cbn [app parse_digits]. repeat case_match; [apply IH|done..].
Qed.

Lemma parse_digits_loop upper radix max fuel : 2 <= radix <= 16 -> forall n, 0 <= n <= max -> n < radix ^ Z.of_nat fuel ->
  parse_digits radix max 0 (digits_loop fuel upper radix n []) = Some n.
Proof.
  intros Hr. induction fuel as [|fuel IH]; intros n Hn Hf.
  - cbn in Hf. cbn. f_equal. lia.
  - pose proof (Z.mod_pos_bound n radix ltac:(lia)) as Hm. pose proof (Z.div_mod n radix ltac:(lia)) as Hd.
    rewrite Nat2Z.inj_succ, Z.pow_succ_r in Hf by lia. cbn [digits_loop]. destruct (Z.ltb_spec n radix).
    + cbn [parse_digits]. rewrite to_digit_char by done. rewrite Z.mod_small by lia. cbn.
      by rewrite (proj2 (Z.leb_le _ _)) by lia.
    + rewrite digits_loop_app, parse_digits_app, IH; [|nia|nia].
      cbn [mbind option_bind parse_digits]. rewrite to_digit_char by done.
      replace (n / radix * radix + n mod radix) with n by lia. by rewrite (proj2 (Z.leb_le _ _)) by lia.
Qed.

Lemma log2_fuel radix n : 2 <= radix -> 0 <= n -> n < radix ^ Z.of_nat (S (Z.to_nat (Z.log2 n))).
Proof.
  intros Hr Hn. destruct (Z.eq_dec n 0) as [->|]; [apply Z.pow_pos_nonneg; lia|].
  rewrite Nat2Z.inj_succ, Z2Nat.id by apply Z.log2_nonneg.
  apply Z.lt_le_trans with (2 ^ Z.succ (Z.log2 n)); [by apply Z.log2_spec; lia|].
  apply Z.pow_le_mono_l. pose proof (Z.log2_nonneg n). lia.
Qed.

Lemma parse_digits_digits upper radix max n : 2 <= radix <= 16 -> 0 <= n <= max ->
  parse_digits radix max 0 (digits upper radix n) = Some n.
Proof. intros. apply parse_digits_loop; [done..|]. apply log2_fuel; lia. Qed.

(** A digit: no sign, no quote, no space. *)
Definition is_digit (c : Z) : bool := bool_decide (is_Some (to_digit 16 c)).

Lemma digits_loop_chars upper radix fuel : 2 <= radix <= 16 -> forall n, 0 <= n ->
  Forall (fun c => is_digit c = true) (digits_loop fuel upper radix n []).
Proof.
  intros Hr. induction fuel as [|fuel IH]; intros n Hn; [constructor|]. cbn [digits_loop].
  pose proof (Z.mod_pos_bound n radix ltac:(lia)) as Hm.
  assert (is_digit (digit_char upper (n mod radix)) = true) as Hd.
  { unfold is_digit. by rewrite to_digit_char by lia. }
  case_match; [by constructor|]. rewrite digits_loop_app. apply Forall_app. split; [|by constructor].
  apply IH. apply Z.div_pos; lia.
Qed.
Lemma digits_chars upper radix n : 2 <= radix <= 16 -> 0 <= n ->
  Forall (fun c => is_digit c = true) (digits upper radix n).
Proof. intros. by apply digits_loop_chars. Qed.

Lemma digits_nonempty upper radix n : digits upper radix n <> [].
Proof.
  unfold digits. cbn [digits_loop]. case_match; [done|]. rewrite digits_loop_app. by intros [_ ?]%app_eq_nil.
Qed.

Lemma is_digit_spec c : is_digit c = true -> 0x30 <= c <= 0x39 \/ 0x41 <= c <= 0x46 \/ 0x61 <= c <= 0x66.
Proof.
  unfold is_digit, to_digit. intros H%bool_decide_eq_true. destruct H as [d Hd].
  revert Hd. zcases; simpl; zcases; try done; lia.
Qed.

(** Behind no sign, the parser reads the digits. *)
Lemma from_str_radix_digits radix max s : s <> [] -> Forall (fun c => is_digit c = true) s ->
  from_str_radix radix max s = parse_digits radix max 0 s.
Proof.
  intros Hne Hs. destruct s as [|c [|d s]]; [done| |]; apply Forall_cons in Hs as [Hc%is_digit_spec _];
    unfold from_str_radix; destruct (Z.eqb_spec c 0x2B), (Z.eqb_spec c 0x2D); done || lia.
Qed.

Lemma parse_digits_zeros radix max k s : 2 <= radix -> 0 <= max ->
  parse_digits radix max 0 (replicate k 0x30 ++ s) = parse_digits radix max 0 s.
Proof.
  intros Hr Hm. induction k as [|k IH]; [done|]. cbn [replicate app parse_digits].
  assert (to_digit radix 0x30 = Some 0) as ->.
  { unfold to_digit. cbn. by rewrite (proj2 (Z.ltb_lt _ _)) by lia. }
  cbn. by rewrite (proj2 (Z.leb_le _ _)) by lia.
Qed.

Lemma zeros_digits k : Forall (fun c => is_digit c = true) (replicate k 0x30).
Proof. by apply Forall_replicate. Qed.

(** What is printed is read back, in any width. *)
Lemma from_str_radix_pad0 upper radix max w n : 2 <= radix <= 16 -> 0 <= n <= max ->
  from_str_radix radix max (pad0 w (digits upper radix n)) = Some n.
Proof.
  intros Hr Hn. unfold pad0. rewrite from_str_radix_digits.
  - rewrite parse_digits_zeros by lia. by apply parse_digits_digits.
  - intros [_ ?%digits_nonempty]%app_eq_nil. done.
  - apply Forall_app. split; [apply zeros_digits|]. apply digits_chars; lia.
Qed.
Lemma from_str_radix_dec max n : 0 <= n <= max -> from_str_radix 10 max (dec n) = Some n.
Proof. intros. apply (from_str_radix_pad0 false 10 max 0); lia. Qed.

Lemma dec_inj m n : 0 <= m -> 0 <= n -> dec m = dec n -> m = n.
Proof.
  intros Hm Hn Heq. pose proof (from_str_radix_dec (Z.max m n) m ltac:(lia)) as Hr.
  rewrite Heq, from_str_radix_dec in Hr by lia. by injection Hr.
Qed.

Example dec_480 : dec 480 = str "480".
Proof. reflexivity. Qed.
Example hex_alt_20 : hex_alt 0x20 = str "0x20" /\ hex_alt 5 = str "0x05".
Proof. split; reflexivity. Qed.
Example hex_08X_crc : hex_08X 0xB19FF727 = str "B19FF727".
Proof. reflexivity. Qed.

(** ** Finding text in text *)
Lemma contains_refl s : contains s s.
Proof. exists [], []. by rewrite app_nil_r. Qed.
Lemma contains_app_l s a b : contains s a -> contains s (a ++ b).
Proof. intros (x & y & ->). exists x, (y ++ b). by rewrite <- !app_assoc. Qed.
Lemma contains_app_r s a b : contains s b -> contains s (a ++ b).
Proof. intros (x & y & ->). exists (a ++ x), y. by rewrite <- !app_assoc. Qed.
Lemma contains_trans s t u : contains s t -> contains t u -> contains s u.
Proof. intros (a & b & ->) (c & d & ->). exists (c ++ a), (b ++ d). by rewrite <- !app_assoc. Qed.
Lemma contains_join sep p pieces : p ∈ pieces -> contains p (join_with sep pieces).
Proof.
  induction pieces as [|q pieces IH]; [by intros ?%not_elem_of_nil|]. intros [->|Hp]%elem_of_cons; cbn [join_with].
  - destruct pieces; [apply contains_refl|apply contains_app_l, contains_refl].
  - specialize (IH Hp). destruct pieces; [by apply not_elem_of_nil in Hp|]. by do 2 apply contains_app_r.
Qed.

Lemma contains_front a s b : contains (a ++ s) (a ++ s ++ b).
Proof. exists [], b. by rewrite <- app_assoc. Qed.

(** Decided for closed texts. *)
Fixpoint containsb (needle hay : text) : bool :=
  bool_decide (take (length needle) hay = needle) || match hay with [] => false | _ :: hay => containsb needle hay end.
Lemma containsb_contains needle hay : containsb needle hay = true -> contains needle hay.
Proof.
  induction hay as [|c hay IH]; intros [Ht|Hr]%orb_true_iff; try done.
  - apply bool_decide_eq_true in Ht. exists [], []. by destruct needle.
  - apply bool_decide_eq_true in Ht. exists [], (drop (length needle) (c :: hay)). cbn [app].
    rewrite <- (take_drop (length needle) (c :: hay)) at 1. by rewrite Ht.
  - apply (contains_app_r _ [c]). by apply IH.
Qed.

(** ** Reading a quoted string back *)

(** One character, escaped or not. *)
Definition read_char (s : text) : option (Z * text) :=
  match s with
  | [] => None
  | c :: s =>
    if negb (c =? 0x5C) then Some (c, s) else
    match s with
    | [] => None
    | e :: s =>
      if e =? 0x30 then Some (0, s)
      else if e =? 0x74 then Some (9, s)
      else if e =? 0x72 then Some (13, s)
      else if e =? 0x6E then Some (10, s)
      else if (e =? 0x22) || (e =? 0x5C) then Some (e, s)
      else if e =? 0x75 then
        match split_once 0x7D (drop 1 s) with
        | None => None
        | Some (ds, s) => n ← from_str_radix 16 0x10FFFF ds; Some (n, s)
        end
      else None
    end
  end.

(** Up to the closing quote; one unit of fuel per character. *)
Fixpoint read_quoted (fuel : nat) (s : text) : option (text * text) :=
  match fuel with
  | O => None
  | S fuel =>
    if decide (head s = Some 0x22) then Some ([], tail s) else
    match read_char s with
    | None => None
    | Some (c, s) =>
      match read_quoted fuel s with Some (cs, rest) => Some (c :: cs, rest) | None => None end
    end
  end.

(** A Unicode scalar value, as far as it matters here. *)
Definition is_char (c : Z) : Prop := 0 <= c <= 0x10FFFF.
Lemma is_char_forallb s : forallb (fun c => (0 <=? c) && (c <=? 0x10FFFF)) s = true -> Forall is_char s.
Proof.
  intros Hs. apply Forall_forall. intros c Hc%list_elem_of_In. rewrite forallb_forall in Hs.
  specialize (Hs c Hc). apply andb_true_iff in Hs as [?%Z.leb_le ?%Z.leb_le]. by split.
Qed.

Section read.
Context `{Printable}.

Lemma split_once_at c l s : Forall (fun x => x <> c) l -> split_once c (l ++ c :: s) = Some (l, s).
Proof.
  induction 1 as [|x l Hx _ IH]; cbn [app split_once]; [by rewrite Z.eqb_refl|].
  rewrite (proj2 (Z.eqb_neq _ _) Hx). by rewrite IH.
Qed.

Lemma read_escape c s : is_char c ->
  read_char (escape_debug c ++ s) = Some (c, s) /\ head (escape_debug c ++ s) <> Some 0x22.
Proof.
  intros Hc. unfold escape_debug.
  destruct (Z.eqb_spec c 0) as [->|]; [done|]. destruct (Z.eqb_spec c 9) as [->|]; [done|].
  destruct (Z.eqb_spec c 13) as [->|]; [done|]. destruct (Z.eqb_spec c 10) as [->|]; [done|].
  destruct (Z.eqb_spec c 0x22) as [->|]; [done|]. destruct (Z.eqb_spec c 0x5C) as [->|]; [done|].
  destruct (_ || _).
  { cbn [app read_char head]. rewrite (proj2 (Z.eqb_neq c 0x5C)) by done. split; [done|]. by intros [= ->]. }
  split; [|done]. rewrite <- !app_assoc. change (str "}") with [0x7D]. cbn [app].
  change (read_char _) with
    (match split_once 0x7D (digits false 16 c ++ 0x7D :: s) with
     | None => None
     | Some (ds, s) => n ← from_str_radix 16 0x10FFFF ds; Some (n, s)
     end).
  rewrite split_once_at.
  - change (digits false 16 c) with (pad0 0 (digits false 16 c)). rewrite from_str_radix_pad0 by (unfold is_char in *; lia).
    done.
  - apply Forall_impl with (fun c => is_digit c = true); [apply digits_chars; unfold is_char in *; lia|].
    intros x Hx%is_digit_spec. lia.
Qed.

Lemma read_quoted_escaped s : forall rest fuel, Forall is_char s -> (length s < fuel)%nat ->
  read_quoted fuel ((s ≫= escape_debug) ++ 0x22 :: rest) = Some (s, rest).
Proof.
  induction s as [|c s IH]; intros rest [|fuel] Hs Hf; cbn [length] in Hf; try lia; [done|].
  apply Forall_cons in Hs as [Hc Hs]. cbn [mbind list_bind]. change (foldr _ _ _) with (s ≫= escape_debug).
  rewrite <- app_assoc. destruct (read_escape c ((s ≫= escape_debug) ++ 0x22 :: rest) Hc) as [Hr Hh].
  cbn [read_quoted]. rewrite decide_False by done. rewrite Hr, IH by (done || lia). done.
Qed.
End read.
