(* ===== verification/Ihex.v ===== *)
(** The Intel-HEX reader of the command-line tool ([updater-cli/src/ihex.rs]):
    records to a flat binary at address 0. The notes on stderr for ignored
    start-address records are not part of the model. *)
From S2P Require Import Prelude Text.

(** Why a line, or the whole file, is refused. *)
Inductive digits_error :=
| OddDigits
| NotUtf8 (b0 b1 : Z)
| InvalidDigits (digits : text).

Inductive line_error :=
| AfterEof
| NoColon
| BadDigits (e : digits_error)
| TooShort (n : Z)
| MissingChecksum
| LengthMismatch (ll n : Z)
| ChecksumMismatch
| ExtendedAddress (rtype : Z)
| UnsupportedType (rtype : Z).

Inductive hex_error :=
| AtLine (lineno : Z) (e : line_error)
| MissingEof.

#[global] Instance digits_error_eq_dec : EqDecision digits_error.
Proof. solve_decision. Defined.
#[global] Instance line_error_eq_dec : EqDecision line_error.
Proof. solve_decision. Defined.
#[global] Instance hex_error_eq_dec : EqDecision hex_error.
Proof. solve_decision. Defined.

(** [chunks_exact(2)] with the closure of [decode_hex]; a trailing odd byte is
    dropped by [chunks_exact], but is refused before. *)
Fixpoint decode_pairs (bs : list Z) : result (list Z) digits_error :=
  match bs with
  | b0 :: b1 :: bs =>
    match from_utf8_pair b0 b1 with
    | None => Err (NotUtf8 b0 b1)
    | Some digits =>
      match from_str_radix 16 255 digits with
      | None => Err (InvalidDigits digits)
      | Some v =>
        match decode_pairs bs with
        | Ok vs => Ok (v :: vs)
        | Err e => Err e
        end
      end
    end
  | _ => Ok []
  end.

Definition decode_hex (s : text) : result (list Z) digits_error :=
  if negb (len (as_bytes s) mod 2 =? 0) then Err OddDigits else decode_pairs (as_bytes s).

(** [out.resize(end, 0xFF)] if short, then the copy. *)
Definition place (out : list Z) (addr : Z) (data : list Z) : list Z :=
  let stop := addr + len data in
  let out := if len out <? stop then out ++ replicate (Z.to_nat (stop - len out)) 0xFF else out in
  overwrite addr data out.

(** The body of the loop for one line: the image so far and whether the EOF
    record was seen. *)
Definition parse_line (raw_line : text) (out : list Z) (saw_eof : bool)
  : result (list Z * bool) line_error :=
  let line := trim raw_line in
  if decide (line = []) then Ok (out, saw_eof) else
  if saw_eof then Err AfterEof else
  match strip_prefix (str ":") line with
  | None => Err NoColon
  | Some hex =>
    match decode_hex hex with
    | Err e => Err (BadDigits e)
    | Ok bytes =>
      match bytes with
      | ll :: addr_hi :: addr_lo :: rtype :: rest =>
        match split_last rest with
        | None => Err MissingChecksum
        | Some (_cc, data) =>
          if negb (len data =? ll) then Err (LengthMismatch ll (len data)) else
          let sum := fold_left (fun s b => (s + b) mod 256) bytes 0 in
          if negb (sum =? 0) then Err ChecksumMismatch else
          let addr := u16_from_be_bytes addr_hi addr_lo in
          if rtype =? 0x00 then Ok (place out addr data, saw_eof)
          else if rtype =? 0x01 then Ok (out, true)
          else if (rtype =? 0x02) || (rtype =? 0x04) then Err (ExtendedAddress rtype)
          else if (rtype =? 0x03) || (rtype =? 0x05) then Ok (out, saw_eof)
          else Err (UnsupportedType rtype)
        end
      | _ => Err (TooShort (len bytes))
      end
    end
  end.

Fixpoint parse_lines (ls : list text) (lineno : Z) (out : list Z) (saw_eof : bool)
  : result (list Z * bool) hex_error :=
  match ls with
  | [] => Ok (out, saw_eof)
  | l :: ls =>
    match parse_line l out saw_eof with
    | Err e => Err (AtLine lineno e)
    | Ok (out, saw_eof) => parse_lines ls (lineno + 1) out saw_eof
    end
  end.

Definition parse (input : text) : result (list Z) hex_error :=
  match parse_lines (lines input) 1 [] false with
  | Err e => Err e
  | Ok (out, saw_eof) => if saw_eof then Ok out else Err MissingEof
  end.

(** ** Specification: rendering records *)
Definition hex_digit (d : Z) : Z := if d <? 10 then 0x30 + d else 0x41 + (d - 10).
Definition hex_byte (b : Z) : text := [hex_digit (b / 16); hex_digit (b mod 16)].
Definition hex_bytes (bs : list Z) : text := bs ≫= hex_byte.

Definition byte_sum (bs : list Z) : Z := fold_left (fun s b => (s + b) mod 256) bs 0.
Definition checksummed (bs : list Z) : list Z := bs ++ [- byte_sum bs mod 256].

Definition record_bytes (rtype addr : Z) (data : list Z) : list Z :=
  checksummed ([len data; addr / 256; addr mod 256; rtype] ++ data).
Definition record_line (rtype addr : Z) (data : list Z) : text :=
  0x3A :: hex_bytes (record_bytes rtype addr data).

Definition record := (Z * list Z)%type.
Definition record_ok (r : record) : Prop := is_u16 r.1 /\ bytes r.2 /\ len r.2 <= 255.

(** A file of data records and the EOF record. *)
Definition render (rs : list record) : text :=
  concat ((fun l => l ++ [10]) <$>
    ((fun r : record => record_line 0 r.1 r.2) <$> rs) ++ [record_line 1 0 []]).

(** The image a sequence of records stands for. *)
Definition image_of (rs : list record) : list Z :=
  fold_left (fun out (r : record) => place out r.1 r.2) rs [].

(** What address [a] holds: the byte of the last record that covers it. *)
Definition covers (r : record) (a : Z) : bool := (r.1 <=? a) && (a <? r.1 + len r.2).
Definition byte_at (rs : list record) (a : Z) : Z :=
  fold_left (fun v (r : record) => if covers r a then default v (r.2 !! Z.to_nat (a - r.1)) else v) rs 0xFF.
Definition extent (rs : list record) : Z :=
  fold_left (fun n (r : record) => Z.max n (r.1 + len r.2)) rs 0.

(** ** Hex digits *)
Lemma hex_digit_ascii d : 0 <= d < 16 -> 0x30 <= hex_digit d <= 0x46.
Proof. unfold hex_digit. intros. zcase; lia. Qed.
Lemma hex_byte_ascii b : is_u8 b -> Forall (fun c => 0x30 <= c <= 0x46) (hex_byte b).
Proof.
  intros. repeat constructor; apply hex_digit_ascii; Z.div_mod_to_equations; lia.
Qed.
Lemma hex_bytes_ascii bs : bytes bs -> Forall (fun c => 0x30 <= c <= 0x46) (hex_bytes bs).
Proof.
  induction 1 as [|b bs Hb _ IH]; [constructor|]. unfold hex_bytes. cbn.
  repeat (constructor; [apply hex_digit_ascii; Z.div_mod_to_equations; lia|]). exact IH.
Qed.

Lemma from_hex_byte b : is_u8 b -> from_str_radix 16 255 (hex_byte b) = Some b.
Proof.
  intros Hb.
  enough (forallb (fun b => bool_decide (from_str_radix 16 255 (hex_byte b) = Some b)) (seqZ 0 256) = true)
    as Hall.
  { pose proof (forall_u8 _ Hall b Hb) as H. by apply bool_decide_eq_true in H. }
  vm_compute. reflexivity.
Qed.

Lemma decode_pairs_hex bs : bytes bs -> decode_pairs (hex_bytes bs) = Ok bs.
Proof.
  induction 1 as [|b bs Hb _ IH]; [done|].
  pose proof (hex_byte_ascii b Hb) as Ha. unfold hex_byte in Ha.
  apply Forall_cons in Ha as [H0 Ha]. apply Forall_cons in Ha as [H1 _].
  change (hex_bytes (b :: bs)) with (hex_digit (b / 16) :: hex_digit (b mod 16) :: hex_bytes bs).
  cbn [decode_pairs]. unfold from_utf8_pair.
  destruct (Z.ltb_spec (hex_digit (b / 16)) 0x80); [|lia].
  destruct (Z.ltb_spec (hex_digit (b mod 16)) 0x80); [|lia]. cbn [andb].
  change [hex_digit (b / 16); hex_digit (b mod 16)] with (hex_byte b).
  by rewrite from_hex_byte, IH.
Qed.

Lemma hex_bytes_length bs : length (hex_bytes bs) = (2 * length bs)%nat.
Proof. induction bs as [|b bs IH]; [done|]. unfold hex_bytes in *. cbn. lia. Qed.

Lemma decode_hex_bytes bs : bytes bs -> decode_hex (hex_bytes bs) = Ok bs.
Proof.
  intros Hb. unfold decode_hex. rewrite as_bytes_ascii.
  - unfold len. rewrite hex_bytes_length, Nat2Z.inj_mul, Z.mul_comm, Z.mod_mul by lia.
    by apply decode_pairs_hex.
  - eapply Forall_impl; [by apply hex_bytes_ascii|]. simpl. lia.
Qed.

(** A decoded byte is a byte. *)
Lemma parse_digits_range radix max s : forall acc v, 0 <= radix -> 0 <= acc <= max ->
  parse_digits radix max acc s = Some v -> 0 <= v <= max.
Proof.
  induction s as [|c s IH]; intros acc v Hr Hacc; cbn [parse_digits]; [by intros [= <-]|].
  destruct (to_digit radix c) as [d|] eqn:Hd; [|done]. zcase; [|done]. apply IH; [done|].
  assert (0 <= d).
  { revert Hd. unfold to_digit. repeat case_match; intros [= <-]; simplify_eq;
      repeat match goal with H : (_ && _) = true |- _ => apply andb_true_iff in H as [?%Z.leb_le ?%Z.leb_le] end; lia. }
  nia.
Qed.
Lemma from_str_radix_range radix max s v : 0 <= radix -> 0 <= max ->
  from_str_radix radix max s = Some v -> 0 <= v <= max.
Proof.
  intros Hr Hm. unfold from_str_radix.
  repeat case_match; try done; by apply parse_digits_range.
Qed.
Lemma decode_pairs_bytes bs : forall vs, decode_pairs bs = Ok vs -> bytes vs.
Proof.
  assert (forall n bs, (length bs <= n)%nat -> forall vs, decode_pairs bs = Ok vs -> bytes vs) as Hall.
  { induction n as [|n IH]; intros [|b0 [|b1 l]] Hn vs; cbn [decode_pairs];
      try (intros [= <-]; constructor); simpl in Hn; try lia.
    destruct (from_utf8_pair b0 b1) as [digits|]; [|done].
    destruct (from_str_radix 16 255 digits) as [v|] eqn:Hv; [|done].
    destruct (decode_pairs l) as [vs'|] eqn:Hl; [|done]. intros [= <-].
    apply from_str_radix_range in Hv; [|lia..]. constructor; [lia|]. apply (IH l); [lia|done]. }
  by apply (Hall (length bs)).
Qed.
Lemma decode_hex_is_bytes s vs : decode_hex s = Ok vs -> bytes vs.
Proof. unfold decode_hex. case_match; [done|]. apply decode_pairs_bytes. Qed.

(** ** Checksums *)
Lemma byte_sum_acc bs : forall acc,
  fold_left (fun s b => (s + b) mod 256) bs (acc mod 256) = (acc + fold_right Z.add 0 bs) mod 256.
Proof.
  induction bs as [|b bs IH]; intros acc; cbn [fold_left fold_right]; [by rewrite Z.add_0_r|].
  rewrite Z.add_mod_idemp_l, IH by lia. f_equal. lia.
Qed.
Lemma byte_sum_spec bs : byte_sum bs = fold_right Z.add 0 bs mod 256.
Proof. unfold byte_sum. rewrite <- (Z.add_0_l (fold_right _ _ _)). by rewrite <- byte_sum_acc. Qed.
Lemma fold_right_add_snoc bs c : fold_right Z.add 0 (bs ++ [c]) = fold_right Z.add 0 bs + c.
Proof. induction bs as [|b bs IH]; cbn in *; lia. Qed.

Lemma checksum_iff bs c : is_u8 c -> (byte_sum (bs ++ [c]) = 0 <-> bs ++ [c] = checksummed bs).
Proof.
  intros Hc. unfold checksummed. rewrite !byte_sum_spec, fold_right_add_snoc.
  set (n := fold_right Z.add 0 bs). split.
  - intros H. do 2 f_equal. apply (Z.mod_unique _ _ (- (n mod 256 + c) / 256)); [lia|].
    Z.div_mod_to_equations. lia.
  - intros H%app_inj_tail. destruct H as [_ ->]. Z.div_mod_to_equations. lia.
Qed.

(** ** One record *)
Lemma record_bytes_ok rtype addr data : is_u8 rtype -> is_u16 addr -> bytes data -> len data <= 255 ->
  bytes (record_bytes rtype addr data).
Proof.
  intros Ht Ha Hd Hl. pose proof (len_nonneg data). unfold record_bytes, checksummed.
  rewrite bytes_snoc. split; [|apply Z.mod_pos_bound; lia].
  cbn [app]. rewrite !bytes_cons. split_and!; try done; try lia;
    Z.div_mod_to_equations; lia.
Qed.

Lemma record_line_shape rtype addr data : is_u8 rtype -> is_u16 addr -> bytes data -> len data <= 255 ->
  exists body d, record_line rtype addr data = 0x3A :: body ++ [d]
    /\ 0x30 <= d <= 0x46 /\ Forall (fun c => 0x30 <= c <= 0x46) body.
Proof.
  intros. pose proof (hex_bytes_ascii _ (record_bytes_ok rtype addr data ltac:(done) ltac:(done) ltac:(done) ltac:(done))) as Ha.
  unfold record_line. destruct (hex_bytes _) as [|d l _] eqn:E using rev_ind.
  - apply (f_equal length) in E. rewrite hex_bytes_length in E. unfold record_bytes, checksummed in E.
    rewrite length_app in E. simpl in E. lia.
  - rewrite Forall_app, Forall_singleton in Ha. destruct Ha as [Hl Hd]. exists l, d.
    split_and!; first [done|lia].
Qed.

Lemma digit_not_whitespace d : 0x30 <= d <= 0x46 -> is_whitespace d = false.
Proof.
  intros Hd.
  assert (negb ((0x30 <=? d) && (d <=? 0x46) && is_whitespace d) = true) as H.
  { apply (forall_u8 (fun d => negb ((0x30 <=? d) && (d <=? 0x46) && is_whitespace d)));
      [by vm_compute|lia]. }
  rewrite !(proj2 (Z.leb_le _ _)) in H by lia. by destruct (is_whitespace d).
Qed.

Lemma record_line_trim rtype addr data : is_u8 rtype -> is_u16 addr -> bytes data -> len data <= 255 ->
  trim (record_line rtype addr data) = record_line rtype addr data.
Proof.
  intros Ht Ha Hd Hl. destruct (record_line_shape rtype addr data) as (body & d & -> & Hc & _); [done..|].
  apply trim_id; [done|]. by apply digit_not_whitespace.
Qed.

(** What [parse_line] makes of the bytes behind the colon. *)
Definition apply_record (bs : list Z) (out : list Z) : result (list Z * bool) line_error :=
  match bs with
  | ll :: addr_hi :: addr_lo :: rtype :: rest =>
    match split_last rest with
    | None => Err MissingChecksum
    | Some (_cc, data) =>
      if negb (len data =? ll) then Err (LengthMismatch ll (len data)) else
      if negb (byte_sum bs =? 0) then Err ChecksumMismatch else
      let addr := u16_from_be_bytes addr_hi addr_lo in
      if rtype =? 0x00 then Ok (place out addr data, false)
      else if rtype =? 0x01 then Ok (out, true)
      else if (rtype =? 0x02) || (rtype =? 0x04) then Err (ExtendedAddress rtype)
      else if (rtype =? 0x03) || (rtype =? 0x05) then Ok (out, false)
      else Err (UnsupportedType rtype)
    end
  | _ => Err (TooShort (len bs))
  end.

Lemma parse_line_colon raw hex out : trim raw = 0x3A :: hex ->
  parse_line raw out false =
    match decode_hex hex with Err e => Err (BadDigits e) | Ok bs => apply_record bs out end.
Proof.
  intros Ht. unfold parse_line. rewrite Ht. destruct (decide _) as [?|_]; [done|].
  assert (strip_prefix (str ":") (0x3A :: hex) = Some hex) as ->.
  { unfold strip_prefix. change (str ":") with [0x3A]. cbn [length take].
    rewrite decide_True by (by rewrite take_0). cbn. by rewrite drop_0. }
  destruct (decode_hex hex) as [bs|e]; [|done].
  unfold apply_record. destruct bs as [|? [|? [|? [|? rest]]]]; try done.
Qed.

Lemma apply_record_bytes rtype addr data out : is_u8 rtype -> is_u16 addr -> bytes data ->
  len data <= 255 ->
  apply_record (record_bytes rtype addr data) out =
    if rtype =? 0x00 then Ok (place out addr data, false)
    else if rtype =? 0x01 then Ok (out, true)
    else if (rtype =? 0x02) || (rtype =? 0x04) then Err (ExtendedAddress rtype)
    else if (rtype =? 0x03) || (rtype =? 0x05) then Ok (out, false)
    else Err (UnsupportedType rtype).
Proof.
  intros Ht Ha Hd Hl. unfold record_bytes at 1, checksummed. cbn [app apply_record].
  set (c := - byte_sum _ mod 256). rewrite split_last_snoc, Z.eqb_refl. cbn [negb].
  assert (byte_sum (len data :: addr / 256 :: addr mod 256 :: rtype :: data ++ [c]) = 0) as ->.
  { change (len data :: addr / 256 :: addr mod 256 :: rtype :: data ++ [c])
      with (([len data; addr / 256; addr mod 256; rtype] ++ data) ++ [c]).
    apply checksum_iff; [apply Z.mod_pos_bound; lia|done]. }
  cbn [Z.eqb negb]. unfold u16_from_be_bytes.
  replace (256 * (addr / 256) + addr mod 256) with addr by (Z.div_mod_to_equations; lia). done.
Qed.

Lemma parse_record_line rtype addr data out : is_u8 rtype -> is_u16 addr -> bytes data ->
  len data <= 255 ->
  parse_line (record_line rtype addr data) out false
    = apply_record (record_bytes rtype addr data) out.
Proof.
  intros. rewrite (parse_line_colon _ (hex_bytes (record_bytes rtype addr data)))
    by (by rewrite record_line_trim).
  by rewrite decode_hex_bytes by (by apply record_bytes_ok).
Qed.

(** The other direction: an accepted line with data carries a well-formed
    record. *)
Lemma apply_record_inv bs out out' eof : bytes bs -> apply_record bs out = Ok (out', eof) ->
  (eof = false /\ exists r, record_ok r /\ bs = record_bytes 0 r.1 r.2 /\ out' = place out r.1 r.2)
  \/ out' = out.
Proof.
  intros Hb. unfold apply_record.
  destruct bs as [|ll [|hi [|lo [|rtype rest]]]]; try done.
  destruct (split_last rest) as [[cc data]|] eqn:Hs; [|done]. apply split_last_Some in Hs as ->.
  destruct (Z.eqb_spec (len data) ll) as [<-|]; [|done]. cbn [negb].
  destruct (Z.eqb_spec (byte_sum (len data :: hi :: lo :: rtype :: data ++ [cc])) 0) as [Hsum|];
    [|done]. cbn [negb].
  change (len data :: hi :: lo :: rtype :: data ++ [cc])
    with (([len data; hi; lo; rtype] ++ data) ++ [cc]) in *.
  apply bytes_snoc in Hb as [Hb Hcc]. apply checksum_iff in Hsum; [|done].
  cbn [app] in Hb. rewrite !bytes_cons in Hb. destruct Hb as (Hl & Hhi & Hlo & Ht & Hd).
  destruct (Z.eqb_spec rtype 0) as [->|_].
  - intros [= <- <-]. left. split; [done|]. exists (u16_from_be_bytes hi lo, data).
    unfold record_ok, u16_from_be_bytes; cbn [fst snd]. split_and!; [lia..|done|lia| |done].
    rewrite Hsum. unfold record_bytes. do 2 f_equal. cbn [app]. repeat f_equal; Z.div_mod_to_equations; lia.
  - repeat case_match; try done; intros [= <- <-]; by right.
Qed.

(** ** Images *)
Lemma len_place out addr data : 0 <= addr ->
  len (place out addr data) = Z.max (len out) (addr + len data).
Proof.
  intros. pose proof (len_nonneg data). unfold place. cbv zeta. zcase.
  - rewrite len_overwrite; rewrite ?len_app, ?len_replicate; lia.
  - rewrite len_overwrite; lia.
Qed.

Lemma lookup_place out addr data a : 0 <= addr -> 0 <= a ->
  default 0xFF (place out addr data !! Z.to_nat a) =
    if covers (addr, data) a then default (default 0xFF (out !! Z.to_nat a)) (data !! Z.to_nat (a - addr))
    else default 0xFF (out !! Z.to_nat a).
Proof.
  intros Haddr Ha. pose proof (len_nonneg data). unfold place, covers. cbn [fst snd]. cbv zeta.
  assert (forall l, addr + len data <= len l ->
    (forall a, default 0xFF (l !! Z.to_nat a) = default 0xFF (out !! Z.to_nat a)) ->
    default 0xFF (overwrite addr data l !! Z.to_nat a) =
      if (addr <=? a) && (a <? addr + len data)
      then default (default 0xFF (out !! Z.to_nat a)) (data !! Z.to_nat (a - addr))
      else default 0xFF (out !! Z.to_nat a)) as Hov.
  { intros l Hl Heq. rewrite lookup_overwrite by done.
    destruct ((addr <=? a) && (a <? addr + len data)) eqn:Hc; [|apply Heq].
    apply andb_true_iff in Hc as [?%Z.leb_le ?%Z.ltb_lt].
    destruct (lookup_len_is_Some (a - addr) data) as [x ->]; [lia|done]. }
  destruct (Z.ltb_spec (len out) (addr + len data)); apply Hov; try done.
  - rewrite len_app, len_replicate. lia.
  - intros a'. destruct (decide (Z.to_nat a' < length out)%nat).
    + by rewrite lookup_app_l.
    + rewrite lookup_app_r by lia. rewrite (lookup_ge_None_2 out) by lia.
      destruct (replicate _ 255 !! _) as [x|] eqn:Hx; [|done].
      by apply lookup_replicate in Hx as [-> _].
Qed.

Lemma image_of_len rs : Forall record_ok rs -> len (image_of rs) = extent rs.
Proof.
  intros Hrs. unfold image_of, extent.
  enough (forall out n, len out = n ->
    len (fold_left (fun out (r : record) => place out r.1 r.2) rs out)
      = fold_left (fun n (r : record) => Z.max n (r.1 + len r.2)) rs n) as H by (by apply H).
  induction Hrs as [|r rs [Hr _] _ IH]; intros out n Hn; [done|]. cbn [fold_left].
  apply IH. rewrite len_place by lia. by rewrite Hn.
Qed.

Lemma image_of_byte rs a : Forall record_ok rs -> 0 <= a ->
  default 0xFF (image_of rs !! Z.to_nat a) = byte_at rs a.
Proof.
  intros Hrs Ha. unfold image_of, byte_at.
  enough (forall out v, default 0xFF (out !! Z.to_nat a) = v ->
    default 0xFF (fold_left (fun out (r : record) => place out r.1 r.2) rs out !! Z.to_nat a)
      = fold_left (fun v (r : record) => if covers r a then default v (r.2 !! Z.to_nat (a - r.1)) else v) rs v)
    as H by (by apply H).
  induction Hrs as [|r rs [Hr _] _ IH]; intros out v Hv; [done|]. cbn [fold_left].
  apply IH. rewrite lookup_place by lia. destruct r as [addr data]; cbn [fst snd] in *.
  by rewrite Hv.
Qed.

(** ** Whole files *)
Lemma record_line_clean rtype addr data : is_u8 rtype -> is_u16 addr -> bytes data -> len data <= 255 ->
  Forall (fun x => x <> 10) (record_line rtype addr data)
  /\ strip_cr (record_line rtype addr data) = record_line rtype addr data.
Proof.
  intros Ht Ha Hd Hl. destruct (record_line_shape rtype addr data) as (body & d & -> & Hc & Hb); [done..|].
  split.
  - constructor; [lia|]. apply Forall_app. split; [|constructor; [lia|done]].
    eapply Forall_impl; [exact Hb|]. simpl. lia.
  - unfold strip_cr. change (0x3A :: body ++ [d]) with ((0x3A :: body) ++ [d]).
    rewrite split_last_snoc. destruct (decide (d = 13)) as [->|]; [lia|].
    by repeat case_match.
Qed.

Lemma parse_lines_records rs : forall ls lineno out, Forall record_ok rs ->
  parse_lines (((fun r : record => record_line 0 r.1 r.2) <$> rs) ++ ls) lineno out false
    = parse_lines ls (lineno + len rs)
        (fold_left (fun out (r : record) => place out r.1 r.2) rs out) false.
Proof.
  induction rs as [|r rs IH]; intros ls lineno out Hrs; [cbn; f_equal; unfold len; simpl; lia|].
  apply Forall_cons in Hrs as [(Ha & Hb & Hl) Hrs]. cbn [fmap list_fmap app parse_lines fold_left].
  rewrite parse_record_line, apply_record_bytes by done. cbn [Z.eqb].
  fold (fmap (M:=list) (fun r : record => record_line 0 r.1 r.2)).
  rewrite IH by done. rewrite len_cons. f_equal. lia.
Qed.

Lemma parse_lines_inv ls : forall lineno out saw out' eof,
  parse_lines ls lineno out saw = Ok (out', eof) ->
  exists rs, Forall record_ok rs
    /\ out' = fold_left (fun out (r : record) => place out r.1 r.2) rs out
    /\ Forall (fun r : record => exists l hex, l ∈ ls /\ trim l = 0x3A :: hex
         /\ decode_hex hex = Ok (record_bytes 0 r.1 r.2)) rs.
Proof.
  induction ls as [|l ls IH]; intros lineno out saw out' eof; cbn [parse_lines].
  { intros [= <- <-]. by exists []. }
  destruct (parse_line l out saw) as [[out1 saw1]|e] eqn:Hl; [|done].
  intros (rs & Hrs & -> & Hsrc)%IH.
  assert (Forall (fun r : record => exists l0 hex, l0 ∈ l :: ls /\ trim l0 = 0x3A :: hex
    /\ decode_hex hex = Ok (record_bytes 0 r.1 r.2)) rs) as Hsrc'.
  { eapply Forall_impl; [exact Hsrc|]. intros r (l0 & hex & Hin & ? & ?). exists l0, hex.
    split_and!; [by right|done..]. }
  assert (out1 = out \/ exists r hex, record_ok r /\ out1 = place out r.1 r.2
    /\ trim l = 0x3A :: hex /\ decode_hex hex = Ok (record_bytes 0 r.1 r.2)) as [->|Hr].
  { destruct (decide (trim l = [])) as [He|Hne].
    { unfold parse_line in Hl. rewrite decide_True in Hl by done. left. congruence. }
    destruct saw.
    { unfold parse_line in Hl. by rewrite decide_False in Hl by done. }
    destruct (strip_prefix (str ":") (trim l)) as [hex|] eqn:Hsp.
    2: { unfold parse_line in Hl. rewrite decide_False, Hsp in Hl by done. done. }
    assert (trim l = 0x3A :: hex) as Ht.
    { unfold strip_prefix in Hsp. case_decide as Hd; [|done]. injection Hsp as <-.
      change (str ":") with [0x3A] in *. cbn [length] in *.
      rewrite <- (take_drop 1 (trim l)) at 1. by rewrite Hd. }
    rewrite (parse_line_colon _ hex) in Hl by done.
    destruct (decode_hex hex) as [bs|] eqn:Hdh; [|done].
    apply apply_record_inv in Hl as [(_ & r & Hr & -> & ->)| -> ];
      [right; by exists r, hex|by left|by eapply decode_hex_is_bytes]. }
  - by exists rs.
  - destruct Hr as (r & hex & Hok & -> & Ht & Hd). exists (r :: rs). split_and!.
    + by constructor.
    + done.
    + constructor; [|done]. exists l, hex. split_and!; [by left|done..].
Qed.

Lemma place_bytes out addr data : bytes out -> bytes data -> bytes (place out addr data).
Proof.
  intros Ho Hd. unfold place. apply bytes_overwrite; [done|]. case_match; [|done].
  apply bytes_app. split; [done|by apply bytes_replicate].
Qed.

Lemma parse_is_bytes input out : parse input = Ok out -> bytes out.
Proof.
  unfold parse. destruct (parse_lines _ _ _ _) as [[o eof]|] eqn:Hp; [|done].
  destruct eof; [|done]. intros [= <-]. apply parse_lines_inv in Hp as (rs & Hrs & -> & _).
  assert (bytes []) as Hn by constructor. revert Hn. generalize (@nil Z) as acc.
  induction Hrs as [|r rs (_ & Hr & _) _ IH]; intros acc Hacc; [done|]. cbn [fold_left].
  by apply IH, place_bytes.
Qed.

(** ** Properties *)

(** C37: reading back a rendered HEX file gives the image its records stand
    for, whatever their order, overlaps and gaps: as long as the furthest
    record reaches, each address holding the byte of the last record that
    covers it, and erased flash where none does. *)
Theorem parse_render rs : Forall record_ok rs ->
  parse (render rs) = Ok (image_of rs)
  /\ len (image_of rs) = extent rs
  /\ forall a, 0 <= a -> default 0xFF (image_of rs !! Z.to_nat a) = byte_at rs a.
Proof.
  intros Hrs. split; [|split; [by apply image_of_len|intros; by apply image_of_byte]].
  unfold parse, render. rewrite lines_unlines.
  - rewrite parse_lines_records by done. cbn [parse_lines].
    rewrite parse_record_line, apply_record_bytes by (done || by constructor). done.
  - apply Forall_app. split; [|constructor; [by apply record_line_clean|constructor]].
    apply Forall_fmap. eapply Forall_impl; [exact Hrs|]. intros r (? & ? & ?). simpl.
    by apply record_line_clean.
Qed.

(** C38: nothing is made up: whatever text is accepted, the image is that of a
    sequence of well-formed data records each of which stands, colon, length,
    address, type, data and matching checksum, on a line of the file. *)
Theorem parse_sound input out : parse input = Ok out ->
  exists rs, Forall record_ok rs /\ out = image_of rs
    /\ len out = extent rs
    /\ Forall (fun r : record => exists l hex, l ∈ lines input /\ trim l = 0x3A :: hex
         /\ decode_hex hex = Ok (record_bytes 0 r.1 r.2)) rs.
Proof.
  unfold parse. destruct (parse_lines _ _ _ _) as [[o eof]|] eqn:Hp; [|done].
  destruct eof; [|done]. intros [= <-].
  apply parse_lines_inv in Hp as (rs & Hrs & -> & Hsrc). exists rs.
  split_and!; [done|done|by apply image_of_len|done].
Qed.

Lemma sample_records_ok : Forall record_ok [(2, [7; 8]); (0, [1])].
Proof.
  rewrite !Forall_cons, Forall_nil. unfold record_ok. cbn [fst snd]. rewrite !bytes_cons.
  split_and!; first [lia|constructor|by vm_compute].
Qed.

Lemma parse_render_witness :
  parse (render [(2, [7; 8]); (0, [1])]) = Ok (image_of [(2, [7; 8]); (0, [1])])
  /\ image_of [(2, [7; 8]); (0, [1])] = [1; 0xFF; 7; 8].
Proof.
  split; [|vm_compute; reflexivity].
  exact (proj1 (parse_render [(2, [7; 8]); (0, [1])] sample_records_ok)).
Defined.

Example parse_golden :
  parse (str ":04000000DEADBEEFC4" ++ [10] ++ str ":00000001FF" ++ [10]) = Ok [0xDE; 0xAD; 0xBE; 0xEF].
Proof. vm_compute. reflexivity. Qed.

Lemma parse_sound_witness :
  exists rs, Forall record_ok rs /\ [0xDE; 0xAD; 0xBE; 0xEF] = image_of rs.
Proof.
  destruct (parse_sound (str ":04000000DEADBEEFC4" ++ [10] ++ str ":00000001FF" ++ [10])
    [0xDE; 0xAD; 0xBE; 0xEF] ltac:(vm_compute; reflexivity)) as (rs & Hrs & He & _).
  exists rs. split; [exact Hrs|exact He].
Defined.

(** The digit reader takes a sign for a digit: [u8::from_str_radix] accepts
    [+F], so a record with plus signs in it is read, not refused. *)
Example decode_hex_accepts_sign : decode_hex (str "+F") = Ok [15].
Proof. vm_compute. reflexivity. Qed.
