(* ===== verification/Install.v ===== *)
(** The bootloader installer ([updater-cli/src/install.rs]): configuration
    checks, template expansion, planning and the run that resolves every tool
    before it starts any. The TOML reader, the file system, the [PATH]
    variable and the spawned programs are parameters. *)
From S2P Require Import Prelude Text.

Record Target := mkTarget {
  tg_tool : text;
  tg_args : list text;
  tg_pre : list (list text);
  tg_port_arg : option text;
}.

(** [BTreeMap<String, Target>], in key order. *)
Definition InstallConfig : Type := list (text * Target).

Record Invocation := mkInvocation { inv_tool : text; inv_args : list text }.

Inductive install_error (E : Type) :=
| NoConfig
| ReadConfig (path : text) (e : E)
| ParseToml (e : E)
| EmptyTool (target : text)
| EmptyPre (target : text) (i : Z)
| NoTarget (name : text) (available : list text)
| NoImage
| ImageNotUtf8
| UnclosedBrace (arg : text)
| NeedsPort (arg : text)
| UnknownPlaceholder (other arg : text)
| PortNotAccepted (port : text)
| ToolNotExecutable (tool : text)
| ToolNotFound (tool : text)
| SpawnFailed (exe : text) (e : E)
| ExitStatus (exe : text) (code : Z)
| KilledBySignal (exe : text)
| IndexPanic.
Arguments NoConfig {E}.
Arguments ReadConfig {E} path e.
Arguments ParseToml {E} e.
Arguments EmptyTool {E} target.
Arguments EmptyPre {E} target i.
Arguments NoTarget {E} name available.
Arguments NoImage {E}.
Arguments ImageNotUtf8 {E}.
Arguments UnclosedBrace {E} arg.
Arguments NeedsPort {E} arg.
Arguments UnknownPlaceholder {E} other arg.
Arguments PortNotAccepted {E} port.
Arguments ToolNotExecutable {E} tool.
Arguments ToolNotFound {E} tool.
Arguments SpawnFailed {E} exe e.
Arguments ExitStatus {E} exe code.
Arguments KilledBySignal {E} exe.
Arguments IndexPanic {E}.

Section install.
Context {E : Type}.
Abbreviation res A := (result A (install_error E)).

(** ** Configuration *)
Definition blank (s : text) : bool := bool_decide (trim s = []).

Fixpoint check_pre (name : text) (i : Z) (steps : list (list text)) : res unit :=
  match steps with
  | [] => Ok tt
  | step :: steps =>
      if match step with [] => true | tool :: _ => blank tool end then Err (EmptyPre name i)
      else check_pre name (i + 1) steps
  end.

Fixpoint check_targets (cfg : InstallConfig) : res unit :=
  match cfg with
  | [] => Ok tt
  | (name, t) :: cfg =>
      if blank (tg_tool t) then Err (EmptyTool name) else
      match check_pre name 0 (tg_pre t) with
      | Err e => Err e
      | Ok _ => check_targets cfg
      end
  end.

Definition parse_config (toml : text -> result InstallConfig E) (input : text) : res InstallConfig :=
  match toml input with
  | Err e => Err (ParseToml e)
  | Ok cfg =>
    match check_targets cfg with Err e => Err e | Ok _ => Ok cfg end
  end.

Fixpoint target (cfg : InstallConfig) (name : text) (available : list text) : res Target :=
  match cfg with
  | [] => Err (NoTarget name available)
  | (n, t) :: cfg => if decide (n = name) then Ok t else target cfg name available
  end.

(** ** Templates *)

(** The loop of [expand_one]: the output so far, the rest of the argument and
    the [port_consumed] flag. One unit of fuel per opening brace. *)
Fixpoint expand_loop (fuel : nat) (arg image : text) (port : option text) (out rest : text)
    (port_consumed : bool) : res text * bool :=
  match fuel with
  | O => (Ok (out ++ rest), port_consumed)
  | S fuel =>
    match split_once 0x7B rest with
    | None => (Ok (out ++ rest), port_consumed)
    | Some (before, after) =>
      let out := out ++ before in
      match split_once 0x7D after with
      | None => (Err (UnclosedBrace arg), port_consumed)
      | Some (name, rest) =>
        if decide (name = str "image")
        then expand_loop fuel arg image port (out ++ image) rest port_consumed
        else if decide (name = str "port") then
          match port with
          | None => (Err (NeedsPort arg), port_consumed)
          | Some p => expand_loop fuel arg image port (out ++ p) rest true
          end
        else (Err (UnknownPlaceholder name arg), port_consumed)
      end
    end
  end.

Definition expand_one (arg image : text) (port : option text) (port_consumed : bool)
  : res text * bool :=
  expand_loop (S (length arg)) arg image port [] arg port_consumed.

Fixpoint expand_args (args : list text) (image : text) (port : option text) (port_consumed : bool)
  : res (list text) * bool :=
  match args with
  | [] => (Ok [], port_consumed)
  | arg :: args =>
    match expand_one arg image port port_consumed with
    | (Err e, port_consumed) => (Err e, port_consumed)
    | (Ok a, port_consumed) =>
      match expand_args args image port port_consumed with
      | (Err e, port_consumed) => (Err e, port_consumed)
      | (Ok l, port_consumed) => (Ok (a :: l), port_consumed)
      end
    end
  end.

(** The [for step in &target.pre] loop; [step[0]] would panic on an empty
    step. *)
Fixpoint plan_pre (steps : list (list text)) (image : text) (port : option text) (port_consumed : bool)
  : res (list Invocation) * bool :=
  match steps with
  | [] => (Ok [], port_consumed)
  | [] :: _ => (Err IndexPanic, port_consumed)
  | (tool :: args) :: steps =>
    match expand_args args image port port_consumed with
    | (Err e, port_consumed) => (Err e, port_consumed)
    | (Ok args, port_consumed) =>
      match plan_pre steps image port port_consumed with
      | (Err e, port_consumed) => (Err e, port_consumed)
      | (Ok l, port_consumed) => (Ok (mkInvocation tool args :: l), port_consumed)
      end
    end
  end.

Definition plan (t : Target) (image : text) (port : option text) : res (list Invocation) :=
  match plan_pre (tg_pre t) image port false with
  | (Err e, _) => Err e
  | (Ok out, port_consumed) =>
    match expand_args (tg_args t) image port port_consumed with
    | (Err e, _) => Err e
    | (Ok args, port_consumed) =>
      match port with
      | Some p =>
          if port_consumed then Ok (out ++ [mkInvocation (tg_tool t) args])
          else match tg_port_arg t with
               | None => Err (PortNotAccepted p)
               | Some flag => Ok (out ++ [mkInvocation (tg_tool t) (args ++ [flag; p])])
               end
      | None => Ok (out ++ [mkInvocation (tg_tool t) args])
      end
    end
  end.

(** ** Tools *)

(** [Path::new(dir).join(tool)] for a relative [tool]. *)
Definition join (dir tool : text) : text :=
  match last dir with Some 0x2F => dir ++ tool | _ => dir ++ [0x2F] ++ tool end.

Fixpoint search_path (is_executable : text -> bool) (tool : text) (dirs : list text) : res text :=
  match dirs with
  | [] => Err (ToolNotFound tool)
  | dir :: dirs =>
      let candidate := join dir tool in
      if is_executable candidate then Ok candidate else search_path is_executable tool dirs
  end.

Definition resolve_tool_in (is_executable : text -> bool) (tool path_var : text) : res text :=
  if bool_decide (0x2F ∈ tool) then
    if is_executable tool then Ok tool else Err (ToolNotExecutable tool)
  else search_path is_executable tool
         (List.filter (fun d => negb (bool_decide (d = []))) (split_on 0x3A path_var)).

Fixpoint resolve_all (resolve_tool : text -> res text) (invs : list Invocation) : res (list text) :=
  match invs with
  | [] => Ok []
  | inv :: invs =>
    match resolve_tool (inv_tool inv) with
    | Err e => Err e
    | Ok exe =>
      match resolve_all resolve_tool invs with Err e => Err e | Ok l => Ok (exe :: l) end
    end
  end.

(** ** The run *)

(** How a spawned program ends: it cannot be started, exits, or is killed. *)
Inductive exit := NotStarted (e : E) | Code (code : Z) | Signal.

(** [std::fs::Metadata], as far as it is looked at. *)
Record Metadata := mkMetadata { md_is_file : bool; md_mode : Z }.

(** What the run reads of its surroundings, and the programs it starts, which
    act on the rest of the world [W]. *)
Record Env (W : Type) := mkEnv {
  env_read_to_string : text -> result text E;
  env_toml : text -> result InstallConfig E;
  env_metadata : text -> result Metadata E;
  env_to_str : text -> option text;
  env_path_var : result text E;
  env_spawn : text -> list text -> W -> exit * W;
}.

Arguments env_read_to_string {W}.
Arguments env_toml {W}.
Arguments env_metadata {W}.
Arguments env_to_str {W}.
Arguments env_path_var {W}.
Arguments env_spawn {W}.

Context {W : Type}.

(** [Path::is_file] *)
Definition is_file (env : Env W) (path : text) : bool :=
  match env_metadata env path with Ok m => md_is_file m | Err _ => false end.

(** A regular file with an execute bit, [0o111]. *)
Definition is_executable (env : Env W) (path : text) : bool :=
  match env_metadata env path with
  | Ok m => md_is_file m && negb (Z.land (md_mode m) 0x49 =? 0)
  | Err _ => false
  end.

Definition resolve_tool (env : Env W) (tool : text) : res text :=
  resolve_tool_in (is_executable env) tool
    (match env_path_var env with Ok path_var => path_var | Err _ => [] end).

(** The text, and the name used in error messages. *)
Definition read_config (env : Env W) (explicit : option text) : res (text * text) :=
  let path :=
    match explicit with
    | Some p => Ok p
    | None => let p := str "install.toml" in if negb (is_file env p) then Err NoConfig else Ok p
    end in
  match path with
  | Err e => Err e
  | Ok path =>
    match env_read_to_string env path with
    | Err e => Err (ReadConfig path e)
    | Ok input => Ok (input, path)
    end
  end.

Fixpoint run_all (spawn : text -> list text -> W -> exit * W) (cmds : list (Invocation * text)) (w : W)
  : res unit * W :=
  match cmds with
  | [] => (Ok tt, w)
  | (inv, exe) :: cmds =>
    match spawn exe (inv_args inv) w with
    | (NotStarted e, w) => (Err (SpawnFailed exe e), w)
    | (Code 0, w) => run_all spawn cmds w
    | (Code code, w) => (Err (ExitStatus exe code), w)
    | (Signal, w) => (Err (KilledBySignal exe), w)
    end
  end.

(** Everything ahead of the first spawn. *)
Definition prepare (env : Env W) (target_name image : text) (port config : option text)
  : res (list (Invocation * text)) :=
  match read_config env config with
  | Err e => Err e
  | Ok (input, _source) =>
    match parse_config (env_toml env) input with
    | Err e => Err e
    | Ok cfg =>
      match target cfg target_name (fst <$> cfg) with
      | Err e => Err e
      | Ok t =>
        if negb (is_file env image) then Err NoImage else
        match env_to_str env image with
        | None => Err ImageNotUtf8
        | Some image_str =>
          match plan t image_str port with
          | Err e => Err e
          | Ok invocations =>
            match resolve_all (resolve_tool env) invocations with
            | Err e => Err e
            | Ok resolved => Ok (zip invocations resolved)
            end
          end
        end
      end
    end
  end.

Definition run_cli (env : Env W) (target_name image : text) (port config : option text) (w : W)
  : res unit * W :=
  match prepare env target_name image port config with
  | Err e => (Err e, w)
  | Ok cmds => run_all (env_spawn env) cmds w
  end.

(** ** Specification *)

(** A template argument read as literal text and placeholders. *)
Inductive seg := Lit (s : text) | Image | Port.

Definition seg_ok (s : seg) : Prop := match s with Lit s => 0x7B ∉ s | _ => True end.
Definition seg_source (s : seg) : text :=
  match s with Lit s => s | Image => str "{image}" | Port => str "{port}" end.
Definition template (segs : list seg) : text := concat (seg_source <$> segs).
Definition seg_value (image p : text) (s : seg) : text :=
  match s with Lit s => s | Image => image | Port => p end.
Definition is_port (s : seg) : bool := match s with Port => true | _ => false end.
Definition uses_port (segs : list seg) : bool := existsb is_port segs.

(** [arg] is a template without port placeholder, or with one and a port to
    put there; [out] is its text with every placeholder replaced once. *)
Definition expands (image : text) (port : option text) (arg out : text) (used : bool) : Prop :=
  exists segs, Forall seg_ok segs /\ arg = template segs /\ used = uses_port segs
    /\ (used = true -> is_Some port)
    /\ out = concat (seg_value image (default [] port) <$> segs).

End install.
Arguments Env E W : clear implicits.
Arguments mkEnv {E W}.
Arguments env_read_to_string {E W}.
Arguments env_toml {E W}.
Arguments env_metadata {E W}.
Arguments env_to_str {E W}.
Arguments env_path_var {E W}.
Arguments env_spawn {E W}.

(** ** Template expansion *)
Lemma split_once_Some c s b a : split_once c s = Some (b, a) <-> s = b ++ c :: a /\ c ∉ b.
Proof.
  revert b. induction s as [|x s IH]; intros b; cbn [split_once].
  - split; [done|]. intros [H _]. by destruct b.
  - destruct (Z.eqb_spec x c) as [->|Hne].
    + split.
      * intros [= <- <-]. split; [done|apply not_elem_of_nil].
      * intros [H Hb]. destruct b as [|y b]; [by injection H as ->|].
        injection H as <- _. destruct Hb. left.
    + destruct (split_once c s) as [[b' a']|].
      * split.
        -- intros [= <- <-]. destruct (proj1 (IH b') eq_refl) as [-> Hb].
           split; [done|]. by apply not_elem_of_cons.
        -- intros [H Hb]. destruct b as [|y b]; [by injection H as ->|]. injection H as <- H.
           apply not_elem_of_cons in Hb as [_ Hb]. by injection (proj2 (IH b) (conj H Hb)) as -> ->.
      * split; [done|]. intros [H Hb]. destruct b as [|y b]; [by injection H as ->|].
        injection H as <- H. apply not_elem_of_cons in Hb as [_ Hb].
        by discriminate (proj2 (IH b) (conj H Hb)).
Qed.
Lemma split_once_None c s : split_once c s = None -> c ∉ s.
Proof.
  induction s as [|x s IH]; cbn [split_once]; [intros _; apply not_elem_of_nil|].
  destruct (Z.eqb_spec x c) as [->|Hne]; [done|].
  destruct (split_once c s) as [[? ?]|]; [done|]. intros H. by apply not_elem_of_cons; auto.
Qed.
Lemma split_once_skip c b s : c ∉ b ->
  split_once c (b ++ s) =
    match split_once c s with Some (b', a) => Some (b ++ b', a) | None => None end.
Proof.
  induction b as [|x b IH]; intros Hb; cbn [app split_once].
  - by destruct (split_once c s) as [[? ?]|].
  - apply not_elem_of_cons in Hb as [Hx Hb]. rewrite IH by done.
    destruct (Z.eqb_spec x c) as [->|]; [done|]. by destruct (split_once c s) as [[? ?]|].
Qed.

Section expand.
Context {E : Type}.
Abbreviation expand := (expand_loop (E:=E)).

Lemma expand_loop_inv fuel : forall arg image port out rest pc o pc',
  (length rest < fuel)%nat ->
  expand fuel arg image port out rest pc = (Ok o, pc') ->
  exists segs, Forall seg_ok segs /\ rest = template segs
    /\ pc' = pc || uses_port segs /\ (uses_port segs = true -> is_Some port)
    /\ o = out ++ concat (seg_value image (default [] port) <$> segs).
Proof.
  induction fuel as [|fuel IH]; intros arg image port out rest pc o pc' Hf; [lia|].
  cbn [expand_loop]. destruct (split_once 0x7B rest) as [[before after]|] eqn:Ho.
  2: { intros [= <- <-]. apply split_once_None in Ho. exists [Lit rest].
       split_and!; [by repeat constructor| | |done|]; cbn; rewrite ?app_nil_r, ?orb_false_r; done. }
  apply split_once_Some in Ho as [-> Hb].
  destruct (split_once 0x7D after) as [[name rest']|] eqn:Hc; [|done].
  apply split_once_Some in Hc as [-> _].
  assert (length rest' < fuel)%nat as Hf'.
  { rewrite !length_app in Hf. cbn [length] in Hf. rewrite length_app in Hf. cbn [length] in Hf. lia. }
  destruct (decide (name = str "image")) as [->|_]; [|destruct (decide (name = str "port")) as [->|_]].
  - intros (segs & Hok & -> & -> & Hp & ->)%IH; [|done]. exists (Lit before :: Image :: segs).
    split_and!; [by repeat constructor| |done|done|].
    + unfold template. cbn [fmap list_fmap concat seg_source]. by rewrite <- ?app_assoc.
    + cbn [fmap list_fmap concat seg_value]. by rewrite <- ?app_assoc.
  - destruct port as [p|]; [|done].
    intros (segs & Hok & -> & -> & Hp & ->)%IH; [|done]. exists (Lit before :: Port :: segs).
    split_and!; [by repeat constructor| |by destruct pc|by eexists|].
    + unfold template. cbn [fmap list_fmap concat seg_source]. by rewrite <- ?app_assoc.
    + cbn [fmap list_fmap concat seg_value default]. by rewrite <- ?app_assoc.
  - done.
Qed.

Lemma expand_loop_lit fuel arg image port out s rest pc : 0x7B ∉ s ->
  expand fuel arg image port out (s ++ rest) pc = expand fuel arg image port (out ++ s) rest pc.
Proof.
  intros Hs. destruct fuel as [|fuel]; cbn [expand_loop]; [by rewrite app_assoc|].
  rewrite split_once_skip by done. destruct (split_once 0x7B rest) as [[b a]|].
  - by rewrite app_assoc.
  - by rewrite app_assoc.
Qed.

Lemma expand_loop_template segs : forall fuel arg image port out pc,
  Forall seg_ok segs -> (length (template segs) < fuel)%nat ->
  (uses_port segs = true -> is_Some port) ->
  expand fuel arg image port out (template segs) pc
    = (Ok (out ++ concat (seg_value image (default [] port) <$> segs)), pc || uses_port segs).
Proof.
  induction segs as [|s segs IH]; intros fuel arg image port out pc Hok Hf Hp.
  { destruct fuel as [|fuel]; [simpl in Hf; lia|]. cbn. by rewrite orb_false_r. }
  apply Forall_cons in Hok as [Hs Hok]. destruct s as [s| |].
  - change (template (Lit s :: segs)) with (s ++ template segs).
    rewrite expand_loop_lit by done. rewrite IH; try done.
    + cbn [fmap list_fmap concat seg_value]. by rewrite <- app_assoc.
    + change (template (Lit s :: segs)) with (s ++ template segs) in Hf.
      rewrite length_app in Hf. lia.
  - change (template (Image :: segs)) with (str "{image}" ++ template segs) in *.
    rewrite length_app in Hf. change (length (str "{image}")) with 7%nat in Hf.
    destruct fuel as [|fuel]; [lia|]. cbn [expand_loop].
    change (split_once 0x7B (str "{image}" ++ template segs))
      with (Some ([] : text, str "image}" ++ template segs)). cbv iota beta.
    change (split_once 0x7D (str "image}" ++ template segs)) with (Some (str "image", template segs)).
    cbv iota beta. rewrite decide_True by done. rewrite IH by (done || lia).
    cbn [fmap list_fmap concat seg_value]. by rewrite app_nil_r, <- app_assoc.
  - change (template (Port :: segs)) with (str "{port}" ++ template segs) in *.
    rewrite length_app in Hf. change (length (str "{port}")) with 6%nat in Hf.
    destruct fuel as [|fuel]; [lia|]. cbn [expand_loop].
    change (split_once 0x7B (str "{port}" ++ template segs))
      with (Some ([] : text, str "port}" ++ template segs)). cbv iota beta.
    change (split_once 0x7D (str "port}" ++ template segs)) with (Some (str "port", template segs)).
    cbv iota beta. rewrite decide_False by done. rewrite decide_True by done.
    destruct (Hp eq_refl) as [p ->]. rewrite IH; [|done|lia|by eexists].
    cbn [fmap list_fmap concat seg_value default uses_port existsb is_port].
    rewrite app_nil_r, <- app_assoc. by rewrite orb_true_l, orb_true_r.
Qed.

Lemma expand_one_ok arg image port pc out pc' :
  expand_one (E:=E) arg image port pc = (Ok out, pc')
  <-> exists used, expands image port arg out used /\ pc' = pc || used.
Proof.
  unfold expand_one, expands. split.
  - intros (segs & Hok & -> & -> & Hp & ->)%expand_loop_inv; [|lia].
    exists (uses_port segs). split; [|done]. by exists segs.
  - intros (used & (segs & Hok & -> & -> & Hp & ->) & ->). rewrite expand_loop_template by (done || lia).
    done.
Qed.

(** ** Plans *)
Fixpoint expands_all (image : text) (port : option text) (args outs : list text) (used : bool) : Prop :=
  match args, outs with
  | [], [] => used = false
  | a :: args, o :: outs =>
      exists u1 u2, expands image port a o u1 /\ expands_all image port args outs u2 /\ used = u1 || u2
  | _, _ => False
  end.

Fixpoint planned_pre (image : text) (port : option text) (steps : list (list text))
    (invs : list Invocation) (used : bool) : Prop :=
  match steps, invs with
  | [], [] => used = false
  | (tool :: args) :: steps, inv :: invs =>
      inv_tool inv = tool /\ exists u1 u2, expands_all image port args (inv_args inv) u1
        /\ planned_pre image port steps invs u2 /\ used = u1 || u2
  | _, _ => False
  end.

Lemma expand_args_ok args : forall image port pc outs pc',
  expand_args (E:=E) args image port pc = (Ok outs, pc')
  -> exists used, expands_all image port args outs used /\ pc' = pc || used.
Proof.
  induction args as [|a args IH]; intros image port pc outs pc'; cbn [expand_args].
  { intros [= <- <-]. exists false. by rewrite orb_false_r. }
  destruct (expand_one a image port pc) as [[o|] pc1] eqn:H1; [|done].
  destruct (expand_args args image port pc1) as [[l|] pc2] eqn:H2; [|done].
  intros [= <- <-]. apply expand_one_ok in H1 as (u1 & H1 & ->).
  apply IH in H2 as (u2 & H2 & ->). exists (u1 || u2). split; [by exists u1, u2|].
  by rewrite orb_assoc.
Qed.

Lemma plan_pre_ok steps : forall image port pc invs pc',
  plan_pre (E:=E) steps image port pc = (Ok invs, pc')
  -> exists used, planned_pre image port steps invs used /\ pc' = pc || used.
Proof.
  induction steps as [|[|tool args] steps IH]; intros image port pc invs pc'; cbn [plan_pre].
  { intros [= <- <-]. exists false. by rewrite orb_false_r. }
  { done. }
  destruct (expand_args args image port pc) as [[o|] pc1] eqn:H1; [|done].
  destruct (plan_pre steps image port pc1) as [[l|] pc2] eqn:H2; [|done].
  intros [= <- <-]. apply expand_args_ok in H1 as (u1 & H1 & ->).
  apply IH in H2 as (u2 & H2 & ->). exists (u1 || u2). split; [|by rewrite orb_assoc].
  split; [done|]. by exists u1, u2.
Qed.

Lemma expand_loop_no_panic fuel : forall arg image port out rest pc pc',
  expand fuel arg image port out rest pc <> (Err IndexPanic, pc').
Proof.
  induction fuel as [|fuel IH]; intros arg image port out rest pc pc'; cbn [expand_loop]; [done|].
  repeat case_match; try done; apply IH.
Qed.
Lemma expand_args_no_panic args : forall image port pc pc',
  expand_args (E:=E) args image port pc <> (Err IndexPanic, pc').
Proof.
  induction args as [|a args IH]; intros image port pc pc'; cbn [expand_args]; [done|].
  destruct (expand_one a image port pc) as [[o|e] pc1] eqn:H1.
  - destruct (expand_args args image port pc1) as [[l|e] pc2] eqn:H2; [done|].
    intros [= -> ->]. by apply IH in H2.
  - intros [= -> ->]. by apply expand_loop_no_panic in H1.
Qed.
Lemma plan_pre_no_panic steps : forall image port pc pc',
  Forall (fun step => step <> []) steps -> plan_pre (E:=E) steps image port pc <> (Err IndexPanic, pc').
Proof.
  induction steps as [|[|tool args] steps IH]; intros image port pc pc' Hs; cbn [plan_pre]; [done|..].
  - by apply Forall_cons in Hs as [? _].
  - apply Forall_cons in Hs as [_ Hs].
    destruct (expand_args args image port pc) as [[o|e] pc1] eqn:H1.
    + destruct (plan_pre steps image port pc1) as [[l|e] pc2] eqn:H2; [done|].
      intros [= -> ->]. by apply IH in H2.
    + intros [= -> ->]. by apply expand_args_no_panic in H1.
Qed.

Lemma check_pre_ok name steps : forall i, check_pre (E:=E) name i steps = Ok tt ->
  Forall (fun step => step <> []) steps.
Proof.
  induction steps as [|step steps IH]; intros i; cbn [check_pre]; [done|].
  destruct step as [|tool args]; [done|]. destruct (blank tool); [done|].
  intros H. constructor; [done|]. by eapply IH.
Qed.

Lemma check_targets_ok cfg : check_targets (E:=E) cfg = Ok tt ->
  Forall (fun '(_, t) => blank (tg_tool t) = false /\ Forall (fun step => step <> []) (tg_pre t)) cfg.
Proof.
  induction cfg as [|[name t] cfg IH]; cbn [check_targets]; [done|].
  destruct (blank (tg_tool t)) eqn:Hb; [done|].
  destruct (check_pre name 0 (tg_pre t)) as [[]|] eqn:Hp; [|done].
  intros H. constructor; [|by apply IH]. split; [done|by eapply check_pre_ok].
Qed.

Lemma target_In cfg name av t : target (E:=E) cfg name av = Ok t -> (name, t) ∈ cfg.
Proof.
  induction cfg as [|[n t'] cfg IH]; cbn [target]; [done|].
  case_decide as Hd; [intros [= <-]; subst; left|]. intros H. right. by apply IH.
Qed.

End expand.

(** ** Runs *)
Section run.
Context {E W : Type}.

(** Programs started one after the other, each exiting with status 0. *)
Inductive ran (spawn : text -> list text -> W -> exit (E:=E) * W) : list (Invocation * text) -> W -> W -> Prop :=
| ran_nil w : ran spawn [] w w
| ran_cons inv exe cmds w w1 w2 :
    spawn exe (inv_args inv) w = (Code 0, w1) -> ran spawn cmds w1 w2 ->
    ran spawn ((inv, exe) :: cmds) w w2.

Lemma run_all_spec spawn cmds : forall w r w', run_all spawn cmds w = (r, w') ->
  exists done rest w1, cmds = done ++ rest /\ ran spawn done w w1
    /\ match rest with
       | [] => r = Ok tt /\ w' = w1
       | (inv, exe) :: _ => exists x, spawn exe (inv_args inv) w1 = (x, w') /\ x <> Code 0
           /\ r = Err (match x with
                       | NotStarted e => SpawnFailed exe e
                       | Code c => ExitStatus exe c
                       | Signal => KilledBySignal exe
                       end)
       end.
Proof.
  induction cmds as [|[inv exe] cmds IH]; intros w r w'; cbn [run_all].
  { intros [= <- <-]. exists [], [], w. split; [done|]. split; [constructor|done]. }
  destruct (spawn exe (inv_args inv) w) as [x w1] eqn:Hs.
  assert (x <> Code 0 -> r = Err (match x with
                       | NotStarted e => SpawnFailed exe e
                       | Code c => ExitStatus exe c
                       | Signal => KilledBySignal exe
                       end) -> w' = w1 ->
    exists done rest w2, (inv, exe) :: cmds = done ++ rest /\ ran spawn done w w2
    /\ match rest with
       | [] => r = Ok tt /\ w' = w2
       | (inv, exe) :: _ => exists x, spawn exe (inv_args inv) w2 = (x, w') /\ x <> Code 0
           /\ r = Err (match x with
                       | NotStarted e => SpawnFailed exe e
                       | Code c => ExitStatus exe c
                       | Signal => KilledBySignal exe
                       end)
       end) as Hstop.
  { intros Hx -> ->. exists [], ((inv, exe) :: cmds), w. split_and!; [done|constructor|]. by exists x. }
  destruct x as [e|[|c|c]|].
  - intros [= <- <-]. by apply Hstop.
  - intros (done & rest & w2 & -> & Hr & Hrest)%IH. exists ((inv, exe) :: done), rest, w2.
    split_and!; [reflexivity|by econstructor|exact Hrest].
  - intros [= <- <-]. by apply Hstop.
  - intros [= <- <-]. by apply Hstop.
  - intros [= <- <-]. by apply Hstop.
Qed.

Lemma resolve_tool_in_ok is_executable tool path exe :
  resolve_tool_in (E:=E) is_executable tool path = Ok exe -> is_executable exe = true.
Proof.
  unfold resolve_tool_in. case_match; [case_match; [by intros [= <-]|done]|].
  induction (List.filter _ _) as [|d dirs IH]; cbn [search_path]; [done|].
  case_match; [by intros [= <-]|done].
Qed.

Lemma resolve_all_ok resolve invs : forall exes, resolve_all (E:=E) resolve invs = Ok exes ->
  Forall2 (fun inv exe => resolve (inv_tool inv) = Ok exe) invs exes.
Proof.
  induction invs as [|inv invs IH]; intros exes; cbn [resolve_all]; [by intros [= <-]|].
  destruct (resolve (inv_tool inv)) as [exe|] eqn:Hr; [|done].
  destruct (resolve_all resolve invs) as [l|]; [|done]. intros [= <-]. constructor; [done|by apply IH].
Qed.

End run.

(** ** Properties *)

(** An argument is expanded exactly as it reads. It is accepted, with
    this output, if and only if it is literal text without braces that open
    and [{image}] / [{port}] placeholders, a port being at hand if one is
    used, and the output is that text with each placeholder replaced in one
    pass, so that braces in an image path or port name are left alone; the
    flag is raised exactly if a port was put in. Anything else is an error. *)
Theorem expand_one_exact {E} arg image port port_consumed out port_consumed' :
  expand_one (E:=E) arg image port port_consumed = (Ok out, port_consumed')
  <-> exists used, expands image port arg out used /\ port_consumed' = port_consumed || used.
Proof. apply expand_one_ok. Qed.

(** C39: a plan runs the pre steps in order, then the target's tool, every
    argument expanded; the port, if given, reaches the programmer: in a
    placeholder somewhere, or, when no template has one, as the target's port
    flag and the port behind the main tool's arguments; without a port no
    template used one. A configuration that passed the checks never indexes
    an empty step. *)
Theorem plan_correct {E} toml input cfg name available t image port invs :
  (parse_config (E:=E) toml input = Ok cfg -> target (E:=E) cfg name available = Ok t ->
   plan (E:=E) t image port <> Err IndexPanic)
  /\ (plan (E:=E) t image port = Ok invs ->
      exists pre_invs args used1 used2 extra,
        invs = pre_invs ++ [mkInvocation (tg_tool t) (args ++ extra)]
        /\ planned_pre image port (tg_pre t) pre_invs used1
        /\ expands_all image port (tg_args t) args used2
        /\ match port with
           | None => extra = []
           | Some p => if used1 || used2 then extra = []
                       else exists flag, tg_port_arg t = Some flag /\ extra = [flag; p]
           end).
Proof.
  split.
  - unfold parse_config. destruct (toml input) as [cfg0|]; [|done].
    destruct (check_targets cfg0) as [[]|] eqn:Hc; [|done]. intros [= ->] Ht.
    apply check_targets_ok in Hc. apply target_In in Ht.
    rewrite Forall_forall in Hc. specialize (Hc _ Ht) as [_ Hpre]. unfold plan.
    destruct (plan_pre (tg_pre t) image port false) as [[pre|e] pc1] eqn:H1.
    + destruct (expand_args (tg_args t) image port pc1) as [[args|e] pc2] eqn:H2.
      * by repeat case_match.
      * intros [= ->]. by apply expand_args_no_panic in H2.
    + intros [= ->]. by apply plan_pre_no_panic in H1.
  - unfold plan. destruct (plan_pre (tg_pre t) image port false) as [[pre|] pc1] eqn:H1; [|done].
    destruct (expand_args (tg_args t) image port pc1) as [[args|] pc2] eqn:H2; [|done].
    apply plan_pre_ok in H1 as (u1 & H1 & ->). apply expand_args_ok in H2 as (u2 & H2 & ->).
    rewrite orb_false_l. destruct port as [p|].
    + destruct (u1 || u2) eqn:Hu.
      * intros [= <-]. exists pre, args, u1, u2, []. rewrite app_nil_r, Hu. by split_and!.
      * destruct (tg_port_arg t) as [flag|] eqn:Hf; [|done]. intros [= <-].
        exists pre, args, u1, u2, [flag; p]. rewrite Hu. split_and!; [done..|]. by exists flag.
    + intros [= <-]. exists pre, args, u1, u2, []. rewrite app_nil_r. by split_and!.
Qed.

(** C40: an installation never starts a program before everything is known to
    be in order. If reading, checking, planning or resolving any tool fails,
    the world is untouched; otherwise the planned commands are started in
    order, each only after the one ahead exited with status 0, every one an
    executable that was resolved for its tool, and the first other end is the
    error returned. *)
Theorem run_cli_prepares_first {E W} (env : Env E W) name image port config w r w' :
  run_cli env name image port config w = (r, w') ->
  match prepare env name image port config with
  | Err e => r = Err e /\ w' = w
  | Ok cmds =>
      Forall (fun '(inv, exe) => is_executable env exe = true
        /\ resolve_tool env (inv_tool inv) = Ok exe) cmds
      /\ exists done rest w1, cmds = done ++ rest /\ ran (env_spawn env) done w w1
         /\ match rest with
            | [] => r = Ok tt /\ w' = w1
            | (inv, exe) :: _ => exists x, env_spawn env exe (inv_args inv) w1 = (x, w')
                /\ x <> Code 0
                /\ r = Err (match x with
                            | NotStarted e => SpawnFailed exe e
                            | Code c => ExitStatus exe c
                            | Signal => KilledBySignal exe
                            end)
            end
  end.
Proof.
  unfold run_cli. destruct (prepare env name image port config) as [cmds|e] eqn:Hp;
    [|by intros [= <- <-]].
  intros Hr. split; [|by apply run_all_spec].
  unfold prepare in Hp. repeat case_match; try done. injection Hp as <-.
  match goal with H : resolve_all _ _ = Ok _ |- _ => apply resolve_all_ok in H as Hres end.
  clear -Hres. induction Hres as [|inv exe invs exes H _ IH]; [done|]. cbn [zip zip_with].
  constructor; [|exact IH]. split; [by eapply resolve_tool_in_ok|done].
Qed.

(** ** A sample configuration *)
Definition sample_target : Target :=
  mkTarget (str "avrdude") [str "-U"; str "flash:w:{image}:i"]
    [[str "avrdude"; str "-U"; str "bootsize:w:8:m"]] (Some (str "-P")).
Definition sample_env : Env unit (list (text * list text)) :=
  mkEnv (fun _ => Ok []) (fun _ => Ok [(str "ea28", sample_target)])
    (fun path => if decide (path = str "/bin/avrdude") then Err tt
                 else Ok (mkMetadata true (if decide (path = str "/usr/bin/avrdude") then 0x1ED else 0x1A4)))
    Some (Ok (str "/bin:/usr/bin")) (fun exe args w => (Code 0, w ++ [(exe, args)])).

Lemma expand_one_exact_witness :
  expand_one (E:=unit) (str "w:{image}:{port}") (str "{port}.hex") (Some (str "P0")) false
    = (Ok (str "w:{port}.hex:P0"), true).
Proof.
  apply (expand_one_exact (E:=unit)). exists true. split; [|reflexivity].
  exists [Lit (str "w:"); Image; Lit (str ":"); Port]. split_and!.
  - rewrite !Forall_cons, Forall_nil. split_and!; try exact I.
    + apply (bool_decide_unpack (0x7B ∉ str "w:")). vm_compute. exact I.
    + apply (bool_decide_unpack (0x7B ∉ str ":")). vm_compute. exact I.
  - reflexivity.
  - reflexivity.
  - by eexists.
  - reflexivity.
Defined.

Lemma plan_correct_witness :
  plan (E:=unit) sample_target (str "b.hex") None <> Err IndexPanic.
Proof.
  apply (proj1 (plan_correct (E:=unit) (fun _ => Ok [(str "ea28", sample_target)]) []
    [(str "ea28", sample_target)] (str "ea28") [] sample_target (str "b.hex") None [])).
  - vm_compute. reflexivity.
  - vm_compute. reflexivity.
Defined.

Lemma run_cli_prepares_first_witness :
  exists done (rest : list (Invocation * text)) w1, ran (env_spawn sample_env) done [] w1
    /\ rest = [] /\ length done = 2%nat.
Proof.
  pose proof (run_cli_prepares_first sample_env (str "ea28") (str "b.hex") (Some (str "P0")) None []
    (fst (run_cli sample_env (str "ea28") (str "b.hex") (Some (str "P0")) None []))
    (snd (run_cli sample_env (str "ea28") (str "b.hex") (Some (str "P0")) None []))
    (surjective_pairing _)) as H.
  assert (exists cmds, prepare sample_env (str "ea28") (str "b.hex") (Some (str "P0")) None = Ok cmds
    /\ length cmds = 2%nat) as (cmds & Hp & Hl) by (eexists; split; vm_compute; reflexivity).
  rewrite Hp in H. destruct H as (_ & done & rest & w1 & Hc & Hran & Hrest).
  exists done, rest, w1. split; [exact Hran|].
  destruct rest as [|[inv exe] rest].
  - split; [reflexivity|]. rewrite app_nil_r in Hc. by subst.
  - exfalso. destruct Hrest as (x & _ & _ & Hr). vm_compute in Hr. discriminate Hr.
Defined.
