(* ===== verification/CliDevices.v ===== *)
(** The Linux device nodes behind the command line tool
    ([updater-cli/src/transport.rs], the backends): the delay, [LinuxI2c], the
    serial port, the spidev bus and the GPIO lines. The kernel and the crates
    that wrap it ([std], [i2cdev], [nix], [spidev], [gpio-cdev]) are
    parameters: classes of operations on a world [W] with one type [E] of
    operating system errors. *)
From S2P Require Import Prelude Text Errors Transport Hal EhI2c.

(** ** Parameters *)

(** [std::thread::sleep] and [std::time::Instant], in nanoseconds. *)
Class Clock (W : Type) := {
  clock_sleep : Z -> W -> W;
  clock_now : W -> Z;
  clock_spin : W -> W;
}.

(** [i2cdev::linux::LinuxI2CDevice] *)
Class I2CDevice (W E : Type) := {
  i2cdev_new : text -> Z -> W -> result unit E * W;
  i2cdev_write : list Z -> W -> result unit E * W;
  i2cdev_read : list Z -> W -> result unit E * (list Z * W);
}.

(** The rates of [nix::sys::termios::BaudRate] the source names. *)
Inductive BaudRate := B9600 | B19200 | B38400 | B57600 | B115200 | B230400.
Inductive ControlChar := VMIN | VTIME.

(** A terminal device: [std::fs::File] and [nix::sys::termios] on settings of
    type [Tio]. *)
Class Tty (W E Tio : Type) := {
  tty_open : text -> W -> result unit E * W;
  tcgetattr : W -> result Tio E * W;
  cfmakeraw : Tio -> Tio;
  cfsetspeed : BaudRate -> Tio -> result Tio E;
  control_chars : ControlChar -> Z -> Tio -> Tio;
  tcsetattr : Tio -> W -> result unit E * W;
  tcflush : W -> result unit E * W;
  file_read : list Z -> W -> result Z E * (list Z * W);
  file_write : list Z -> W -> result Z E * W;
  file_flush : W -> result unit E * W;
  is_interrupted : E -> bool;
}.

(** [spidev::SpidevTransfer]; a transfer that reads carries its buffer. *)
Inductive SpidevTransfer :=
| XRead (rx : list Z)
| XWrite (tx : list Z)
| XReadWrite (tx rx : list Z).

(** [spidev::Spidev]: [transfer_multiple] returns the transfers with the
    receive buffers as they are left. *)
Class Spidev (W E : Type) := {
  spidev_open : text -> W -> result unit E * W;
  spidev_configure : Z -> W -> result unit E * W;
  transfer_multiple : list SpidevTransfer -> W -> result unit E * (list SpidevTransfer * W);
}.

(** [gpio_cdev]: a chip, its lines requested with a direction and a value, and
    the two line handles. *)
Inductive Direction := OUTPUT | INPUT.
Inductive Handle := HandleTx | HandleRx.
Class GpioCdev (W E : Type) := {
  chip_new : text -> W -> result unit E * W;
  get_line : Z -> W -> result unit E * W;
  line_request : Handle -> Direction -> Z -> W -> result unit E * W;
  set_value : Handle -> Z -> W -> result unit E * W;
  get_value : Handle -> W -> result Z E * W;
}.

(** ** [SpinDelay] *)
Section spin.
Context {W : Type} `{Clock W}.

(** [while start.elapsed() < dur]; [None] when the fuel runs out. *)
Fixpoint spin_loop (fuel : nat) (start dur : Z) (w : W) : option W :=
  match fuel with
  | O => None
  | S fuel => if clock_now w - start <? dur then spin_loop fuel start dur (clock_spin w) else Some w
  end.

Definition spin_delay_ns (ns : Z) (w : W) : option W :=
  if 1000000 <=? ns then Some (clock_sleep ns w)
  else spin_loop (S (Z.to_nat ns)) (clock_now w) ns w.

(** Time as the adapters see it: a clock that spinning advances. *)
Class ClockAdvances : Prop := spin_advances w : clock_now w < clock_now (clock_spin w).

#[global] Instance SpinDelay : DelayNs W := fun ns w => default w (spin_delay_ns ns w).

(** A clock that stands still makes the delay one that changes nothing. *)
Lemma spin_still : (forall ns w, clock_sleep ns w = w) -> (forall w, clock_spin w = w) -> Still SpinDelay.
Proof.
  intros Hsleep Hspin ns w. unfold delay_ns, SpinDelay, spin_delay_ns. case_match; [apply Hsleep|].
  enough (forall fuel start, default w (spin_loop fuel start ns w) = w) as Hs by apply Hs.
  intros fuel start. induction fuel as [|fuel IH]; [done|]. cbn [spin_loop]. case_match; [rewrite Hspin; exact IH|done].
Qed.

Lemma spin_loop_done (Hc : ClockAdvances) fuel : forall start dur w,
  dur <= Z.of_nat fuel - 1 + (clock_now w - start) -> (0 < fuel)%nat ->
  exists w', spin_loop fuel start dur w = Some w' /\ dur <= clock_now w' - start
    /\ clock_now w <= clock_now w'.
Proof.
  induction fuel as [|fuel IH]; intros start dur w Hf Hp; [lia|]. cbn [spin_loop]. zcase.
  - specialize (spin_advances w) as Ha.
    destruct (IH start dur (clock_spin w)) as (w' & Hs & ? & ?); [lia|lia|].
    exists w'. split_and!; [done|lia|lia].
  - exists w. split_and!; [done|lia|lia].
Qed.
End spin.
Arguments ClockAdvances W {_}.

(** ** The I2C backend *)
Inductive LinuxI2cError (E : Type) :=
| LinuxOpen (e : E)
| LinuxWrite (e : E)
| LinuxExhausted (attempts : Z) (last : E).
Arguments LinuxOpen {E} e.
Arguments LinuxWrite {E} e.
Arguments LinuxExhausted {E} attempts last.

Record LinuxI2c (W : Type) := mkLinuxI2c {
  li_dev : W;
  li_poll_attempts : Z;
  li_poll_interval : Z;
}.
Arguments mkLinuxI2c {W} li_dev li_poll_attempts li_poll_interval.
Arguments li_dev {W} l.
Arguments li_poll_attempts {W} l.
Arguments li_poll_interval {W} l.

Section linux_i2c.
Context {W E : Type} `{I2CDevice W E, Clock W}.

(** [Duration::from_millis], in nanoseconds. *)
Definition from_millis (ms : Z) : Z := ms * 1000000.

Definition linux_i2c_open (bus : text) (addr : Z) (w : W)
  : result (LinuxI2c W) (LinuxI2cError E) * W :=
  match i2cdev_new bus addr w with
  | (Ok _, w) => (Ok (mkLinuxI2c w 1 (from_millis 10)), w)
  | (Err e, w) => (Err (LinuxOpen e), w)
  end.

Definition li_with_dev (t : LinuxI2c W) (w : W) : LinuxI2c W :=
  mkLinuxI2c w (li_poll_attempts t) (li_poll_interval t).

(** The poll loop; with the [poll_attempts] turns [request] grants it, [more]
    is never what ends it. *)
Fixpoint linux_poll (more : nat) (t : LinuxI2c W) (attempt : Z) (rsp : list Z)
  : result Z (LinuxI2cError E) * (LinuxI2c W * list Z) :=
  let attempt := u32_wrapping_add attempt 1 in
  match i2cdev_read rsp (li_dev t) with
  | (Ok _, (rsp, w)) => (Ok (len rsp), (li_with_dev t w, rsp))
  | (Err last, (rsp, w)) =>
    if li_poll_attempts t <=? attempt
    then (Err (LinuxExhausted attempt last), (li_with_dev t w, rsp))
    else
      let t := li_with_dev t (clock_sleep (li_poll_interval t) w) in
      match more with
      | O => (Err (LinuxExhausted attempt last), (t, rsp))
      | S more => linux_poll more t attempt rsp
      end
  end.

#[global] Instance linux_i2c_transport : Transport (LinuxI2c W) (LinuxI2cError E) :=
  fun t req rsp =>
    match i2cdev_write req (li_dev t) with
    | (Err e, w) => (Err (LinuxWrite e), (li_with_dev t w, rsp))
    | (Ok _, w) => linux_poll (Z.to_nat (li_poll_attempts t)) (li_with_dev t w) 0 rsp
    end.

(** *** The backend as the embedded adapter *)

(** An i2cdev handle, whose address is fixed, as a bus. *)
Definition i2cdev_bus : I2c W E := {|
  i2c_write _ req w := i2cdev_write req w;
  i2c_read _ rsp w := i2cdev_read rsp w;
|}.
Definition sleep_delay : DelayNs W := clock_sleep.

Definition as_adapter (t : LinuxI2c W) : I2cTransport W :=
  mkI2c (li_dev t) 0 (li_poll_attempts t) (li_poll_interval t).
Definition of_adapter (t : I2cTransport W) : LinuxI2c W :=
  mkLinuxI2c (i2c_hal t) (i2c_poll_attempts t) (i2c_poll_interval_ns t).
Definition as_linux_error (e : I2cTransportError E) : LinuxI2cError E :=
  match e with I2cWrite e => LinuxWrite e | I2cExhausted n e => LinuxExhausted n e end.
Definition as_linux (o : result Z (I2cTransportError E) * (I2cTransport W * list Z))
  : result Z (LinuxI2cError E) * (LinuxI2c W * list Z) :=
  let '(r, (t, rsp)) := o in (map_err as_linux_error r, (of_adapter t, rsp)).

Lemma linux_poll_as_adapter more : forall t attempt rsp,
  linux_poll more t attempt rsp
    = as_linux (@i2c_poll W E i2cdev_bus sleep_delay more (as_adapter t) attempt rsp).
Proof.
  induction more as [|more IH]; intros [w n ns] attempt rsp; cbn;
    destruct (i2cdev_read rsp w) as [[[]|e] [rsp1 w1]]; [done| |done|];
    case_match; [done|done|done|]. by rewrite IH.
Qed.
End linux_i2c.

(** ** The serial backend *)
Definition baud_constant (baud : Z) : option BaudRate :=
  if baud =? 9600 then Some B9600
  else if baud =? 19200 then Some B19200
  else if baud =? 38400 then Some B38400
  else if baud =? 57600 then Some B57600
  else if baud =? 115200 then Some B115200
  else if baud =? 230400 then Some B230400
  else None.

(** What a device node can fail at while it is opened: the context each error
    is given. *)
Inductive open_error (E : Type) :=
| UnsupportedBaud (baud : Z)
| OpeningSerial (dev : text) (e : E)
| NotATerminal (dev : text) (e : E)
| SettingBaud (e : E)
| ApplyingTermios (e : E)
| Flushing (e : E)
| OpeningSpi (dev : text) (e : E)
| ConfiguringSpi (dev : text) (speed_hz : Z) (e : E)
| OpeningChip (chip : text) (e : E)
| ClaimingTx (pin : Z) (e : E)
| ClaimingRx (pin : Z) (e : E)
| OpeningI2c (bus : text) (addr : Z) (e : LinuxI2cError E).
Arguments UnsupportedBaud {E} baud.
Arguments OpeningSerial {E} dev e.
Arguments NotATerminal {E} dev e.
Arguments SettingBaud {E} e.
Arguments ApplyingTermios {E} e.
Arguments Flushing {E} e.
Arguments OpeningSpi {E} dev e.
Arguments ConfiguringSpi {E} dev speed_hz e.
Arguments OpeningChip {E} chip e.
Arguments ClaimingTx {E} pin e.
Arguments ClaimingRx {E} pin e.
Arguments OpeningI2c {E} bus addr e.

(** A call with its error put in context, in the state-and-error monad. *)
Definition with_context {W E F A} (f : E -> F) (m : W -> result A E * W) : stm W F A :=
  fun w => let '(r, w) := m w in (map_err f r, w).

Section serial.
Context {W E Tio : Type} `{Tty W E Tio}.
Local Open Scope stm_scope.

Definition serial_open (dev : text) (baud : Z) : stm W (open_error E) unit :=
  match baud_constant baud with
  | None => sfail (UnsupportedBaud baud)
  | Some rate =>
      with_context (OpeningSerial dev) (tty_open dev) ;?
      let? tio := with_context (NotATerminal dev) tcgetattr in
      match cfsetspeed rate (cfmakeraw tio) with
      | Err e => sfail (SettingBaud e)
      | Ok tio =>
          let tio := control_chars VMIN 0 tio in
          let tio := control_chars VTIME 1 tio in
          with_context ApplyingTermios (tcsetattr tio) ;?
          with_context Flushing tcflush ;?
          sret tt
      end
  end.

(** [SerialPort::read] and [write] repeat a call that a signal interrupts;
    [None] when the fuel, one unit per interrupted call, runs out. *)
Fixpoint serial_read (fuel : nat) (buf : list Z) (w : W) : option (result Z E * (list Z * W)) :=
  match fuel with
  | O => None
  | S fuel =>
    match file_read buf w with
    | (Err e, (buf, w)) =>
        if is_interrupted e then serial_read fuel buf w else Some (Err e, (buf, w))
    | (Ok n, (buf, w)) => Some (Ok n, (buf, w))
    end
  end.

Fixpoint serial_write (fuel : nat) (buf : list Z) (w : W) : option (result Z E * W) :=
  match fuel with
  | O => None
  | S fuel =>
    match file_write buf w with
    | (Err e, w) => if is_interrupted e then serial_write fuel buf w else Some (Err e, w)
    | (Ok n, w) => Some (Ok n, w)
    end
  end.

Definition serial_flush (w : W) : result unit E * W := file_flush w.

(** [n] reads in a row that signals interrupt. *)
Inductive interrupted : nat -> list Z -> W -> list Z -> W -> Prop :=
| interrupted_0 buf w : interrupted 0 buf w buf w
| interrupted_S n buf w e buf1 w1 buf2 w2 :
    file_read buf w = (Err e, (buf1, w1)) -> is_interrupted e = true ->
    interrupted n buf1 w1 buf2 w2 -> interrupted (S n) buf w buf2 w2.

Lemma serial_read_interrupted n buf w buf' w' : interrupted n buf w buf' w' ->
  forall fuel, serial_read (n + fuel) buf w = serial_read fuel buf' w'.
Proof.
  induction 1 as [|n buf w e buf1 w1 buf2 w2 Hr He _ IH]; intros fuel; [done|].
  cbn [serial_read Nat.add]. by rewrite Hr, He, IH.
Qed.

Lemma serial_read_done fuel : forall buf w r buf' w',
  serial_read fuel buf w = Some (r, (buf', w')) ->
  exists n buf1 w1, (n < fuel)%nat /\ interrupted n buf w buf1 w1
    /\ file_read buf1 w1 = (r, (buf', w')) /\ (forall e, r = Err e -> is_interrupted e = false).
Proof.
  induction fuel as [|fuel IH]; intros buf w r buf' w'; [done|]. cbn [serial_read].
  destruct (file_read buf w) as [[n|e] [buf1 w1]] eqn:Hr.
  - intros [= <- <- <-]. exists 0%nat, buf, w. split_and!; [lia|constructor|done|done].
  - destruct (is_interrupted e) eqn:He.
    + intros (n & buf2 & w2 & ? & Hi & Hr2 & Hne)%IH. exists (S n), buf2, w2.
      split_and!; [lia|by econstructor|done|done].
    + intros [= <- <- <-]. exists 0%nat, buf, w. split_and!; [lia|constructor|done|].
      by intros e' [= <-].
Qed.
End serial.

(** ** The SPI backend *)
Inductive SpiError (E : Type) :=
| SpiIo (e : E)
| DelayUnsupported
| LengthsUnsupported.
Arguments SpiIo {E} e.
Arguments DelayUnsupported {E}.
Arguments LengthsUnsupported {E}.

(** [embedded_hal::spi::Operation] *)
Module Operation.
Inductive t :=
| Read (buf : list Z)
| Write (bytes : list Z)
| Transfer (read write : list Z)
| TransferInPlace (buf : list Z)
| DelayNs (ns : Z).
End Operation.

Section spidev.
Context {W E : Type} `{Spidev W E}.
Local Open Scope stm_scope.

Definition spidev_device_open (dev : text) (speed_hz : Z) : stm W (open_error E) unit :=
  with_context (OpeningSpi dev) (spidev_open dev) ;?
  with_context (ConfiguringSpi dev speed_hz) (spidev_configure speed_hz) ;?
  sret tt.

(** The screening loop: the transmit snapshots, or why the operations cannot
    be expressed. *)
Fixpoint screen (ops : list Operation.t) : result (list (list Z)) (SpiError E) :=
  match ops with
  | [] => Ok []
  | op :: ops =>
    match op with
    | Operation.DelayNs _ => Err DelayUnsupported
    | Operation.Transfer read write =>
        if negb (len read =? len write) then Err LengthsUnsupported else screen ops
    | Operation.TransferInPlace buf =>
        match screen ops with Ok copies => Ok (buf :: copies) | Err e => Err e end
    | _ => screen ops
    end
  end.

(** The second loop; [None] is the [unreachable!] arm. *)
Fixpoint transfers (ops : list Operation.t) (next_copy : list (list Z)) : option (list SpidevTransfer) :=
  match ops with
  | [] => Some []
  | Operation.Read buf :: ops => (XRead buf ::.) <$> transfers ops next_copy
  | Operation.Write bytes :: ops => (XWrite bytes ::.) <$> transfers ops next_copy
  | Operation.Transfer read write :: ops => (XReadWrite write read ::.) <$> transfers ops next_copy
  | Operation.TransferInPlace buf :: ops =>
      (XReadWrite (default [] (head next_copy)) buf ::.) <$> transfers ops (tail next_copy)
  | Operation.DelayNs _ :: _ => None
  end.

(** The operations with the buffers the kernel filled. *)
Definition receive (op : Operation.t) (x : SpidevTransfer) : Operation.t :=
  match op, x with
  | Operation.Read _, XRead rx => Operation.Read rx
  | Operation.Transfer _ write, XReadWrite _ rx => Operation.Transfer rx write
  | Operation.TransferInPlace _, XReadWrite _ rx => Operation.TransferInPlace rx
  | _, _ => op
  end.

Definition spidev_transaction (ops : list Operation.t) (w : W)
  : option (result unit (SpiError E) * (list Operation.t * W)) :=
  match screen ops with
  | Err e => Some (Err e, (ops, w))
  | Ok copies =>
    match transfers ops copies with
    | None => None
    | Some xs =>
      let '(r, (xs, w)) := transfer_multiple xs w in
      Some (map_err SpiIo r, (zip_with receive ops xs, w))
    end
  end.

(** [SpiDevice::transaction] of writes and [SpiDevice::read], which embedded-hal
    defines as a transaction of one read. *)
#[global] Instance SpidevDevice : SpiDevice W (SpiError E) := {|
  spi_transaction ws w :=
    match spidev_transaction (Operation.Write <$> ws) w with
    | Some (r, (_, w)) => (r, w)
    | None => (Err DelayUnsupported, w)
    end;
  spi_read buf w :=
    match spidev_transaction [Operation.Read buf] w with
    | Some (r, ([Operation.Read buf], w)) => (r, (buf, w))
    | Some (r, (_, w)) => (r, (buf, w))
    | None => (Err DelayUnsupported, (buf, w))
    end;
|}.

(** *** Specification *)
Definition expressible (op : Operation.t) : bool :=
  match op with
  | Operation.DelayNs _ => false
  | Operation.Transfer read write => len read =? len write
  | _ => true
  end.

(** What the kernel is asked to shift for an operation. *)
Definition transfer_of (op : Operation.t) : SpidevTransfer :=
  match op with
  | Operation.Read buf => XRead buf
  | Operation.Write bytes => XWrite bytes
  | Operation.Transfer read write => XReadWrite write read
  | Operation.TransferInPlace buf => XReadWrite buf buf
  | Operation.DelayNs _ => XWrite []
  end.

Lemma screen_ok ops copies : screen ops = Ok copies ->
  forallb expressible ops = true /\ transfers ops copies = Some (transfer_of <$> ops).
Proof.
  revert copies. induction ops as [|op ops IH]; intros copies; [by intros [= <-]|].
  destruct op as [buf|bs|read write|buf|ns]; cbn [screen]; [| | | |done].
  - intros [Hf Ht]%IH. cbn. by rewrite Hf, Ht.
  - intros [Hf Ht]%IH. cbn. by rewrite Hf, Ht.
  - destruct (len read =? len write) eqn:Hl; [|done]. intros [Hf Ht]%IH. cbn. by rewrite Hl, Hf, Ht.
  - destruct (screen ops) as [cs|]; [|done]. intros [= <-]. destruct (IH cs eq_refl) as [Hf Ht].
    cbn. by rewrite Hf, Ht.
Qed.

Lemma screen_err ops e : screen ops = Err e -> forallb expressible ops = false
  /\ (e = DelayUnsupported \/ e = LengthsUnsupported).
Proof.
  induction ops as [|op ops IH]; [done|].
  destruct op as [buf|bs|read write|buf|ns]; cbn [screen forallb expressible andb]; [done| | | |].
  - done.
  - destruct (len read =? len write); [done|]. intros [= <-]. auto.
  - destruct (screen ops); [done|]. intros [= <-]. by apply IH.
  - intros [= <-]. auto.
Qed.
End spidev.

(** ** The GPIO backend *)
Section gpio.
Context {W E : Type} `{GpioCdev W E}.
Local Open Scope stm_scope.

Definition gpio_open (chip : text) (pin_tx pin_rx : Z) : stm W (open_error E) unit :=
  with_context (OpeningChip chip) (chip_new chip) ;?
  with_context (ClaimingTx pin_tx)
    (get_line pin_tx ;? line_request HandleTx OUTPUT 1) ;?
  with_context (ClaimingRx pin_rx)
    (get_line pin_rx ;? line_request HandleRx INPUT 0) ;?
  sret tt.

Inductive PinError := mkPinError (e : E).

Definition pin_set (v : Z) : W -> result unit PinError * W := with_context mkPinError (set_value HandleTx v).
Definition pin_is_high : W -> result bool PinError * W :=
  with_context mkPinError (let? v := get_value HandleRx in sret (negb (v =? 0))).
Definition pin_is_low : W -> result bool PinError * W :=
  let? h := pin_is_high in sret (negb h).

#[global] Instance gpio_pins : Pins W PinError PinError := {|
  tx_set_high := pin_set 1;
  tx_set_low := pin_set 0;
  rx_is_high := pin_is_high;
  rx_is_low := pin_is_low;
|}.
End gpio.
Arguments PinError E : clear implicits.

(** ** Scripted device nodes *)
#[global] Instance i2cdev_script : I2CDevice I2cScript Z := {|
  i2cdev_new _ _ w := (Ok tt, w);
  i2cdev_write req w := i2c_write 0 req w;
  i2cdev_read rsp w := i2c_read 0 rsp w;
|}.
#[global] Instance clock_script : Clock I2cScript := {|
  clock_sleep ns w := delay_ns ns w;
  clock_now _ := 0;
  clock_spin w := w;
|}.

(** ** Properties *)

(** The tool's own I2C backend is the embedded adapter over the i2c-dev
    handle, request for request; so, on the budgets the tool sets, it ends with
    the write's error, with the first successful one of at most
    [poll_attempts] full-length reads, or exhausted after exactly that many
    failed ones. *)
Theorem linux_i2c_is_adapter {W E} (dev : I2CDevice W E) (clock : Clock W)
    (t : LinuxI2c W) req rsp :
  request t req rsp
    = as_linux (@request _ _ (@i2c_transport W E i2cdev_bus sleep_delay) (as_adapter t) req rsp)
  /\ forall r t' rsp', request t req rsp = (r, (t', rsp')) -> 1 <= li_poll_attempts t < 2 ^ 32 ->
     match i2cdev_write req (li_dev t) with
     | (Err e, w) => r = Err (LinuxWrite e) /\ t' = li_with_dev t w /\ rsp' = rsp
     | (Ok _, w) => exists k w1 rsp1 w2, t' = li_with_dev t w2
         /\ Z.of_nat k < li_poll_attempts t
         /\ @polled W E i2cdev_bus sleep_delay 0 (li_poll_interval t) k w rsp w1 rsp1
         /\ ((i2cdev_read rsp1 w1 = (Ok tt, (rsp', w2)) /\ r = Ok (len rsp'))
             \/ exists e, i2cdev_read rsp1 w1 = (Err e, (rsp', w2))
                /\ Z.of_nat k + 1 = li_poll_attempts t
                /\ r = Err (LinuxExhausted (li_poll_attempts t) e))
     end.
Proof.
  assert (request t req rsp
    = as_linux (@request _ _ (@i2c_transport W E i2cdev_bus sleep_delay) (as_adapter t) req rsp))
    as Heq.
  { unfold request, linux_i2c_transport, i2c_transport. cbn [as_adapter i2c_hal i2c_addr i2c_write i2cdev_bus].
    destruct (i2cdev_write req (li_dev t)) as [[u|e] w]; [|by destruct t]. apply linux_poll_as_adapter. }
  split; [exact Heq|]. intros r t' rsp'. rewrite Heq. intros Hr Hok.
  destruct (@request _ _ _ (as_adapter t) req rsp) as [ra [ta rspa]] eqn:Ha.
  cbn [as_linux] in Hr. apply pair_equal_spec in Hr as [<- [<- <-]%pair_equal_spec].
  apply i2c_request_spec in Ha; [|exact Hok].
  cbn [as_adapter i2c_hal i2c_addr i2c_write i2cdev_bus] in Ha.
  destruct (i2cdev_write req (li_dev t)) as [[u|e] w].
  - destruct Ha as (k & w1 & rsp1 & w2 & -> & Hk & Hp & Hres). exists k, w1, rsp1, w2.
    split_and!; [done|exact Hk|exact Hp|].
    destruct Hres as [[Hr ->]|(e & Hr & Hn & ->)]; [by left|right; by exists e].
  - by destruct Ha as (-> & -> & ->).
Qed.

Lemma linux_i2c_is_adapter_witness :
  fst (request (mkLinuxI2c (mkI2cScript [Err 1; Err 2; Ok [5]] []) 2 7) [1] [0; 0])
    = Err (LinuxExhausted 2 2)
  /\ exists k w1 rsp1, Z.of_nat k < 2
     /\ @polled _ _ i2cdev_bus sleep_delay 0 7 k (mkI2cScript [Err 1; Err 2; Ok [5]] []) [0; 0] w1 rsp1.
Proof.
  pose (t := mkLinuxI2c (mkI2cScript [Err 1; Err 2; Ok [5]] []) 2 7).
  pose (res := request t [1] [0; 0] : result Z (LinuxI2cError Z) * _).
  destruct (linux_i2c_is_adapter i2cdev_script clock_script t [1] [0; 0]) as [_ H].
  specialize (H (fst res) (fst (snd res)) (snd (snd res))).
  destruct H as (k & w1 & rsp1 & _ & _ & Hk & Hp & _).
  - subst res. by destruct (request t [1] [0; 0]) as [? [??]].
  - split; vm_compute; [discriminate|reflexivity].
  - split; [vm_compute; reflexivity|]. by exists k, w1, rsp1.
Defined.

(** A transaction on the spidev bus is refused, with the device untouched
    and the buffers as they were, exactly when it holds a delay or a transfer
    of unequal lengths; otherwise the kernel is asked for one transfer per
    operation, in order and under one chip select, an in-place transfer
    sending what its buffer held, and each buffer gets what was read for it.
    The [unreachable!] arm is never taken. The adapter's request is such a
    transaction: the sync byte and the frame. *)
Theorem spidev_transaction_correct {W E} `{Spidev W E} (ops : list Operation.t) (w : W) :
  (if forallb expressible ops
   then spidev_transaction ops w
          = Some (let '(r, (xs, w')) := transfer_multiple (transfer_of <$> ops) w in
                  (map_err SpiIo r, (zip_with receive ops xs, w')))
   else exists e, spidev_transaction ops w = Some (Err e, (ops, w))
        /\ (e = DelayUnsupported \/ e = LengthsUnsupported))
  /\ forall ws, spi_transaction ws w
       = let '(r, (_, w')) := transfer_multiple (XWrite <$> ws) w in (map_err SpiIo r, w').
Proof.
  assert (forall ops, if forallb expressible ops
   then spidev_transaction ops w
          = Some (let '(r, (xs, w')) := transfer_multiple (transfer_of <$> ops) w in
                  (map_err SpiIo r, (zip_with receive ops xs, w')))
   else exists e, spidev_transaction ops w = Some (Err e, (ops, w))
        /\ (e = DelayUnsupported \/ e = LengthsUnsupported)) as Hall.
  { clear ops. intros ops. unfold spidev_transaction. destruct (screen ops) as [copies|e] eqn:Hs.
    - apply screen_ok in Hs as [-> ->]. by destruct (transfer_multiple _ _) as [? [??]].
    - apply screen_err in Hs as [-> He]. by exists e. }
  split; [apply Hall|]. intros ws. specialize (Hall (Operation.Write <$> ws)).
  replace (forallb expressible (Operation.Write <$> ws)) with true in Hall
    by (clear Hall; induction ws as [|x ws IH]; [done|exact IH]).
  cbn [spi_transaction SpidevDevice]. rewrite Hall, <- list_fmap_compose.
  change (transfer_of ∘ Operation.Write <$> ws) with (XWrite <$> ws).
  destruct (transfer_multiple (XWrite <$> ws) w) as [? [??]]. reflexivity.
Qed.
