(* ===== verification/CliTransport.v ===== *)
(** The transport behind the command line tool
    ([updater-cli/src/transport.rs], the part above the device nodes): poll
    budgets and how each backend takes one, the type-erased backend, opening
    it from a specification, and [DynTransport], which owns the budget
    policy. *)
From S2P Require Import Prelude Text Errors Frame Transport Hal EhI2c EhSpi EhUart EhSoftUart CliDevices.

Record PollBudget := mkPollBudget { pb_attempts : Z; pb_delay_ms : Z }.

Inductive TransportSpec :=
| SpecI2c (bus : text) (addr : Z)
| SpecUart (dev : text) (baud : Z)
| SpecSpi (dev : text) (speed_hz : Z)
| SpecGpio (chip : text) (pin_tx pin_rx : Z).

Definition SUPPORTED_BAUDS : list Z := [9600; 19200; 38400; 57600; 115200; 230400].

(** ** Poll budgets *)
Class SetPoll (T : Type) := set_poll_budget : PollBudget -> T -> T.

#[global] Instance set_poll_linux_i2c {W} : SetPoll (LinuxI2c W) :=
  fun poll t => mkLinuxI2c (li_dev t) (Z.max (pb_attempts poll) 1) (from_millis (pb_delay_ms poll)).
#[global] Instance set_poll_uart {W} : SetPoll (UartTransport W) :=
  fun poll => uart_set_poll (pb_attempts poll) (u32_saturating_mul (pb_delay_ms poll) 1000000).
#[global] Instance set_poll_spi {W} : SetPoll (SpiTransport W) :=
  fun poll => spi_set_poll (pb_attempts poll) (u32_saturating_mul (pb_delay_ms poll) 1000000).
#[global] Instance set_poll_soft {W} : SetPoll (SoftUartTransport W) :=
  fun poll =>
    let total_ns :=
      u64_saturating_mul (u64_saturating_mul (Z.max (pb_attempts poll) 1) (pb_delay_ms poll)) 1000000 in
    let interval := DEFAULT_SOFTUART_POLL_INTERVAL_NS in
    let samples := default (2 ^ 32 - 1) (u32_try_from (total_ns / Z.max interval 1)) in
    soft_set_poll (Z.max samples 1) interval.

(** ** Type erasure *)

(** [anyhow!("{e}")]: the error of a backend as an [anyhow::Error]. *)
Class Anyhow (F A : Type) := anyhow : F -> A.

Record Erased (T : Type) := mkErased { erased : T }.
Arguments mkErased {T} erased.
Arguments erased {T} e.

Section erased.
Context {T F A : Type} `{Transport T F, SetPoll T, Anyhow F A}.

#[global] Instance transport_erased : Transport (Erased T) A :=
  fun t req rsp =>
    let '(r, (t, rsp)) := request (erased t) req rsp in (map_err anyhow r, (mkErased t, rsp)).
#[global] Instance set_poll_erased : SetPoll (Erased T) :=
  fun poll t => mkErased (set_poll_budget poll (erased t)).
End erased.

(** ** [DynTransport] *)
Record DynTransport (T : Type) := mkDyn {
  dyn_inner : T;
  dyn_base : PollBudget;
  dyn_erase_attempts : Z;
}.
Arguments mkDyn {T} dyn_inner dyn_base dyn_erase_attempts.
Arguments dyn_inner {T} d.
Arguments dyn_base {T} d.
Arguments dyn_erase_attempts {T} d.

(** What [set_erase_attempts] acts on. *)
Class EraseBudget (T : Type) := set_erase_attempts : Z -> T -> T.

#[global] Instance dyn_set_erase_attempts {T} : EraseBudget (DynTransport T) :=
  fun attempts d => mkDyn (dyn_inner d) (dyn_base d) (Z.max attempts (pb_attempts (dyn_base d))).

#[global] Instance dyn_transport {T A} `{Transport T A, SetPoll T} : Transport (DynTransport T) A :=
  fun d req rsp =>
    let erase := bool_decide (head req = Some CMD_ERASE_APP)
                 && (pb_attempts (dyn_base d) <? dyn_erase_attempts d) in
    let inner := dyn_inner d in
    let inner := if erase
      then set_poll_budget (mkPollBudget (dyn_erase_attempts d) (pb_delay_ms (dyn_base d))) inner
      else inner in
    let '(out, (inner, rsp)) := request inner req rsp in
    let inner := if erase then set_poll_budget (dyn_base d) inner else inner in
    (out, (mkDyn inner (dyn_base d) (dyn_erase_attempts d), rsp)).

(** ** Opening the wire a specification describes *)

(** [Box<dyn PollTransport>]: one of the four backends. *)
Inductive Backend (W : Type) :=
| BackI2c (t : Erased (LinuxI2c W))
| BackUart (t : Erased (UartTransport W))
| BackSpi (t : Erased (SpiTransport W))
| BackGpio (t : Erased (SoftUartTransport W)).
Arguments BackI2c {W} t.
Arguments BackUart {W} t.
Arguments BackSpi {W} t.
Arguments BackGpio {W} t.

(** The errors of the backends; their messages are in [Messages.v]. *)
Inductive anyhow_error (E SE : Type) :=
| AnyI2c (e : LinuxI2cError E)
| AnyUart (e : UartTransportError SE)
| AnySpi (e : SpiTransportError (SpiError E))
| AnyGpio (e : SoftUartTransportError (PinError E) (PinError E)).
Arguments AnyI2c {E SE} e.
Arguments AnyUart {E SE} e.
Arguments AnySpi {E SE} e.
Arguments AnyGpio {E SE} e.

#[global] Instance anyhow_i2c {E SE} : Anyhow (LinuxI2cError E) (anyhow_error E SE) := AnyI2c.
#[global] Instance anyhow_uart {E SE} : Anyhow (UartTransportError SE) (anyhow_error E SE) := AnyUart.
#[global] Instance anyhow_spi {E SE} : Anyhow (SpiTransportError (SpiError E)) (anyhow_error E SE) := AnySpi.
#[global] Instance anyhow_gpio {E SE} :
  Anyhow (SoftUartTransportError (PinError E) (PinError E)) (anyhow_error E SE) := AnyGpio.

#[global] Instance set_poll_backend {W} : SetPoll (Backend W) :=
  fun poll b =>
    match b with
    | BackI2c t => BackI2c (set_poll_budget poll t)
    | BackUart t => BackUart (set_poll_budget poll t)
    | BackSpi t => BackSpi (set_poll_budget poll t)
    | BackGpio t => BackGpio (set_poll_budget poll t)
    end.

Section backend.
Context `{PtrWidth} {W E SE Tio : Type}.
Context `{Clock W, I2CDevice W E, Spidev W E, GpioCdev W E, Tty W E Tio, Serial W SE}.

Definition on_backend {T} (back : T -> Backend W)
    (o : result Z (anyhow_error E SE) * (T * list Z)) :=
  let '(r, (t, rsp)) := o in (r, (back t, rsp)).

#[global] Instance transport_backend : Transport (Backend W) (anyhow_error E SE) :=
  fun b req rsp =>
    match b with
    | BackI2c t => on_backend BackI2c (request t req rsp)
    | BackUart t => on_backend BackUart (request t req rsp)
    | BackSpi t => on_backend BackSpi (request t req rsp)
    | BackGpio t => on_backend BackGpio (request t req rsp)
    end.

(** The state of the adapter an opened device is wrapped in is the world at
    that point. *)
Definition open_backend (spec : TransportSpec) (w : W) : result (Backend W) (open_error E) * W :=
  match spec with
  | SpecI2c bus addr =>
      match linux_i2c_open bus addr w with
      | (Ok t, w) => (Ok (BackI2c (mkErased t)), w)
      | (Err e, w) => (Err (OpeningI2c bus addr e), w)
      end
  | SpecUart dev baud =>
      match serial_open dev baud w with
      | (Ok _, w) => (Ok (BackUart (mkErased (uart_new w))), w)
      | (Err e, w) => (Err e, w)
      end
  | SpecSpi dev speed_hz =>
      match spidev_device_open dev speed_hz w with
      | (Ok _, w) => (Ok (BackSpi (mkErased (spi_new w))), w)
      | (Err e, w) => (Err e, w)
      end
  | SpecGpio chip pin_tx pin_rx =>
      match gpio_open chip pin_tx pin_rx w with
      | (Ok _, w) => (Ok (BackGpio (mkErased (soft_new w))), w)
      | (Err e, w) => (Err e, w)
      end
  end.

Definition open (spec : TransportSpec) (poll : PollBudget) (w : W)
  : result (DynTransport (Backend W)) (open_error E) * W :=
  match open_backend spec w with
  | (Ok inner, w) => (Ok (mkDyn (set_poll_budget poll inner) poll (pb_attempts poll)), w)
  | (Err e, w) => (Err e, w)
  end.
End backend.

(** ** The laws, up the stack *)

(** What [&mut [u8]] guarantees of the kernel's reads. *)
Class I2CDeviceTyped {W E} (dev : I2CDevice W E) : Prop :=
  i2cdev_read_typed buf w r buf' w' :
    bytes buf -> i2cdev_read buf w = (r, (buf', w')) -> len buf' = len buf /\ bytes buf'.

(** The receive buffer of a transfer. *)
Definition rx_of (x : SpidevTransfer) : list Z :=
  match x with XRead rx | XReadWrite _ rx => rx | XWrite _ => [] end.
Class SpidevTyped {W E} (dev : Spidev W E) : Prop :=
  transfer_typed buf w r xs w' :
    bytes buf -> transfer_multiple [XRead buf] w = (r, (xs, w')) ->
    exists buf', xs = [XRead buf'] /\ len buf' = len buf /\ bytes buf'.

#[global] Instance spidev_device_typed {W E} (dev : Spidev W E) :
  SpidevTyped dev -> SpiTyped (@SpidevDevice W E dev).
Proof.
  intros Hty buf w r buf' w' Hb. cbn [spi_read SpidevDevice]. unfold spidev_transaction; cbn.
  destruct (transfer_multiple [XRead buf] w) as [r1 [xs w1]] eqn:Ht.
  apply Hty in Ht as (buf1 & -> & Hl & Hb1); [|done]. cbn. by intros [= <- <- <-].
Qed.

(** A poll budget whose fields are [u32] keeps the invariant [ok] of a
    transport. *)
Definition budget_ok (poll : PollBudget) : Prop := is_u32 (pb_attempts poll) /\ is_u32 (pb_delay_ms poll).
Class PollKeeps {T} `{SetPoll T} (ok : T -> Prop) : Prop :=
  poll_keeps poll t : budget_ok poll -> ok t -> ok (set_poll_budget poll t).

Definition linux_i2c_ok {W} (t : LinuxI2c W) : Prop := 1 <= li_poll_attempts t < 2 ^ 32.

#[global] Instance linux_i2c_typed `{PtrWidth} {W E} (dev : I2CDevice W E) (clock : Clock W) :
  I2CDeviceTyped dev -> TransportTyped (@linux_i2c_transport W E dev clock) linux_i2c_ok.
Proof.
  intros Hty t req rsp r t' rsp' Hok Hreq Hrsp. rewrite (proj1 (linux_i2c_is_adapter dev clock _ _ _)).
  destruct (@request _ _ _ (as_adapter t) req rsp) as [ra [ta rspa]] eqn:Ha.
  cbn [as_linux]. intros [<- [<- <-]%pair_equal_spec]%pair_equal_spec.
  assert (I2cTyped (@i2cdev_bus W E dev)) as Hbus by (intros ?; apply Hty).
  assert (TransportContract (@i2c_transport W E i2cdev_bus sleep_delay) i2c_ok) as [Hc _] by apply _.
  destruct (Hc (as_adapter t) req rsp ra ta rspa) as (Hok' & Hl & Hb & Hn); [done..|].
  split_and!; [exact Hok'|done|done|]. destruct ra as [n|]; [|done]. intros m [= <-]. by apply Hn.
Qed.

#[global] Instance poll_keeps_linux_i2c {W} : PollKeeps (@linux_i2c_ok W).
Proof. intros poll t [Hp _] _. unfold linux_i2c_ok; cbn. lia. Qed.
#[global] Instance poll_keeps_uart {W} : PollKeeps (@uart_ok W).
Proof. intros poll t [Hp _] [? ?]. unfold uart_ok; cbn. lia. Qed.
#[global] Instance poll_keeps_spi {W} : PollKeeps (@spi_ok W).
Proof. intros poll t [Hp _] ?. unfold spi_ok; cbn. lia. Qed.

Lemma u32_or_max x : 0 <= x -> default (2 ^ 32 - 1) (u32_try_from x) = Z.min x (2 ^ 32 - 1).
Proof. intros Hx. unfold u32_try_from. zcase; cbn [default]; unfold id; lia. Qed.

#[global] Instance poll_keeps_soft {W} : PollKeeps (@soft_ok W).
Proof.
  intros poll t [Hp Hd] [? ?]. split; [|done]. cbn [set_poll_budget set_poll_soft soft_set_poll soft_poll_attempts].
  rewrite u32_or_max; [lia|]. apply Z.div_pos; [unfold u64_saturating_mul; lia|done].
Qed.

Section laws.
Context {T F A : Type} (tr : Transport T F) `{SetPoll T, Anyhow F A, PtrWidth} (ok : T -> Prop).

#[global] Instance erased_typed : TransportTyped tr ok ->
  TransportTyped (@transport_erased T F A tr _) (fun t => ok (erased t)).
Proof.
  intros Hty t req rsp r t' rsp' Hok Hreq Hrsp. unfold request at 1, transport_erased.
  destruct (request (erased t) req rsp) as [r1 [t1 rsp1]] eqn:Hr.
  apply Hty in Hr as (? & ? & ? & Hn); [|done..]. intros [= <- <- <-]. split_and!; [done..|].
  destruct r1 as [n|]; [|done]. intros m [= <-]. by apply Hn.
Qed.
#[global] Instance poll_keeps_erased : PollKeeps ok -> PollKeeps (T:=Erased T) (fun t => ok (erased t)).
Proof. intros Hk poll t Hp Ht. by apply Hk. Qed.
End laws.

(** [DynTransport] keeps its inner transport's invariant and its own: both
    attempt counts are [u32], and the erase count is not below the base. *)
Definition dyn_ok {T} (ok : T -> Prop) (d : DynTransport T) : Prop :=
  ok (dyn_inner d) /\ budget_ok (dyn_base d)
  /\ pb_attempts (dyn_base d) <= dyn_erase_attempts d < 2 ^ 32.

#[global] Instance dyn_typed {T A} (tr : Transport T A) `{SetPoll T, PtrWidth} (ok : T -> Prop) :
  TransportTyped tr ok -> PollKeeps ok -> TransportTyped (@dyn_transport T A tr _) (dyn_ok ok).
Proof.
  intros Hty Hk d req rsp r d' rsp' (Hok & Hb & He) Hreq Hrsp. unfold request at 1, dyn_transport.
  set (erase := bool_decide _ && _).
  set (inner := if erase then set_poll_budget _ _ else _).
  assert (ok inner) as Hin.
  { subst inner. destruct erase; [|done]. apply Hk; [|done]. destruct Hb. split; cbn; lia. }
  clearbody inner. destruct (request inner req rsp) as [out [inner' rsp1]] eqn:Hr.
  apply Hty in Hr as (Hok' & ? & ? & ?); [|done..]. intros [= <- <- <-].
  split; [|by split_and!]. split; [|done]. cbn [dyn_inner]. destruct erase; [by apply Hk|done].
Qed.

Lemma dyn_set_erase_ok {T} (ok : T -> Prop) n (d : DynTransport T) :
  is_u32 n -> dyn_ok ok d -> dyn_ok ok (set_erase_attempts n d).
Proof. intros Hn (? & [? ?] & ?). split; [done|]. split; [done|]. cbn. lia. Qed.

Section backend_laws.
Context `{PtrWidth} {W E SE Tio : Type}.
Context (clock : Clock W) (i2cdev : I2CDevice W E) (spidev : Spidev W E) (gpio : GpioCdev W E)
  (tty : Tty W E Tio) (port : Serial W SE).

Definition backend_ok (b : Backend W) : Prop :=
  match b with
  | BackI2c t => linux_i2c_ok (erased t)
  | BackUart t => uart_ok (erased t)
  | BackSpi t => spi_ok (erased t)
  | BackGpio t => soft_ok (erased t)
  end.

#[global] Instance poll_keeps_backend : PollKeeps backend_ok.
Proof.
  intros poll [t|t|t|t] Hp Hok; [by apply poll_keeps_linux_i2c|by apply poll_keeps_uart
    |by apply poll_keeps_spi|by apply poll_keeps_soft].
Qed.

#[global] Instance backend_typed :
  I2CDeviceTyped i2cdev -> SpidevTyped spidev -> SerialTyped port ->
  TransportTyped (transport_backend (W:=W) (E:=E) (SE:=SE)) backend_ok.
Proof.
  intros Hi Hs Hp b req rsp r b' rsp' Hok Hreq Hrsp.
  assert (forall T F (tr : Transport T F) (any : Anyhow F (anyhow_error E SE)) (ok : T -> Prop)
    (back : Erased T -> Backend W) (t : Erased T), TransportTyped tr ok -> ok (erased t) ->
    (forall t, ok (erased t) -> backend_ok (back t)) ->
    on_backend back (request t req rsp) = (r, (b', rsp')) ->
    backend_ok b' /\ len rsp' = len rsp /\ bytes rsp' /\ forall n, r = Ok n -> 0 <= n) as Hall.
  { intros T F tr any ok back t Hty Hokt Hback. unfold on_backend.
    destruct (request t req rsp) as [r1 [t1 rsp1]] eqn:Hr.
    apply (erased_typed tr ok Hty) in Hr as (? & ? & ? & ?); [|done..].
    intros [= <- <- <-]. split_and!; auto. }
  destruct b as [t|t|t|t]; cbn [request transport_backend]; intros Hr.
  - by eapply (Hall _ _ _ _ linux_i2c_ok), Hr; [apply _|..].
  - by eapply (Hall _ _ _ _ uart_ok), Hr; [apply contract_typed|..].
  - by eapply (Hall _ _ _ _ spi_ok), Hr; [apply contract_typed|..].
  - by eapply (Hall _ _ _ _ soft_ok), Hr; [apply contract_typed|..].
Qed.

Lemma open_ok spec poll w d w' : budget_ok poll -> 
  open spec poll w = (Ok d, w') -> dyn_ok backend_ok d /\ dyn_base d = poll
    /\ dyn_erase_attempts d = pb_attempts poll
    /\ exists b, open_backend spec w = (Ok b, w') /\ dyn_inner d = set_poll_budget poll b.
Proof.
  intros Hp. unfold open. destruct (open_backend spec w) as [[b|e] w1] eqn:Hb; [|done].
  intros [= <- <-]. split; [|by split_and!; try exists b].
  split; [|split; [done|]]; [|destruct Hp; cbn; lia].
  cbn [dyn_inner]. destruct b as [t|t|t|t]; apply poll_keeps_backend; try done; cbn;
    unfold open_backend in Hb; repeat case_match; simplify_eq;
    unfold linux_i2c_open in *; repeat case_match; simplify_eq; done.
Qed.

End backend_laws.

(** ** Which budget a request runs on *)

(** A backend that records the budget in force at each request. *)
Record Metered (T : Type) := mkMetered {
  mt_inner : T;
  mt_budget : PollBudget;
  mt_seen : list (list Z * PollBudget);
}.
Arguments mkMetered {T} mt_inner mt_budget mt_seen.
Arguments mt_inner {T} m.
Arguments mt_budget {T} m.
Arguments mt_seen {T} m.

#[global] Instance metered_poll {T} `{SetPoll T} : SetPoll (Metered T) :=
  fun poll m => mkMetered (set_poll_budget poll (mt_inner m)) poll (mt_seen m).
#[global] Instance metered_transport {T A} `{Transport T A} : Transport (Metered T) A :=
  fun m req rsp =>
    let '(r, (t, rsp)) := request (mt_inner m) req rsp in
    (r, (mkMetered t (mt_budget m) (mt_seen m ++ [(req, mt_budget m)]), rsp)).

Inductive dyn_call := CallRequest (req rsp : list Z) | CallSetErase (attempts : Z).

Section calls.
Context {T A : Type} `{Transport T A, SetPoll T}.

Definition dyn_step (d : DynTransport T) (c : dyn_call) : DynTransport T :=
  match c with
  | CallRequest req rsp => fst (snd (request d req rsp))
  | CallSetErase n => set_erase_attempts n d
  end.
Definition dyn_run (d : DynTransport T) (calls : list dyn_call) : DynTransport T :=
  fold_left dyn_step calls d.
End calls.

(** The policy: the erase count last asked for, never below the base, for
    [ERASE_APP]; the base for everything else. *)
Fixpoint budgets (base : PollBudget) (erase : Z) (calls : list dyn_call)
  : list (list Z * PollBudget) :=
  match calls with
  | [] => []
  | CallSetErase n :: calls => budgets base (Z.max n (pb_attempts base)) calls
  | CallRequest req _ :: calls =>
      (req, if decide (head req = Some CMD_ERASE_APP)
            then mkPollBudget erase (pb_delay_ms base) else base)
      :: budgets base erase calls
  end.

Lemma dyn_step_budget {T A} `{Transport T A, SetPoll T} t base seen erase req rsp :
  pb_attempts base <= erase ->
  exists t', dyn_step (mkDyn (mkMetered t base seen) base erase) (CallRequest req rsp)
    = mkDyn (mkMetered t' base (seen ++ [(req, if decide (head req = Some CMD_ERASE_APP)
            then mkPollBudget erase (pb_delay_ms base) else base)])) base erase.
Proof.
  intros Hle. unfold dyn_step, request, dyn_transport, request, metered_transport.
  cbn [dyn_base dyn_erase_attempts dyn_inner].
  case_decide as Hh; [rewrite (bool_decide_true _ Hh)|rewrite (bool_decide_false _ Hh)];
    cbn [andb]; [destruct (Z.ltb_spec (pb_attempts base) erase)|];
    cbn [set_poll_budget metered_poll mt_inner mt_budget mt_seen].
  - destruct (request _ req rsp) as [r [t1 rsp1]]. by eexists.
  - destruct (request _ req rsp) as [r [t1 rsp1]]. exists t1.
    replace erase with (pb_attempts base) by lia. by destruct base.
  - destruct (request _ req rsp) as [r [t1 rsp1]]. by eexists.
Qed.

Lemma dyn_run_budgets {T A} `{Transport T A, SetPoll T} calls : forall t base seen erase,
  pb_attempts base <= erase ->
  exists t' erase', dyn_run (mkDyn (mkMetered t base seen) base erase) calls
    = mkDyn (mkMetered t' base (seen ++ budgets base erase calls)) base erase'.
Proof.
  induction calls as [|[req rsp|n] calls IH]; intros t base seen erase Hle.
  - exists t, erase. by rewrite app_nil_r.
  - change (dyn_run ?d (?c :: calls)) with (dyn_run (dyn_step d c) calls).
    destruct (dyn_step_budget t base seen erase req rsp Hle) as [t' ->].
    destruct (IH t' base (seen ++ [(req, if decide (head req = Some CMD_ERASE_APP)
            then mkPollBudget erase (pb_delay_ms base) else base)]) erase Hle) as (t2 & e2 & ->).
    exists t2, e2. by rewrite <- app_assoc.
  - change (dyn_run ?d (?c :: calls)) with (dyn_run (dyn_step d c) calls). cbn [dyn_step budgets].
    apply (IH t base seen (Z.max n (pb_attempts base))). lia.
Qed.

(** ** Properties *)

(** Whatever is asked of the transport, in whatever order, every
    [ERASE_APP] request runs on the erase attempts last set (never fewer than
    the base has) and every other request on the base budget, which is in
    force again between requests. *)
Theorem dyn_budget_policy {T A} `{Transport T A, SetPoll T} (t : T) base calls :
  let d := mkDyn (set_poll_budget base (mkMetered t base [])) base (pb_attempts base) in
  mt_seen (dyn_inner (dyn_run d calls)) = budgets base (pb_attempts base) calls
  /\ mt_budget (dyn_inner (dyn_run d calls)) = base.
Proof.
  intros d. destruct (dyn_run_budgets calls (set_poll_budget base t) base [] (pb_attempts base))
    as (t' & e' & Hr); [lia|].
  change (dyn_run d calls = mkDyn (mkMetered t' base ([] ++ budgets base (pb_attempts base) calls)) base e') in Hr.
  by rewrite Hr.
Qed.
