(* ===== verification/Cli.v ===== *)
(** The command line tool ([updater-cli/src/main.rs]): local inputs, the
    transport specification, the erase budget and the subcommands. Argument
    parsing by [clap] happens before; what is printed is modelled as the
    command's output value, and in [Messages.v] with the progress lines. *)
From S2P Require Import Prelude Text Ihex Install CliDevices.
From S2P Require Import Errors Frame Image Transport Session Recorded Hal EhI2c EhSpi EhUart EhSoftUart CliTransport.

Definition FRAME_BUF_LEN : Z := 512.
Definition PER_PAGE_ERASE_WORST_MS : Z := 10.

Inductive TransportKind := KindI2c | KindUart | KindSpi | KindGpio.

Inductive Cmd :=
| CmdInfo
| CmdEcho (data : text)
| CmdFlash (image : text)
| CmdBoot
| CmdInstall (target image : text) (port config : option text).

Record Cli := mkCli {
  cli_transport : TransportKind;
  cli_bus : text;
  cli_addr : Z;
  cli_dev : option text;
  cli_baud : Z;
  cli_speed_hz : Z;
  cli_chip : text;
  cli_pin_tx : option Z;
  cli_pin_rx : option Z;
  cli_poll_attempts : Z;
  cli_poll_delay_ms : Z;
  cli_cmd : Cmd;
}.

(** Why the tool exits with an error. [E]: operating system errors, [A]: the
    transport's. *)
Inductive cli_error (E A : Type) :=
| TransportFlags (offenders : list text)
| InstallError (e : install_error E)
| ReadingImage (path : text) (e : E)
| ParsingHex (path : text) (e : hex_error)
| DataNotHex (e : digits_error)
| DataLength (n : Z)
| BadBaud (baud : Z)
| PinsMissing (chip : text)
| PinsEqual (pin : Z)
| OpenError (e : open_error E)
| InfoError (e : Error.t A)
| EchoError (e : Error.t A)
| DoesNotFit (n app_pages page_size : Z) (e : Error.pure)
| FlashError (e : Error.t A)
| NoBootAck (e : A)
| BootRefused (e : Error.t A).
Arguments TransportFlags {E A} offenders.
Arguments InstallError {E A} e.
Arguments ReadingImage {E A} path e.
Arguments ParsingHex {E A} path e.
Arguments DataNotHex {E A} e.
Arguments DataLength {E A} n.
Arguments BadBaud {E A} baud.
Arguments PinsMissing {E A} chip.
Arguments PinsEqual {E A} pin.
Arguments OpenError {E A} e.
Arguments InfoError {E A} e.
Arguments EchoError {E A} e.
Arguments DoesNotFit {E A} n app_pages page_size e.
Arguments FlashError {E A} e.
Arguments NoBootAck {E A} e.
Arguments BootRefused {E A} e.

(** What a successful command reports. *)
Inductive output :=
| OutInfo (info : DeviceInfo) (region usable : Z)
| OutEcho (n : Z)
| OutFlash (n : Z)
| OutBoot
| OutInstall.

(** ** Local inputs *)

(** [u16::from_str_radix] and [str::parse::<u16>] *)
Definition parse_addr (s : text) : option Z :=
  let value :=
    match strip_prefix (str "0x") s with
    | Some hex => from_str_radix 16 65535 hex
    | None => match strip_prefix (str "0X") s with
              | Some hex => from_str_radix 16 65535 hex
              | None => from_str_radix 10 65535 s
              end
    end in
  match value with
  | Some v => if 0x7F <? v then None else Some v
  | None => None
  end.

Definition parse_hex_bytes (s : text) : result (list Z) digits_error :=
  let clean := List.filter (fun c => negb (is_whitespace c)) s in
  if negb (len (as_bytes clean) mod 2 =? 0) then Err OddDigits else decode_pairs (as_bytes clean).

(** [Path::extension]: what follows the last dot of the last component, unless
    the dot leads it or the component is the parent directory. *)
Definition file_name (path : text) : option text :=
  let components := List.filter (fun c => negb (bool_decide (c = [])) && negb (bool_decide (c = str ".")))
                      (split_on 0x2F path) in
  match last components with
  | Some c => if decide (c = str "..") then None else Some c
  | None => None
  end.
Definition extension (path : text) : option text :=
  match file_name path with
  | None => None
  | Some name =>
    match split_once 0x2E (reverse name) with
    | None => None
    | Some (after, before) => if decide (before = []) then None else Some (reverse after)
    end
  end.

Definition to_ascii_lowercase (c : Z) : Z := if (0x41 <=? c) && (c <=? 0x5A) then c + 32 else c.
Definition eq_ignore_ascii_case (a b : text) : bool :=
  bool_decide ((to_ascii_lowercase <$> a) = (to_ascii_lowercase <$> b)).

(** [std::fs::read] and [read_to_string]. *)
Record Files (E : Type) := mkFiles {
  fs_read : text -> result (list Z) E;
  fs_read_to_string : text -> result text E;
}.
Arguments mkFiles {E} fs_read fs_read_to_string.
Arguments fs_read {E} f.
Arguments fs_read_to_string {E} f.

Definition is_hex (path : text) : bool :=
  match extension path with Some e => eq_ignore_ascii_case e (str "hex") | None => false end.

Definition load_image {E A} (fs : Files E) (path : text) : result (list Z) (cli_error E A) :=
  if is_hex path then
    match fs_read_to_string fs path with
    | Err e => Err (ReadingImage path e)
    | Ok input => map_err (ParsingHex path) (parse input)
    end
  else map_err (ReadingImage path) (fs_read fs path).

(** ** The transport specification *)
Definition build_spec {E A} (cli : Cli) : result TransportSpec (cli_error E A) :=
  match cli_transport cli with
  | KindI2c => Ok (SpecI2c (cli_bus cli) (cli_addr cli))
  | KindUart =>
      if negb (existsb (Z.eqb (cli_baud cli)) SUPPORTED_BAUDS) then Err (BadBaud (cli_baud cli))
      else Ok (SpecUart (default (str "/dev/ttyUSB0") (cli_dev cli)) (cli_baud cli))
  | KindSpi => Ok (SpecSpi (default (str "/dev/spidev0.0") (cli_dev cli)) (cli_speed_hz cli))
  | KindGpio =>
      match cli_pin_tx cli, cli_pin_rx cli with
      | Some pin_tx, Some pin_rx =>
          if pin_tx =? pin_rx then Err (PinsEqual pin_tx)
          else Ok (SpecGpio (cli_chip cli) pin_tx pin_rx)
      | _, _ => Err (PinsMissing (cli_chip cli))
      end
  end.

(** [u32::div_ceil] *)
Definition div_ceil (a b : Z) : Z := if 0 <? a mod b then a / b + 1 else a / b.

Definition erase_poll_attempts (app_pages : Z) (poll : PollBudget) : Z :=
  let needed := div_ceil (u32_saturating_mul app_pages PER_PAGE_ERASE_WORST_MS)
                  (Z.max (pb_delay_ms poll) 1) in
  Z.max (pb_attempts poll) needed.

(** ** Transport flags on [install] *)
Definition TRANSPORT_FLAGS : list (text * text) :=
  [(str "transport", str "--transport"); (str "bus", str "--bus"); (str "addr", str "--addr");
   (str "dev", str "--dev"); (str "baud", str "--baud"); (str "speed_hz", str "--speed-hz");
   (str "chip", str "--chip"); (str "pin_tx", str "--pin-tx"); (str "pin_rx", str "--pin-rx");
   (str "poll_attempts", str "--poll-attempts"); (str "poll_delay_ms", str "--poll-delay-ms")].

(** [clap::ArgMatches]: which arguments were given on the command line, at the
    top and in the [install] subcommand. *)
Record ArgMatches := mkMatches {
  am_from_cli : text -> bool;
  am_install : option (text -> bool);
}.

Definition reject_transport_flags {E A} (m : ArgMatches) : result unit (cli_error E A) :=
  let offenders := snd <$> List.filter
    (fun '(id, _) => am_from_cli m id || match am_install m with Some sub => sub id | None => false end)
    TRANSPORT_FLAGS in
  match offenders with [] => Ok tt | _ => Err (TransportFlags offenders) end.

(** ** The commands that use the wire *)
Section commands.
Context `{PtrWidth} {T A : Type} `{Transport T A, EraseBudget T} {E : Type}.
Abbreviation run_result := (result output (cli_error E A) * Session T)%type.

Definition cmd_info (s : Session T) : run_result :=
  match info s with
  | (Err e, s) => (Err (InfoError e), s)
  | (Ok i, s) =>
      let region := di_page_size i * di_app_pages i in
      (Ok (OutInfo i region (u32_saturating_sub region 16)), s)
  end.

Definition cmd_echo (bytes : list Z) (s : Session T) : run_result :=
  match echo bytes s with
  | (Err e, s) => (Err (EchoError e), s)
  | (Ok _, s) => (Ok (OutEcho (len bytes)), s)
  end.

Definition cmd_flash (poll : PollBudget) (binary : list Z) (s : Session T) : run_result :=
  match info s with
  | (Err e, s) => (Err (InfoError e), s)
  | (Ok i, s) =>
    match from_bin binary (di_page_size i) (di_app_pages i) with
    | Err e => (Err (DoesNotFit (len binary) (di_app_pages i) (di_page_size i) e), s)
    | Ok img =>
      let transport := into_transport s in
      let transport := set_erase_attempts (erase_poll_attempts (di_app_pages i) poll) transport in
      match flash (fun _ _ p => p) img (new transport (buf s), tt) with
      | (Err e, (s, _)) => (Err (FlashError e), s)
      | (Ok _, (s, _)) => (Ok (OutFlash (img_len img)), s)
      end
    end
  end.

Definition cmd_boot (s : Session T) : run_result :=
  match boot s with
  | (Ok _, s) => (Ok OutBoot, s)
  | (Err (Error.Transport e), s) => (Err (NoBootAck e), s)
  | (Err e, s) => (Err (BootRefused e), s)
  end.
End commands.

(** ** [main], behind argument parsing *)
Section main.
Context `{PtrWidth} {W E SE Tio : Type}.
Context `{Clock W, I2CDevice W E, Spidev W E, GpioCdev W E, Tty W E Tio, Serial W SE}.
Context (fs : Files E) (env : Env E W).
Abbreviation err := (cli_error E (anyhow_error E SE)).

(** Everything checked before the transport is opened: the bytes a [flash] or
    an [echo] will send. *)
Definition local_input (cmd : Cmd) : result (list Z) err :=
  match cmd with
  | CmdFlash image => load_image fs image
  | CmdEcho data =>
      match parse_hex_bytes data with
      | Err e => Err (DataNotHex e)
      | Ok bytes =>
          if bool_decide (bytes = []) || (16 <? len bytes) then Err (DataLength (len bytes)) else Ok bytes
      end
  | _ => Ok []
  end.

Definition backend_world (b : Backend W) : W :=
  match b with
  | BackI2c t => li_dev (erased t)
  | BackUart t => uart_io (erased t)
  | BackSpi t => spi_hal (erased t)
  | BackGpio t => soft_hal (erased t)
  end.
Definition session_world (s : Session (DynTransport (Backend W))) : W :=
  backend_world (dyn_inner (transport s)).

Definition main (matches : ArgMatches) (cli : Cli) (w : W) : result output err * W :=
  match cli_cmd cli with
  | CmdInstall target image port config =>
      match reject_transport_flags matches with
      | Err e => (Err e, w)
      | Ok _ =>
        match run_cli env target image port config w with
        | (Err e, w) => (Err (InstallError e), w)
        | (Ok _, w) => (Ok OutInstall, w)
        end
      end
  | cmd =>
      match local_input cmd with
      | Err e => (Err e, w)
      | Ok input =>
        match build_spec cli with
        | Err e => (Err e, w)
        | Ok spec =>
          let poll := mkPollBudget (cli_poll_attempts cli) (cli_poll_delay_ms cli) in
          match open spec poll w with
          | (Err e, w) => (Err (OpenError e), w)
          | (Ok transport, _) =>
            let session := new transport (replicate (Z.to_nat FRAME_BUF_LEN) 0) in
            let '(r, session) :=
              match cmd with
              | CmdInfo => cmd_info session
              | CmdEcho _ => cmd_echo input session
              | CmdFlash _ => cmd_flash poll input session
              | _ => cmd_boot session
              end in
            (r, session_world session)
          end
        end
      end
  end.
End main.

(** ** A flash from the tool, on any transport *)

#[global] Instance logged_erase_budget {T E} `{EraseBudget T} : EraseBudget (Logged T E) :=
  fun n l => mkLogged (set_erase_attempts n (lg_inner l)) (lg_log l).

(** Setting the erase budget keeps the invariant [ok] of a transport. *)
Class EraseKeeps {T} `{EraseBudget T} (ok : T -> Prop) : Prop :=
  erase_keeps n t : is_u32 n -> ok t -> ok (set_erase_attempts n t).

#[global] Instance dyn_erase_keeps {T} (ok : T -> Prop) : EraseKeeps (dyn_ok (T:=T) ok).
Proof. intros n d. apply dyn_set_erase_ok. Qed.

Lemma div_ceil_bounds a b : 0 <= a -> 0 < b -> a <= div_ceil a b * b < a + b.
Proof.
  intros Ha Hb. unfold div_ceil. pose proof (Z.div_mod a b ltac:(lia)).
  pose proof (Z.mod_pos_bound a b Hb). zcase; nia.
Qed.

Lemma erase_poll_attempts_bounds pages poll : is_u16 pages -> budget_ok poll ->
  let n := erase_poll_attempts pages poll in
  is_u32 n /\ pb_attempts poll <= n
  /\ pages * 10 <= n * Z.max (pb_delay_ms poll) 1
  /\ (n = pb_attempts poll \/ (n - 1) * Z.max (pb_delay_ms poll) 1 < pages * 10).
Proof.
  intros Hp [Ha Hd]. unfold erase_poll_attempts, u32_saturating_mul, PER_PAGE_ERASE_WORST_MS.
  rewrite Z.min_l by lia. set (b := Z.max (pb_delay_ms poll) 1).
  pose proof (div_ceil_bounds (pages * 10) b ltac:(lia) ltac:(lia)).
  set (c := div_ceil (pages * 10) b) in *. cbv zeta.
  destruct (Z.max_spec (pb_attempts poll) c) as [[? ->]|[? ->]]; split_and!; nia.
Qed.

Section flash.
Context `{PtrWidth} {T A : Type} (tr : Transport T A) `{EraseBudget T} (ok : T -> Prop).
Context {Hty : TransportTyped tr ok} {Hek : EraseKeeps ok} {E : Type}.
Implicit Types s : Session (Logged T A).

Lemma info_sent s r s' : sess_ok ok s -> 18 <= len (buf s) -> info s = (r, s') ->
  sess_ok ok s' /\ len (buf s') = len (buf s)
  /\ match r with
     | Ok i => is_u16 (di_page_size i) /\ is_u16 (di_app_pages i) /\ info_reported (log s) (log s') i
     | Err e => wire_error e
        /\ exists v, conversed (log s) (log s') [info_frame] [v] /\ forall e', v = Err e' -> e' = e
     end.
Proof.
  intros Hs Hb Hi. pose proof Hi as Hi'.
  apply (info_spec tr ok) in Hi' as [(_ & _ & ?)|(_ & Hs' & Hl & atts & rsp & v & Hlog & Hex & Hr)];
    [lia| |done].
  split; [done|]. split; [done|]. destruct r as [i|].
  - destruct Hr as (rlen & payload & -> & Hok & Hp). destruct (info_typed tr ok s i s' Hs Hi) as [Hps Hap].
    do 2 (split; [done|]). by exists atts, rsp, rlen, payload.
  - destruct Hr as [? ?]. split; [done|]. exists v. split; [rewrite Hlog; by eapply exchanged_conversed|done].
Qed.

(** Errors of the flash sequence proper, in a frame buffer that is large
    enough. *)
Definition flash_failure (i : DeviceInfo) (e : Error.t A) : Prop :=
  wire_error e
  \/ (exists d, e = Error.ProtocolVersion d /\ d <> PROTO_VERSION)
  \/ exists ps ap, e = Error.BadGeometry ps ap /\ (ps <> di_page_size i \/ ap <> di_app_pages i).

Lemma cmd_flash_spec poll binary s r s' : budget_ok poll -> bytes binary ->
  sess_ok ok s -> 259 <= len (buf s) -> cmd_flash (E:=E) poll binary s = (r, s') ->
  sess_ok ok s' /\ len (buf s') = len (buf s) /\
  match r with
  | Ok (OutFlash n) => n = len binary
      /\ exists i log1 img vs, info_reported (log s) log1 i
         /\ from_bin binary (di_page_size i) (di_app_pages i) = Ok img
         /\ conversed log1 (log s') (flash_frames img) vs /\ Forall (fun v => is_ok v = true) vs
  | Err (InfoError e) => wire_error e
      /\ exists v, conversed (log s) (log s') [info_frame] [v] /\ forall e', v = Err e' -> e' = e
  | Err (DoesNotFit n ap ps e) => exists i, info_reported (log s) (log s') i
      /\ n = len binary /\ ap = di_app_pages i /\ ps = di_page_size i /\ from_bin binary ps ap = Err e
  | Err (FlashError e) =>
      exists i log1 img k vs, info_reported (log s) log1 i
         /\ from_bin binary (di_page_size i) (di_app_pages i) = Ok img
         /\ conversed log1 (log s') (take k (flash_frames img)) vs
         /\ stops vs (Err e : result unit (Error.t A)) /\ flash_failure i e
  | _ => False
  end.
Proof.
  intros Hp Hd Hs Hb. unfold cmd_flash. destruct (info s) as [[i|e] s1] eqn:Hi;
    apply info_sent in Hi as (Hs1 & Hl1 & Hri); first [done|lia|idtac].
  2: { intros [<- <-]%pair_equal_spec. split; [done|]. by split. }
  destruct Hri as (Hps & Hap & Hsent).
  destruct (from_bin binary (di_page_size i) (di_app_pages i)) as [img|e] eqn:Himg.
  2: { intros [<- <-]%pair_equal_spec. split; [done|]. split; [done|]. by exists i. }
  pose proof Himg as Hwf. apply from_bin_ok_inv in Hwf as (Hwf & Hdata & Hps' & Hap'); [|done..].
  destruct (flash _ img _) as [rf [s2 []]] eqn:Hf. intros Heq.
  assert (sess_ok ok (new (set_erase_attempts (erase_poll_attempts (di_app_pages i) poll)
    (into_transport s1)) (buf s1))) as Hs1'.
  { destruct Hs1 as [Hok Hbuf]. split; [|exact Hbuf]. apply erase_keeps; [|exact Hok].
    by apply erase_poll_attempts_bounds. }
  apply (flash_spec tr ok) in Hf as (k & m & vs & Hsent2 & Hst & _ & Hs2 & Hl2 & _ & _ & _ & Hrf & _); [|done..].
  change (log (new _ _)) with (log s1) in Hsent2. cbn [new buf] in Hl2, Hrf.
  pose proof (wf_page_size _ Hwf) as Hsize. change PAGE_SIZE_MAX with 250 in Hsize.
  destruct rf as [[]|e]; apply pair_equal_spec in Heq as [<- <-];
    (split; [exact Hs2|]); (split; [lia|]).
  - destruct Hrf as [-> _]. rewrite firstn_all in Hsent2. split; [by rewrite (wf_len _ Hwf), Hdata|].
    exists i, (log s1), img, vs. split_and!; try done. by apply stops_ok in Hst.
  - exists i, (log s1), img, k, vs. split; [done|]. split; [done|]. split; [done|]. split; [done|].
    destruct Hrf as [He|[(n & -> & ?)|[(d & -> & ?)|(dps & dap & -> & Hne)]]].
    + by left.
    + lia.
    + right; left. eauto.
    + right; right. rewrite Hps', Hap' in Hne. eauto.
Qed.
End flash.

(** ** The other commands *)
Section commands_spec.
Context `{PtrWidth} {T A : Type} (tr : Transport T A) `{EraseBudget T} (ok : T -> Prop).
Context {Hty : TransportTyped tr ok} {Hek : EraseKeeps ok} {E : Type}.
Implicit Types s : Session (Logged T A).

Lemma cmd_info_spec s r s' : sess_ok ok s -> 18 <= len (buf s) -> cmd_info (E:=E) s = (r, s') ->
  match r with
  | Ok (OutInfo i region usable) => 0 <= region < 2 ^ 32 /\ usable = Z.max (region - 16) 0
  | Err (InfoError e) => wire_error e
  | _ => False
  end.
Proof.
  intros Hs Hb. unfold cmd_info. destruct (info s) as [[i|e] s1] eqn:Hi;
    apply (info_sent tr ok) in Hi as (_ & _ & Hi); first [done|idtac];
    intros [<- <-]%pair_equal_spec; [|by destruct Hi].
  destruct Hi as (? & ? & _).
  split; [nia|done].
Qed.

Lemma transact_errors cmd payload cap s r s' : sess_ok ok s -> is_u8 cmd -> bytes payload ->
  len payload <= PAYLOAD_MAX -> 0 <= cap <= 255 -> len payload + cap + 6 <= len (buf s) ->
  transact cmd payload cap s = (r, s') -> forall e, r = Err e -> wire_error e.
Proof.
  intros Hs Hc Hp Hm Hcap Hb Ht.
  apply (transact_step tr ok) in Ht as [(_ & _ & ?)|(_ & _ & _ & _ & He)]; [lia|done..].
Qed.

Lemma cmd_echo_spec data s r s' : sess_ok ok s -> len (buf s) = FRAME_BUF_LEN -> bytes data ->
  len data <= ECHO_MAX -> cmd_echo (E:=E) data s = (r, s') ->
  match r with
  | Ok (OutEcho n) => n = len data
  | Err (EchoError e) => wire_error e
  | _ => False
  end.
Proof.
  intros Hs Hb Hd Hl. unfold cmd_echo, echo. change ECHO_MAX with 16 in *. change FRAME_BUF_LEN with 512 in *.
  zcase; [lia|]. usize_bounds. pose proof (len_nonneg data). change ST_RSP_PAYLOAD with 1.
  rewrite usize_add_small by lia. unfold sbind.
  destruct (transact CMD_ECHO data (len data + 1) s) as [r1 s1] eqn:Ht.
  pose proof (transact_errors CMD_ECHO data (len data + 1) s r1 s1 Hs ltac:(by vm_compute) Hd
    ltac:(change PAYLOAD_MAX with 252; lia) ltac:(lia) ltac:(lia) Ht) as He.
  destruct r1 as [rest|e].
  - case_decide; by intros [<- <-]%pair_equal_spec.
  - intros [<- <-]%pair_equal_spec. by apply He.
Qed.

Lemma cmd_boot_spec s r s' : sess_ok ok s -> 7 <= len (buf s) -> cmd_boot (E:=E) s = (r, s') ->
  match r with
  | Ok OutBoot => True
  | Err (NoBootAck e) => True
  | Err (BootRefused e) => wire_error e /\ forall e', e <> Error.Transport e'
  | _ => False
  end.
Proof.
  intros Hs Hb. unfold cmd_boot, boot, sbind.
  destruct (transact CMD_BOOT [] ST_RSP_PAYLOAD s) as [r1 s1] eqn:Ht.
  pose proof (transact_errors CMD_BOOT [] ST_RSP_PAYLOAD s r1 s1 Hs ltac:(by vm_compute) ltac:(constructor)
    ltac:(done) ltac:(change ST_RSP_PAYLOAD with 1; lia) ltac:(exact Hb) Ht) as He.
  destruct r1 as [rest|e]; [by intros [<- <-]%pair_equal_spec|].
  specialize (He e eq_refl). destruct e; intros [<- <-]%pair_equal_spec; try done.
Qed.

End commands_spec.

(** What the recorder shows of the commands is what they do. *)
Section commands_hom.
Context `{PtrWidth} {T A E : Type} `{Transport T A, EraseBudget T}.
Abbreviation unlog := (over (@lg_inner T A)).

Definition carried_cmd (c2 : Session T -> result output (cli_error E A) * Session T)
    (c1 : Session (Logged T A) -> result output (cli_error E A) * Session (Logged T A)) : Prop :=
  forall s r s', c2 s = (r, s') -> exists l, c1 (recorded s) = (r, l) /\ unlog l = s'.

Lemma carried_cmd_intro c2 c1 :
  (forall l, c2 (unlog l) = let '(r, l') := c1 l in (r, unlog l')) -> carried_cmd c2 c1.
Proof.
  intros Hc s r s'. rewrite <- (over_recorded (E:=A) s) at 1. rewrite Hc.
  destruct (c1 (recorded s)) as [r1 l]. intros [= -> <-]. by exists l.
Qed.

Lemma cmd_info_hom : carried_cmd cmd_info cmd_info.
Proof.
  apply carried_cmd_intro. intros l. unfold cmd_info. rewrite (info_hom (@lg_inner T A)).
  by destruct (info l) as [[i|e] l1].
Qed.
Lemma cmd_echo_hom data : carried_cmd (cmd_echo data) (cmd_echo data).
Proof.
  apply carried_cmd_intro. intros l. unfold cmd_echo. rewrite (echo_hom (@lg_inner T A)).
  by destruct (echo data l) as [[i|e] l1].
Qed.
Lemma cmd_boot_hom : carried_cmd cmd_boot cmd_boot.
Proof.
  apply carried_cmd_intro. intros l. unfold cmd_boot. rewrite (boot_hom (@lg_inner T A)).
  by destruct (boot l) as [[i|[]] l1].
Qed.
Lemma cmd_flash_hom poll binary : carried_cmd (cmd_flash poll binary) (cmd_flash poll binary).
Proof.
  apply carried_cmd_intro. intros l. unfold cmd_flash. rewrite (info_hom (@lg_inner T A)).
  destruct (info l) as [[i|e] l1]; [|done]. destruct (from_bin _ _ _) as [img|e]; [|done].
  change (new (set_erase_attempts ?n (into_transport (unlog l1))) (buf (unlog l1)))
    with (unlog (new (set_erase_attempts n (into_transport l1)) (buf l1))).
  rewrite (flash_hom (@lg_inner T A)). by destruct (flash _ _ _) as [[[]|e] [l2 []]].
Qed.
End commands_hom.

(** ** The whole tool *)
Section main_spec.
Context `{PtrWidth} {W E SE Tio : Type}.
Context `{Clock W} {i2cdev : I2CDevice W E} {spidev : Spidev W E} `{GpioCdev W E} {tty : Tty W E Tio}
  {port : Serial W SE}.
Context {Hi2c : I2CDeviceTyped i2cdev} {Hspi : SpidevTyped spidev} {Hport : SerialTyped port}.
Context (fs : Files E) (env : Env E W).
Abbreviation err := (cli_error E (anyhow_error E SE)).

(** Flags as [clap] hands them over: [u32] values. *)
Definition cli_ok (cli : Cli) : Prop := is_u32 (cli_poll_attempts cli) /\ is_u32 (cli_poll_delay_ms cli).
(** Files hold bytes. *)
Definition files_ok : Prop := forall path bs, fs_read fs path = Ok bs -> bytes bs.

(** The errors each stage can end in. *)
Definition local_error (e : err) : Prop :=
  match e with
  | ReadingImage _ _ | ParsingHex _ _ | DataNotHex _ | BadBaud _ | PinsMissing _ | PinsEqual _ => True
  | DataLength n => n = 0 \/ 16 < n
  | _ => False
  end.
Definition wire_stage_error (e : err) : Prop :=
  match e with
  | OpenError e => forall baud, e <> UnsupportedBaud baud
  | InfoError e | EchoError e => wire_error e
  | BootRefused e => wire_error e /\ forall e', e <> Error.Transport e'
  | NoBootAck _ => True
  | DoesNotFit n ap ps e => exists data, n = len data /\ from_bin data ps ap = Err e
  | FlashError e => exists i, flash_failure i e
  | _ => False
  end.

Lemma local_input_spec cmd r : files_ok -> (forall t i p c, cmd <> CmdInstall t i p c) ->
  local_input (SE:=SE) fs cmd = r ->
  match r with
  | Ok input => bytes input /\ match cmd with CmdEcho _ => 1 <= len input <= ECHO_MAX | _ => True end
  | Err e => local_error e
  end.
Proof.
  intros Hfs Hni <-. destruct cmd as [|data|image| |t i p c]; cbn [local_input];
    [by split; [constructor|]| | |by split; [constructor|]|by destruct (Hni t i p c)].
  - destruct (parse_hex_bytes data) as [bs|e] eqn:Hp; [|done].
    assert (bytes bs) as Hb.
    { unfold parse_hex_bytes in Hp. case_match; [done|]. by eapply decode_pairs_bytes. }
    change ECHO_MAX with 16. pose proof (len_nonneg bs).
    destruct (decide (bs = [])) as [->|Hne]; [left; done|].
    rewrite bool_decide_false by done. cbn [orb]. zcase; [by right|]. split; [done|].
    destruct bs as [|b bs]; [done|]. pose proof (len_nonneg bs). rewrite len_cons in *. lia.
  - unfold load_image. destruct (is_hex image).
    + destruct (fs_read_to_string fs image) as [input|e]; [|exact I].
      destruct (parse input) as [out|e] eqn:Hp; cbn [map_err]; [|exact I].
      split; [by apply (parse_is_bytes input)|done].
    + destruct (fs_read fs image) as [bs|e] eqn:Hr; cbn [map_err]; [|exact I].
      split; [by apply (Hfs image)|done].
Qed.

Lemma build_spec_error cli e : build_spec cli = Err e -> local_error e.
Proof. unfold build_spec. repeat case_match; by intros [= <-]. Qed.

Lemma supported_baud baud : existsb (Z.eqb baud) SUPPORTED_BAUDS = true -> baud_constant baud <> None.
Proof.
  unfold SUPPORTED_BAUDS, baud_constant. cbn [existsb]. rewrite !orb_true_iff, !Z.eqb_eq.
  intros Hb. destruct_or! Hb; try done; by subst.
Qed.

(** The wrappers keep the kinds of errors apart. *)
Lemma serial_open_baud dev baud w b w' :
  serial_open dev baud w = (Err (UnsupportedBaud b), w') -> baud_constant baud = None.
Proof.
  unfold serial_open. destruct (baud_constant baud) as [rate|]; [|done].
  unfold sbind, sfail, sret, with_context.
  destruct (tty_open dev w) as [[[]|e] w1]; cbn [map_err]; [|done].
  destruct (tcgetattr w1) as [[tio|e] w2]; cbn [map_err]; [|done].
  destruct (cfsetspeed rate (cfmakeraw tio)) as [tio'|e]; [|done].
  destruct (tcsetattr _ w2) as [[[]|e] w3]; cbn [map_err]; [|done].
  by destruct (tcflush w3) as [[[]|e] w4].
Qed.

Lemma open_error_spec cli poll w spec e w' : build_spec (E:=E) (A:=anyhow_error E SE) cli = Ok spec ->
  open spec poll w = (Err e, w') -> forall baud, e <> UnsupportedBaud baud.
Proof.
  intros Hspec Hopen baud ->. unfold open in Hopen.
  destruct (open_backend spec w) as [[b|e] w1] eqn:Hb; [done|]. injection Hopen as -> ->.
  destruct spec as [bus addr|dev bd|dev hz|chip tx rx]; cbn [open_backend] in Hb.
  - by destruct (linux_i2c_open bus addr w) as [[?|?] ?].
  - destruct (serial_open dev bd w) as [[[]|e] w2] eqn:Hs; [done|]. injection Hb as -> ->.
    apply serial_open_baud in Hs. unfold build_spec in Hspec. destruct (cli_transport cli); try done.
    + destruct (existsb _ _) eqn:Hx; [|done]. injection Hspec as _ <-. by apply supported_baud in Hx.
    + by repeat case_match.
  - unfold spidev_device_open, sbind, sret, with_context in Hb.
    destruct (spidev_open dev w) as [[[]|e] w2]; cbn [map_err] in Hb; [|done].
    by destruct (spidev_configure hz w2) as [[[]|e] w3].
  - unfold gpio_open, sbind, sret, with_context in Hb.
    destruct (chip_new chip w) as [[[]|e] w2]; cbn [map_err] in Hb; [|done].
    destruct (get_line tx w2) as [[[]|e] w3]; cbn [map_err] in Hb; [|done].
    destruct (line_request HandleTx _ _ w3) as [[[]|e] w4]; cbn [map_err] in Hb; [|done].
    destruct (get_line rx w4) as [[[]|e] w5]; cbn [map_err] in Hb; [|done].
    by destruct (line_request HandleRx _ _ w5) as [[[]|e] w6].
Qed.

Lemma session_start_ok (d : DynTransport (Backend W)) : dyn_ok backend_ok d ->
  sess_ok (dyn_ok backend_ok)
    (recorded (E:=anyhow_error E SE) (new d (replicate (Z.to_nat FRAME_BUF_LEN) 0))).
Proof.
  intros Hd. split; [exact Hd|]. usize_bounds. split; [by apply bytes_replicate|].
  cbn [recorded buf new]. rewrite len_replicate. change FRAME_BUF_LEN with 512. lia.
Qed.

(** [main] without [install]. *)
Lemma main_wire matches cli w : (forall t i p c, cli_cmd cli <> CmdInstall t i p c) ->
  main (SE:=SE) fs env matches cli w =
    match local_input fs (cli_cmd cli) with
    | Err e => (Err e, w)
    | Ok input =>
      match build_spec cli with
      | Err e => (Err e, w)
      | Ok spec =>
        let poll := mkPollBudget (cli_poll_attempts cli) (cli_poll_delay_ms cli) in
        match open spec poll w with
        | (Err e, w) => (Err (OpenError e), w)
        | (Ok d, _) =>
          let '(r, s) :=
            (match cli_cmd cli with
             | CmdInfo => cmd_info
             | CmdEcho _ => cmd_echo input
             | CmdFlash _ => cmd_flash poll input
             | _ => cmd_boot
             end) (new d (replicate (Z.to_nat FRAME_BUF_LEN) 0)) in
          (r, session_world s)
        end
      end
    end.
Proof.
  intros Hni. unfold main. destruct (cli_cmd cli) as [|data|image| |t i p c]; [done..|].
  by destruct (Hni t i p c).
Qed.

(** The opened session, whatever the command. *)
Lemma wire_command_spec cmd poll input d r s' : budget_ok poll -> dyn_ok backend_ok d -> bytes input ->
  match cmd with CmdEcho _ => 1 <= len input <= ECHO_MAX | _ => True end ->
  (match cmd with
   | CmdInfo => cmd_info (E:=E)
   | CmdEcho _ => cmd_echo input
   | CmdFlash _ => cmd_flash poll input
   | _ => cmd_boot
   end) (new d (replicate (Z.to_nat FRAME_BUF_LEN) 0)) = (r, s') ->
  match r with
  | Ok (OutInfo _ region usable) => 0 <= region < 2 ^ 32 /\ usable = Z.max (region - 16) 0
  | Ok (OutEcho n) | Ok (OutFlash n) => n = len input
  | Ok _ => True
  | Err e => wire_stage_error e
  end.
Proof.
  intros Hp Hd Hb Hcmd Hr. pose proof (session_start_ok d Hd) as Hs.
  assert (len (buf (recorded (E:=anyhow_error E SE) (new d (replicate (Z.to_nat FRAME_BUF_LEN) 0))))
    = 512) as Hl by (cbn [recorded buf new]; by rewrite len_replicate).
  destruct cmd as [|data|image| |t i p c].
  - apply cmd_info_hom in Hr as (l & Hr & _).
    apply (cmd_info_spec _ (dyn_ok backend_ok)) in Hr; [|done|lia]. by destruct r as [[]|[]].
  - apply cmd_echo_hom in Hr as (l & Hr & _).
    apply (cmd_echo_spec _ (dyn_ok backend_ok)) in Hr; [|done|done|done|lia]. by destruct r as [[]|[]].
  - apply cmd_flash_hom in Hr as (l & Hr & _).
    apply (cmd_flash_spec _ (dyn_ok backend_ok)) in Hr as (_ & _ & Hr); [|done|done|done|lia].
    destruct r as [[]|[]]; try done.
    + by destruct Hr as [-> _].
    + by destruct Hr as [? _].
    + destruct Hr as (i & _ & -> & _ & _ & ?). by eexists.
    + destruct Hr as (i & _ & _ & _ & _ & _ & _ & _ & _ & Hf). by exists i.
  - apply cmd_boot_hom in Hr as (l & Hr & _).
    apply (cmd_boot_spec _ (dyn_ok backend_ok)) in Hr; [|done|lia]. by destruct r as [[]|[]].
  - apply cmd_boot_hom in Hr as (l & Hr & _).
    apply (cmd_boot_spec _ (dyn_ok backend_ok)) in Hr; [|done|lia]. by destruct r as [[]|[]].
Qed.
End main_spec.

(** ** Properties *)

(** C31: what [flash] does on the wire. It asks for the geometry with one INFO
    exchange; the geometry is what the acknowledged response of that exchange,
    as recorded, holds. If the image does not fit it, that is all that is sent,
    and the error carries those figures and the length of the file. Otherwise
    the image is built for exactly that geometry, and behind that exchange the
    device sees the INFO, ERASE, WRITE and VERIFY frames of that image, one
    exchange for each: when the tool reports success, all of them, every one
    acknowledged, and the length reported is the file's; when it does not, a
    prefix, all acknowledged but perhaps the last, whose verdict is then the
    failure, which is the wire's or the device's, never one of the tool's own
    limits. *)
Theorem cli_flash_correct `{PtrWidth} {T A E} (tr : Transport T A) `{EraseBudget T} (ok : T -> Prop)
    `{!TransportTyped tr ok, !EraseKeeps ok} poll binary (s : Session (Logged T A)) r s' :
  budget_ok poll -> bytes binary -> sess_ok ok s -> len (buf s) = FRAME_BUF_LEN ->
  cmd_flash (E:=E) poll binary s = (r, s') ->
  match r with
  | Ok (OutFlash n) => n = len binary
      /\ exists i log1 img vs, info_reported (log s) log1 i
         /\ from_bin binary (di_page_size i) (di_app_pages i) = Ok img
         /\ conversed log1 (log s') (flash_frames img) vs /\ Forall (fun v => is_ok v = true) vs
  | Err (InfoError e) => wire_error e
      /\ exists v, conversed (log s) (log s') [info_frame] [v] /\ forall e', v = Err e' -> e' = e
  | Err (DoesNotFit n ap ps e) => exists i, info_reported (log s) (log s') i
      /\ n = len binary /\ ap = di_app_pages i /\ ps = di_page_size i /\ from_bin binary ps ap = Err e
  | Err (FlashError e) =>
      exists i log1 img k vs, info_reported (log s) log1 i
         /\ from_bin binary (di_page_size i) (di_app_pages i) = Ok img
         /\ conversed log1 (log s') (take k (flash_frames img)) vs
         /\ stops vs (Err e : result unit (Error.t A)) /\ flash_failure i e
  | _ => False
  end.
Proof.
  intros Hp Hb Hs Hl Hf. apply (cmd_flash_spec tr ok) in Hf as (_ & _ & Hf); try done.
  rewrite Hl. by vm_compute.
Qed.

(** C32: how the tool fails, over any well-typed kernel. A local mistake (an
    unreadable image, a malformed HEX file or hex string, an unsupported rate,
    missing or equal pins) is found before any device node is opened and
    leaves the world as it was; what can still fail behind that is opening the
    node, never for want of a baud rate, and the wire and the device, never
    the size of the frame buffer, a payload or a page. The region size printed
    fits its integer. *)
Theorem main_errors `{PtrWidth} {W E SE Tio} `{Clock W} {i2cdev : I2CDevice W E} {spidev : Spidev W E}
    `{GpioCdev W E} {tty : Tty W E Tio} {port : Serial W SE}
    `{!I2CDeviceTyped i2cdev, !SpidevTyped spidev, !SerialTyped port}
    (fs : Files E) (env : Env E W) matches cli w r w' :
  cli_ok cli -> files_ok fs -> (forall t i p c, cli_cmd cli <> CmdInstall t i p c) ->
  main (SE:=SE) (Tio:=Tio) fs env matches cli w = (r, w') ->
  match r with
  | Err e => local_error e /\ w' = w
             /\ (local_input (SE:=SE) fs (cli_cmd cli) = Err e \/ build_spec cli = Err e)
             \/ wire_stage_error e
  | Ok out => exists input spec, local_input (SE:=SE) fs (cli_cmd cli) = Ok input
      /\ build_spec (E:=E) (A:=anyhow_error E SE) cli = Ok spec
      /\ match out with
         | OutInfo _ region usable => 0 <= region < 2 ^ 32 /\ usable = Z.max (region - 16) 0
         | OutEcho n | OutFlash n => n = len input
         | _ => True
         end
  end.
Proof.
  intros Hcli Hfs Hni. rewrite main_wire by done. intros Hr.
  assert (budget_ok (mkPollBudget (cli_poll_attempts cli) (cli_poll_delay_ms cli))) as Hp by exact Hcli.
  destruct (local_input fs (cli_cmd cli)) as [input|e] eqn:Hin;
    pose proof (local_input_spec fs _ _ Hfs Hni Hin) as Hloc.
  2: { injection Hr as <- <-. left. auto. }
  destruct (build_spec cli) as [spec|e] eqn:Hspec.
  2: { injection Hr as <- <-. left. split; [by eapply build_spec_error|auto]. }
  cbv zeta in Hr. destruct (open spec (mkPollBudget _ _) w) as [[d|e] w1] eqn:Hopen.
  2: { injection Hr as <- <-. right. exact (open_error_spec _ _ _ _ _ _ Hspec Hopen). }
  apply open_ok in Hopen as (Hd & _); [|done]. destruct Hloc as [Hb Hcmd].
  match type of Hr with (let '(_, _) := ?m in _) = _ => destruct m as [r1 s1] eqn:Hc end.
  injection Hr as <- _. pose proof (wire_command_spec _ _ _ _ _ _ Hp Hd Hb Hcmd Hc) as Hres.
  destruct r1 as [out|e]; [|by right]. exists input, spec. split; [done|]. split; [done|].
  by destruct out.
Qed.

(** C35: the erase budget covers the worst case the tool allows for. With a
    poll delay of at least a millisecond, the attempts asked for an [ERASE_APP]
    are the user's if larger and otherwise the fewest whose delays add up to
    ten milliseconds per page; and as each backend takes that budget, attempts
    times interval still reaches that time: always on I2C and on the bit-banged
    line, and on UART and SPI for delays up to 4294 milliseconds, where their
    nanosecond interval saturates. *)
Theorem erase_budget_covers {W} pages poll (i2c : LinuxI2c W) (uart : UartTransport W)
    (spi : SpiTransport W) (soft : SoftUartTransport W) :
  is_u16 pages -> budget_ok poll -> 1 <= pb_delay_ms poll ->
  let n := erase_poll_attempts pages poll in
  let budget := mkPollBudget n (pb_delay_ms poll) in
  let worst_ns := pages * PER_PAGE_ERASE_WORST_MS * 1000000 in
  budget_ok budget
  /\ (n = pb_attempts poll
      \/ pb_attempts poll < n /\ (n - 1) * pb_delay_ms poll < pages * PER_PAGE_ERASE_WORST_MS)
  /\ (let t := set_poll_budget budget i2c in worst_ns <= li_poll_attempts t * li_poll_interval t)
  /\ (let t := set_poll_budget budget soft in
      worst_ns <= soft_poll_attempts t * soft_poll_interval_ns t)
  /\ (pb_delay_ms poll <= 4294 ->
      (let t := set_poll_budget budget uart in
       worst_ns <= uart_poll_attempts t * uart_poll_interval_ns t)
      /\ (let t := set_poll_budget budget spi in
          worst_ns <= spi_poll_attempts t * spi_poll_interval_ns t)).
Proof.
  intros Hp Hb Hd. pose proof (erase_poll_attempts_bounds pages poll Hp Hb) as (Hn & Hle & Hcov & Hmin).
  cbv zeta. set (n := erase_poll_attempts pages poll) in *.
  rewrite Z.max_l in Hcov, Hmin by lia. change PER_PAGE_ERASE_WORST_MS with 10.
  destruct Hb as [_ Hd2]. split_and!; [done|lia|..].
  - cbn. unfold from_millis. nia.
  - cbn [set_poll_budget set_poll_soft soft_set_poll soft_poll_attempts soft_poll_interval_ns
      pb_attempts pb_delay_ms].
    change DEFAULT_SOFTUART_POLL_INTERVAL_NS with 2000. change (Z.max 2000 1) with 2000.
    unfold u64_saturating_mul. set (m := Z.max n 1). assert (n <= m < 2 ^ 32) by lia.
    assert (0 <= m * pb_delay_ms poll < 2 ^ 64) by nia. rewrite (Z.min_l (m * _)) by lia.
    assert (pages * 10 <= m * pb_delay_ms poll) by nia. set (ms := m * pb_delay_ms poll) in *.
    assert (0 <= Z.min (ms * 1000000) (2 ^ 64 - 1) / 2000) by (apply Z.div_pos; lia).
    rewrite u32_or_max by done.
    assert (Z.min (ms * 500) (2 ^ 32 - 1) <= Z.min (ms * 1000000) (2 ^ 64 - 1) / 2000).
    { apply Z.div_le_lower_bound; [done|]. lia. }
    lia.
  - intros Hs. cbn. unfold u32_saturating_mul. rewrite Z.min_l by lia. nia.
Qed.

(** Outside those bounds it does not: a delay of zero leaves no time between
    the polls of the I2C backend and a single sample on the bit-banged line,
    and past 4294 milliseconds the UART interval falls behind the delay the
    attempts were computed with. *)
Lemma erase_budget_zero_delay {W} (i2c : LinuxI2c W) (soft : SoftUartTransport W) :
  let budget := mkPollBudget (erase_poll_attempts 480 (mkPollBudget 100 0)) 0 in
  pb_attempts budget = 4800
  /\ li_poll_interval (set_poll_budget budget i2c) = 0
  /\ soft_poll_attempts (set_poll_budget budget soft) = 1.
Proof. by vm_compute. Qed.
Lemma erase_budget_saturates {W} (uart : UartTransport W) :
  let budget := mkPollBudget (erase_poll_attempts 8192 (mkPollBudget 1 5000)) 5000 in
  let t := set_poll_budget budget uart in
  uart_poll_attempts t * uart_poll_interval_ns t < 8192 * PER_PAGE_ERASE_WORST_MS * 1000000.
Proof. by vm_compute. Qed.

(** ** Runs *)

#[global] Instance script_erase : EraseBudget (Script unit) := fun _ t => t.
#[global] Instance script_erase_keeps : EraseKeeps script_ok.
Proof. by intros n t _. Qed.

Definition tool_session : Session (Logged (Script unit) unit) :=
  new (mkLogged (Ok sample_info_rsp :: sample_script) []) (replicate 512 0).

Lemma cli_flash_correct_witness :
  let run := cmd_flash (E:=unit) (mkPollBudget 100 10) sample_data tool_session in
  fst run = Ok (OutFlash (len sample_data))
  /\ exists i log1 img vs, info_reported [] log1 i
     /\ from_bin sample_data (di_page_size i) (di_app_pages i) = Ok img
     /\ conversed log1 (log (snd run)) (flash_frames img) vs /\ Forall (fun v => is_ok v = true) vs.
Proof.
  intros run. assert (fst run = Ok (OutFlash (len sample_data))) as Hr by (vm_compute; reflexivity).
  split; [exact Hr|].
  pose proof (cli_flash_correct (E:=unit) transport_script script_ok (mkPollBudget 100 10) sample_data
    tool_session (fst run) (snd run)) as H. rewrite Hr in H. apply H.
  - split; cbn; lia.
  - exact sample_bytes.
  - split; [|split; [exact (bytes_replicate 512 0 ltac:(lia))|vm_compute; discriminate]].
    constructor; [exact (proj1 (proj1 (Forall_cons _ _ _) sample_script_ok))|exact sample_script_ok].
  - vm_compute. reflexivity.
  - rewrite <- Hr. apply surjective_pairing.
Defined.

(** A kernel with an I2C device that answers what the world lists and no other
    device. *)
Abbreviation Kernel := (list (list Z)).
#[local] Instance kernel_clock : Clock Kernel := {|
  clock_sleep _ w := w; clock_now _ := 0; clock_spin w := w |}.
#[local] Instance kernel_i2c : I2CDevice Kernel Z := {|
  i2cdev_new _ _ w := (Ok tt, w);
  i2cdev_write _ w := (Ok tt, w);
  i2cdev_read buf w :=
    match w with
    | [] => (Err 6, (buf, w))
    | bs :: w => (Ok tt, ((fun b => b mod 256) <$> take (length buf) (bs ++ replicate (length buf) 0xFF), w))
    end |}.
#[local] Instance kernel_spi : Spidev Kernel Z := {|
  spidev_open _ w := (Err 2, w); spidev_configure _ w := (Err 2, w);
  transfer_multiple xs w := (Err 2, (xs, w)) |}.
#[local] Instance kernel_gpio : GpioCdev Kernel Z := {|
  chip_new _ w := (Err 2, w); get_line _ w := (Err 2, w); line_request _ _ _ w := (Err 2, w);
  set_value _ _ w := (Err 2, w); get_value _ w := (Err 2, w) |}.
#[local] Instance kernel_tty : Tty Kernel Z unit := {|
  tty_open _ w := (Err 2, w); tcgetattr w := (Err 2, w); cfmakeraw t := t; cfsetspeed _ t := Ok t;
  control_chars _ _ t := t; tcsetattr _ w := (Err 2, w); tcflush w := (Err 2, w);
  file_read buf w := (Err 2, (buf, w)); file_write _ w := (Err 2, w); file_flush w := (Err 2, w);
  is_interrupted _ := false |}.
#[local] Instance kernel_serial : Serial Kernel Z := {|
  io_write_all _ w := (Err 2, w); io_flush w := (Err 2, w); io_read buf w := (Err 2, (buf, w)) |}.

Lemma kernel_i2c_typed : I2CDeviceTyped kernel_i2c.
Proof.
  intros buf w r buf' w' Hb. destruct w as [|bs w]; cbn; intros [= <- <- <-]; [done|]. split.
  - unfold len. rewrite length_fmap, length_take, length_app, length_replicate. lia.
  - apply Forall_fmap, Forall_forall. intros b _. cbn. apply Z.mod_pos_bound. lia.
Qed.
Lemma kernel_spi_typed : SpidevTyped kernel_spi.
Proof. intros buf w r xs w' Hb. cbn. intros [= <- <- <-]. by exists buf. Qed.
Lemma kernel_serial_typed : SerialTyped kernel_serial.
Proof. intros buf w r buf' w' Hb. cbn. by intros [= <- <- <-]. Qed.

Definition sample_files : Files Z := mkFiles (fun _ => Err 2) (fun _ => Err 2).
Definition sample_cli (cmd : Cmd) : Cli :=
  mkCli KindI2c (str "/dev/i2c-1") 0x20 None 115200 100000 (str "/dev/gpiochip0") None None 100 10 cmd.
Definition no_install : Env Z Kernel :=
  mkEnv (fun _ => Err 2) (fun _ => Err 2) (fun _ => Err 2) Some (Err 2) (fun _ _ w => (NotStarted 2, w)).
Definition no_flags : ArgMatches := mkMatches (fun _ => false) None.

Lemma main_errors_witness :
  let run := main (SE:=Z) (Tio:=unit) sample_files no_install no_flags (sample_cli CmdInfo) [sample_info_rsp] in
  fst run = Ok (OutInfo sample_info 64 48) /\ 0 <= 64 < 2 ^ 32.
Proof.
  intros run.
  assert (fst run = Ok (OutInfo sample_info 64 48)) as Hr by (vm_compute; reflexivity).
  split; [exact Hr|].
  pose proof kernel_i2c_typed. pose proof kernel_spi_typed. pose proof kernel_serial_typed.
  pose proof (main_errors sample_files no_install no_flags (sample_cli CmdInfo) [sample_info_rsp]
    (fst run) (snd run)) as Hm. rewrite Hr in Hm. destruct Hm as (_ & _ & _ & _ & Hreg & _).
  - split; cbn; lia.
  - intros path bs He. discriminate He.
  - intros t i p c He. discriminate He.
  - rewrite <- Hr. apply surjective_pairing.
  - exact Hreg.
Defined.

Lemma erase_budget_covers_witness :
  let t := set_poll_budget (mkPollBudget (erase_poll_attempts 480 (mkPollBudget 1 7)) 7)
             (mkLinuxI2c tt 1 0) in
  li_poll_attempts t = 686 /\ 480 * 10 * 1000000 <= li_poll_attempts t * li_poll_interval t.
Proof.
  intros t. split; [vm_compute; reflexivity|].
  destruct (erase_budget_covers 480 (mkPollBudget 1 7) (mkLinuxI2c tt 1 0) (uart_new tt) (spi_new tt)
    (soft_new tt)) as (_ & _ & H & _); [lia|split; cbn; lia|cbn; lia|exact H].
Defined.
