(* ===== verification/Messages.v ===== *)
(** What the program tells its user: the [Display] of every error type, the
    chain of contexts an error reaches the shell with, the lines printed on
    stdout and the progress on stderr ([updater-core/src/error.rs], the
    adapters of [updater-eh], and [main.rs], [install.rs], [ihex.rs] and
    [transport.rs] of [updater-cli]). How the operating system and the crates
    word their own errors is a parameter. *)
From S2P Require Import Prelude Text Fmt Errors Frame Image Transport Session Recorded.
From S2P Require Import EhI2c EhSpi EhUart EhSoftUart Ihex Install CliDevices CliTransport Cli.

Definition quote : text := [0x22].

(** ** The host core and the adapters *)
Definition Error_fmt {E} (show : E -> text) (e : Error.t E) : text :=
  match e with
  | Error.Transport e => str "transport error: " ++ show e
  | Error.BadFrame => str "malformed frame (length or CRC-8 mismatch)"
  | Error.Device st => str "device reported status " ++ hex_alt st ++ str " (" ++ str (st_name st) ++ str ")"
  | Error.PayloadTooLarge len => str "payload of " ++ dec len ++ str " bytes exceeds the frame limit"
  | Error.BufferTooSmall needed => str "output buffer too small, need " ++ dec needed ++ str " bytes"
  | Error.ImageTooLarge len capacity =>
      str "image of " ++ dec len ++ str " bytes exceeds region capacity of " ++ dec capacity ++ str " bytes"
  | Error.BadGeometry page_size app_pages =>
      str "unusable geometry: page_size " ++ dec page_size ++ str ", app_pages " ++ dec app_pages
  | Error.PageOutOfRange index => str "page index " ++ dec index ++ str " out of range"
  | Error.ProtocolVersion device => str "unsupported device protocol version " ++ dec device
  end.

Definition I2cTransportError_fmt {E} (kind : E -> text) (e : I2cTransportError E) : text :=
  match e with
  | I2cWrite e => str "i2c write failed: " ++ kind e
  | I2cExhausted attempts last =>
      str "device did not answer within " ++ dec attempts ++ str " poll attempt(s) " ++ em_dash
      ++ str " is it in the bootloader, at this address? if this was erase/flash, the device may still be erasing "
      ++ em_dash ++ str " widen the poll budget (`with_poll`); last i2c error: " ++ kind last
  end.

Definition SpiTransportError_fmt {E} (kind : E -> text) (e : SpiTransportError E) : text :=
  match e with
  | SpiWrite e => str "spi write failed: " ++ kind e
  | SpiRead e => str "spi read failed: " ++ kind e
  | SpiExhausted attempts =>
      str "no response within " ++ dec attempts ++ str " clocked byte(s) " ++ em_dash
      ++ str " is the device in the bootloader? if this was erase/flash, it may still be erasing " ++ em_dash
      ++ str " widen the poll budget (`with_poll`)"
  end.

Definition UartTransportError_fmt {E} (show : E -> text) (e : UartTransportError E) : text :=
  match e with
  | UartWrite e => str "uart write failed: " ++ show e
  | UartRead e => str "uart read failed: " ++ show e
  | UartExhausted attempts =>
      str "device sent nothing within " ++ dec attempts ++ str " poll attempt(s) " ++ em_dash
      ++ str " is it in the bootloader? if this was erase/flash, it may still be erasing " ++ em_dash
      ++ str " widen the poll budget (`with_poll`)"
  | UartDesync scanned =>
      str "no valid frame in " ++ dec scanned ++ str " scanned byte(s) " ++ em_dash
      ++ str " wrong baud rate or wrong port?"
  end.

Definition SoftUartTransportError_fmt {TE RE} (debug_tx : TE -> text) (debug_rx : RE -> text)
    (e : SoftUartTransportError TE RE) : text :=
  match e with
  | SoftTx e => str "softuart tx pin failed: " ++ debug_tx e
  | SoftRx e => str "softuart rx pin failed: " ++ debug_rx e
  | SoftExhausted attempts =>
      str "line stayed idle for " ++ dec attempts ++ str " sample(s) " ++ em_dash
      ++ str " is the device in the bootloader? if this was erase/flash, it may still be erasing " ++ em_dash
      ++ str " widen the poll budget (`with_poll`)"
  | SoftDesync scanned =>
      str "no valid frame in " ++ dec scanned ++ str " received byte(s) " ++ em_dash ++ str " noise, or wrong pins?"
  end.

(** ** The tool *)

(** How third parties word their errors: [Display] and [Debug] of an operating
    system error and of a serial port's, what lies below the former in an error
    chain, the [kind] of an SPI error ([ErrorKind::Other] throughout), and the
    standard library's texts for bytes that are not UTF-8 and for characters
    that are not digits. *)
Class Words (E SE : Type) := {
  show_os : E -> text;
  chain_os : E -> list text;
  debug_os : E -> text;
  show_serial : SE -> text;
  kind_other : text;
  show_utf8_error : Z -> Z -> text;
  show_not_digits : text;
}.

(** An [anyhow::Error]: its own text, then that of every cause below. [{e}] is
    the first, [{e:#}] all of them. *)
Abbreviation chain := (list text).
Definition display (c : chain) : text := default [] (head c).
Definition alternate (c : chain) : text := join_with (str ": ") c.

Section messages.
Context {E SE : Type} `{Words E SE, Printable}.

Definition os_chain (e : E) : chain := show_os (SE:=SE) e :: chain_os (SE:=SE) e.

Definition LinuxI2cError_fmt (e : LinuxI2cError E) : text :=
  match e with
  | LinuxOpen e => str "cannot open i2c device: " ++ show_os (SE:=SE) e
  | LinuxWrite e => str "i2c write failed: " ++ show_os (SE:=SE) e
  | LinuxExhausted attempts last =>
      str "device did not answer within " ++ dec attempts
      ++ str " poll attempts (is it in the bootloader, at this address? if this was erase/flash, the device may still be erasing "
      ++ em_dash ++ str " raise --poll-attempts): " ++ show_os (SE:=SE) last
  end.

Definition SpiError_fmt (e : SpiError E) : text :=
  match e with
  | SpiIo e => str "spidev transfer failed: " ++ show_os (SE:=SE) e
  | DelayUnsupported => str "spidev backend cannot do this: " ++ str "a delay inside one chip-select assertion"
  | LengthsUnsupported => str "spidev backend cannot do this: " ++ str "Transfer with different read/write lengths"
  end.
(** [embedded_hal::spi::Error::kind] *)
Definition SpiError_kind (e : SpiError E) : text := kind_other (E:=E) (SE:=SE).

Definition PinError_fmt (e : PinError E) : text :=
  let 'mkPinError e := e in str "gpio line access failed: " ++ show_os (SE:=SE) e.
(** [#[derive(Debug)]] *)
Definition PinError_debug (e : PinError E) : text :=
  let 'mkPinError e := e in str "PinError(" ++ debug_os (SE:=SE) e ++ str ")".

(** [anyhow!("{e}")] of the backend's error. *)
Definition anyhow_fmt (e : anyhow_error E SE) : text :=
  match e with
  | AnyI2c e => LinuxI2cError_fmt e
  | AnyUart e => UartTransportError_fmt (show_serial (E:=E)) e
  | AnySpi e => SpiTransportError_fmt SpiError_kind e
  | AnyGpio e => SoftUartTransportError_fmt PinError_debug PinError_debug e
  end.

(** The context each failure to open a wire is given: [serial::open],
    [spi::open], [gpio::open], and [open] for the I2C bus. *)
Definition serial_open_chain (e : open_error E) : chain :=
  match e with
  | UnsupportedBaud baud =>
      [str "unsupported baud rate " ++ dec baud ++ str " (supported: " ++ debug_list SUPPORTED_BAUDS ++ str ")"]
  | OpeningSerial dev e => (str "opening serial device " ++ dev) :: os_chain e
  | NotATerminal dev e => (dev ++ str ": not a terminal?") :: os_chain e
  | SettingBaud e => str "setting baud rate" :: os_chain e
  | ApplyingTermios e => str "applying termios settings" :: os_chain e
  | Flushing e => str "flushing stale bytes" :: os_chain e
  | _ => []
  end.
Definition spi_open_chain (e : open_error E) : chain :=
  match e with
  | OpeningSpi dev e => (str "opening SPI device " ++ dev) :: os_chain e
  | ConfiguringSpi dev speed_hz e =>
      (str "configuring " ++ dev ++ str " at " ++ dec speed_hz ++ str " Hz") :: os_chain e
  | _ => []
  end.
Definition gpio_open_chain (e : open_error E) : chain :=
  match e with
  | OpeningChip chip e => (str "opening GPIO chip " ++ chip) :: os_chain e
  | ClaimingTx pin e => (str "claiming TX line " ++ dec pin) :: os_chain e
  | ClaimingRx pin e => (str "claiming RX line " ++ dec pin) :: os_chain e
  | _ => []
  end.
Definition open_chain (e : open_error E) : chain :=
  match e with
  | OpeningI2c bus addr e =>
      [str "opening " ++ bus ++ str " (address " ++ hex_alt addr ++ str ")"; LinuxI2cError_fmt e]
  | OpeningSpi _ _ | ConfiguringSpi _ _ _ => spi_open_chain e
  | OpeningChip _ _ | ClaimingTx _ _ | ClaimingRx _ _ => gpio_open_chain e
  | _ => serial_open_chain e
  end.

(** [decode_hex]'s errors, in a line of a HEX file. *)
Definition digits_fmt (e : digits_error) : text :=
  match e with
  | OddDigits => str "odd number of hex digits"
  | NotUtf8 b0 b1 => show_utf8_error (E:=E) (SE:=SE) b0 b1
  | InvalidDigits digits => str "invalid hex digits " ++ debug_str digits
  end.

Definition line_fmt (e : line_error) : text :=
  match e with
  | AfterEof => str "record after EOF record"
  | NoColon => str "record does not start with ':'"
  | BadDigits e => digits_fmt e
  | TooShort n => str "record too short (" ++ dec n ++ str " bytes, need at least 5)"
  | MissingChecksum => str "record too short (missing checksum)"
  | LengthMismatch ll n =>
      str "length field says " ++ dec ll ++ str " data byte(s) but record carries " ++ dec n
  | ChecksumMismatch => str "checksum mismatch"
  | ExtendedAddress rtype =>
      str "extended address record (type " ++ hex_alt rtype ++ str ") is not supported " ++ em_dash
      ++ str " the updater image must fit 16-bit addresses starting at 0; for ARM-class images produce a raw binary instead: arm-none-eabi-objcopy -O binary app.elf app.bin"
  | UnsupportedType rtype => str "unsupported record type " ++ hex_alt rtype
  end.

Definition hex_chain (e : hex_error) : chain :=
  match e with
  | AtLine lineno e => [str "line " ++ dec lineno ++ str ": " ++ line_fmt e]
  | MissingEof => [str "missing EOF record (:00000001FF)"]
  end.

(** [parse_hex_bytes]'s errors, on the command line. *)
Definition hex_bytes_chain (e : digits_error) : chain :=
  match e with
  | OddDigits => [str "odd number of hex digits"]
  | NotUtf8 b0 b1 => [show_utf8_error (E:=E) (SE:=SE) b0 b1]
  | InvalidDigits digits =>
      [str "invalid hex byte " ++ debug_str digits; show_not_digits (E:=E) (SE:=SE)]
  end.

(** [install]: [source] is the configuration file and [image] the
    bootloader, as [Path::display] shows them. *)
Definition read_config_chain (e : install_error E) : chain :=
  match e with
  | NoConfig =>
      [str "no install.toml in the current directory " ++ em_dash
       ++ str " run where one lives, pass --config <file>, or start from the reference install.toml at the updater-sdk repo root"]
  | ReadConfig path e =>
      (str "reading " ++ path ++ str " " ++ em_dash ++ str " pass --config an existing install.toml") :: os_chain e
  | _ => []
  end.
Definition parse_config_chain (source : text) (e : install_error E) : chain :=
  match e with
  | ParseToml e => (str "parsing " ++ source) :: os_chain e
  | EmptyTool name =>
      [source ++ str ": targets." ++ name ++ str ": tool is empty " ++ em_dash
       ++ str " name the programmer executable to run (e.g. " ++ quote ++ str "avrdude" ++ quote ++ str " or "
       ++ quote ++ str "probe-rs" ++ quote ++ str ")"]
  | EmptyPre name i =>
      [source ++ str ": targets." ++ name ++ str ": pre[" ++ dec i ++ str "] is empty " ++ em_dash
       ++ str " each pre step is an argv list starting with the tool to run, e.g. [" ++ quote ++ str "avrdude" ++ quote
       ++ str ", " ++ quote ++ str "-U" ++ quote ++ str ", " ++ quote ++ str "bootsize:w:8:m" ++ quote ++ str "]"]
  | _ => []
  end.
Definition target_chain (source : text) (e : install_error E) : chain :=
  match e with
  | NoTarget name available =>
      [str "no target " ++ debug_str name ++ str " in " ++ source ++ str " " ++ em_dash ++ str " available: "
       ++ join_with (str ", ") available ++ str " (add a [targets." ++ name ++ str "] table to define it)"]
  | _ => []
  end.
Definition expand_one_chain (e : install_error E) : chain :=
  match e with
  | UnclosedBrace arg =>
      [str "unclosed '{' in template argument " ++ debug_str arg ++ str " " ++ em_dash
       ++ str " placeholders are {image} and {port}; fix the argument in install.toml"]
  | NeedsPort arg =>
      [str "template argument " ++ debug_str arg ++ str " needs a port " ++ em_dash
       ++ str " pass --port <dev> (e.g. --port /dev/ttyACM0)"]
  | UnknownPlaceholder other arg =>
      [str "unknown placeholder {" ++ other ++ str "} in template argument " ++ debug_str arg ++ str " " ++ em_dash
       ++ str " only {image} and {port} are substituted; fix install.toml"]
  | _ => []
  end.
Definition plan_chain (e : install_error E) : chain :=
  match e with
  | PortNotAccepted port =>
      [str "this target does not accept a port: its template has no {port} placeholder and no port_arg " ++ em_dash
       ++ str " add one of them to the target in install.toml, or drop --port (got " ++ debug_str port ++ str ")"]
  | _ => []
  end.
Definition resolve_tool_chain (e : install_error E) : chain :=
  match e with
  | ToolNotExecutable tool =>
      [tool ++ str " does not exist or is not executable " ++ em_dash ++ str " fix the tool path in install.toml"]
  | ToolNotFound tool =>
      [debug_str tool ++ str " not found on PATH " ++ em_dash ++ str " install it first:" ++ [10]
       ++ str "  avrdude:   apt install avrdude       (or dnf/pacman/brew equivalent)" ++ [10]
       ++ str "  probe-rs:  cargo install probe-rs-tools   (https://probe.rs)" ++ [10]
       ++ str "  openocd:   apt install openocd" ++ [10]
       ++ str "or point the target's tool at an absolute path in install.toml"]
  | _ => []
  end.
Definition run_cli_chain (image : text) (e : install_error E) : chain :=
  match e with
  | NoImage =>
      [str "image " ++ image ++ str " does not exist " ++ em_dash
       ++ str " build the bootloader hex first (e.g. make -C device/ports/avr_ea_twi) or fix the --image path"]
  | ImageNotUtf8 => [str "image path " ++ image ++ str " is not valid UTF-8"]
  | SpawnFailed exe e => (str "failed to start " ++ exe) :: os_chain e
  | ExitStatus exe code =>
      [exe ++ str " failed with exit status " ++ dec code ++ str " " ++ em_dash
       ++ str " its output above says why; fix that and re-run"]
  | KilledBySignal exe => [exe ++ str " was killed by a signal"]
  | _ => []
  end.
Definition install_chain (source image : text) (e : install_error E) : chain :=
  match e with
  | NoConfig | ReadConfig _ _ => read_config_chain e
  | ParseToml _ | EmptyTool _ | EmptyPre _ _ => parse_config_chain source e
  | NoTarget _ _ => target_chain source e
  | UnclosedBrace _ | NeedsPort _ | UnknownPlaceholder _ _ => expand_one_chain e
  | PortNotAccepted _ => plan_chain e
  | ToolNotExecutable _ | ToolNotFound _ => resolve_tool_chain e
  | _ => run_cli_chain image e
  end.

(** What [main] returns its error with: the contexts of [load_image],
    [build_spec] and [reject_transport_flags], and its own. *)
Definition load_image_chain (e : cli_error E (anyhow_error E SE)) : chain :=
  match e with
  | ReadingImage path e => (str "reading " ++ path) :: os_chain e
  | ParsingHex path e => (str "parsing " ++ path ++ str " as Intel HEX") :: hex_chain e
  | _ => []
  end.
Definition build_spec_chain (e : cli_error E (anyhow_error E SE)) : chain :=
  match e with
  | BadBaud baud =>
      [str "unsupported baud rate " ++ dec baud ++ str " (supported: "
       ++ join_with (str ", ") (dec <$> SUPPORTED_BAUDS) ++ str ")"]
  | PinsMissing chip =>
      [str "--transport gpio needs both --pin-tx and --pin-rx (GPIO line offsets on " ++ chip ++ str ")"]
  | PinsEqual pin =>
      [str "--pin-tx and --pin-rx must be different lines (both are " ++ dec pin ++ str ")"]
  | _ => []
  end.
Definition transport_flags_message (offenders : list text) : text :=
  str "install talks to a debug adapter (avrdude/probe-rs/...), never the updater wire " ++ em_dash
  ++ str " drop " ++ join_with (str ", ") offenders.
Definition cli_chain (source image : text) (e : cli_error E (anyhow_error E SE)) : chain :=
  match e with
  | TransportFlags offenders => [transport_flags_message offenders]
  | InstallError e => install_chain source image e
  | ReadingImage _ _ | ParsingHex _ _ => load_image_chain e
  | DataNotHex e => str "--data must be hex digits" :: hex_bytes_chain e
  | DataLength n => [str "--data must be 1..=16 bytes (" ++ dec n ++ str " given)"]
  | BadBaud _ | PinsMissing _ | PinsEqual _ => build_spec_chain e
  | OpenError e => open_chain e
  | InfoError e => [str "INFO failed"; Error_fmt anyhow_fmt e]
  | EchoError e => [str "ECHO failed"; Error_fmt anyhow_fmt e]
  | DoesNotFit n app_pages page_size e =>
      [str "image does not fit the device (" ++ dec n ++ str " bytes into " ++ dec app_pages ++ str " pages of "
       ++ dec page_size ++ str " bytes, 16 reserved for the footer)";
       Error_fmt (fun never : Empty_set => match never with end) e]
  | FlashError e => [str "flash failed"; Error_fmt anyhow_fmt e]
  | NoBootAck e =>
      [str "no BOOT ACK " ++ em_dash ++ str " the device may have booted anyway; check whether the app came up ("
       ++ anyhow_fmt e ++ str ")"]
  | BootRefused e => [str "BOOT refused"; Error_fmt anyhow_fmt e]
  end.
End messages.

(** ** Output *)
Definition describe (spec : TransportSpec) : text :=
  match spec with
  | SpecI2c bus addr => bus ++ str " @ " ++ hex_alt addr
  | SpecUart dev baud => dev ++ str " @ " ++ dec baud ++ str " baud"
  | SpecSpi dev speed_hz => dev ++ str " @ " ++ dec speed_hz ++ str " Hz"
  | SpecGpio chip pin_tx pin_rx =>
      chip ++ str " tx=" ++ dec pin_tx ++ str " rx=" ++ dec pin_rx ++ str " @ 9600 baud"
  end.

(** The lines [info] prints. *)
Definition info_lines (i : DeviceInfo) (region usable : Z) : list text :=
  [str "protocol:           " ++ dec (di_proto i);
   str "bootloader:         v" ++ dec (di_bl_version i);
   str "device id:          " ++ join_with (str " ") (hex_02X <$> di_device_id i);
   str "protocol page size: " ++ dec (di_page_size i) ++ str " bytes";
   str "app pages:          " ++ dec (di_app_pages i);
   str "app region:         " ++ dec region ++ str " bytes (" ++ dec usable ++ str " usable)";
   str "app valid:          " ++ (if di_app_valid i then str "yes" else str "no")].

(** Standard output of a successful command; [target] and [tool] are what was
    installed, with which programmer. *)
Definition printed (target tool : text) (o : output) : list text :=
  match o with
  | OutInfo i region usable => info_lines i region usable
  | OutEcho n => [str "echo OK (" ++ dec n ++ str " bytes round-tripped)"]
  | OutFlash n => [str "flash OK: " ++ dec n ++ str " bytes written and verified"]
  | OutBoot => [str "boot: OK"]
  | OutInstall => [str "install OK: " ++ target ++ str " via " ++ tool]
  end.

Definition display_arg `{Printable} (arg : text) : text :=
  if bool_decide (arg = []) || existsb is_whitespace arg then debug_str arg else arg.

(** [eprintln!("+ {} {}", inv.tool, shown.join(" "))] *)
Definition echo_args `{Printable} (args : list text) : text := join_with (str " ") (display_arg <$> args).
Definition echo_line `{Printable} (inv : Invocation) : text :=
  str "+ " ++ inv_tool inv ++ str " " ++ echo_args (inv_args inv).

(** ** Progress *)

(** [eprint!("\r  page {done}/{total}")] *)
Definition page_progress (done total : Z) (stderr : text) : text :=
  stderr ++ [13] ++ str "  page " ++ dec done ++ str "/" ++ dec total.

Section progress.
Context `{PtrWidth} {T A : Type} `{Transport T A, EraseBudget T} {E : Type}.

(** The [flash] arm of [main] with what it writes to stderr. *)
Definition cmd_flash_stderr (spec : TransportSpec) (poll : PollBudget) (binary : list Z) (s : Session T)
  : result output (cli_error E A) * (Session T * text) :=
  match info s with
  | (Err e, s) => (Err (InfoError e), (s, []))
  | (Ok i, s) =>
    match from_bin binary (di_page_size i) (di_app_pages i) with
    | Err e => (Err (DoesNotFit (len binary) (di_app_pages i) (di_page_size i) e), (s, []))
    | Ok img =>
      let transport := into_transport s in
      let transport := set_erase_attempts (erase_poll_attempts (di_app_pages i) poll) transport in
      let stderr := str "flashing " ++ dec (img_len img) ++ str " bytes (crc32 " ++ hex_08X (img_crc img) ++ str ") to "
                    ++ describe spec ++ [10] in
      match flash page_progress img (new transport (buf s), stderr) with
      | (Err e, st) => (Err (FlashError e), st)
      | (Ok _, (s, stderr)) => (Ok (OutFlash (img_len img)), (s, stderr ++ [10]))
      end
    end
  end.
End progress.

(** ** Specification *)

(** An echoed line cut into arguments again: what is quoted up to its closing
    quote, anything else up to the next space. *)
Definition read_arg (s : text) : option (text * text) :=
  match s with
  | 0x22 :: s => read_quoted (S (length s)) s
  | _ => match split_once 0x20 s with Some (a, rest) => Some (a, 0x20 :: rest) | None => Some (s, []) end
  end.
Fixpoint read_args (fuel : nat) (s : text) : option (list text) :=
  match fuel with
  | O => None
  | S fuel =>
    match read_arg s with
    | None => None
    | Some (a, []) => Some [a]
    | Some (a, c :: rest) =>
        if c =? 0x20 then match read_args fuel rest with Some l => Some (a :: l) | None => None end else None
    end
  end.
Definition read_echo (s : text) : option (list text) :=
  if decide (s = []) then Some [] else read_args (length s) s.

(** Shown as it is. *)
Definition plain (arg : text) : bool := negb (bool_decide (arg = []) || existsb is_whitespace arg).

Section echo.
Context `{Printable}.

Lemma display_arg_cases arg : display_arg arg = if plain arg then arg else debug_str arg.
Proof. unfold display_arg, plain. by destruct (_ || _). Qed.

Lemma escape_nonempty c : (1 <= length (escape_debug c))%nat.
Proof. unfold escape_debug. repeat case_match; cbn; lia. Qed.
Lemma escaped_length s : (length s <= length (s ≫= escape_debug))%nat.
Proof.
  induction s as [|c s IH]; [done|]. cbn [mbind list_bind]. change (foldr _ _ _) with (s ≫= escape_debug).
  rewrite length_app. pose proof (escape_nonempty c). cbn [length]. lia.
Qed.

Lemma plain_no_space arg : plain arg = true -> arg <> [] /\ Forall (fun x => x <> 0x20) arg.
Proof.
  unfold plain. intros [Hne Hw]%negb_true_iff%orb_false_iff. split; [by apply bool_decide_eq_false in Hne|].
  apply Forall_forall. intros x Hx ->. apply list_elem_of_In in Hx.
  assert (existsb is_whitespace arg = true) by (apply existsb_exists; by exists 0x20). congruence.
Qed.

Lemma display_arg_nonempty arg : (1 <= length (display_arg arg))%nat.
Proof.
  rewrite display_arg_cases. destruct (plain arg) eqn:Hp; [|cbn; lia].
  apply plain_no_space in Hp as [Hne _]. destruct arg; [done|cbn; lia].
Qed.

Definition shown_ok (arg : text) : Prop := Forall is_char arg /\ (plain arg = true -> head arg <> Some 0x22).

Lemma read_arg_display arg rest : shown_ok arg -> (rest = [] \/ exists r, rest = 0x20 :: r) ->
  read_arg (display_arg arg ++ rest) = Some (arg, rest).
Proof.
  intros [Hc Hq] Hr. rewrite display_arg_cases. destruct (plain arg) eqn:Hp.
  - apply plain_no_space in Hp as [Hne Hsp]. specialize (Hq eq_refl).
    assert (read_arg (arg ++ rest) = match split_once 0x20 (arg ++ rest) with
      Some (a, rest) => Some (a, 0x20 :: rest) | None => Some (arg ++ rest, []) end) as ->.
    { destruct arg as [|c arg]; [done|]. cbn [app read_arg]. repeat case_match; simplify_eq/=; try done. }
    destruct Hr as [->|[r ->]]; [|by rewrite split_once_at].
    rewrite app_nil_r. assert (split_once 0x20 arg = None) as ->; [|done]. clear -Hsp.
    induction Hsp as [|x arg Hx _ IH]; [done|]. cbn [split_once]. by rewrite (proj2 (Z.eqb_neq _ _) Hx), IH.
  - unfold debug_str. rewrite <- !app_assoc. cbn [app read_arg]. apply read_quoted_escaped; [done|].
    rewrite length_app. pose proof (escaped_length arg). lia.
Qed.
End echo.

(** ** The echoed line *)
Section echo_line.
Context `{Printable}.

Lemma echo_args_cons a l : echo_args (a :: l) =
  display_arg a ++ match l with [] => [] | _ => 0x20 :: echo_args l end.
Proof. unfold echo_args. destruct l; cbn [fmap list_fmap join_with]; [by rewrite app_nil_r|done]. Qed.

Lemma echo_args_length l : (length l <= length (echo_args l))%nat.
Proof.
  induction l as [|a l IH]; [cbn; lia|]. rewrite echo_args_cons, length_app. pose proof (display_arg_nonempty a).
  destruct l; cbn [length] in *; lia.
Qed.

Lemma read_args_echo l : forall fuel, l <> [] -> Forall shown_ok l -> (length l <= fuel)%nat ->
  read_args fuel (echo_args l) = Some l.
Proof.
  induction l as [|a l IH]; intros [|fuel] Hne Hl Hf; cbn [length] in Hf; try done; [lia|].
  apply Forall_cons in Hl as [Ha Hl]. rewrite echo_args_cons. cbn [read_args]. destruct l as [|b l].
  - by rewrite read_arg_display by (done || by left).
  - rewrite read_arg_display by (done || right; by eexists). cbn [Z.eqb]. rewrite IH by (done || lia). done.
Qed.

(** The line [install] shows before it starts a program says which
    arguments it is given: cut at the quotes and spaces it is exactly the
    argument vector, whatever white space, quotes, backslashes or characters
    that cannot be printed the arguments hold, provided none that is shown
    bare begins with a quote. *)
Theorem echo_line_reads_back (inv : Invocation) :
  Forall (fun a => Forall is_char a /\ (plain a = true -> head a <> Some 0x22)) (inv_args inv) ->
  exists line, echo_line inv = str "+ " ++ inv_tool inv ++ str " " ++ line /\ read_echo line = Some (inv_args inv).
Proof.
  intros Hl. exists (echo_args (inv_args inv)). split; [done|]. unfold read_echo.
  pose proof (echo_args_length (inv_args inv)) as Hlen. destruct (decide _) as [He|He].
  - rewrite He in Hlen. by destruct (inv_args inv); [|cbn in Hlen; lia].
  - apply read_args_echo; [by intros Hn; rewrite Hn in He|done|done].
Qed.

(** Without the proviso it does not: two vectors of different lengths are
    shown alike. *)
Theorem echo_line_ambiguous tool :
  echo_line (mkInvocation tool [quote ++ str "a"; str "b" ++ quote]) = echo_line (mkInvocation tool [str "a b"]).
Proof. reflexivity. Qed.
End echo_line.

Lemma echo_line_reads_back_witness :
  let _ : Printable := fun _ => false in
  exists line, echo_line (mkInvocation (str "avrdude") [str "-U"; str "flash:w:my fw.hex:i"; []])
      = str "+ " ++ str "avrdude" ++ str " " ++ line
    /\ read_echo line = Some [str "-U"; str "flash:w:my fw.hex:i"; []].
Proof.
  intros p. apply (echo_line_reads_back (mkInvocation (str "avrdude") [str "-U"; str "flash:w:my fw.hex:i"; []])).
  cbn [inv_args]. repeat apply Forall_cons_2; try apply Forall_nil_2; (split; [by apply is_char_forallb|done]).
Defined.

(** ** What a flash writes to stderr *)
Section flash_stderr.
Context `{PtrWidth}.

(** A computation on a session and the callback's state, without the latter. *)
Definition forget {X Y A} (o : A * (X * Y)) : A * X := (fst o, fst (snd o)).
Definition alike {T P Q F A} (m : stm (Session T * P) F A) (m' : stm (Session T * Q) F A) : Prop :=
  forall s p q, forget (m (s, p)) = forget (m' (s, q)).

Lemma alike_bind {T P Q F A B} (m : stm (Session T * P) F A) (m' : stm (Session T * Q) F A)
    (k : A -> stm (Session T * P) F B) (k' : A -> stm (Session T * Q) F B) :
  alike m m' -> (forall a, alike (k a) (k' a)) -> alike (sbind m k) (sbind m' k').
Proof.
  intros Hm Hk s p q. specialize (Hm s p q). unfold sbind.
  destruct (m (s, p)) as [[a|e] [s1 p1]], (m' (s, q)) as [[a'|e'] [s1' q1]]; unfold forget in Hm; cbn in Hm; simplify_eq.
  - apply Hk.
  - done.
Qed.

Context {T A : Type} `{Transport T A}.

(** The callback sees the update but has no part in it. *)
Lemma flash_alike {P Q} (f : Z -> Z -> P -> P) (g : Z -> Z -> Q -> Q) img : alike (flash f img) (flash g img).
Proof.
  assert (forall B (m : stm (Session T) (Error.t A) B), alike (P:=P) (Q:=Q) (on_session m) (on_session m)) as Hon.
  { intros B m s p q. unfold on_session. by destruct (m s). }
  unfold flash. apply alike_bind; [apply Hon|]. intros i. destruct (negb _); [by intros s p q|].
  destruct (_ || _); [by intros s p q|]. apply alike_bind; [apply Hon|]. intros _.
  apply alike_bind; [by intros s p q|]. intros _. apply alike_bind.
  - generalize (default 65535 (u16_try_from (len (pages_list (pages img))))) as total. intros total. generalize 0. induction (pages_list (pages img)) as [|i' l IH]; intros d;
      [by intros s p q|]. cbn [flash_pages]. apply alike_bind; [apply Hon|]. intros _.
    apply alike_bind; [by intros s p q|]. intros _. apply IH.
  - intros _. apply alike_bind; [apply Hon|]. by intros _ s p q.
Qed.

End flash_stderr.

Definition page_line (total d : Z) : text := [13] ++ str "  page " ++ dec d ++ str "/" ++ dec total.

Lemma reported_lines total d n stderr :
  reported page_progress total d n stderr = stderr ++ concat (page_line total <$> seqZ d (Z.of_nat n)).
Proof.
  revert d stderr. induction n as [|n IH]; intros d stderr; [by rewrite app_nil_r|].
  rewrite reported_S, IH, (seqZ_cons d) by lia. cbn [fmap list_fmap concat].
  replace (Z.pred (Z.of_nat (S n))) with (Z.of_nat n) by lia. replace (Z.succ d) with (d + 1) by lia.
  unfold page_progress, page_line. rewrite <- !app_assoc. done.
Qed.

Definition flash_header (spec : TransportSpec) (img : Image.Image) : text :=
  str "flashing " ++ dec (img_len img) ++ str " bytes (crc32 " ++ hex_08X (img_crc img) ++ str ") to "
  ++ describe spec ++ [10].

Section stderr_properties.
Context `{PtrWidth} {T A : Type} `{Transport T A}.

(** What [flash] shows while it works. Showing it changes nothing of the
    update; nothing is shown before the device has answered and the image fits
    it; then one line names the image and the wire, and the page counter runs
    through 0, 1, 2, ... of the pages to be written without skipping or
    repeating one, up to the last of them and a line end if the update
    succeeds. *)
Theorem flash_stderr `{EraseBudget T} {E} (ok : T -> Prop) `{!TransportTyped _ ok, !EraseKeeps ok}
    spec poll binary (s : Session (Logged T A)) r s' stderr :
  budget_ok poll -> bytes binary -> sess_ok ok s -> len (buf s) = FRAME_BUF_LEN ->
  cmd_flash_stderr (E:=E) spec poll binary s = (r, (s', stderr)) ->
  cmd_flash (E:=E) poll binary s = (r, s')
  /\ (stderr = [] /\ is_ok r = false
      \/ exists ps ap img m, from_bin binary ps ap = Ok img
           /\ (m <= S (length (pages_list (pages img))))%nat
           /\ let total := len (pages_list (pages img)) in
              stderr = flash_header spec img ++ concat (page_line total <$> seqZ 0 (Z.of_nat m))
                         ++ (if is_ok r then [10] else [])
              /\ (is_ok r = true -> Z.of_nat m = total + 1)).
Proof.
  intros Hp Hd Hs Hb. unfold cmd_flash_stderr, cmd_flash.
  destruct (info s) as [[i|e] s1] eqn:Hi; [|intros [= <- <- <-]; split; [done|by left]].
  apply (info_sent _ ok) in Hi as (Hs1 & _ & Hri); [|done|change FRAME_BUF_LEN with 512 in Hb; lia].
  destruct Hri as (Hps & Hap & _).
  destruct (from_bin _ _ _) as [img|e] eqn:Himg; [|intros [= <- <- <-]; split; [done|by left]].
  pose proof Himg as Hwf. apply from_bin_ok_inv in Hwf as (Hwf & _); [|done..].
  fold (flash_header spec img). set (s2 := new _ _).
  assert (sess_ok ok s2) as Hs2.
  { destruct Hs1 as [Hok Hbuf]. split; [|exact Hbuf]. apply erase_keeps; [|exact Hok].
    by apply erase_poll_attempts_bounds. }
  pose proof (flash_alike page_progress (fun _ _ p => p) img s2 (flash_header spec img) tt) as Ha.
  destruct (flash page_progress img _) as [rf [s3 err]] eqn:Hf.
  destruct (flash _ img (s2, tt)) as [rf' [s3' []]]. unfold forget in Ha. cbn [fst snd] in Ha. simplify_eq.
  apply (flash_spec _ ok) in Hf as (k & m & vs & _ & _ & _ & _ & _ & _ & -> & Hm & Hr & _); [|done..].
  rewrite reported_lines. destruct rf' as [[]|e]; intros [= <- <- <-]; (split; [done|right]);
    exists (di_page_size i), (di_app_pages i), img, m; (split; [done|]); (split; [done|]); cbn [is_ok]; split.
  - by rewrite <- app_assoc.
  - intros _. destruct Hr as [_ ->]. unfold len. lia.
  - by rewrite app_nil_r.
  - done.
Qed.
End stderr_properties.

Lemma flash_stderr_witness :
  let run := cmd_flash_stderr (E:=unit) (SpecI2c (str "/dev/i2c-1") 0x20) (mkPollBudget 100 10) sample_data tool_session in
  snd (snd run) = str "flashing 20 bytes (crc32 B19FF727) to /dev/i2c-1 @ 0x20" ++ [10]
    ++ [13] ++ str "  page 0/3" ++ [13] ++ str "  page 1/3" ++ [13] ++ str "  page 2/3" ++ [13] ++ str "  page 3/3" ++ [10]
  /\ cmd_flash (E:=unit) (mkPollBudget 100 10) sample_data tool_session = (fst run, fst (snd run)).
Proof.
  intros run. split; [vm_compute; reflexivity|].
  refine (proj1 (flash_stderr (E:=unit) script_ok (SpecI2c (str "/dev/i2c-1") 0x20) (mkPollBudget 100 10) sample_data
    tool_session (fst run) (fst (snd run)) (snd (snd run)) _ sample_bytes _ _ _)).
  - split; cbn; lia.
  - split; [|split; [exact (bytes_replicate 512 0 ltac:(lia))|vm_compute; discriminate]].
    constructor; [exact (proj1 (proj1 (Forall_cons _ _ _) sample_script_ok))|exact sample_script_ok].
  - vm_compute. reflexivity.
  - unfold run. by destruct (cmd_flash_stderr _ _ _ _) as [r [s' e]].
Defined.

(** ** What [info] prints *)

Lemma hex_02X_inj a b : is_u8 a -> is_u8 b -> hex_02X a = hex_02X b -> a = b.
Proof.
  intros Ha Hb Heq. pose proof (from_str_radix_pad0 true 16 255 2 a ltac:(lia) ltac:(lia)) as Hr.
  unfold hex_02X in Heq. rewrite Heq, from_str_radix_pad0 in Hr by lia. by injection Hr.
Qed.
Lemma hex_02X_length b : is_u8 b -> length (hex_02X b) = 2%nat.
Proof. intros Hb. apply Nat.eqb_eq. revert b Hb. by apply forall_u8. Qed.

Lemma hex_bytes_inj l : forall l', length l = length l' -> bytes l -> bytes l' ->
  join_with (str " ") (hex_02X <$> l) = join_with (str " ") (hex_02X <$> l') -> l = l'.
Proof.
  induction l as [|a l IH]; intros [|b l'] Hl Ha Hb Heq; try done. injection Hl as Hl.
  apply bytes_cons in Ha as [Ha Hla], Hb as [Hb Hlb].
  assert (hex_02X a = hex_02X b /\ join_with (str " ") (hex_02X <$> l) = join_with (str " ") (hex_02X <$> l')) as [Hab Htl].
  { destruct l as [|c l], l' as [|d l']; try done. cbn [fmap list_fmap join_with] in *.
    apply app_inj_1 in Heq as [? Heq]; [|by rewrite !hex_02X_length]. split; [done|]. by apply app_inv_head in Heq. }
  f_equal; [by apply hex_02X_inj|by apply IH].
Qed.

Definition info_ok (i : DeviceInfo) : Prop :=
  0 <= di_proto i /\ 0 <= di_bl_version i /\ length (di_device_id i) = 4%nat /\ bytes (di_device_id i)
  /\ 0 <= di_page_size i /\ 0 <= di_app_pages i.

(** Nothing of what the device reported is lost in print: two devices
    whose [info] listings agree reported the same. *)
Theorem info_lines_faithful i j ri ui rj uj : info_ok i -> info_ok j ->
  info_lines i ri ui = info_lines j rj uj -> i = j.
Proof.
  intros (Hp & Hb & Hl & Hd & Hps & Hap) (Hp' & Hb' & Hl' & Hd' & Hps' & Hap') Heq.
  assert (forall k, nth k (info_lines i ri ui) [] = nth k (info_lines j rj uj) []) as Hk by (intros k; by rewrite Heq).
  pose proof (dec_inj _ _ Hp Hp' (app_inv_head _ _ _ (Hk 0%nat))).
  pose proof (dec_inj _ _ Hb Hb' (app_inv_head _ _ _ (Hk 1%nat))).
  pose proof (hex_bytes_inj _ _ (eq_trans Hl (eq_sym Hl')) Hd Hd' (app_inv_head _ _ _ (Hk 2%nat))).
  pose proof (dec_inj _ _ Hps Hps' (app_inv_tail _ _ _ (app_inv_head _ _ _ (Hk 3%nat)))).
  pose proof (dec_inj _ _ Hap Hap' (app_inv_head _ _ _ (Hk 4%nat))).
  pose proof (app_inv_head _ _ _ (Hk 6%nat)) as Hv.
  destruct i as [p b d ps ap v], j as [p' b' d' ps' ap' v'].
  cbn [di_proto di_bl_version di_device_id di_page_size di_app_pages di_app_valid] in *. subst. f_equal. by destruct v, v'.
Qed.

Lemma info_lines_faithful_witness :
  info_lines sample_info 64 48 <> info_lines (mkInfo PROTO_VERSION 7 [1; 2; 3; 5] 16 4 true) 64 48.
Proof.
  intros Heq. apply (info_lines_faithful sample_info (mkInfo PROTO_VERSION 7 [1; 2; 3; 5] 16 4 true)) in Heq;
    [discriminate|split_and!; [done..|repeat constructor; lia|done|done]..].
Defined.

(** ** What an error names *)
Section named.
Context {E SE : Type} `{Words E SE, Printable}.

(** The facts a message has to carry for its reader to act on it. *)
Definition error_names {F} (inner : F -> list text) (e : Error.t F) : list text :=
  match e with
  | Error.Transport e => inner e
  | Error.BadFrame => [str "malformed frame"]
  | Error.Device st => [hex_alt st; str (st_name st)]
  | Error.PayloadTooLarge n | Error.BufferTooSmall n | Error.PageOutOfRange n | Error.ProtocolVersion n => [dec n]
  | Error.ImageTooLarge a b | Error.BadGeometry a b => [dec a; dec b]
  end.
Definition anyhow_names (e : anyhow_error E SE) : list text :=
  match e with
  | AnyI2c (LinuxOpen e) => [str "cannot open i2c device"; show_os (SE:=SE) e]
  | AnyI2c (LinuxWrite e) => [str "i2c write failed"; show_os (SE:=SE) e]
  | AnyI2c (LinuxExhausted attempts e) => [dec attempts; str "--poll-attempts"; show_os (SE:=SE) e]
  | AnyUart (UartWrite e) => [str "uart write failed"; show_serial (E:=E) e]
  | AnyUart (UartRead e) => [str "uart read failed"; show_serial (E:=E) e]
  | AnyUart (UartExhausted attempts) | AnySpi (SpiExhausted attempts) | AnyGpio (SoftExhausted attempts) =>
      [dec attempts; str "poll budget"; str "with_poll"]
  | AnyUart (UartDesync scanned) => [dec scanned; str "wrong baud rate or wrong port?"]
  | AnyGpio (SoftDesync scanned) => [dec scanned; str "noise, or wrong pins?"]
  | AnySpi (SpiWrite _) => [str "spi write failed"; kind_other (E:=E) (SE:=SE)]
  | AnySpi (SpiRead _) => [str "spi read failed"; kind_other (E:=E) (SE:=SE)]
  | AnyGpio (SoftTx (mkPinError e)) => [str "tx pin"; debug_os (SE:=SE) e]
  | AnyGpio (SoftRx (mkPinError e)) => [str "rx pin"; debug_os (SE:=SE) e]
  end.
Definition hex_names (e : hex_error) : list text :=
  match e with
  | AtLine lineno (ExtendedAddress rtype) =>
      [str "line " ++ dec lineno; hex_alt rtype; str "arm-none-eabi-objcopy -O binary"]
  | AtLine lineno (UnsupportedType rtype) => [str "line " ++ dec lineno; hex_alt rtype]
  | AtLine lineno (LengthMismatch ll n) => [str "line " ++ dec lineno; dec ll; dec n]
  | AtLine lineno _ => [str "line " ++ dec lineno]
  | MissingEof => [str ":00000001FF"]
  end.
Definition install_names (source image : text) (e : install_error E) : list text :=
  match e with
  | NoConfig => [str "--config"]
  | ReadConfig path e => [path; show_os (SE:=SE) e]
  | ParseToml e => [source; show_os (SE:=SE) e]
  | EmptyTool name => [source; name]
  | EmptyPre name i => [source; name; dec i]
  | NoTarget name available => debug_str name :: source :: available
  | NoImage => [image; str "--image"]
  | ImageNotUtf8 => [image]
  | UnclosedBrace arg => [debug_str arg; str "{image}"; str "{port}"]
  | NeedsPort arg => [debug_str arg; str "--port"]
  | UnknownPlaceholder other arg => [other; debug_str arg; str "{image}"; str "{port}"]
  | PortNotAccepted port => [debug_str port; str "{port}"; str "port_arg"]
  | ToolNotExecutable tool => [tool]
  | ToolNotFound tool => [debug_str tool; str "apt install avrdude"; str "probe-rs-tools"; str "openocd"]
  | SpawnFailed exe e => [exe; show_os (SE:=SE) e]
  | ExitStatus exe code => [exe; dec code]
  | KilledBySignal exe => [exe]
  | IndexPanic => []
  end.
Definition open_names (e : open_error E) : list text :=
  match e with
  | UnsupportedBaud baud => dec baud :: (dec <$> SUPPORTED_BAUDS)
  | OpeningSerial dev e | NotATerminal dev e | OpeningSpi dev e | OpeningChip dev e => [dev; show_os (SE:=SE) e]
  | SettingBaud e | ApplyingTermios e | Flushing e => [show_os (SE:=SE) e]
  | ConfiguringSpi dev hz e => [dev; dec hz; show_os (SE:=SE) e]
  | ClaimingTx pin e | ClaimingRx pin e => [dec pin; show_os (SE:=SE) e]
  | OpeningI2c bus addr (LinuxOpen e) | OpeningI2c bus addr (LinuxWrite e) | OpeningI2c bus addr (LinuxExhausted _ e) =>
      [bus; hex_alt addr; show_os (SE:=SE) e]
  end.
Definition cli_names (source image : text) (e : cli_error E (anyhow_error E SE)) : list text :=
  match e with
  | TransportFlags offenders => offenders
  | InstallError e => install_names source image e
  | ReadingImage path e => [path; show_os (SE:=SE) e]
  | ParsingHex path e => path :: hex_names e
  | DataNotHex (InvalidDigits digits) => [str "--data"; debug_str digits]
  | DataNotHex _ => [str "--data"]
  | DataLength n => [str "--data"; dec n]
  | BadBaud baud => dec baud :: (dec <$> SUPPORTED_BAUDS)
  | PinsMissing chip => [str "--pin-tx"; str "--pin-rx"; chip]
  | PinsEqual pin => [str "--pin-tx"; str "--pin-rx"; dec pin]
  | OpenError e => open_names e
  | InfoError e => str "INFO" :: error_names anyhow_names e
  | EchoError e => str "ECHO" :: error_names anyhow_names e
  | BootRefused e => str "BOOT" :: error_names anyhow_names e
  | FlashError e => str "flash" :: error_names anyhow_names e
  | DoesNotFit n ap ps e => dec n :: dec ap :: dec ps :: error_names (fun _ => []) e
  | NoBootAck e => str "BOOT" :: str "may have booted" :: anyhow_names e
  end.

Lemma contains_alternate s p (c : chain) : p ∈ c -> contains s p -> contains s (alternate c).
Proof. intros Hp Hs. eapply contains_trans; [exact Hs|]. by apply contains_join. Qed.
Lemma contains_head s p (c : chain) : contains s p -> contains s (alternate (p :: c)).
Proof. apply contains_alternate. left. Qed.
Lemma contains_tail s p (c : chain) : c <> [] -> contains s (alternate c) -> contains s (alternate (p :: c)).
Proof.
  intros Hc Hs. destruct c as [|q c]; [done|]. unfold alternate in *. cbn [join_with] in *.
  by do 2 apply contains_app_r.
Qed.

(** Finds a piece among the pieces of a message. *)
Ltac find :=
  match goal with
  | |- contains ?s ?s => apply contains_refl
  | H : contains ?s ?p |- contains ?s ?p => exact H
  | |- contains (str _) (str _) => apply containsb_contains; vm_compute; reflexivity
  | |- contains (?a ++ ?s) (?a ++ ?s ++ _) => apply contains_front
  | |- contains _ (_ ++ _) => apply contains_app_l; find
  | |- contains _ (_ ++ _) => apply contains_app_r; find
  | |- contains _ (join_with _ _) => apply contains_join; assumption
  | |- contains _ (alternate (_ :: _)) => apply contains_head; find
  | |- contains _ (alternate (_ :: _)) => apply contains_tail; [discriminate|find]
  end.
Ltac find_all := repeat apply Forall_cons_2; try apply Forall_nil_2; find.

Lemma anyhow_fmt_names e : Forall (fun t => contains t (anyhow_fmt e)) (anyhow_names e).
Proof. destruct e as [[]|[]|[]|[[]|[]|?|?]]; cbn [anyhow_names anyhow_fmt LinuxI2cError_fmt UartTransportError_fmt
  SpiTransportError_fmt SoftUartTransportError_fmt PinError_debug SpiError_kind]; unfold SpiError_kind; find_all. Qed.

Lemma Error_fmt_names {F} (show : F -> text) inner (e : Error.t F) :
  (forall e, Forall (fun t => contains t (show e)) (inner e)) ->
  Forall (fun t => contains t (Error_fmt show e)) (error_names inner e).
Proof.
  intros Hi. destruct e; cbn [error_names Error_fmt]; try find_all.
  eapply Forall_impl; [apply Hi|]. intros t Ht. by apply contains_app_r.
Qed.

Lemma named_below what p (names : list text) c :
  contains what p -> c <> [] -> Forall (fun t => contains t (alternate c)) names ->
  Forall (fun t => contains t (alternate (p :: c))) (what :: names).
Proof.
  intros Hw Hc Hn. constructor; [by apply contains_head|]. eapply Forall_impl; [exact Hn|].
  intros t. by apply contains_tail.
Qed.
Lemma named_single (names : list text) p :
  Forall (fun t => contains t p) names -> Forall (fun t => contains t (alternate [p])) names.
Proof. done. Qed.

Lemma hex_chain_names e : Forall (fun t => contains t (alternate (hex_chain e))) (hex_names e).
Proof. apply named_single. destruct e as [lineno []|]; cbn [hex_names hex_chain line_fmt alternate join_with]; find_all. Qed.

Lemma install_chain_names source image e :
  Forall (fun t => contains t (alternate (install_chain source image e))) (install_names source image e).
Proof.
  destruct e; cbn [install_names install_chain read_config_chain parse_config_chain target_chain expand_one_chain
    plan_chain resolve_tool_chain run_cli_chain]; unfold os_chain; try find_all.
  do 2 (constructor; [find|]). apply Forall_forall. intros t Ht. find.
Qed.

Lemma open_chain_names e : Forall (fun t => contains t (alternate (open_chain e))) (open_names e).
Proof.
  destruct e as [| | | | | | | | | | |bus addr []]; cbn [open_names open_chain serial_open_chain spi_open_chain gpio_open_chain LinuxI2cError_fmt]; unfold os_chain; try find_all.
  constructor; [find|]. apply Forall_forall. intros t Ht. unfold debug_list. find.
Qed.

(** What the kernel said of a failed SPI transfer is in none of the tool's
    messages: they are the same whatever it was. *)
Lemma spi_cause_dropped source image (e e' : SpiError E) (wrap : Error.t (anyhow_error E SE) -> cli_error E (anyhow_error E SE)) :
  wrap = InfoError \/ wrap = EchoError \/ wrap = FlashError ->
  cli_chain source image (wrap (Error.Transport (AnySpi (SpiWrite e)))) = cli_chain source image (wrap (Error.Transport (AnySpi (SpiWrite e'))))
  /\ cli_chain source image (wrap (Error.Transport (AnySpi (SpiRead e)))) = cli_chain source image (wrap (Error.Transport (AnySpi (SpiRead e')))).
Proof. by intros [->|[->| ->]]. Qed.

(** C28: every refusal says what it is about, as far as [cli_names] lists it.
    Whatever the tool fails with, a panic apart, the message it ends on is not
    empty and carries: for its own refusals and for the programs it starts, the
    offending value, flag, file, line, argument or program, with what the
    operating system said where it did, and the values or flags accepted
    instead where there are some; for a node it cannot open, the node (for a
    GPIO line its pin, for the settings of an open serial port neither) and
    what the operating system said; for a refusal of the device, the command
    and the status by number and name; for an answer that is no frame, the
    command and that. Of the transports' own failures it carries the command
    and which transfer failed, and: over I2C, what the operating system said
    and, when the attempts ran out, their number and the option
    [--poll-attempts]; over a serial port, what the port said of a failed
    transfer; over GPIO, which of the two pins and the [Debug] of what the
    operating system said; over SPI, only the kind of a failed transfer's
    error, its cause being dropped ([spi_cause_dropped]). When the attempts run
    out over these three, it carries their number and the library's
    [with_poll], and promises no option; when a byte stream makes no sense, the
    bytes scanned and the suspicion. *)
Theorem messages_name_the_cause source image (e : cli_error E (anyhow_error E SE)) :
  e <> InstallError IndexPanic ->
  cli_chain source image e <> []
  /\ Forall (fun t => contains t (alternate (cli_chain source image e))) (cli_names source image e).
Proof.
  intros Hne. split; [by destruct e as [|[]| | | | | | | |[]| | | | | | ]|].
  destruct e as [l|e|path e|path e|e|n|baud|chip|pin|e|e|e|n ap ps e|e|e|e]; cbn [cli_names cli_chain load_image_chain build_spec_chain]; unfold os_chain, transport_flags_message;
    try find_all.
  - apply Forall_forall. intros t Ht. find.
  - apply install_chain_names.
  - apply named_below; [find|by destruct e|apply hex_chain_names].
  - destruct e; cbn [hex_bytes_chain]; find_all.
  - constructor; [find|]. apply Forall_forall. intros t Ht. find.
  - apply open_chain_names.
  - by apply named_below; [find|done|apply named_single, Error_fmt_names, anyhow_fmt_names].
  - by apply named_below; [find|done|apply named_single, Error_fmt_names, anyhow_fmt_names].
  - do 3 (constructor; [find|]). eapply Forall_impl; [apply (Error_fmt_names (fun never : Empty_set => match never with end)); by intros []|].
    intros t Ht. by apply contains_tail.
  - by apply named_below; [find|done|apply named_single, Error_fmt_names, anyhow_fmt_names].
  - do 2 (constructor; [find|]). eapply Forall_impl; [apply anyhow_fmt_names|]. cbn beta. intros t Ht. find.
  - by apply named_below; [find|done|apply named_single, Error_fmt_names, anyhow_fmt_names].
Qed.
End named.

#[local] Instance sample_words : Words unit unit := {|
  show_os _ := str "Permission denied (os error 13)"; chain_os _ := []; debug_os _ := str "Io(Os)";
  show_serial _ := str "Input/output error (os error 5)"; kind_other := str "A different error occurred";
  show_utf8_error _ _ := str "invalid utf-8"; show_not_digits := str "invalid digit found in string" |}.
#[local] Instance sample_printable : Printable := fun _ => true.

Lemma messages_name_the_cause_witness :
  let e := FlashError (E:=unit) (Error.Transport (AnyI2c (SE:=unit) (LinuxExhausted 480 tt))) in
  contains (dec 480) (alternate (cli_chain [] [] e)) /\ contains (str "--poll-attempts") (alternate (cli_chain [] [] e)).
Proof.
  intros e. pose proof (proj2 (messages_name_the_cause [] [] e ltac:(discriminate))) as Hn.
  rewrite Forall_forall in Hn. split; apply Hn; [right; left|right; right; left].
Defined.
