(* ===== verification/UnitTests.v ===== *)
(** The tool's own unit tests ([mod tests] of [ihex.rs], [transport.rs],
    [main.rs] and [install.rs]) run on the model: [Some tt] is a test that
    passes. What [clap] and the TOML reader make of the tests' inputs is a
    parameter. Left out are the tests of [clap]'s own output, of the TOML
    reader's own errors, and of the configuration file that ships. *)
From S2P Require Import Prelude Asserts Text Fmt Errors Frame Image Transport Session.
From S2P Require Import EhI2c EhSpi EhUart EhSoftUart Ihex Install CliDevices CliTransport Cli Messages.

#[global] Instance transport_spec_eq_dec : EqDecision TransportSpec.
Proof. solve_decision. Defined.
#[global] Instance invocation_eq_dec : EqDecision Invocation.
Proof. solve_decision. Defined.

(** [.contains(needle)], [assert_eq!], and lines ended by a line feed *)
Definition has (msg : text) (needle : string) : bool := containsb (str needle) msg.
Definition assert_eq {A} `{EqDecision A} (a b : A) : harness := assert (bool_decide (a = b)).
Definition unlines (ls : list string) : text := concat ((fun l => str l ++ [10]) <$> ls).

Module IhexTests.
Section tests.
Context {E SE : Type} `{Words E SE, Printable}.
Abbreviation message e := (alternate (hex_chain (E:=E) (SE:=SE) e)).

Definition GOLDEN : text := unlines [":04000000DEADBEEFC4"; ":00000001FF"].

Definition golden_tiny_hex : harness :=
  out ← unwrap (parse GOLDEN); assert_eq out [0xDE; 0xAD; 0xBE; 0xEF].

Definition gaps_are_filled_with_ff_and_records_may_be_unordered : harness :=
  let input := unlines [":020004001122C7"; ":02000000334487"; ":00000001FF"] in
  out ← unwrap (parse input); assert_eq out [0x33; 0x44; 0xFF; 0xFF; 0x11; 0x22].

Definition bad_checksum_names_the_line : harness :=
  let input := unlines [":04000000DEADBEEFC5"; ":00000001FF"] in
  e ← unwrap_err (parse input);
  let err := message e in
  assert (has err "checksum");; assert (has err "line 1").

Definition extended_address_records_are_rejected_with_line_number : harness :=
  foldr (fun '(rec, ty) rest =>
    let input := unlines [":04000000DEADBEEFC4"; rec; ":00000001FF"] in
    e ← unwrap_err (parse input);
    let err := message e in
    assert (has err "extended address");; assert (has err "line 2");; assert (has err ty);;
    assert (has err "arm-none-eabi-objcopy -O binary");; rest)
    (Some tt) [(":020000021000EC", "0x02"); (":020000040800F2", "0x04")]%string.

Definition start_address_records_are_ignored : harness :=
  foldr (fun rec rest =>
    let input := unlines [":04000000DEADBEEFC4"; rec; ":00000001FF"] in
    out ← unwrap (parse input); assert_eq out [0xDE; 0xAD; 0xBE; 0xEF];; rest)
    (Some tt) [":0400000300003800C1"; ":0400000500003800BF"]%string.

Definition other_record_types_are_rejected : harness :=
  let input := unlines [":00000006FA"; ":00000001FF"] in
  e ← unwrap_err (parse input);
  let err := message e in
  assert (has err "line 1");; assert (has err "0x06").

Definition structural_defects_are_rejected : harness :=
  let rejected ls := assert (negb (is_ok (parse (unlines ls)))) in
  rejected [":04000000DEADBEEFC4"];;
  rejected [":00000001FF"; ":04000000DEADBEEFC4"];;
  rejected ["04000000DEADBEEFC4"; ":00000001FF"];;
  rejected [":04000000DEADBEEFC"; ":00000001FF"];;
  rejected [":04000000DEADBEEFZZ"; ":00000001FF"];;
  rejected [":0400"; ":00000001FF"];;
  rejected [":05000000DEADBEEFC3"; ":00000001FF"];;
  rejected [].

Definition blank_lines_and_crlf_are_tolerated : harness :=
  let crlf := [13; 10] in
  let input := str ":04000000DEADBEEFC4" ++ crlf ++ crlf ++ str ":00000001FF" ++ crlf in
  out ← unwrap (parse input); assert_eq out [0xDE; 0xAD; 0xBE; 0xEF].

Definition all : harness :=
  golden_tiny_hex;; gaps_are_filled_with_ff_and_records_may_be_unordered;; bad_checksum_names_the_line;;
  extended_address_records_are_rejected_with_line_number;; start_address_records_are_ignored;;
  other_record_types_are_rejected;; structural_defects_are_rejected;; blank_lines_and_crlf_are_tolerated.
End tests.
End IhexTests.

Module TransportTests.
(** [Rc<RefCell<Vec<u32>>>]: what the backend saw, newest first. *)
Record FakeBackend := mkFake { seen : list Z; attempts : Z }.
#[global] Instance fake_request : Transport FakeBackend unit :=
  fun t _req rsp => (Ok 0, (mkFake (attempts t :: seen t) (attempts t), rsp)).
#[global] Instance fake_set_poll : SetPoll FakeBackend :=
  fun poll t => mkFake (seen t) (Z.max (pb_attempts poll) 1).

Definition dyn_over_fake (base : PollBudget) : DynTransport FakeBackend :=
  let inner := set_poll_budget base (mkFake [] 0) in
  mkDyn inner base (pb_attempts base).
Definition seen_by (t : DynTransport FakeBackend) : list Z := reverse (seen (dyn_inner t)).
Definition after_request (req : list Z) (t : DynTransport FakeBackend) : option (DynTransport FakeBackend) :=
  match request t req (replicate 4 0) with (Ok _, (t, _)) => Some t | (Err _, _) => None end.

Definition only_erase_requests_run_with_the_raised_budget : harness :=
  let t := dyn_over_fake (mkPollBudget 100 10) in
  let t := set_erase_attempts 480 t in
  t ← after_request [CMD_ERASE_APP; 0; 0] t;
  t ← after_request [CMD_INFO; 0; 0] t;
  t ← after_request [CMD_ERASE_APP; 0; 0] t;
  assert_eq (seen_by t) [480; 100; 480].

Definition erase_budget_never_drops_below_the_base : harness :=
  let t := dyn_over_fake (mkPollBudget 1000 10) in
  let t := set_erase_attempts 5 t in
  t ← after_request [CMD_ERASE_APP; 0; 0] t;
  assert_eq (seen_by t) [1000].

Definition all : harness :=
  only_erase_requests_run_with_the_raised_budget;; erase_budget_never_drops_below_the_base.
End TransportTests.

(** ** The command line *)

(** [clap], as [#[derive(Parser)]] sets it up from the attributes of [Cli]: the
    fields a command line gives values to, over the declared defaults. *)
Definition cli_defaults (cmd : Cmd) : Cli :=
  mkCli KindI2c (str "/dev/i2c-1") 0x20 None 115200 100000 (str "/dev/gpiochip0") None None 100 10 cmd.

Definition parse_u32 (s : text) : option Z := from_str_radix 10 (2 ^ 32 - 1) s.
Definition parse_kind (s : text) : option TransportKind :=
  if decide (s = str "i2c") then Some KindI2c
  else if decide (s = str "uart") then Some KindUart
  else if decide (s = str "spi") then Some KindSpi
  else if decide (s = str "gpio") then Some KindGpio
  else None.

Definition set_arg (flag value : text) (c : Cli) : option Cli :=
  let 'mkCli tr bus addr dev baud hz chip tx rx att del cmd := c in
  if decide (flag = str "--transport") then k ← parse_kind value; Some (mkCli k bus addr dev baud hz chip tx rx att del cmd)
  else if decide (flag = str "--bus") then Some (mkCli tr value addr dev baud hz chip tx rx att del cmd)
  else if decide (flag = str "--addr") then a ← parse_addr value; Some (mkCli tr bus a dev baud hz chip tx rx att del cmd)
  else if decide (flag = str "--dev") then Some (mkCli tr bus addr (Some value) baud hz chip tx rx att del cmd)
  else if decide (flag = str "--baud") then b ← parse_u32 value; Some (mkCli tr bus addr dev b hz chip tx rx att del cmd)
  else if decide (flag = str "--speed-hz") then h ← parse_u32 value; Some (mkCli tr bus addr dev baud h chip tx rx att del cmd)
  else if decide (flag = str "--chip") then Some (mkCli tr bus addr dev baud hz value tx rx att del cmd)
  else if decide (flag = str "--pin-tx") then p ← parse_u32 value; Some (mkCli tr bus addr dev baud hz chip (Some p) rx att del cmd)
  else if decide (flag = str "--pin-rx") then p ← parse_u32 value; Some (mkCli tr bus addr dev baud hz chip tx (Some p) att del cmd)
  else if decide (flag = str "--poll-attempts") then n ← parse_u32 value; Some (mkCli tr bus addr dev baud hz chip tx rx n del cmd)
  else if decide (flag = str "--poll-delay-ms") then n ← parse_u32 value; Some (mkCli tr bus addr dev baud hz chip tx rx att n cmd)
  else None.

Abbreviation flags := (list (text * text)).
Fixpoint set_args (fs : flags) (c : Cli) : option Cli :=
  match fs with
  | [] => Some c
  | (flag, value) :: fs => c ← set_arg flag value c; set_args fs c
  end.
Fixpoint words (fs : flags) (rest : list text) : list text :=
  match fs with [] => rest | (flag, value) :: fs => flag :: value :: words fs rest end.

(** [Cli::try_parse_from] and [Cli::command().try_get_matches_from]. *)
Class Clap := { try_parse_from : list text -> option Cli; try_get_matches_from : list text -> option ArgMatches }.

(** Flags of [Cli] with values it accepts, none twice, no value that looks like
    a flag. *)
Definition legal (fs : flags) : Prop :=
  NoDup (fst <$> fs) /\ Forall (fun '(_, value) => head value <> Some 0x2D) fs
  /\ is_Some (set_args fs (cli_defaults CmdInfo)).

(** What [clap] documents of long flags ahead of a subcommand and, with
    [global = true], behind it: the field takes the value, the others their
    defaults, and [ArgMatches::value_source] is the command line for exactly
    the arguments given there. *)
Class ClapLaws `{Clap} : Prop := {
  clap_info fs : legal fs ->
    try_parse_from (str "updater-cli" :: words fs [str "info"]) = set_args fs (cli_defaults CmdInfo);
  clap_install before after : legal (before ++ after) -> exists m sub,
    try_get_matches_from (str "updater-cli" :: words before (str "install" ::
      words after [str "--target"; str "t"; str "--image"; str "x"])) = Some m
    /\ am_install m = Some sub
    /\ forall id long, (id, long) ∈ TRANSPORT_FLAGS ->
         am_from_cli m id || sub id = bool_decide (long ∈ fst <$> before ++ after);
}.

Module MainTests.
Section tests.
Context {E SE : Type} `{Words E SE, Printable, Clap}.
Abbreviation err := (cli_error E (anyhow_error E SE)).
(** [err.to_string()] *)
Definition to_string (e : err) : text := display (cli_chain [] [] e).

Definition parse (args : list string) : option Cli := try_parse_from (str <$> args).
Definition spec_is (args : list string) (spec : TransportSpec) : harness :=
  cli ← parse args; s ← unwrap (build_spec (E:=E) (A:=anyhow_error E SE) cli); assert_eq s spec.
Definition spec_err (args : list string) : option err :=
  cli ← parse args; unwrap_err (build_spec cli).

Definition addr_parser_accepts_hex_and_decimal_rejects_wide : harness :=
  assert_eq (parse_addr (str "0x20")) (Some 0x20);; assert_eq (parse_addr (str "32")) (Some 32);;
  assert_eq (parse_addr (str "0x80")) None;; assert_eq (parse_addr (str "nope")) None.

Definition hex_bytes_parser : harness :=
  bytes ← unwrap (parse_hex_bytes (str "DEad be ef")); assert_eq bytes [0xDE; 0xAD; 0xBE; 0xEF];;
  assert (negb (is_ok (parse_hex_bytes (str "ABC"))));; assert (negb (is_ok (parse_hex_bytes (str "ZZ")))).

Definition default_spec_is_i2c_with_bus_and_addr : harness :=
  cli ← parse ["updater-cli"; "info"];
  s ← unwrap (build_spec (E:=E) (A:=anyhow_error E SE) cli);
  assert_eq s (SpecI2c (str "/dev/i2c-1") 0x20);;
  assert_eq (cli_poll_attempts cli, cli_poll_delay_ms cli) (100, 10).

Definition erase_attempts_scale_with_the_device_geometry : harness :=
  let base := mkPollBudget 100 10 in
  assert_eq (erase_poll_attempts 480 base) 480;;
  assert_eq (erase_poll_attempts 8192 base) 8192;;
  assert_eq (erase_poll_attempts 480 (mkPollBudget 1 7)) 686;;
  assert_eq (erase_poll_attempts 480 (mkPollBudget 1 0)) 4800.

Definition user_poll_attempts_win_when_larger : harness :=
  let base := mkPollBudget 12000 10 in assert_eq (erase_poll_attempts 8192 base) 12000.

Definition rejected_naming (args : list string) (flag : string) : harness :=
  m ← try_get_matches_from (str <$> args);
  e ← unwrap_err (reject_transport_flags m);
  let err := to_string e in
  assert (has err flag);; assert (has err "debug adapter").
Definition install_rejects_transport_flags_wherever_they_sit : harness :=
  let before := ["updater-cli"; "--transport"; "uart"; "install"; "--target"; "t"; "--image"; "x"]%string in
  let after := ["updater-cli"; "install"; "--bus"; "/dev/i2c-9"; "--target"; "t"; "--image"; "x"]%string in
  rejected_naming before "--transport";; rejected_naming after "--bus".

Definition install_without_transport_flags_passes_the_gate : harness :=
  m ← try_get_matches_from (str <$> ["updater-cli"; "install"; "--target"; "t"; "--image"; "x"]%string);
  assert (is_ok (reject_transport_flags (E:=E) (A:=anyhow_error E SE) m)).

Definition i2c_spec_honors_bus_and_addr_flags : harness :=
  spec_is ["updater-cli"; "--bus"; "/dev/i2c-7"; "--addr"; "0x11"; "info"] (SpecI2c (str "/dev/i2c-7") 0x11).

Definition uart_spec_defaults_dev_and_baud : harness :=
  spec_is ["updater-cli"; "--transport"; "uart"; "info"] (SpecUart (str "/dev/ttyUSB0") 115200).

Definition uart_spec_honors_dev_and_baud : harness :=
  spec_is ["updater-cli"; "--transport"; "uart"; "--dev"; "/dev/ttyACM3"; "--baud"; "57600"; "info"]
    (SpecUart (str "/dev/ttyACM3") 57600).

Definition uart_spec_rejects_unsupported_baud_naming_the_supported_set : harness :=
  e ← spec_err ["updater-cli"; "--transport"; "uart"; "--baud"; "12345"; "info"];
  let err := to_string e in
  assert (has err "12345");; assert (has err "115200").

Definition spi_spec_defaults_dev_and_speed : harness :=
  spec_is ["updater-cli"; "--transport"; "spi"; "info"] (SpecSpi (str "/dev/spidev0.0") 100000).

Definition spi_spec_honors_dev_and_speed : harness :=
  spec_is ["updater-cli"; "--transport"; "spi"; "--dev"; "/dev/spidev1.2"; "--speed-hz"; "250000"; "info"]
    (SpecSpi (str "/dev/spidev1.2") 250000).

Definition gpio_spec_requires_both_pins : harness :=
  e ← spec_err ["updater-cli"; "--transport"; "gpio"; "info"];
  assert (has (to_string e) "--pin-tx");;
  e ← spec_err ["updater-cli"; "--transport"; "gpio"; "--pin-tx"; "4"; "info"];
  assert (has (to_string e) "--pin-rx").

Definition gpio_spec_rejects_equal_pins : harness :=
  cli ← parse ["updater-cli"; "--transport"; "gpio"; "--pin-tx"; "4"; "--pin-rx"; "4"; "info"];
  assert (negb (is_ok (build_spec (E:=E) (A:=anyhow_error E SE) cli))).

Definition gpio_spec_builds_with_chip_and_pins : harness :=
  spec_is ["updater-cli"; "--transport"; "gpio"; "--chip"; "/dev/gpiochip2"; "--pin-tx"; "17"; "--pin-rx"; "27"; "info"]
    (SpecGpio (str "/dev/gpiochip2") 17 27).

Definition describe_names_the_wire : harness :=
  assert_eq (describe (SpecI2c (str "/dev/i2c-1") 0x20)) (str "/dev/i2c-1 @ 0x20");;
  assert (has (describe (SpecUart (str "/dev/ttyUSB0") 115200)) "115200").

Definition all : harness :=
  addr_parser_accepts_hex_and_decimal_rejects_wide;; hex_bytes_parser;; default_spec_is_i2c_with_bus_and_addr;;
  erase_attempts_scale_with_the_device_geometry;; user_poll_attempts_win_when_larger;;
  install_rejects_transport_flags_wherever_they_sit;; install_without_transport_flags_passes_the_gate;;
  i2c_spec_honors_bus_and_addr_flags;; uart_spec_defaults_dev_and_baud;; uart_spec_honors_dev_and_baud;;
  uart_spec_rejects_unsupported_baud_naming_the_supported_set;; spi_spec_defaults_dev_and_speed;;
  spi_spec_honors_dev_and_speed;; gpio_spec_requires_both_pins;; gpio_spec_rejects_equal_pins;;
  gpio_spec_builds_with_chip_and_pins;; describe_names_the_wire.
End tests.
End MainTests.

(** ** The installer *)
Definition basic_target (tool : string) (args : list string) (pre : list (list string)) (port_arg : option string) : Target :=
  mkTarget (str tool) (map str args) (map (map str) pre) (option_map str port_arg).

Module InstallTests.
(** A quoted string of a TOML document. *)
Definition q (s : string) : text := quote ++ str s ++ quote.
Definition table (name : string) (fields : list text) : text :=
  str "[targets." ++ str name ++ str "]" ++ [10] ++ concat ((fun f => f ++ [10]) <$> fields).
Definition tool_is (s : string) : text := str "tool = " ++ q s.
Definition array (l : list string) : text := str "[" ++ join_with (str ", ") (q <$> l) ++ str "]".
Definition args_are (l : list string) : text := str "args = " ++ array l.
Definition pre_is (l : list (list string)) : text := str "pre = [" ++ join_with (str ", ") (array <$> l) ++ str "]".

Definition REFERENCE : text :=
  [10] ++ table "avr64ea28-updi"
    [tool_is "avrdude";
     args_are ["-c"; "atmelice_updi"; "-p"; "avr64ea28"; "-U"; "flash:w:{image}:i"];
     pre_is [["avrdude"; "-U"; "bootsize:w:8:m"]];
     str "port_arg = " ++ q "-P"].
Definition reference : Target :=
  basic_target "avrdude" ["-c"; "atmelice_updi"; "-p"; "avr64ea28"; "-U"; "flash:w:{image}:i"]
    [["avrdude"; "-U"; "bootsize:w:8:m"]] (Some "-P"%string).

Definition EMPTY_TOOL : text := table "pico" [tool_is ""; args_are []].
Definition EMPTY_PRE : text := table "x" [tool_is "t"; args_are []; pre_is [[]]].
Definition PORT_INSIDE : text := table "x" [tool_is "t"; args_are ["--port={port}"; "{image}"]].
Definition PORT_ONLY : text := table "x" [tool_is "t"; args_are ["{port}"]].
Definition FLASH : text := table "x" [tool_is "t"; args_are ["{flash}"]].
Definition OOPS : text := table "x" [tool_is "t"; args_are ["oops{image"]].
Definition IMAGE_ONLY : text := table "x" [tool_is "t"; args_are ["{image}"]].
Definition FUSE_IMAGE : text := table "x" [tool_is "t"; args_are ["{image}"]; pre_is [["fuse-tool"; "write"; "{image}"]]].
Definition FUSE_PORT : text := table "x" [tool_is "t"; args_are ["{image}"]; pre_is [["fuse-tool"; "{port}"]]].

(** What TOML says those documents hold. *)
Definition documents : list (text * InstallConfig) :=
  [(REFERENCE, [(str "avr64ea28-updi", reference)]);
   (EMPTY_TOOL, [(str "pico", basic_target "" [] [] None)]);
   (EMPTY_PRE, [(str "x", basic_target "t" [] [[]] None)]);
   (PORT_INSIDE, [(str "x", basic_target "t" ["--port={port}"; "{image}"] [] None)]);
   (PORT_ONLY, [(str "x", basic_target "t" ["{port}"] [] None)]);
   (FLASH, [(str "x", basic_target "t" ["{flash}"] [] None)]);
   (OOPS, [(str "x", basic_target "t" ["oops{image"] [] None)]);
   (IMAGE_ONLY, [(str "x", basic_target "t" ["{image}"] [] None)]);
   (FUSE_IMAGE, [(str "x", basic_target "t" ["{image}"] [["fuse-tool"; "write"; "{image}"]] None)]);
   (FUSE_PORT, [(str "x", basic_target "t" ["{image}"] [["fuse-tool"; "{port}"]] None)])].

Section tests.
Context {E SE : Type} `{Words E SE, Printable} (toml : text -> result InstallConfig E).
(** [format!("{err:#}")], in a configuration called [source] *)
Definition message (source : string) (e : install_error E) : text :=
  alternate (install_chain (SE:=SE) (str source) [] e).
Definition config (doc : text) : option InstallConfig := unwrap (parse_config toml doc).
Definition lookup (cfg : InstallConfig) (name : string) : result Target (install_error E) :=
  target cfg (str name) (fst <$> cfg).
Definition target_of (doc : text) (name : string) : option Target := cfg ← config doc; unwrap (lookup cfg name).
Definition plan_of (t : Target) (port : option string) : result (list Invocation) (install_error E) :=
  plan t (str "fw.hex") (str <$> port).

Definition parses_the_full_schema : harness :=
  cfg ← config REFERENCE;
  t ← unwrap (lookup cfg "avr64ea28-updi");
  assert_eq (tg_tool t) (str "avrdude");;
  assert_eq (tg_args t !! 4%nat) (Some (str "-U"));;
  assert_eq (tg_pre t) [str <$> ["avrdude"; "-U"; "bootsize:w:8:m"]%string];;
  assert_eq (tg_port_arg t) (Some (str "-P")).

Definition empty_tool_rejected_naming_the_target : harness :=
  e ← unwrap_err (parse_config toml EMPTY_TOOL);
  let msg := message "install.toml" e in
  assert (has msg "pico");; assert (has msg "tool").

Definition empty_pre_step_rejected : harness :=
  e ← unwrap_err (parse_config toml EMPTY_PRE); assert (has (message "install.toml" e) "pre").

Definition unknown_target_lists_available_ones : harness :=
  cfg ← config REFERENCE;
  e ← unwrap_err (lookup cfg "rp2040");
  let msg := message "my.toml" e in
  assert (has msg "rp2040");; assert (has msg "avr64ea28-updi");; assert (has msg "my.toml").

Definition image_placeholder_expands_inside_a_token : harness :=
  t ← target_of REFERENCE "avr64ea28-updi";
  plan ← unwrap (plan_of t None);
  main ← last plan;
  assert_eq (last (inv_args main)) (Some (str "flash:w:fw.hex:i")).

Definition port_placeholder_expands_when_port_given : harness :=
  t ← target_of PORT_INSIDE "x";
  plan ← unwrap (plan_of t (Some "/dev/ttyACM0"%string));
  inv ← plan !! 0%nat;
  assert_eq (inv_args inv) [str "--port=/dev/ttyACM0"; str "fw.hex"].

Definition port_placeholder_without_port_flag_errors_actionably : harness :=
  t ← target_of PORT_ONLY "x"; e ← unwrap_err (plan_of t None); assert (has (message "x" e) "--port").

Definition unknown_placeholder_rejected_by_name : harness :=
  t ← target_of FLASH "x";
  e ← unwrap_err (plan_of t None);
  let msg := message "x" e in
  assert (has msg "{flash}");; assert (has msg "{image}");; assert (has msg "{port}").

Definition unmatched_brace_rejected : harness :=
  t ← target_of OOPS "x"; e ← unwrap_err (plan_of t None); assert (has (message "x" e) "oops{image").

Definition port_flag_appends_port_arg_pair_when_template_has_no_port : harness :=
  t ← target_of REFERENCE "avr64ea28-updi";
  plan ← unwrap (plan_of t (Some "/dev/ttyACM1"%string));
  main ← last plan;
  assert_eq (drop (length (inv_args main) - 2) (inv_args main)) [str "-P"; str "/dev/ttyACM1"].

Definition port_flag_without_any_port_slot_errors : harness :=
  t ← target_of IMAGE_ONLY "x";
  e ← unwrap_err (plan_of t (Some "/dev/ttyACM0"%string));
  let msg := message "x" e in
  assert (has msg "{port}");; assert (has msg "port_arg").

Definition no_port_means_no_injection : harness :=
  t ← target_of REFERENCE "avr64ea28-updi";
  plan ← unwrap (plan_of t None);
  main ← last plan;
  assert (negb (bool_decide (str "-P" ∈ inv_args main))).

Definition pre_steps_run_first_expanded_with_literal_tool : harness :=
  t ← target_of FUSE_IMAGE "x";
  plan ← unwrap (plan_of t None);
  assert_eq (length plan) 2%nat;;
  inv ← plan !! 0%nat;
  assert_eq inv (mkInvocation (str "fuse-tool") [str "write"; str "fw.hex"]);;
  main ← plan !! 1%nat;
  assert_eq (inv_tool main) (str "t").

Definition port_used_only_in_pre_still_counts_as_consumed : harness :=
  t ← target_of FUSE_PORT "x";
  plan ← unwrap (plan_of t (Some "/dev/ttyACM0"%string));
  inv ← plan !! 0%nat;
  assert_eq (inv_args inv) [str "/dev/ttyACM0"];;
  main ← plan !! 1%nat;
  assert_eq (inv_args main) [str "fw.hex"].

Definition display_arg_quotes_whitespace_and_empty_only : harness :=
  assert_eq (display_arg (str "plain")) (str "plain");;
  assert_eq (display_arg (str "flash:w:fw.hex:i")) (str "flash:w:fw.hex:i");;
  assert_eq (display_arg (str "with space")) (quote ++ str "with space" ++ quote);;
  assert_eq (display_arg []) (quote ++ quote);;
  assert_eq (display_arg (str "tab" ++ [9] ++ str "here")) (quote ++ str "tab\there" ++ quote).

(** In a directory [dir] that holds the one executable. *)
Definition resolves_executable_from_path_dirs (dir : text) : harness :=
  let exe := join dir (str "fake-prog") in
  let path_var := str "/nonexistent:" ++ dir in
  found ← unwrap (resolve_tool_in (E:=E) (fun p => bool_decide (p = exe)) (str "fake-prog") path_var);
  assert_eq found exe.

Definition missing_tool_error_names_the_install_ladder : harness :=
  e ← unwrap_err (resolve_tool_in (fun _ => false) (str "avrdude") (str "/nonexistent"));
  let msg := message "" e in
  assert (has msg "avrdude");; assert (has msg "apt install avrdude");; assert (has msg "probe-rs-tools");;
  assert (has msg "openocd").

Definition path_like_tool_is_checked_directly_not_via_path : harness :=
  e ← unwrap_err (resolve_tool_in (fun _ => false) (str "/no/such/dir/avrdude") (str "/usr/bin"));
  assert (has (message "" e) "/no/such/dir/avrdude").

Definition all (dir : text) : harness :=
  parses_the_full_schema;; empty_tool_rejected_naming_the_target;; empty_pre_step_rejected;;
  unknown_target_lists_available_ones;; image_placeholder_expands_inside_a_token;;
  port_placeholder_expands_when_port_given;; port_placeholder_without_port_flag_errors_actionably;;
  unknown_placeholder_rejected_by_name;; unmatched_brace_rejected;;
  port_flag_appends_port_arg_pair_when_template_has_no_port;; port_flag_without_any_port_slot_errors;;
  no_port_means_no_injection;; pre_steps_run_first_expanded_with_literal_tool;;
  port_used_only_in_pre_still_counts_as_consumed;; display_arg_quotes_whitespace_and_empty_only;;
  resolves_executable_from_path_dirs dir;; missing_tool_error_names_the_install_ladder;;
  path_like_tool_is_checked_directly_not_via_path.
End tests.
End InstallTests.

(** ** They pass *)
Fixpoint pairs_of (args : list string) : flags :=
  match args with
  | flag :: value :: args => (str flag, str value) :: pairs_of args
  | _ => []
  end.

Definition legalb (fs : flags) : bool :=
  bool_decide (NoDup (fst <$> fs)) && forallb (fun '(_, value) => negb (bool_decide (head value = Some 0x2D))) fs
  && match set_args fs (cli_defaults CmdInfo) with Some _ => true | None => false end.
Lemma legalb_legal fs : legalb fs = true -> legal fs.
Proof.
  unfold legalb. intros [[Hd Hv]%andb_true_iff Hs]%andb_true_iff. split_and!.
  - by apply bool_decide_eq_true in Hd.
  - apply Forall_forall. intros [f v] Hin%list_elem_of_In. rewrite forallb_forall in Hv.
    by apply Hv, negb_true_iff, bool_decide_eq_false in Hin.
  - by destruct (set_args _ _).
Qed.

Section clap.
Context {E SE : Type} `{Words E SE, Printable, ClapLaws}.
Import MainTests.

Lemma parse_args args :
  str <$> args = str "updater-cli" :: words (pairs_of (tail args)) [str "info"] ->
  legalb (pairs_of (tail args)) = true ->
  parse args = set_args (pairs_of (tail args)) (cli_defaults CmdInfo).
Proof. intros Ha Hl. unfold parse. rewrite Ha. by apply clap_info, legalb_legal. Qed.

Lemma reject_flags before after : legalb (before ++ after) = true -> exists m,
  try_get_matches_from (str "updater-cli" :: words before (str "install" ::
    words after [str "--target"; str "t"; str "--image"; str "x"])) = Some m
  /\ reject_transport_flags (E:=E) (A:=anyhow_error E SE) m =
     match snd <$> List.filter (fun '(_, long) => bool_decide (long ∈ fst <$> before ++ after)) TRANSPORT_FLAGS with
     | [] => Ok tt
     | l => Err (TransportFlags l)
     end.
Proof.
  intros (m & sub & Hm & Hs & Hl)%legalb_legal%clap_install. exists m. split; [exact Hm|].
  unfold reject_transport_flags. rewrite Hs.
  assert (List.filter (fun '(id, _) => am_from_cli m id || sub id) TRANSPORT_FLAGS
    = List.filter (fun '(_, long) => bool_decide (long ∈ fst <$> before ++ after)) TRANSPORT_FLAGS) as ->; [|by destruct (snd <$> _)].
  apply List.filter_ext_in. intros [id long] Hin%list_elem_of_In. by apply Hl.
Qed.

Ltac runs := repeat (rewrite parse_args by (vm_compute; reflexivity)); vm_compute; reflexivity.

Lemma gate_passes : install_rejects_transport_flags_wherever_they_sit (E:=E) (SE:=SE) = Some tt
  /\ install_without_transport_flags_passes_the_gate (E:=E) (SE:=SE) = Some tt.
Proof.
  split.
  - unfold install_rejects_transport_flags_wherever_they_sit, rejected_naming.
    destruct (reject_flags [(str "--transport", str "uart")] []) as (m & Hm & Hr); [by vm_compute|].
    destruct (reject_flags [] [(str "--bus", str "/dev/i2c-9")]) as (m' & Hm' & Hr'); [by vm_compute|].
    change (str <$> ["updater-cli"; "--transport"; "uart"; "install"; "--target"; "t"; "--image"; "x"]%string)
      with (str "updater-cli" :: words [(str "--transport", str "uart")] (str "install" ::
        words [] [str "--target"; str "t"; str "--image"; str "x"])).
    change (str <$> ["updater-cli"; "install"; "--bus"; "/dev/i2c-9"; "--target"; "t"; "--image"; "x"]%string)
      with (str "updater-cli" :: words [] (str "install" ::
        words [(str "--bus", str "/dev/i2c-9")] [str "--target"; str "t"; str "--image"; str "x"])).
    rewrite Hm, Hm'. cbn [mbind option_bind]. rewrite Hr, Hr'. by vm_compute.
  - unfold install_without_transport_flags_passes_the_gate.
    destruct (reject_flags [] []) as (m & Hm & Hr); [by vm_compute|].
    change (str <$> ["updater-cli"; "install"; "--target"; "t"; "--image"; "x"]%string)
      with (str "updater-cli" :: words [] (str "install" ::
        words [] [str "--target"; str "t"; str "--image"; str "x"])).
    rewrite Hm. cbn [mbind option_bind]. rewrite Hr. by vm_compute.
Qed.

Lemma main_tests_return : MainTests.all (E:=E) (SE:=SE) = Some tt.
Proof.
  unfold all. destruct gate_passes as [-> ->].
  unfold default_spec_is_i2c_with_bus_and_addr, i2c_spec_honors_bus_and_addr_flags, uart_spec_defaults_dev_and_baud,
    uart_spec_honors_dev_and_baud, uart_spec_rejects_unsupported_baud_naming_the_supported_set,
    spi_spec_defaults_dev_and_speed, spi_spec_honors_dev_and_speed, gpio_spec_requires_both_pins,
    gpio_spec_rejects_equal_pins, gpio_spec_builds_with_chip_and_pins, spec_is, spec_err.
  runs.
Qed.
End clap.

Section install.
Context {E SE : Type} `{Words E SE, Printable} (toml : text -> result InstallConfig E).
Import InstallTests.

Lemma split_on_none c s : c ∉ s -> split_on c s = [s].
Proof.
  induction s as [|x s IH]; intros Hc; [done|]. apply not_elem_of_cons in Hc as [Hx Hc].
  cbn [split_on]. rewrite IH by done. by rewrite (proj2 (Z.eqb_neq _ _)) by done.
Qed.

Lemma resolves_executable dir : dir <> [] -> 0x3A ∉ dir -> resolves_executable_from_path_dirs (E:=E) dir = Some tt.
Proof.
  intros Hne Hc. unfold resolves_executable_from_path_dirs, resolve_tool_in.
  change (bool_decide (0x2F ∈ str "fake-prog")) with false. cbn match.
  change (str "/nonexistent:" ++ dir) with (str "/nonexistent" ++ 0x3A :: dir).
  rewrite split_on_line by (repeat constructor; done). rewrite split_on_none by done. cbn [List.filter].
  change (negb (bool_decide (str "/nonexistent" = []))) with true. rewrite bool_decide_false by done. cbn [negb search_path].
  assert (forall x, unwrap (Ok x : result text (install_error E)) = Some x) as Hu by done.
  case_bool_decide as Heq; [rewrite Heq|rewrite bool_decide_true by done]; rewrite Hu; cbn [mbind option_bind];
    by unfold assert_eq; rewrite bool_decide_true.
Qed.

Lemma install_tests_return dir : (forall doc cfg, (doc, cfg) ∈ documents -> toml doc = Ok cfg) ->
  dir <> [] -> 0x3A ∉ dir -> all (SE:=SE) toml dir = Some tt.
Proof.
  intros Ht Hne Hc. unfold all. rewrite resolves_executable by done.
  pose proof (fun k doc cfg (Hk : documents !! k = Some (doc, cfg)) =>
    Ht doc cfg (list_elem_of_lookup_2 _ k _ Hk)) as Hd.
  unfold parses_the_full_schema, empty_tool_rejected_naming_the_target, empty_pre_step_rejected,
    unknown_target_lists_available_ones, image_placeholder_expands_inside_a_token,
    port_placeholder_expands_when_port_given, port_placeholder_without_port_flag_errors_actionably,
    unknown_placeholder_rejected_by_name, unmatched_brace_rejected,
    port_flag_appends_port_arg_pair_when_template_has_no_port, port_flag_without_any_port_slot_errors,
    no_port_means_no_injection, pre_steps_run_first_expanded_with_literal_tool,
    port_used_only_in_pre_still_counts_as_consumed, target_of, config, parse_config.
  rewrite (Hd 0%nat _ _ eq_refl), (Hd 1%nat _ _ eq_refl), (Hd 2%nat _ _ eq_refl), (Hd 3%nat _ _ eq_refl),
    (Hd 4%nat _ _ eq_refl), (Hd 5%nat _ _ eq_refl), (Hd 6%nat _ _ eq_refl), (Hd 7%nat _ _ eq_refl),
    (Hd 8%nat _ _ eq_refl), (Hd 9%nat _ _ eq_refl).
  vm_compute. reflexivity.
Qed.
End install.

(** ** Properties *)

(** The tool's own unit tests hold of the model: the HEX reader's, the
    budget policy's, the argument mapping's and the installer's. *)
Theorem unit_tests_pass {E SE} `{Words E SE, Printable, ClapLaws} (toml : text -> result InstallConfig E) dir :
  (forall doc cfg, (doc, cfg) ∈ InstallTests.documents -> toml doc = Ok cfg) -> dir <> [] -> 0x3A ∉ dir ->
  IhexTests.all (E:=E) (SE:=SE) = Some tt
  /\ TransportTests.all = Some tt
  /\ MainTests.all (E:=E) (SE:=SE) = Some tt
  /\ InstallTests.all (SE:=SE) toml dir = Some tt.
Proof.
  intros. split_and!.
  - by vm_compute.
  - by vm_compute.
  - apply main_tests_return.
  - by apply install_tests_return.
Qed.

(** ** A reader of flags, and one of the test documents *)
Fixpoint read_flags (args : list text) : flags * list text :=
  match args with
  | flag :: value :: rest =>
      if decide (flag ∈ snd <$> TRANSPORT_FLAGS) then let '(fs, rest) := read_flags rest in ((flag, value) :: fs, rest)
      else ([], args)
  | _ => ([], args)
  end.
Definition given (fs : flags) (id : text) : bool :=
  existsb (fun '(i, long) => bool_decide (i = id) && bool_decide (long ∈ fst <$> fs)) TRANSPORT_FLAGS.

#[local] Instance sample_clap : Clap := {|
  try_parse_from args :=
    let '(fs, rest) := read_flags (tail args) in
    if decide (rest = [str "info"]) then set_args fs (cli_defaults CmdInfo) else None;
  try_get_matches_from args :=
    let '(before, rest) := read_flags (tail args) in
    if decide (head rest = Some (str "install")) then
      let '(after, _) := read_flags (tail rest) in Some (mkMatches (given before) (Some (given after)))
    else None |}.

Lemma set_arg_known flag value c c' : set_arg flag value c = Some c' -> flag ∈ snd <$> TRANSPORT_FLAGS.
Proof.
  destruct c as [? ? ? ? ? ? ? ? ? ? ? ?]. unfold set_arg.
  repeat match goal with
  | |- context [decide (flag = ?s)] =>
      destruct (decide (flag = s)) as [Hf|_]; [intros _; rewrite Hf; by apply (bool_decide_eq_true _)|]
  end. done.
Qed.

Lemma read_flags_words fs rest : forall c, is_Some (set_args fs c) -> read_flags rest = ([], rest) ->
  read_flags (words fs rest) = (fs, rest).
Proof.
  induction fs as [|[flag value] fs IH]; intros c [c' Hc] Hr; [done|]. cbn [set_args] in Hc.
  destruct (set_arg flag value c) as [c1|] eqn:H1; [|done]. cbn [words read_flags].
  rewrite decide_True by (by eapply set_arg_known). by rewrite (IH c1).
Qed.

Lemma read_flags_other x l : x ∉ snd <$> TRANSPORT_FLAGS -> read_flags (x :: l) = ([], x :: l).
Proof. intros Hx. destruct l; [done|]. cbn [read_flags]. by rewrite decide_False. Qed.

Lemma set_args_app fs fs' : forall c, set_args (fs ++ fs') c = c ← set_args fs c; set_args fs' c.
Proof.
  induction fs as [|[flag value] fs IH]; intros c; [done|]. cbn [app set_args].
  destruct (set_arg flag value c); [apply IH|done].
Qed.

Lemma given_spec fs id long : (id, long) ∈ TRANSPORT_FLAGS -> given fs id = bool_decide (long ∈ fst <$> fs).
Proof.
  intros Hin. apply Bool.eq_iff_eq_true. unfold given. rewrite existsb_exists, bool_decide_eq_true. split.
  - intros ([i l] & Hi%list_elem_of_In & [->%bool_decide_eq_true Hl%bool_decide_eq_true]%andb_true_iff).
    assert (NoDup (fst <$> TRANSPORT_FLAGS)) as Hnd by (by apply (bool_decide_eq_true _)).
    apply list_elem_of_lookup in Hin as [a Ha], Hi as [b Hb].
    assert (a = b) as ->; [|congruence].
    apply (NoDup_lookup _ _ _ id Hnd); rewrite list_lookup_fmap; [by rewrite Ha|by rewrite Hb].
  - intros Hl. exists (id, long). split; [by apply list_elem_of_In|]. by rewrite !bool_decide_true.
Qed.

#[local] Instance sample_clap_laws : ClapLaws.
Proof.
  split.
  - intros fs (_ & _ & Hs). cbn [try_parse_from sample_clap tail].
    rewrite (read_flags_words fs _ _ Hs) by done. by rewrite decide_True.
  - intros before after (_ & _ & Hs). rewrite set_args_app in Hs. destruct Hs as [c' Hs].
    destruct (set_args before _) as [c|] eqn:Hb; [|done]. cbn [mbind option_bind] in Hs.
    exists (mkMatches (given before) (Some (given after))), (given after). split_and!; [|done|].
    + cbn [try_get_matches_from sample_clap tail].
      rewrite (read_flags_words before _ (cli_defaults CmdInfo)).
      2: by rewrite Hb.
      2: { apply read_flags_other. apply (bool_decide_eq_false _). by vm_compute. }
      cbn [head tail]. rewrite decide_True by done. by rewrite (read_flags_words after _ c); [|by rewrite Hs|].
    + intros id long Hin. cbn [am_from_cli]. rewrite !(given_spec _ id long) by done.
      rewrite fmap_app. apply Bool.eq_iff_eq_true. rewrite orb_true_iff, !bool_decide_eq_true, elem_of_app. done.
Qed.

Definition sample_toml (doc : text) : result InstallConfig unit :=
  match List.find (fun '(d, _) => bool_decide (d = doc)) InstallTests.documents with
  | Some (_, cfg) => Ok cfg
  | None => Err tt
  end.

#[local] Existing Instances sample_words sample_printable.
Lemma unit_tests_pass_witness :
  MainTests.all (E:=unit) (SE:=unit) = Some tt
  /\ InstallTests.all (E:=unit) (SE:=unit) sample_toml (str "/tmp/updater-inst-1") = Some tt.
Proof.
  apply (unit_tests_pass (E:=unit) (SE:=unit) sample_toml (str "/tmp/updater-inst-1")).
  - intros doc cfg Hin. apply list_elem_of_lookup in Hin as [k Hk].
    do 10 (destruct k as [|k]; [injection Hk as <- <-; by vm_compute|]). done.
  - done.
  - apply (bool_decide_eq_false _). by vm_compute.
Defined.
