(* ===== verification/Device.v ===== *)
(** The bootloader core ([device/core/*.c]) over the simulated port the
    conformance harness links it with ([conformance/sim/sim_port.c]).

    [None] is the program aborting: a flash access outside the app region in
    the simulated port, or a failed [assert] in the core. Pointers into the
    receive buffer are views, lists of the bytes they point at; the core never
    writes through them. [unsigned] is at least 16 bits wide and the values it
    holds here stay below [2 ^ 16]. *)
From stdpp Require Import relations.
From S2P Require Import Prelude Errors Gf2 Frame Image.

(** ** [crc8.c], [crc32.c] *)
Definition upd_crc8_bit (crc : Z) : Z :=
  let v := Z.shiftl crc 1 in
  let v := if negb (Z.land crc 0x80 =? 0) then Z.lxor v 0x07 else v in
  Z.land v 0xFF.
Definition upd_crc8 (p : list Z) : Z :=
  fold_left (fun crc b => Nat.iter 8 upd_crc8_bit (Z.lxor crc b)) p 0.

Definition upd_crc32_init : Z := 0xFFFFFFFF.
Definition upd_crc32_bit (crc : Z) : Z :=
  if negb (Z.land crc 1 =? 0) then Z.lxor (Z.shiftr crc 1) 0xEDB88320 else Z.shiftr crc 1.
Definition upd_crc32_update (crc byte : Z) : Z := Nat.iter 8 upd_crc32_bit (Z.lxor crc byte).
Definition upd_crc32_final (crc : Z) : Z := Z.lxor crc 0xFFFFFFFF.

(** ** [proto.c] *)
Definition UPD_FRAME_OVERHEAD : Z := 3.
Definition UPD_ECHO_MAX : Z := 16.

Record upd_frame := mkUpdFrame { uf_cmd : Z; uf_len : Z; uf_payload : list Z }.

(** [buf] is the [buflen] bytes received. *)
Definition upd_frame_parse (buf : list Z) : option upd_frame :=
  let buflen := len buf in
  if buflen <? UPD_FRAME_OVERHEAD then None else
  let n := default 0 (get_at 1 buf) in
  if negb (n + UPD_FRAME_OVERHEAD =? buflen) then None else
  if negb (upd_crc8 (take (Z.to_nat (buflen - 1)) buf) =? default 0 (get_at (buflen - 1) buf)) then None
  else Some (mkUpdFrame (default 0 (get_at 0 buf)) n (take (Z.to_nat n) (drop 2 buf))).

(** The bytes built, none when they do not fit. *)
Definition upd_frame_build (cap cmd : Z) (payload : list Z) : list Z :=
  let total := len payload + UPD_FRAME_OVERHEAD in
  if (255 <? total) || (cap <? total) then [] else
  let body := cmd :: len payload :: payload in
  body ++ [upd_crc8 body].

(** ** The simulated port *)
Record port_info := mkPortInfo {
  pi_page_size : Z;
  pi_app_pages : Z;
  pi_device_id : list Z;
  pi_bl_version : Z;
}.

(** The statics of [sim_port.c]: [g_flash], the fields of [g_session], and the
    power cut. The page size and count are [port_info]'s. *)
Record Sim := mkSim {
  g_flash : list Z;
  s_info : port_info;
  s_erased : bool;
  s_boot_pending : bool;
  g_ops : Z;
  g_cut_at : Z;
  g_cut_hit : bool;
  g_dead : bool;
  g_jumped : bool;
}.

Definition with_flash (flash : list Z) (s : Sim) : Sim :=
  mkSim flash (s_info s) (s_erased s) (s_boot_pending s) (g_ops s) (g_cut_at s) (g_cut_hit s)
    (g_dead s) (g_jumped s).
Definition with_erased (b : bool) (s : Sim) : Sim :=
  mkSim (g_flash s) (s_info s) b (s_boot_pending s) (g_ops s) (g_cut_at s) (g_cut_hit s)
    (g_dead s) (g_jumped s).
Definition with_boot_pending (b : bool) (s : Sim) : Sim :=
  mkSim (g_flash s) (s_info s) (s_erased s) b (g_ops s) (g_cut_at s) (g_cut_hit s)
    (g_dead s) (g_jumped s).
Definition port_jump_to_app (s : Sim) : Sim :=
  mkSim (g_flash s) (s_info s) (s_erased s) (s_boot_pending s) (g_ops s) (g_cut_at s) (g_cut_hit s)
    (g_dead s) true.

Definition op_tears (s : Sim) : bool * Sim :=
  let ops := u32_wrapping_add (g_ops s) 1 in
  let torn := negb (g_cut_at s =? 0) && (ops =? g_cut_at s) in
  (torn, mkSim (g_flash s) (s_info s) (s_erased s) (s_boot_pending s) ops (g_cut_at s)
           (if torn then true else g_cut_hit s) (if torn then true else g_dead s) (g_jumped s)).

(** [memset]/[memcpy] of [n] bytes to the start of a page. *)
Definition port_flash_op (page : Z) (data : list Z) (s : Sim) : option Sim :=
  let ps := pi_page_size (s_info s) in
  if pi_app_pages (s_info s) <=? page then None else
  if g_dead s then Some s else
  let '(torn, s) := op_tears s in
  let n := if torn then ps / 2 else ps in
  Some (with_flash (overwrite (page * ps) (take (Z.to_nat n) data) (g_flash s)) s).
Definition port_flash_erase_page (page : Z) (s : Sim) : option Sim :=
  port_flash_op page (replicate (Z.to_nat (pi_page_size (s_info s))) 0xFF) s.
Definition port_flash_write_page (page : Z) (data : list Z) (s : Sim) : option Sim :=
  port_flash_op page data s.
Definition port_flash_read_byte (offset : Z) (flash : list Z) : option Z :=
  if len flash <=? offset then None else flash !! Z.to_nat offset.

(** ** [update.c]: the application check *)
Definition region_bytes (i : port_info) : Z := (pi_page_size i * pi_app_pages i) mod 2 ^ 32.

Fixpoint flash_crc_loop (n : nat) (off c : Z) (flash : list Z) : option Z :=
  match n with
  | O => Some c
  | S n => b ← port_flash_read_byte off flash; flash_crc_loop n (off + 1) (upd_crc32_update c b) flash
  end.
Definition flash_crc (length : Z) (flash : list Z) : option Z :=
  c ← flash_crc_loop (Z.to_nat length) 0 upd_crc32_init flash; Some (upd_crc32_final c).

(** The comparisons of the magic, left to right. *)
Fixpoint magic_at (off : Z) (magic flash : list Z) : option bool :=
  match magic with
  | [] => Some true
  | m :: magic =>
      b ← port_flash_read_byte off flash;
      if negb (b =? m) then Some false else magic_at (off + 1) magic flash
  end.

(** The loop that assembles the two little-endian words of the footer. *)
Fixpoint footer_loop (n : nat) (i base length crc : Z) (flash : list Z) : option (Z * Z) :=
  match n with
  | O => Some (length, crc)
  | S n =>
      a ← port_flash_read_byte (base + 4 + i) flash;
      b ← port_flash_read_byte (base + 8 + i) flash;
      footer_loop n (i + 1) base (Z.lor length (Z.shiftl a (8 * i))) (Z.lor crc (Z.shiftl b (8 * i))) flash
  end.

Definition upd_app_valid (info : port_info) (flash : list Z) : option bool :=
  if region_bytes info <? 16 then Some false else
  let base := region_bytes info - 16 in
  magic ← magic_at base [0x4F; 0x54; 0x41; 0x55] flash;
  if negb magic then Some false else
  '(length, crc) ← footer_loop 4 0 base 0 0 flash;
  if region_bytes info - 16 <? length then Some false else
  c ← flash_crc length flash;
  Some (c =? crc).

Definition upd_boot_if_valid (s : Sim) : option (bool * Sim) :=
  valid ← upd_app_valid (s_info s) (g_flash s);
  if negb valid then Some (false, s) else Some (true, port_jump_to_app s).

(** ** [update.c]: the command handlers

    A handler returns the response payload. *)
Definition UPD_PROTO_VERSION : Z := 1.

Definition handle_info (s : Sim) (rsp_cap : Z) : option (list Z) :=
  if rsp_cap <? 12 then Some [ST_BAD_FRAME] else
  let i := s_info s in
  valid ← upd_app_valid i (g_flash s);
  Some ([ST_OK; UPD_PROTO_VERSION; pi_bl_version i] ++ pi_device_id i
        ++ [Z.land (pi_page_size i) 0xFF; Z.land (Z.shiftr (pi_page_size i) 8) 0xFF;
            Z.land (pi_app_pages i) 0xFF; Z.land (Z.shiftr (pi_app_pages i) 8) 0xFF;
            if (valid : bool) then 1 else 0]).

Fixpoint erase_loop (n : nat) (p : Z) (s : Sim) : option Sim :=
  match n with
  | O => Some s
  | S n => s ← port_flash_erase_page p s; erase_loop n (p + 1) s
  end.

Definition handle_erase (s : Sim) (req : upd_frame) : option (list Z * Sim) :=
  if negb (uf_len req =? 4) || negb (bool_decide (uf_payload req = [0x45; 0x52; 0x41; 0x53]))
  then Some ([ST_BAD_MAGIC], s) else
  s ← erase_loop (Z.to_nat (pi_app_pages (s_info s))) 0 s;
  Some ([ST_OK], with_erased true s).

Definition handle_write (s : Sim) (req : upd_frame) : option (list Z * Sim) :=
  if negb (s_erased s) then Some ([ST_NOT_ERASED], s) else
  if negb (uf_len req =? pi_page_size (s_info s) + 2) then Some ([ST_BAD_FRAME], s) else
  let idx := Z.land (Z.lor (default 0 (get_at 0 (uf_payload req)))
                       (Z.shiftl (default 0 (get_at 1 (uf_payload req))) 8)) 0xFFFF in
  if pi_app_pages (s_info s) <=? idx then Some ([ST_OUT_OF_RANGE], s) else
  s ← port_flash_write_page idx (drop 2 (uf_payload req)) s;
  Some ([ST_OK], s).

(** Four bytes of a payload as a little-endian word. *)
Fixpoint le_word (i : Z) (bs : list Z) : Z :=
  match bs with [] => 0 | b :: bs => Z.lor (Z.shiftl b (8 * i)) (le_word (i + 1) bs) end.

Definition handle_verify (s : Sim) (req : upd_frame) : option (list Z) :=
  if negb (uf_len req =? 8) then Some [ST_BAD_FRAME] else
  let length := le_word 0 (take 4 (uf_payload req)) in
  let crc := le_word 0 (take 4 (drop 4 (uf_payload req))) in
  if (region_bytes (s_info s) <? 16) || (region_bytes (s_info s) - 16 <? length)
  then Some [ST_OUT_OF_RANGE] else
  c ← flash_crc length (g_flash s);
  Some [if c =? crc then ST_OK else ST_BAD_CRC].

Definition handle_echo (req : upd_frame) (rsp_cap : Z) : list Z :=
  if (UPD_ECHO_MAX <? uf_len req) || (rsp_cap <? uf_len req + 1) then [ST_BAD_FRAME]
  else ST_OK :: uf_payload req.

Definition upd_handle (s : Sim) (req : upd_frame) (rsp_cap : Z) : option (list Z * Sim) :=
  if rsp_cap =? 0 then Some ([], s) else
  let cmd := uf_cmd req in
  if cmd =? CMD_INFO then rsp ← handle_info s rsp_cap; Some (rsp, s)
  else if cmd =? CMD_ERASE_APP then handle_erase s req
  else if cmd =? CMD_WRITE_PAGE then handle_write s req
  else if cmd =? CMD_VERIFY then rsp ← handle_verify s req; Some (rsp, s)
  else if cmd =? CMD_BOOT then
    valid ← upd_app_valid (s_info s) (g_flash s);
    Some (if (valid : bool) then ([ST_OK], with_boot_pending true s) else ([ST_NO_APP], s))
  else if cmd =? CMD_ECHO then Some (handle_echo req rsp_cap, s)
  else Some ([ST_BAD_CMD], s).

(** ** The request cycle of the simulated main loop *)
Definition sim_request (frame : list Z) (s : Sim) : option (list Z * Sim) :=
  if g_dead s || g_jumped s then Some ([], s) else
  '(cmd, payload, s) ←
    match (if len frame <=? 255 then upd_frame_parse frame else None) with
    | Some req => '(payload, s) ← upd_handle s req 252; Some (uf_cmd req, payload, s)
    | None => Some (default 0 (head frame), [ST_BAD_FRAME], s)
    end;
  let rsp := upd_frame_build 255 (Z.lor cmd RSP_FLAG) payload in
  if g_dead s then Some ([], s) else
  if s_boot_pending s then
    '(_, s) ← upd_boot_if_valid (with_boot_pending false s);
    Some (rsp, s)
  else Some (rsp, s).

Definition sim_reset (preserve_flash : bool) (info : port_info) (flash : list Z) : Sim :=
  mkSim (if preserve_flash then flash else replicate (length flash) 0xFF) info false false 0 0 false false false.
Definition sim_powercut_after (flash_ops : Z) (s : Sim) : Sim :=
  mkSim (g_flash s) (s_info s) (s_erased s) (s_boot_pending s) (g_ops s)
    (if flash_ops =? 0 then 0 else u32_wrapping_add (g_ops s) flash_ops) (g_cut_hit s) (g_dead s) (g_jumped s).

(** ** The checksums are the host's *)
Lemma land_lxor_distr a b m : Z.land (Z.lxor a b) m = Z.lxor (Z.land a m) (Z.land b m).
Proof.
  apply Z.bits_inj'. intros n Hn. rewrite Z.land_spec, !Z.lxor_spec, !Z.land_spec.
  by destruct (Z.testbit a n), (Z.testbit b n), (Z.testbit m n).
Qed.
Lemma upd_crc8_bit_eq crc : upd_crc8_bit crc = crc8_bit crc.
Proof.
  unfold upd_crc8_bit, crc8_bit, u8_wrapping_shl. change (1 mod 8) with 1.
  change 0xFF with (Z.ones 8). destruct (negb _); rewrite ?land_lxor_distr, !Z.land_ones by lia; done.
Qed.
Lemma upd_crc8_eq p : upd_crc8 p = crc8 p.
Proof.
  unfold upd_crc8, crc8. generalize 0. induction p as [|b p IH]; intros crc; [done|]. cbn [fold_left].
  rewrite IH. f_equal. unfold crc8_step. generalize (Z.lxor crc b) as x. generalize 8%nat as n.
  induction n as [|n IHn]; intros x; [done|]. rewrite !Nat.iter_succ. by rewrite IHn, upd_crc8_bit_eq.
Qed.

Lemma read_byte_lookup off flash b : 0 <= off -> flash !! Z.to_nat off = Some b ->
  port_flash_read_byte off flash = Some b.
Proof.
  intros Ho Hb. unfold port_flash_read_byte. zcase; [|done].
  apply lookup_lt_Some in Hb. unfold len in *. lia.
Qed.

Lemma flash_crc_loop_ok n : forall off c flash, 0 <= off -> off + Z.of_nat n <= len flash ->
  flash_crc_loop n off c flash = Some (fold_left crc32_byte (take n (drop (Z.to_nat off) flash)) c).
Proof.
  induction n as [|n IH]; intros off c flash Ho Hl; [done|]. cbn [flash_crc_loop].
  destruct (flash !! Z.to_nat off) as [b|] eqn:Hb.
  2: { apply lookup_ge_None in Hb. unfold len in *. lia. }
  rewrite (read_byte_lookup _ _ b) by done. cbn [mbind option_bind]. rewrite IH by lia.
  erewrite (drop_S flash b (Z.to_nat off)) by done. cbn [take fold_left].
  by replace (Z.to_nat (off + 1)) with (S (Z.to_nat off)) by lia.
Qed.
Lemma flash_crc_ok n flash : 0 <= n <= len flash ->
  flash_crc n flash = Some (crc32 (take (Z.to_nat n) flash)).
Proof. intros Hn. unfold flash_crc. rewrite flash_crc_loop_ok by lia. done. Qed.

(** ** The codec is the host's *)
Lemma parse_snoc cmd n payload c : len payload = n ->
  upd_frame_parse ((cmd :: n :: payload) ++ [c]) =
    if crc8 (cmd :: n :: payload) =? c then Some (mkUpdFrame cmd n payload) else None.
Proof.
  intros Hl. unfold upd_frame_parse. rewrite len_app, !len_cons, len_nil.
  replace (1 + (1 + len payload) + (1 + 0)) with (len payload + 3) by lia.
  change UPD_FRAME_OVERHEAD with 3. pose proof (len_nonneg payload).
  rewrite (proj2 (Z.ltb_ge _ _)) by lia. unfold get_at.
  change (Z.to_nat 1) with 1%nat. change (Z.to_nat 0) with 0%nat. cbn [app lookup list_lookup default drop].
  unfold id. rewrite (proj2 (Z.eqb_eq (n + 3) _)) by lia. cbn [negb].
  change (cmd :: n :: payload ++ [c]) with ((cmd :: n :: payload) ++ [c]).
  replace (Z.to_nat (len payload + 3 - 1)) with (length (cmd :: n :: payload))
    by (unfold len in *; cbn [length]; lia).
  rewrite take_app_length, upd_crc8_eq, lookup_app_r, Nat.sub_diag by done. cbn [lookup list_lookup].
  rewrite drop_0. replace (Z.to_nat n) with (length payload) by (unfold len in *; lia).
  rewrite take_app_length. cbn [from_option]. by destruct (crc8 _ =? c).
Qed.

Lemma parse_wire cmd payload :
  upd_frame_parse (wire cmd payload) = Some (mkUpdFrame cmd (len payload) payload).
Proof.
  change (wire cmd payload) with ((cmd :: len payload :: payload) ++ [crc8 (cmd :: len payload :: payload)]).
  by rewrite parse_snoc, Z.eqb_refl.
Qed.

Lemma parse_inv raw f : bytes raw -> upd_frame_parse raw = Some f ->
  raw = wire (uf_cmd f) (uf_payload f) /\ uf_len f = len (uf_payload f).
Proof.
  intros Hb Hp. assert (exists cmd n payload c, raw = (cmd :: n :: payload) ++ [c] /\ len payload = n)
    as (cmd & n & payload & c & -> & Hl).
  { unfold upd_frame_parse in Hp. change UPD_FRAME_OVERHEAD with 3 in Hp. zcase_in Hp; [done|].
    destruct raw as [|cmd [|n rest]]; try (exfalso; unfold len in *; simpl in *; lia).
    rewrite !bytes_cons in Hb. unfold get_at in Hp. cbn [lookup list_lookup default] in Hp.
    change (Z.to_nat 1) with 1%nat in Hp. cbn [lookup list_lookup default] in Hp. unfold id in Hp.
    rewrite !len_cons in Hp. destruct (Z.eqb_spec (n + 3) (1 + (1 + len rest))) as [Hn|]; [|done].
    destruct rest as [|c payload _] using rev_ind; [change (len []) with 0 in *; lia|].
    exists cmd, n, payload, c. rewrite len_app in Hn. change (len [c]) with 1 in Hn. split; [done|lia]. }
  rewrite parse_snoc in Hp by done. destruct (Z.eqb_spec (crc8 (cmd :: n :: payload)) c) as [Hc|]; [|done].
  injection Hp as <-. cbn [uf_cmd uf_payload uf_len]. unfold wire. by rewrite Hl, Hc.
Qed.

Lemma build_wire cap cmd payload : len payload <= PAYLOAD_MAX -> len payload + 3 <= cap ->
  upd_frame_build cap cmd payload = wire cmd payload.
Proof.
  intros Hp Hc. change PAYLOAD_MAX with 252 in Hp. unfold upd_frame_build.
  change UPD_FRAME_OVERHEAD with 3. zcase; [lia|]. zcase; [lia|]. cbn [orb]. by rewrite upd_crc8_eq.
Qed.

(** ** The boot gate, abstractly *)

(** Flash that holds an application: the footer's magic, a length that leaves
    room for it and the CRC-32 of that many bytes. *)
Definition bootable (flash : list Z) : Prop :=
  exists n c pad, drop (Z.to_nat (len flash - FOOTER_LEN)) flash
      = FOOTER_MAGIC ++ u32_to_le_bytes n ++ u32_to_le_bytes c ++ pad
    /\ FOOTER_LEN <= len flash /\ is_u32 n /\ is_u32 c
    /\ n <= len flash - FOOTER_LEN /\ crc32 (take (Z.to_nat n) flash) = c.

Definition u32_from_le_bytes (b0 b1 b2 b3 : Z) : Z := b0 + 256 * b1 + 65536 * b2 + 16777216 * b3.

Lemma u32_le_inv b0 b1 b2 b3 : is_u8 b0 -> is_u8 b1 -> is_u8 b2 -> is_u8 b3 ->
  u32_to_le_bytes (u32_from_le_bytes b0 b1 b2 b3) = [b0; b1; b2; b3].
Proof.
  intros. unfold u32_to_le_bytes, u32_from_le_bytes. repeat f_equal.
  all: rewrite ?Z.div_div by lia; change 65536 with (256 * 256); change 16777216 with (256 * 256 * 256).
  all: Z.to_euclidean_division_equations; lia.
Qed.
Lemma u32_from_to x b0 b1 b2 b3 : is_u32 x -> u32_to_le_bytes x = [b0; b1; b2; b3] ->
  u32_from_le_bytes b0 b1 b2 b3 = x.
Proof.
  intros Hx. unfold u32_to_le_bytes, u32_from_le_bytes. intros [= <- <- <- <-].
  Z.to_euclidean_division_equations. lia.
Qed.

Lemma lor_shiftl x b n : 0 <= n -> 0 <= x < 2 ^ n -> Z.lor x (Z.shiftl b n) = x + b * 2 ^ n.
Proof.
  intros Hn Hx. rewrite <- Z.shiftl_mul_pow2 by lia.
  rewrite <- Z.lxor_lor, <- Z.add_nocarry_lxor; [done|..].
  all: apply Z.bits_inj'; intros k Hk; rewrite Z.land_spec, Z.bits_0, Z.shiftl_spec by lia.
  all: destruct (Z.lt_ge_cases k n); [rewrite (Z.testbit_neg_r b) by lia; apply andb_false_r|].
  all: rewrite <- (Z.mod_small x (2 ^ n)) by lia; rewrite Z.mod_pow2_bits_high by lia; done.
Qed.

Lemma le_loop_ok a b c d : is_u8 a -> is_u8 b -> is_u8 c -> is_u8 d ->
  Z.lor (Z.lor (Z.lor (Z.lor 0 (Z.shiftl a (8 * 0))) (Z.shiftl b (8 * 1))) (Z.shiftl c (8 * 2)))
    (Z.shiftl d (8 * 3)) = u32_from_le_bytes a b c d.
Proof.
  intros. unfold u32_from_le_bytes. rewrite Z.lor_0_l, Z.shiftl_0_r.
  rewrite (lor_shiftl a) by lia. rewrite (lor_shiftl _ c) by lia. rewrite lor_shiftl by lia. lia.
Qed.

Lemma magic_at_ok m : forall off flash, 0 <= off -> off + len m <= len flash ->
  magic_at off m flash = Some (bool_decide (take (length m) (drop (Z.to_nat off) flash) = m)).
Proof.
  induction m as [|x m IH]; intros off flash Ho Hl; [done|]. rewrite len_cons in Hl. pose proof (len_nonneg m).
  cbn [magic_at]. destruct (flash !! Z.to_nat off) as [b|] eqn:Hb.
  2: { apply lookup_ge_None in Hb. unfold len in *. lia. }
  rewrite (read_byte_lookup _ _ b) by done. cbn [mbind option_bind length].
  erewrite (drop_S flash b (Z.to_nat off)) by done. cbn [take].
  destruct (Z.eqb_spec b x) as [->|Hne]; cbn [negb].
  - rewrite IH by lia. replace (Z.to_nat (off + 1)) with (S (Z.to_nat off)) by lia. f_equal.
    apply bool_decide_ext. split; [by intros ->|by intros [= ->]].
  - rewrite bool_decide_false; [done|]. by intros [= ? _].
Qed.

Lemma footer_loop_ok base flash f0 f1 f2 f3 f4 f5 f6 f7 rest : 0 <= base -> bytes flash ->
  drop (Z.to_nat (base + 4)) flash = [f0; f1; f2; f3; f4; f5; f6; f7] ++ rest ->
  footer_loop 4 0 base 0 0 flash
    = Some (u32_from_le_bytes f0 f1 f2 f3, u32_from_le_bytes f4 f5 f6 f7).
Proof.
  intros Hb Hfl Hd.
  assert (forall o k b, o = base + 4 + Z.of_nat k -> ([f0; f1; f2; f3; f4; f5; f6; f7] ++ rest) !! k = Some b ->
    port_flash_read_byte o flash = Some b) as Hr.
  { intros o k b -> Hk. rewrite <- Hd, lookup_drop in Hk. apply read_byte_lookup; [lia|].
    rewrite <- Hk. f_equal. lia. }
  cbn [footer_loop].
  rewrite (Hr (base + 4 + 0) 0%nat f0), (Hr (base + 8 + 0) 4%nat f4), (Hr (base + 4 + (0 + 1)) 1%nat f1),
    (Hr (base + 8 + (0 + 1)) 5%nat f5), (Hr (base + 4 + (0 + 1 + 1)) 2%nat f2),
    (Hr (base + 8 + (0 + 1 + 1)) 6%nat f6), (Hr (base + 4 + (0 + 1 + 1 + 1)) 3%nat f3),
    (Hr (base + 8 + (0 + 1 + 1 + 1)) 7%nat f7) by (done || lia).
  cbn [mbind option_bind].
  assert (bytes ([f0; f1; f2; f3; f4; f5; f6; f7] ++ rest)) as Hby by (rewrite <- Hd; by apply bytes_drop).
  rewrite !bytes_app, !bytes_cons in Hby. destruct_and! Hby.
  by rewrite <- (le_loop_ok f0 f1 f2 f3), <- (le_loop_ok f4 f5 f6 f7).
Qed.

(** The geometry and the flash of a device fit together. *)
Record device_wf (info : port_info) (flash : list Z) : Prop := {
  dw_page_size : is_u16 (pi_page_size info);
  dw_app_pages : is_u16 (pi_app_pages info);
  dw_id : length (pi_device_id info) = 4%nat;
  dw_ident : bytes (pi_bl_version info :: pi_device_id info);
  dw_flash : bytes flash;
  dw_region : len flash = pi_page_size info * pi_app_pages info;
}.

Lemma region_bytes_ok info flash : device_wf info flash -> region_bytes info = len flash.
Proof. intros [? ? _ _ _ ->]. unfold region_bytes. apply Z.mod_small. nia. Qed.

Lemma app_valid_ok info flash : device_wf info flash ->
  exists b, upd_app_valid info flash = Some b /\ (b = true <-> bootable flash).
Proof.
  intros Hwf. unfold upd_app_valid. rewrite (region_bytes_ok _ _ Hwf). pose proof (dw_flash _ _ Hwf) as Hb.
  assert (len flash < 2 ^ 32) as Hmax by (destruct Hwf as [? ? _ _ _ ->]; nia).
  unfold bootable. change FOOTER_LEN with 16.
  destruct (Z.ltb_spec (len flash) 16) as [Hs|Hs].
  { exists false. split; [done|]. split; [done|]. intros (? & ? & ? & _ & ? & _). lia. }
  set (base := len flash - 16). cbv zeta.
  assert (length (drop (Z.to_nat base) flash) = 16%nat) as Hft
    by (rewrite length_drop; subst base; unfold len in *; lia).
  rewrite magic_at_ok by (subst base; unfold len in *; simpl; lia). cbn [mbind option_bind].
  destruct (drop (Z.to_nat base) flash) as [|m0 [|m1 [|m2 [|m3 [|f0 [|f1 [|f2 [|f3 [|f4 [|f5 [|f6 [|f7
    [|p0 [|p1 [|p2 [|p3 [|]]]]]]]]]]]]]]]]] eqn:Hd; try done.
  cbn [take length]. case_bool_decide as Hm; cbn [negb].
  2: { exists false. split; [done|]. split; [done|]. intros (n & c & pad & Heq & _).
       destruct Hm. injection Heq as -> -> -> -> _. done. }
  injection Hm as -> -> -> ->.
  erewrite (footer_loop_ok base flash f0 f1 f2 f3 f4 f5 f6 f7 [p0; p1; p2; p3]); [|lia|done|].
  2: { replace (Z.to_nat (base + 4)) with (Z.to_nat base + 4)%nat by lia. by rewrite <- drop_drop, Hd. }
  assert (bytes [f0; f1; f2; f3; f4; f5; f6; f7]) as Hf.
  { apply (bytes_drop (Z.to_nat base)) in Hb. rewrite Hd, !bytes_cons in Hb. rewrite !bytes_cons.
    destruct_and! Hb. by split_and!. }
  rewrite !bytes_cons in Hf. destruct_and! Hf. cbn [mbind option_bind].
  set (n := u32_from_le_bytes f0 f1 f2 f3). set (c := u32_from_le_bytes f4 f5 f6 f7).
  assert (is_u32 n /\ is_u32 c) as [Hn Hc] by (subst n c; unfold u32_from_le_bytes; lia).
  assert (forall n' c' pad, [79; 84; 65; 85; f0; f1; f2; f3; f4; f5; f6; f7; p0; p1; p2; p3]
    = FOOTER_MAGIC ++ u32_to_le_bytes n' ++ u32_to_le_bytes c' ++ pad -> is_u32 n' -> is_u32 c' ->
    n' = n /\ c' = c) as Hinj.
  { intros n' c' pad Heq Hn' Hc'. change FOOTER_MAGIC with [79; 84; 65; 85] in Heq.
    cbn [app u32_to_le_bytes] in Heq. injection Heq as E0 E1 E2 E3 E4 E5 E6 E7 _.
    split; symmetry; apply u32_from_to; try done; unfold u32_to_le_bytes; by rewrite E0, E1, E2, E3
      || by rewrite E4, E5, E6, E7. }
  destruct (Z.ltb_spec base n) as [Hlt|Hle].
  { exists false. split; [done|]. split; [done|]. intros (n' & c' & pad & Heq & _ & Hn' & Hc' & Hle & _).
    apply Hinj in Heq as [-> _]; [|done..]. subst base. lia. }
  rewrite flash_crc_ok by lia. cbn [mbind option_bind]. eexists. split; [done|]. rewrite Z.eqb_eq. split.
  - intros Hcrc. exists n, c, [p0; p1; p2; p3]. split_and!; try done; try lia.
    subst n c. rewrite !u32_le_inv by done. done.
  - intros (n' & c' & pad & Heq & _ & Hn' & Hc' & _ & Hcrc).
    by apply Hinj in Heq as [-> ->].
Qed.

(** ** The handlers *)

(** What holds of the device between requests. *)
Record sim_ok (s : Sim) : Prop := {
  so_wf : device_wf (s_info s) (g_flash s);
  so_idle : s_boot_pending s = false;
}.

(** What a flash operation leaves alone. *)
Definition same_but_flash (s s' : Sim) : Prop :=
  s_info s' = s_info s /\ s_erased s' = s_erased s /\ s_boot_pending s' = s_boot_pending s
  /\ g_jumped s' = g_jumped s.

Lemma same_but_flash_refl s : same_but_flash s s.
Proof. done. Qed.
Lemma same_but_flash_trans s1 s2 s3 :
  same_but_flash s1 s2 -> same_but_flash s2 s3 -> same_but_flash s1 s3.
Proof. intros (? & ? & ? & ?) (? & ? & ? & ?). unfold same_but_flash. by split_and!; etrans. Qed.

Lemma device_wf_flash info flash flash' :
  device_wf info flash -> bytes flash' -> len flash' = len flash -> device_wf info flash'.
Proof. intros [] Hb Hl. split; [done..|]. by rewrite Hl. Qed.

Lemma port_flash_op_ok p data s : device_wf (s_info s) (g_flash s) ->
  0 <= p < pi_app_pages (s_info s) -> bytes data -> len data = pi_page_size (s_info s) ->
  exists s', port_flash_op p data s = Some s' /\ device_wf (s_info s') (g_flash s')
    /\ same_but_flash s s'
    /\ (g_dead s' = false -> g_dead s = false
        /\ g_flash s' = write_at (pi_page_size (s_info s)) (g_flash s) p data).
Proof.
  intros Hwf Hp Hd Hl. unfold port_flash_op. zcase; [lia|].
  destruct (g_dead s) eqn:Hdead.
  { exists s. split_and!; try done. by rewrite Hdead. }
  unfold op_tears. set (torn := negb _ && _). cbv zeta.
  set (ps := pi_page_size (s_info s)) in *. pose proof Hwf as [Hps Hap _ _ Hfb Hreg]. fold ps in Hps, Hreg.
  set (n := if torn then ps / 2 else ps).
  assert (0 <= n <= ps) as Hn by (subst n; destruct torn; [|lia]; Z.to_euclidean_division_equations; lia).
  assert (len (take (Z.to_nat n) data) = n) as Hln by (rewrite len_take; lia).
  eexists. split; [done|]. cbn [with_flash g_flash s_info g_dead]. split_and!.
  - apply (device_wf_flash _ (g_flash s)); [done|apply bytes_overwrite; auto with ota|].
    apply len_overwrite; nia.
  - done.
  - subst n. destruct torn; [by rewrite ?Hdead|]. intros _. split; [done|]. unfold write_at.
    by rewrite take_ge by (unfold len in *; lia).
Qed.

Lemma erase_loop_ok n : forall p s, device_wf (s_info s) (g_flash s) -> 0 <= p ->
  p + Z.of_nat n <= pi_app_pages (s_info s) ->
  exists s', erase_loop n p s = Some s' /\ device_wf (s_info s') (g_flash s') /\ same_but_flash s s'
    /\ (g_dead s' = false -> 0 < pi_page_size (s_info s) -> g_dead s = false
        /\ forall i, 0 <= i < pi_app_pages (s_info s) ->
           page_of (pi_page_size (s_info s)) (g_flash s') i
             = if (p <=? i) && (i <? p + Z.of_nat n)
               then replicate (Z.to_nat (pi_page_size (s_info s))) 0xFF
               else page_of (pi_page_size (s_info s)) (g_flash s) i).
Proof.
  induction n as [|n IH]; intros p s Hwf Hp Hn.
  { exists s. split_and!; try done. intros Hd _. split; [done|]. intros i Hi.
    destruct (Z.leb_spec p i), (Z.ltb_spec i (p + Z.of_nat 0)); try done. lia. }
  cbn [erase_loop]. unfold port_flash_erase_page.
  pose proof Hwf as [Hps Hap _ _ _ Hreg].
  destruct (port_flash_op_ok p (replicate (Z.to_nat (pi_page_size (s_info s))) 0xFF) s)
    as (s1 & -> & Hwf1 & Hs1 & Hal1); [done|lia|by apply bytes_replicate|rewrite len_replicate; lia|].
  cbn [mbind option_bind]. pose proof Hs1 as (Hi1 & _).
  destruct (IH (p + 1) s1) as (s2 & -> & Hwf2 & Hs2 & Hal2); [done|lia|rewrite Hi1; lia|].
  exists s2. split_and!; [done|done|by eapply same_but_flash_trans|]. rewrite Hi1 in Hal2.
  intros Hd Hps0. destruct (Hal2 Hd Hps0) as [Hd1 Hpg]. destruct (Hal1 Hd1) as [Hd0 Hfl].
  split; [done|]. intros i Hi. rewrite Hpg, Hfl by done.
  rewrite page_of_write by first [lia | nia | rewrite len_replicate; lia].
  destruct (Z.leb_spec (p + 1) i), (Z.leb_spec p i), (Z.ltb_spec i (p + 1 + Z.of_nat n)),
    (Z.ltb_spec i (p + Z.of_nat (S n))), (Z.eqb_spec p i); cbn [andb]; try done; lia.
Qed.

(** A whole erase leaves erased flash. *)
Lemma erase_all_ok s : device_wf (s_info s) (g_flash s) ->
  exists s', erase_loop (Z.to_nat (pi_app_pages (s_info s))) 0 s = Some s'
    /\ device_wf (s_info s') (g_flash s') /\ same_but_flash s s'
    /\ (g_dead s' = false -> 0 < pi_page_size (s_info s) -> g_dead s = false
        /\ g_flash s' = erased (pi_page_size (s_info s) * pi_app_pages (s_info s))).
Proof.
  intros Hwf. pose proof Hwf as [Hps Hap _ _ _ Hreg].
  destruct (erase_loop_ok (Z.to_nat (pi_app_pages (s_info s))) 0 s Hwf) as (s' & He & Hwf' & Hs & Hal); [lia..|].
  exists s'. split_and!; try done. intros Hd Hps0. destruct (Hal Hd Hps0) as [Hd0 Hpg]. split; [done|].
  destruct Hs as (Hi & _). pose proof (dw_region _ _ Hwf') as Hreg'. rewrite Hi in Hreg'.
  apply (pages_ext (pi_page_size (s_info s)) (pi_app_pages (s_info s))); try lia.
  - unfold erased. rewrite len_replicate. nia.
  - intros i Hib. rewrite Hpg by done. rewrite page_of_erased by nia.
    destruct (Z.leb_spec 0 i), (Z.ltb_spec i (0 + Z.of_nat (Z.to_nat (pi_app_pages (s_info s)))));
      try done; lia.
Qed.

(** ** What the protocol promises of a request *)

(** The identity INFO reports, behind the status byte. *)
Definition identity (i : port_info) (valid : bool) : list Z :=
  [UPD_PROTO_VERSION; pi_bl_version i] ++ pi_device_id i
  ++ u16_to_le_bytes (pi_page_size i) ++ u16_to_le_bytes (pi_app_pages i)
  ++ [if valid then 1 else 0].

(** The device in [s] answers [cmd] with [payload] by the response payload
    [rsp] and is left as [s']. What a flash operation leaves in flash is stated
    for a device whose power lasted. *)
Inductive handles (s : Sim) : Z -> list Z -> list Z -> Sim -> Prop :=
| handles_info payload valid :
    (valid = true <-> bootable (g_flash s)) ->
    handles s CMD_INFO payload (ST_OK :: identity (s_info s) valid) s
| handles_erase_refused payload :
    payload <> ERASE_MAGIC -> handles s CMD_ERASE_APP payload [ST_BAD_MAGIC] s
| handles_erase s' :
    same_but_flash s s' ->
    (g_dead s' = false -> 0 < pi_page_size (s_info s) -> g_dead s = false
      /\ g_flash s' = erased (pi_page_size (s_info s) * pi_app_pages (s_info s))) ->
    handles s CMD_ERASE_APP ERASE_MAGIC [ST_OK] (with_erased true s')
| handles_write_not_erased payload :
    s_erased s = false -> handles s CMD_WRITE_PAGE payload [ST_NOT_ERASED] s
| handles_write_length payload :
    len payload <> pi_page_size (s_info s) + 2 ->
    s_erased s = true -> handles s CMD_WRITE_PAGE payload [ST_BAD_FRAME] s
| handles_write_range index page :
    s_erased s = true -> len page = pi_page_size (s_info s) -> is_u16 index ->
    pi_app_pages (s_info s) <= index ->
    handles s CMD_WRITE_PAGE (u16_to_le_bytes index ++ page) [ST_OUT_OF_RANGE] s
| handles_write index page s' :
    s_erased s = true -> len page = pi_page_size (s_info s) -> 0 <= index < pi_app_pages (s_info s) ->
    same_but_flash s s' ->
    (g_dead s' = false -> g_dead s = false
      /\ g_flash s' = write_at (pi_page_size (s_info s)) (g_flash s) index page) ->
    handles s CMD_WRITE_PAGE (u16_to_le_bytes index ++ page) [ST_OK] s'
| handles_verify_length payload :
    len payload <> 8 -> handles s CMD_VERIFY payload [ST_BAD_FRAME] s
| handles_verify n c st :
    is_u32 n -> is_u32 c ->
    st = (if (len (g_flash s) <? FOOTER_LEN) || (len (g_flash s) - FOOTER_LEN <? n) then ST_OUT_OF_RANGE
          else if crc32 (take (Z.to_nat n) (g_flash s)) =? c then ST_OK else ST_BAD_CRC) ->
    handles s CMD_VERIFY (u32_to_le_bytes n ++ u32_to_le_bytes c) [st] s
| handles_boot payload :
    bootable (g_flash s) -> handles s CMD_BOOT payload [ST_OK] (with_boot_pending true s)
| handles_boot_refused payload :
    ~ bootable (g_flash s) -> handles s CMD_BOOT payload [ST_NO_APP] s
| handles_echo payload :
    len payload <= UPD_ECHO_MAX -> handles s CMD_ECHO payload (ST_OK :: payload) s
| handles_echo_refused payload :
    UPD_ECHO_MAX < len payload -> handles s CMD_ECHO payload [ST_BAD_FRAME] s
| handles_unknown cmd payload :
    ~ (CMD_INFO <= cmd <= CMD_ECHO) -> handles s cmd payload [ST_BAD_CMD] s.

Lemma land_ff x : Z.land x 0xFF = x mod 256.
Proof. change 0xFF with (Z.ones 8). by rewrite Z.land_ones by lia. Qed.
Lemma shiftr_8 x : Z.shiftr x 8 = x / 256.
Proof. by rewrite Z.shiftr_div_pow2 by lia. Qed.

Lemma handle_info_ok s : device_wf (s_info s) (g_flash s) ->
  exists valid, handle_info s 252 = Some (ST_OK :: identity (s_info s) valid)
    /\ (valid = true <-> bootable (g_flash s)).
Proof.
  intros Hwf. destruct (app_valid_ok _ _ Hwf) as (b & Hv & Hb). exists b. split; [|done].
  unfold handle_info. change (252 <? 12) with false. rewrite Hv. cbn [mbind option_bind].
  rewrite !land_ff, !shiftr_8. unfold identity, u16_to_le_bytes. done.
Qed.

Lemma le_word_4 a b c d : is_u8 a -> is_u8 b -> is_u8 c -> is_u8 d ->
  le_word 0 [a; b; c; d] = u32_from_le_bytes a b c d.
Proof.
  intros. rewrite <- le_loop_ok by done. cbn [le_word]. rewrite Z.lor_0_l, Z.lor_0_r.
  by rewrite !Z.lor_assoc.
Qed.

Lemma index_word a b : is_u8 a -> is_u8 b ->
  Z.land (Z.lor a (Z.shiftl b 8)) 0xFFFF = u16_from_le_bytes a b.
Proof.
  intros. rewrite lor_shiftl by lia. change 0xFFFF with (Z.ones 16).
  rewrite Z.land_ones by lia. unfold u16_from_le_bytes. rewrite Z.mod_small; lia.
Qed.

Lemma handle_write_ok s payload : device_wf (s_info s) (g_flash s) -> bytes payload ->
  exists rsp s', handle_write s (mkUpdFrame CMD_WRITE_PAGE (len payload) payload) = Some (rsp, s')
    /\ handles s CMD_WRITE_PAGE payload rsp s' /\ device_wf (s_info s') (g_flash s').
Proof.
  intros Hwf Hb. unfold handle_write. cbn [uf_len uf_payload]. pose proof Hwf as [Hps Hap _ _ _ _].
  destruct (s_erased s) eqn:He; cbn [negb].
  2: { eexists _, s. split_and!; [done|by constructor|done]. }
  destruct (Z.eqb_spec (len payload) (pi_page_size (s_info s) + 2)) as [Hl|Hl]; cbn [negb].
  2: { eexists _, s. split_and!; [done|by constructor|done]. }
  destruct payload as [|a [|b page]]; try (rewrite ?len_cons, ?len_nil in Hl; change (len []) with 0 in *; lia).
  rewrite !len_cons in Hl. rewrite !bytes_cons in Hb. destruct Hb as (Ha & Hb & Hpg).
  unfold get_at. change (Z.to_nat 0) with 0%nat. change (Z.to_nat 1) with 1%nat.
  cbn [lookup list_lookup default drop]. unfold id. rewrite drop_0, index_word by done.
  pose proof (u16_from_le_range a b Ha Hb) as Hi.
  change (a :: b :: page) with ([a; b] ++ page). rewrite <- (u16_to_from_le a b) by done.
  set (index := u16_from_le_bytes a b) in *.
  destruct (Z.leb_spec (pi_app_pages (s_info s)) index) as [Hr|Hr].
  { eexists _, s. split_and!; [done| |done]. apply handles_write_range; try done; lia. }
  destruct (port_flash_op_ok index page s Hwf) as (s1 & Hop & Hwf1 & Hs1 & Hal); [lia|done|lia|].
  unfold port_flash_write_page. rewrite Hop. cbn [mbind option_bind].
  eexists _, s1. split_and!; [done| |done]. apply handles_write; try done; lia.
Qed.

Lemma handle_verify_ok s payload : device_wf (s_info s) (g_flash s) -> bytes payload ->
  exists rsp, handle_verify s (mkUpdFrame CMD_VERIFY (len payload) payload) = Some rsp
    /\ handles s CMD_VERIFY payload rsp s.
Proof.
  intros Hwf Hb. unfold handle_verify. cbn [uf_len uf_payload].
  destruct (Z.eqb_spec (len payload) 8) as [Hl|Hl]; cbn [negb].
  2: { eexists. split; [done|by constructor]. }
  destruct payload as [|a0 [|a1 [|a2 [|a3 [|b0 [|b1 [|b2 [|b3 [|]]]]]]]]];
    try (exfalso; unfold len in Hl; cbn [length] in Hl; lia).
  rewrite !bytes_cons in Hb. destruct_and! Hb. cbn [take drop]. rewrite !le_word_4 by done.
  rewrite (region_bytes_ok _ _ Hwf).
  change [a0; a1; a2; a3; b0; b1; b2; b3] with ([a0; a1; a2; a3] ++ [b0; b1; b2; b3]).
  rewrite <- (u32_le_inv a0 a1 a2 a3), <- (u32_le_inv b0 b1 b2 b3) by done.
  set (n := u32_from_le_bytes a0 a1 a2 a3). set (c := u32_from_le_bytes b0 b1 b2 b3).
  assert (is_u32 n /\ is_u32 c) as [Hn Hc] by (subst n c; unfold u32_from_le_bytes; lia).
  change 16 with FOOTER_LEN.
  destruct ((len (g_flash s) <? FOOTER_LEN) || (len (g_flash s) - FOOTER_LEN <? n)) eqn:Hr.
  - eexists. split; [done|]. apply handles_verify; [done..|]. by rewrite Hr.
  - rewrite orb_false_iff, !Z.ltb_ge in Hr. change FOOTER_LEN with 16 in Hr. rewrite flash_crc_ok by lia.
    cbn [mbind option_bind]. eexists. split; [done|]. apply handles_verify; [done..|].
    change FOOTER_LEN with 16. rewrite !(proj2 (Z.ltb_ge _ _)) by lia. done.
Qed.

Lemma handle_erase_ok s payload : device_wf (s_info s) (g_flash s) ->
  exists rsp s', handle_erase s (mkUpdFrame CMD_ERASE_APP (len payload) payload) = Some (rsp, s')
    /\ handles s CMD_ERASE_APP payload rsp s' /\ device_wf (s_info s') (g_flash s').
Proof.
  intros Hwf. unfold handle_erase. cbn [uf_len uf_payload].
  change [0x45; 0x52; 0x41; 0x53] with ERASE_MAGIC. case_bool_decide as Hm; cbn [negb].
  - subst payload. cbn [orb negb]. change (len ERASE_MAGIC =? 4) with true. cbn [negb orb].
    destruct (erase_all_ok s Hwf) as (s' & -> & Hwf' & Hs & Hal). cbn [mbind option_bind].
    eexists _, _. split; [done|]. split; [by constructor|exact Hwf'].
  - rewrite orb_true_r. eexists _, s. split_and!; [done|by constructor|done].
Qed.

Lemma upd_handle_ok s cmd payload : device_wf (s_info s) (g_flash s) -> bytes payload ->
  exists rsp s', upd_handle s (mkUpdFrame cmd (len payload) payload) 252 = Some (rsp, s')
    /\ handles s cmd payload rsp s' /\ device_wf (s_info s') (g_flash s').
Proof.
  intros Hwf Hb. unfold upd_handle. change (252 =? 0) with false. cbn [uf_cmd].
  destruct (Z.eqb_spec cmd CMD_INFO) as [->|H1].
  { destruct (handle_info_ok s Hwf) as (v & -> & Hv). cbn [mbind option_bind].
    eexists _, s. split_and!; [done|by constructor|done]. }
  destruct (Z.eqb_spec cmd CMD_ERASE_APP) as [->|H2]; [by apply handle_erase_ok|].
  destruct (Z.eqb_spec cmd CMD_WRITE_PAGE) as [->|H3]; [by apply handle_write_ok|].
  destruct (Z.eqb_spec cmd CMD_VERIFY) as [->|H4].
  { destruct (handle_verify_ok s payload Hwf Hb) as (rsp & -> & Hh). cbn [mbind option_bind].
    by exists rsp, s. }
  destruct (Z.eqb_spec cmd CMD_BOOT) as [->|H5].
  { destruct (app_valid_ok _ _ Hwf) as (b & -> & Hv). cbn [mbind option_bind]. destruct b.
    - eexists _, _. split; [done|]. split; [constructor; by apply Hv|exact Hwf].
    - eexists _, s. split; [done|]. split; [constructor; intros Hbt; by apply Hv in Hbt|exact Hwf]. }
  destruct (Z.eqb_spec cmd CMD_ECHO) as [->|H6].
  { unfold handle_echo. cbn [uf_len uf_payload]. change UPD_ECHO_MAX with 16.
    destruct (Z.ltb_spec 16 (len payload)); cbn [orb].
    - eexists _, s. split_and!; [done|by constructor|done].
    - rewrite (proj2 (Z.ltb_ge 252 _)) by lia. eexists _, s. split_and!; [done|by constructor|done]. }
  eexists _, s. split_and!; [done| |done]. constructor.
  unfold CMD_INFO, CMD_ERASE_APP, CMD_WRITE_PAGE, CMD_VERIFY, CMD_BOOT, CMD_ECHO in *. lia.
Qed.

(** A response fits a frame and starts with a status. *)
Lemma handles_rsp s cmd payload rsp s' : handles s cmd payload rsp s' ->
  length (pi_device_id (s_info s)) = 4%nat ->
  len rsp <= 17 /\ (exists st rest, rsp = st :: rest).
Proof.
  intros [] Hid; (split; [|by eexists _, _]); try (by vm_compute); try (unfold len; cbn [length]; lia).
  - unfold identity, len. cbn [app length]. rewrite !length_app, Hid. simpl. lia.
  - rewrite len_cons. unfold UPD_ECHO_MAX in *. lia.
Qed.

(** What the handlers keep of the state. *)
Lemma handles_keeps s cmd payload rsp s' : handles s cmd payload rsp s' ->
  s_info s' = s_info s /\ g_jumped s' = g_jumped s
  /\ (cmd <> CMD_BOOT -> s_boot_pending s' = s_boot_pending s)
  /\ (s_boot_pending s' = true -> s_boot_pending s = true \/ bootable (g_flash s') /\ g_dead s' = g_dead s)
  /\ (s_erased s = true -> s_erased s' = true).
Proof.
  intros []; try (by split_and!; auto);
    match goal with Hs : same_but_flash _ _ |- _ => destruct Hs as (? & ? & ? & ?) end;
    cbn [with_erased s_info g_jumped s_boot_pending s_erased g_flash]; split_and!; try done; try congruence;
    intros; left; congruence.
Qed.

Lemma handles_rsp_bytes s cmd payload rsp s' : handles s cmd payload rsp s' ->
  device_wf (s_info s) (g_flash s) -> bytes payload -> bytes rsp.
Proof.
  assert (forall x, is_u8 x -> bytes [x]) as H1 by (intros; by constructor).
  intros [] [? ? _ Hid _ _] Hb; try (apply H1; subst; repeat case_match; by vm_compute).
  - rewrite bytes_cons in Hid. unfold identity. rewrite bytes_cons, !bytes_app, !bytes_cons.
    split_and!; try (by vm_compute); try tauto; auto with ota; by destruct valid.
  - apply bytes_cons. split; [by vm_compute|done].
Qed.

(** Room for 17 bytes of response is as good as any. *)
Lemma upd_handle_cap s req cap : 17 <= cap -> upd_handle s req cap = upd_handle s req 252.
Proof.
  intros Hc. unfold upd_handle, handle_info, handle_echo, UPD_ECHO_MAX. change (252 =? 0) with false. change (252 <? 12) with false.
  rewrite (proj2 (Z.eqb_neq cap 0)), (proj2 (Z.ltb_ge cap 12)) by lia.
  destruct (Z.ltb_spec 16 (uf_len req)); [done|]. by rewrite (proj2 (Z.ltb_ge cap _)), (proj2 (Z.ltb_ge 252 _)) by lia.
Qed.

(** With no power cut armed none happens. *)
Definition uncut (s : Sim) : Prop := g_cut_at s = 0 /\ g_dead s = false.

Lemma port_flash_op_uncut p data s s' : uncut s -> port_flash_op p data s = Some s' -> uncut s'.
Proof.
  intros [Hc Hd]. unfold port_flash_op, op_tears. rewrite Hc, Hd. destruct (_ <=? p); [done|].
  by intros [= <-].
Qed.
Lemma erase_loop_uncut n : forall p s s', uncut s -> erase_loop n p s = Some s' -> uncut s'.
Proof.
  induction n as [|n IH]; intros p s s' Hs; cbn [erase_loop]; [by intros [= <-]|].
  destruct (port_flash_erase_page p s) as [s1|] eqn:He; [|done]. cbn [mbind option_bind].
  apply IH. by eapply port_flash_op_uncut.
Qed.
Lemma upd_handle_uncut s req cap rsp s' : uncut s -> upd_handle s req cap = Some (rsp, s') -> uncut s'.
Proof.
  intros Hs. unfold upd_handle, handle_erase, handle_write, port_flash_write_page.
  repeat (case_match; try done); try (by intros [= _ <-]).
  all: try (destruct (handle_info _ _); [by intros [= _ <-]|done]).
  all: try (destruct (handle_verify _ _); [by intros [= _ <-]|done]).
  all: try (destruct (upd_app_valid _ _) as [[]|]; [by intros [= _ <-]..|done]).
  - destruct (erase_loop _ _ _) as [s1|] eqn:He; [|done]. intros [= _ <-].
    apply erase_loop_uncut in He; [|done]. exact He.
  - destruct (port_flash_op _ _ _) as [s1|] eqn:He; [|done]. intros [= _ <-].
    by eapply port_flash_op_uncut.
Qed.

(** ** The request cycle *)
Definition reply (cmd : Z) (rsp : list Z) : list Z := wire (Z.lor cmd RSP_FLAG) rsp.

(** After a handled request the reply is out; the jump, if a BOOT was accepted,
    follows it. *)
Definition settled (s1 s' : Sim) : Prop :=
  g_flash s' = g_flash s1 /\ s_info s' = s_info s1 /\ s_erased s' = s_erased s1
  /\ g_dead s' = g_dead s1 /\ s_boot_pending s' = false
  /\ (g_jumped s' = true -> g_jumped s1 = true \/ s_boot_pending s1 = true /\ bootable (g_flash s1))
  /\ (s_boot_pending s1 = true -> bootable (g_flash s1) -> g_jumped s' = true)
  /\ (s_boot_pending s1 = false -> s' = s1).

Lemma reply_bytes cmd rsp : is_u8 cmd -> bytes rsp -> len rsp <= 252 -> bytes (reply cmd rsp).
Proof.
  intros Hc Hr Hl. assert (is_u8 (Z.lor cmd RSP_FLAG)) as Hc' by (apply lor_u8; [done|by vm_compute]).
  pose proof (len_nonneg rsp). unfold reply, wire. rewrite !bytes_cons, bytes_app, bytes_cons.
  assert (is_u8 (len rsp)) by lia.
  assert (is_u8 (crc8 (Z.lor cmd RSP_FLAG :: len rsp :: rsp))) by (apply crc8_u8; by rewrite !bytes_cons).
  assert (bytes []) by constructor. tauto.
Qed.
Lemma reply_garbled_bytes frame : bytes frame -> bytes (reply (default 0 (head frame)) [ST_BAD_FRAME]).
Proof.
  intros Hb. apply reply_bytes; [|repeat constructor; by vm_compute|by vm_compute].
  destruct frame; [by vm_compute|]. by apply bytes_cons in Hb as [? _].
Qed.

Lemma sim_request_silent frame s : g_dead s || g_jumped s = true -> sim_request frame s = Some ([], s).
Proof. intros Hd. unfold sim_request. by rewrite Hd. Qed.

Lemma sim_request_wire s cmd payload : sim_ok s -> g_dead s || g_jumped s = false ->
  bytes payload -> len payload <= PAYLOAD_MAX ->
  exists rsp s1 s', upd_handle s (mkUpdFrame cmd (len payload) payload) 252 = Some (rsp, s1)
    /\ handles s cmd payload rsp s1
    /\ sim_request (wire cmd payload) s = Some (if g_dead s1 then [] else reply cmd rsp, s')
    /\ sim_ok s' /\ s_info s' = s_info s
    /\ (if g_dead s1 then s' = s1 else settled s1 s').
Proof.
  intros [Hwf Hidle] Hd Hb Hl. destruct (upd_handle_ok s cmd payload Hwf Hb) as (rsp & s1 & Hh & Hhs & Hwf1).
  pose proof (handles_rsp _ _ _ _ _ Hhs (dw_id _ _ Hwf)) as [Hrl _].
  pose proof (handles_keeps _ _ _ _ _ Hhs) as (Hi & Hj & Hbp & Hbt & _).
  exists rsp, s1. unfold sim_request. rewrite Hd, len_wire. change PAYLOAD_MAX with 252 in Hl.
  rewrite (proj2 (Z.leb_le _ 255)), parse_wire by lia. cbn [uf_cmd]. rewrite Hh. cbn [mbind option_bind].
  rewrite build_wire by (change PAYLOAD_MAX with 252; lia). fold (reply cmd rsp).
  apply orb_false_iff in Hd as [Hd0 Hj0].
  destruct (g_dead s1) eqn:Hdead.
  { exists s1. split_and!; try done. split; [done|]. destruct (s_boot_pending s1) eqn:Hp; [|done].
    destruct (Hbt eq_refl) as [?|[_ ?]]; congruence. }
  destruct (s_boot_pending s1) eqn:Hp.
  2: { exists s1. split_and!; try done. unfold settled. rewrite Hp. split_and!; try done. by left. }
  unfold upd_boot_if_valid. cbn [with_boot_pending s_info g_flash].
  destruct (app_valid_ok _ _ Hwf1) as (b & -> & Hv). cbn [mbind option_bind].
  destruct b; cbn [negb]; eexists; (split; [done|]); (split; [done|]); (split; [done|]);
    (split; [by split|]); (split; [done|]); unfold settled;
    cbn [port_jump_to_app with_boot_pending g_flash s_info s_erased g_dead s_boot_pending g_jumped];
    split_and!; try done.
  - intros _. right. split; [done|by apply Hv].
  - congruence.
  - by left.
  - intros _ Hbo. by apply Hv in Hbo.
  - congruence.
Qed.

(** A request frame other than BOOT, to a device that is there. *)
Lemma sim_request_handles s cmd payload raw s' : sim_ok s -> g_dead s || g_jumped s = false ->
  cmd <> CMD_BOOT -> bytes payload -> len payload <= PAYLOAD_MAX ->
  sim_request (wire cmd payload) s = Some (raw, s') ->
  exists rsp, handles s cmd payload rsp s' /\ raw = (if g_dead s' then [] else reply cmd rsp)
    /\ g_jumped s' = false /\ (uncut s -> uncut s').
Proof.
  intros Hok Hd Hcmd Hb Hl Hr.
  destruct (sim_request_wire s cmd payload) as (rsp & s1 & s2 & Hu & Hh & Hr' & _ & _ & Hset); [done..|].
  rewrite Hr in Hr'. injection Hr' as -> <-. pose proof (handles_keeps _ _ _ _ _ Hh) as (_ & Hj & Hbp & _).
  assert (s' = s1) as ->.
  { destruct (g_dead s1); [done|]. destruct Hset as (_ & _ & _ & _ & _ & _ & _ & Heq). apply Heq.
    rewrite (Hbp Hcmd). apply (so_idle _ Hok). }
  apply orb_false_iff in Hd as [_ Hj0]. exists rsp. split_and!; try done; [congruence|].
  intros Hun. by eapply upd_handle_uncut.
Qed.

(** A BOOT request, to a device that is there. *)
Lemma sim_request_boot s payload : sim_ok s -> g_dead s || g_jumped s = false ->
  len payload <= PAYLOAD_MAX ->
  bootable (g_flash s) /\ sim_request (wire CMD_BOOT payload) s
      = Some (reply CMD_BOOT [ST_OK], port_jump_to_app s)
  \/ ~ bootable (g_flash s) /\ sim_request (wire CMD_BOOT payload) s
      = Some (reply CMD_BOOT [ST_NO_APP], s).
Proof.
  intros [Hwf Hidle] Hd Hl. change PAYLOAD_MAX with 252 in Hl.
  destruct (app_valid_ok _ _ Hwf) as (b & Hv & Hb).
  unfold sim_request. rewrite Hd, len_wire, (proj2 (Z.leb_le _ 255)), parse_wire by lia.
  unfold upd_handle. change (252 =? 0) with false. cbn [uf_cmd]. cbn -[upd_app_valid wire].
  rewrite Hv. cbn [mbind option_bind]. apply orb_false_iff in Hd as [Hd _].
  destruct b; cbn [mbind option_bind with_boot_pending g_dead s_boot_pending].
  - left. split; [by apply Hb|]. rewrite Hd. unfold upd_boot_if_valid.
    cbn [with_boot_pending s_info g_flash]. rewrite Hv. cbn [mbind option_bind negb].
    unfold reply. rewrite <- (build_wire 255 _ [ST_OK]) by (by vm_compute).
    destruct s; cbn in *. by subst.
  - right. split; [intros Hx; by apply Hb in Hx|]. rewrite Hd, Hidle.
    unfold reply. by rewrite <- (build_wire 255 _ [ST_NO_APP]) by (by vm_compute).
Qed.

(** Anything the codec refuses is answered with [ST_BAD_FRAME] and changes
    nothing. *)
Lemma sim_request_garbled frame s : sim_ok s -> g_dead s || g_jumped s = false ->
  (255 < len frame \/ upd_frame_parse frame = None) ->
  sim_request frame s = Some (reply (default 0 (head frame)) [ST_BAD_FRAME], s).
Proof.
  intros [Hwf Hidle] Hd Hp. unfold sim_request. rewrite Hd.
  assert ((if len frame <=? 255 then upd_frame_parse frame else None) = None) as ->.
  { destruct Hp as [Hp|Hp]; [by rewrite (proj2 (Z.leb_gt _ _))|by case_match]. }
  cbn [mbind option_bind]. rewrite build_wire by (by vm_compute). apply orb_false_iff in Hd as [-> _].
  by rewrite Hidle.
Qed.

(** No request makes the device abort, whatever bytes it is, and what comes
    back is bytes. *)
Lemma sim_request_total frame s : sim_ok s -> bytes frame ->
  exists raw s', sim_request frame s = Some (raw, s') /\ bytes raw /\ sim_ok s' /\ s_info s' = s_info s.
Proof.
  intros Hok Hb. destruct (g_dead s || g_jumped s) eqn:Hd.
  { exists [], s. split; [by apply sim_request_silent|]. assert (bytes []) by constructor. by split_and!. }
  destruct (Z.le_gt_cases (len frame) 255) as [Hl|Hl], (upd_frame_parse frame) as [f|] eqn:Hp.
  2-4: eexists _, s; split_and!; [apply sim_request_garbled; auto|by apply reply_garbled_bytes|done|done].
  apply parse_inv in Hp as [-> _]; [|done]. rewrite len_wire in Hl.
  assert (is_u8 (uf_cmd f) /\ bytes (uf_payload f)) as [Hc Hpb].
  { unfold wire in Hb. rewrite !bytes_cons, bytes_app in Hb. tauto. }
  destruct (sim_request_wire s (uf_cmd f) (uf_payload f)) as (rsp & s1 & s' & _ & Hh & Hr & Hok' & Hi & _);
    [done|done|done|change PAYLOAD_MAX with 252; lia|].
  rewrite Hr. eexists _, s'. split_and!; try done. destruct (g_dead s1); [by constructor|].
  pose proof (so_wf _ Hok) as Hwf. pose proof (handles_rsp _ _ _ _ _ Hh (dw_id _ _ Hwf)) as [Hrl _].
  apply reply_bytes; [done|by eapply handles_rsp_bytes|lia].
Qed.

(** ** Everything that can be done to a device *)

(** A request of any bytes, a reboot, a power cut armed. *)
Inductive sim_step (s : Sim) : Sim -> Prop :=
| step_request frame raw s' : bytes frame -> sim_request frame s = Some (raw, s') -> sim_step s s'
| step_reset preserve_flash : sim_step s (sim_reset preserve_flash (s_info s) (g_flash s))
| step_powercut n : sim_step s (sim_powercut_after n s).

(** Between requests: the geometry holds, no boot is left pending, and if the
    application has been entered then it is one. *)
Record sim_inv (s : Sim) : Prop := {
  si_ok : sim_ok s;
  si_gate : g_jumped s = true -> bootable (g_flash s);
}.

Lemma sim_request_gate frame raw s s' : sim_inv s -> bytes frame -> sim_request frame s = Some (raw, s') ->
  sim_inv s' /\ s_info s' = s_info s.
Proof.
  intros [Hok Hg] Hb Hr. destruct (g_dead s || g_jumped s) eqn:Hd.
  { rewrite sim_request_silent in Hr by done. by injection Hr as <- <-. }
  destruct (Z.le_gt_cases (len frame) 255) as [Hl|Hl], (upd_frame_parse frame) as [f|] eqn:Hp.
  2-4: rewrite sim_request_garbled in Hr by auto; by injection Hr as <- <-.
  apply parse_inv in Hp as [-> _]; [|done]. rewrite len_wire in Hl.
  assert (bytes (uf_payload f)) as Hpb by (unfold wire in Hb; rewrite !bytes_cons, bytes_app in Hb; tauto).
  destruct (sim_request_wire s (uf_cmd f) (uf_payload f)) as (rsp & s1 & s2 & _ & Hh & Hr' & Hok' & Hi & Hset);
    [done|done|done|change PAYLOAD_MAX with 252; lia|].
  rewrite Hr' in Hr. injection Hr as _ <-. split; [|done]. split; [done|].
  apply orb_false_iff in Hd as [Hd0 Hj]. pose proof (handles_keeps _ _ _ _ _ Hh) as (_ & Hj1 & _).
  destruct (g_dead s1); [subst s2; congruence|].
  destruct Hset as (-> & _ & _ & _ & _ & Hjump & _). intros [Hx|[_ Hx]]%Hjump; congruence.
Qed.

Lemma sim_step_inv s s' : sim_inv s -> sim_step s s' -> sim_inv s' /\ s_info s' = s_info s.
Proof.
  intros Hinv Hst. pose proof Hinv as [[Hwf Hidle] Hg]. destruct Hst as [frame raw s' Hb Hr|[]|n].
  - by eapply sim_request_gate.
  - by split; [split; [split|]|].
  - split; [split; [split|]|]; try done. cbn [sim_reset g_flash s_info].
    eapply device_wf_flash; [done|by apply bytes_replicate|]. unfold len. by rewrite length_replicate.
  - split; [|done]. split; [split|]; assumption.
Qed.

Lemma sim_steps_inv s s' : rtc sim_step s s' -> sim_inv s -> sim_inv s' /\ s_info s' = s_info s.
Proof.
  induction 1 as [s|s1 s2 s3 Hs _ IH]; [done|]. intros Hinv.
  destruct (sim_step_inv _ _ Hinv Hs) as [Hinv2 <-]. by apply IH.
Qed.

(** ** Properties *)

Section properties.
Context `{PtrWidth}.

(** C22: the device's codec is the host's: on a receive buffer
    [upd_frame_parse] accepts what [decode] accepts and reads the same command
    and payload out of it, and [upd_frame_build] builds what [encode] does. *)
Theorem codecs_agree raw cmd payload out : bytes raw -> len raw <= 255 -> len out = 255 ->
  upd_frame_parse raw =
    match decode raw with
    | Ok f => Some (mkUpdFrame (frame_cmd f) (len (frame_payload f)) (frame_payload f))
    | Err _ => None
    end
  /\ upd_frame_build (len out) cmd payload =
    match encode cmd payload out with (Ok n, out) => take (Z.to_nat n) out | (Err _, _) => [] end.
Proof.
  intros Hb Hl Ho. split.
  - destruct (decode raw) as [f|e] eqn:Hd.
    + apply decode_ok_inv in Hd as [-> _]; [|done]. apply parse_wire.
    + destruct (upd_frame_parse raw) as [f|] eqn:Hp; [|done]. apply parse_inv in Hp as [-> _]; [|done].
      rewrite len_wire in Hl. rewrite decode_wire in Hd; [done|]. change PAYLOAD_MAX with 252. lia.
  - destruct (Z.leb_spec (len payload) PAYLOAD_MAX) as [Hp|Hp].
    + pose proof Hp as Hp'. change PAYLOAD_MAX with 252 in Hp'. rewrite encode_ok, build_wire by (done || lia).
      rewrite take_app_le, take_ge by (rewrite <- len_wire with (cmd := cmd); unfold len; lia).
      done.
    + rewrite encode_correct, (proj2 (Z.ltb_lt _ _)) by done. unfold upd_frame_build.
      change PAYLOAD_MAX with 252 in Hp. change UPD_FRAME_OVERHEAD with 3.
      by rewrite (proj2 (Z.ltb_lt 255 _)) by lia.
Qed.
End properties.

(** C13: [upd_handle] implements the protocol: whatever the command and its
    payload are, it neither aborts nor leaves the region, and its answer and
    the state it leaves are those [handles] allows. *)
Theorem upd_handle_implements s cmd payload : device_wf (s_info s) (g_flash s) -> bytes payload ->
  exists rsp s', upd_handle s (mkUpdFrame cmd (len payload) payload) 252 = Some (rsp, s')
    /\ handles s cmd payload rsp s'
    /\ device_wf (s_info s') (g_flash s') /\ bytes rsp /\ 1 <= len rsp <= 17.
Proof.
  intros Hwf Hb. destruct (upd_handle_ok s cmd payload Hwf Hb) as (rsp & s' & Hh & Hhs & Hwf').
  exists rsp, s'. pose proof (handles_rsp _ _ _ _ _ Hhs (dw_id _ _ Hwf)) as [? (st & rest & ->)].
  pose proof (len_nonneg rest). rewrite len_cons in *. split_and!; try done; [|lia].
  by eapply handles_rsp_bytes.
Qed.

(** The boot gate: a BOOT request is answered [ST_OK] and enters the
    application exactly when the flash holds one, and is answered [ST_NO_APP]
    with nothing changed when it does not. *)
Theorem boot_gated s payload : sim_ok s -> g_dead s || g_jumped s = false ->
  len payload <= PAYLOAD_MAX ->
  bootable (g_flash s) /\ sim_request (wire CMD_BOOT payload) s
      = Some (reply CMD_BOOT [ST_OK], port_jump_to_app s)
  \/ ~ bootable (g_flash s) /\ sim_request (wire CMD_BOOT payload) s
      = Some (reply CMD_BOOT [ST_NO_APP], s).
Proof. apply sim_request_boot. Qed.

(** C12: no sequence of requests, reboots and power cuts makes the device leave
    its app region or abort, and the application is only ever entered over
    flash that holds a valid one. *)
Theorem device_confined info flash s :
  device_wf info flash -> rtc sim_step (sim_reset false info flash) s ->
  s_info s = info /\ len (g_flash s) = pi_page_size info * pi_app_pages info
  /\ (forall frame, bytes frame -> exists raw s', sim_request frame s = Some (raw, s') /\ bytes raw)
  /\ (g_jumped s = true -> bootable (g_flash s)).
Proof.
  intros Hwf Hr. assert (sim_inv (sim_reset false info flash)) as Hinv.
  { split; [split|]; try done. apply (device_wf_flash _ flash); [done|by apply bytes_replicate|].
    cbn [sim_reset g_flash]. unfold len. by rewrite length_replicate. }
  destruct (sim_steps_inv _ _ Hr Hinv) as [[Hok Hg] Hi]. cbn [sim_reset s_info] in Hi.
  pose proof (dw_region _ _ (so_wf _ Hok)) as Hl. rewrite Hi in Hl. split_and!; try done.
  intros frame Hb. destruct (sim_request_total frame s Hok Hb) as (raw & s' & ? & ? & _). by exists raw, s'.
Qed.

(** ** Witnesses *)
Definition sample_port : port_info := mkPortInfo 16 4 [0x53; 0x49; 0x4D; 0x30] 1.
Definition sample_sim : Sim := sim_reset true sample_port (region sample_image).

Lemma sample_bytes_dec l : forallb (fun b => (0 <=? b) && (b <? 256)) l = true -> bytes l.
Proof.
  intros Hf. apply Forall_forall. intros b Hb. rewrite forallb_forall in Hf.
  specialize (Hf b (proj1 (list_elem_of_In _ _) Hb)). lia.
Qed.
Lemma sample_wf : device_wf sample_port (region sample_image).
Proof. split; try lia; try done; by apply sample_bytes_dec. Qed.

Lemma codecs_agree_witness :
  upd_frame_parse [6; 2; 0xAA; 0xBB; 0x10] = Some (mkUpdFrame 6 2 [0xAA; 0xBB]).
Proof.
  destruct (codecs_agree (H:=ptr64) [6; 2; 0xAA; 0xBB; 0x10] 6 [] (replicate 255 0)) as [H _];
    [by apply sample_bytes_dec|by vm_compute|by vm_compute|exact H].
Defined.

Lemma upd_handle_implements_witness :
  exists rsp s', upd_handle sample_sim (mkUpdFrame CMD_INFO 0 []) 252 = Some (rsp, s') /\ len rsp = 12.
Proof.
  destruct (upd_handle_implements sample_sim CMD_INFO [] sample_wf ltac:(constructor))
    as (rsp & s' & H & _). exists rsp, s'. split; [exact H|]. revert H. vm_compute. by intros [= <- <-].
Defined.

Lemma boot_gated_witness :
  sim_request (wire CMD_BOOT []) sample_sim = Some (reply CMD_BOOT [ST_OK], port_jump_to_app sample_sim).
Proof.
  destruct (boot_gated sample_sim []) as [[_ H]|[_ H]];
    [split; [exact sample_wf|reflexivity]|reflexivity|by vm_compute|exact H|].
  exfalso. revert H. vm_compute. congruence.
Defined.

Lemma device_confined_witness : len (g_flash (sim_powercut_after 3 (sim_reset false sample_port (region sample_image)))) = 64.
Proof.
  destruct (device_confined sample_port (region sample_image)
    (sim_powercut_after 3 (sim_reset false sample_port (region sample_image))) sample_wf) as (_ & H & _);
    [apply rtc_once, step_powercut|exact H].
Defined.
