(* ===== verification/Rp2350.v ===== *)
(** The flash of the RP2350 port ([device/ports/rp2350_uart/flash.c]): protocol
    pages half as long as the chip programs and a 32nd of what it erases, so
    that an even page is held back until its partner comes. The chip's flash
    routines are a parameter with the behaviour of NOR flash. Seen through the
    port's reads, and used as the protocol uses it, it is a plain array of
    bytes like the simulated port's ([conformance/sim/sim_port.c]), in whatever
    order pages are written. *)
From S2P Require Import Prelude Device.

Definition UPDATER_APP_FLASH_OFFSET : Z := 0x10000.
Definition UPDATER_PAGE_SIZE : Z := 128.
Definition UPDATER_APP_PAGES : Z := 8192.
Definition FLASH_PAGE_SIZE : Z := 256.
Definition FLASH_SECTOR_SIZE : Z := 4096.
Definition PAGES_PER_SECTOR : Z := FLASH_SECTOR_SIZE / UPDATER_PAGE_SIZE.

(** [hardware_flash] of the pico-sdk, and reading through the XIP window; all by
    offset from the start of flash. *)
Class NorFlash (W : Type) := {
  flash_range_erase : Z -> Z -> W -> W;
  flash_range_program : Z -> list Z -> W -> W;
  xip_read : Z -> W -> Z;
}.

(** Erasing sets the bytes of whole sectors, programming clears bits of whole
    flash pages, and nothing else changes. *)
Class NorLaws {W} (nor : NorFlash W) : Prop := {
  nor_byte a w : is_u8 (xip_read a w);
  nor_erase offs count a w : offs mod FLASH_SECTOR_SIZE = 0 -> count mod FLASH_SECTOR_SIZE = 0 ->
    xip_read a (flash_range_erase offs count w)
      = if (offs <=? a) && (a <? offs + count) then 0xFF else xip_read a w;
  nor_program offs bs a w : offs mod FLASH_PAGE_SIZE = 0 -> len bs mod FLASH_PAGE_SIZE = 0 -> bytes bs ->
    xip_read a (flash_range_program offs bs w)
      = if (offs <=? a) && (a <? offs + len bs) then Z.land (xip_read a w) (bs !!! Z.to_nat (a - offs)) else xip_read a w;
}.

(** The port's static variables, over the flash. *)
Record Rp (W : Type) := mkRp { rp_flash : W; hold : list Z; hold_page : Z; hold_valid : bool }.
Arguments mkRp {W} rp_flash hold hold_page hold_valid.
Arguments rp_flash {W} r.
Arguments hold {W} r.
Arguments hold_page {W} r.
Arguments hold_valid {W} r.

Module Rp2350.
Section port.
Context `{NorFlash W}.
Implicit Types st : Rp W.

Definition prog_flash_page (even_page : Z) (lo hi : option (list Z)) (w : W) : W :=
  let fill := replicate (Z.to_nat UPDATER_PAGE_SIZE) 0xFF in
  let unit := default fill lo ++ default fill hi in
  flash_range_program ((UPDATER_APP_FLASH_OFFSET + even_page * UPDATER_PAGE_SIZE) mod 2 ^ 32) unit w.

Definition hold_flush st : Rp W :=
  if negb (hold_valid st) then st
  else mkRp (prog_flash_page (hold_page st) (Some (hold st)) None (rp_flash st)) (hold st) (hold_page st) false.

Definition port_flash_erase_page (page : Z) st : Rp W :=
  let st := mkRp (rp_flash st) (hold st) (hold_page st) false in
  if negb (page mod PAGES_PER_SECTOR =? 0) then st
  else mkRp (flash_range_erase ((UPDATER_APP_FLASH_OFFSET + page * UPDATER_PAGE_SIZE) mod 2 ^ 32) FLASH_SECTOR_SIZE (rp_flash st))
         (hold st) (hold_page st) (hold_valid st).

(** [data] is a protocol page. *)
Definition port_flash_write_page (page : Z) (data : list Z) st : Rp W :=
  if hold_valid st && (page =? hold_page st) then mkRp (rp_flash st) data (hold_page st) (hold_valid st) else
  if hold_valid st && (page =? (hold_page st + 1) mod 2 ^ 16) then
    mkRp (prog_flash_page (hold_page st) (Some (hold st)) (Some data) (rp_flash st)) (hold st) (hold_page st) false
  else
  let st := hold_flush st in
  if Z.land page 1 =? 0 then mkRp (rp_flash st) data page true
  else mkRp (prog_flash_page ((page - 1) mod 2 ^ 16) None (Some data) (rp_flash st)) (hold st) (hold_page st) (hold_valid st).

Definition port_flash_read_byte (offset : Z) st : Z * Rp W :=
  let st := hold_flush st in
  (xip_read (UPDATER_APP_FLASH_OFFSET + offset) (rp_flash st), st).
End port.

(** ** What a read shows *)
Section content.
Context `{nor : NorFlash W} {laws : NorLaws nor}.
Implicit Types st : Rp W.

Definition app_byte (a : Z) (w : W) : Z := xip_read (UPDATER_APP_FLASH_OFFSET + a) w.
Definition held (st : Rp W) (a : Z) : Z :=
  if hold_valid st && (a / UPDATER_PAGE_SIZE =? hold_page st) then hold st !!! Z.to_nat (a mod UPDATER_PAGE_SIZE) else 0xFF.
Definition content st (a : Z) : Z := Z.land (app_byte a (rp_flash st)) (held st a).

Definition is_page (data : list Z) : Prop := bytes data /\ len data = UPDATER_PAGE_SIZE.
Record rp_inv st : Prop := {
  ri_hold : is_page (hold st);
  ri_page : hold_valid st = true -> 0 <= hold_page st < UPDATER_APP_PAGES /\ Z.even (hold_page st) = true;
}.

Definition in_region (a : Z) : Prop := 0 <= a < UPDATER_APP_PAGES * UPDATER_PAGE_SIZE.

Lemma page_byte data i : is_page data -> is_u8 (data !!! Z.to_nat (i mod UPDATER_PAGE_SIZE)).
Proof.
  intros [Hb Hl]. unfold UPDATER_PAGE_SIZE in *. pose proof (Z.mod_pos_bound i 128 ltac:(lia)).
  destruct (lookup_lt_is_Some_2 data (Z.to_nat (i mod 128))) as [b Hi]; [unfold len in Hl; lia|].
  rewrite (list_lookup_total_correct _ _ _ Hi). by eapply bytes_lookup.
Qed.

(** The byte a half of a flash page is programmed with. *)
Definition half (o : option (list Z)) (a : Z) : Z :=
  match o with Some data => data !!! Z.to_nat (a mod UPDATER_PAGE_SIZE) | None => 0xFF end.

Lemma prog_flash_page_spec e lo hi w a : 0 <= e < UPDATER_APP_PAGES -> Z.even e = true -> in_region a ->
  (forall data, lo = Some data \/ hi = Some data -> is_page data) ->
  app_byte a (prog_flash_page e lo hi w)
    = Z.land (app_byte a w)
        (if a / UPDATER_PAGE_SIZE =? e then half lo a else if a / UPDATER_PAGE_SIZE =? e + 1 then half hi a else 0xFF).
Proof.
  intros He Heven Ha Hpage. unfold in_region, UPDATER_APP_PAGES, UPDATER_PAGE_SIZE in *.
  apply Z.even_spec in Heven as [k ->]. unfold prog_flash_page, app_byte, UPDATER_APP_FLASH_OFFSET, UPDATER_PAGE_SIZE.
  rewrite Z.mod_small by lia. set (fill := replicate (Z.to_nat 128) 0xFF).
  assert (is_page fill) as Hfill.
  { split; [apply bytes_replicate; lia|]. unfold fill. rewrite len_replicate. by unfold UPDATER_PAGE_SIZE. }
  assert (forall o, (forall data, o = Some data -> is_page data) -> is_page (default fill o)
    /\ forall b, half o b = default fill o !!! Z.to_nat (b mod 128)) as Hdef.
  { intros [data|] Ho; cbn [default half]; [split; [by apply Ho|done]|]. split; [done|]. intros b.
    pose proof (Z.mod_pos_bound b 128 ltac:(lia)). unfold fill. rewrite lookup_total_replicate_2; [done|lia]. }
  destruct (Hdef lo) as [[Hbl Hll] Hhl]; [by auto|]. destruct (Hdef hi) as [[Hbh Hlh] Hhh]; [by auto|].
  unfold UPDATER_PAGE_SIZE in *.
  rewrite nor_program; [|unfold FLASH_PAGE_SIZE..|by apply bytes_app].
  2: { rewrite Z.add_mod, (Z.mul_comm (2 * k)), (Z.mul_assoc 128), Z.mul_comm, Z_mod_mult by lia. done. }
  2: { rewrite len_app, Hll, Hlh. done. }
  rewrite len_app, Hll, Hlh, Hhl, Hhh.
  pose proof (Z.div_mod a 128 ltac:(lia)) as Hdm. pose proof (Z.mod_pos_bound a 128 ltac:(lia)) as Hmb.
  set (q := a / 128) in *. set (r := a mod 128) in *. clearbody q r. subst a.
  destruct (Z.eqb_spec q (2 * k)) as [->|Hne].
  - rewrite (proj2 (Z.leb_le _ _)), (proj2 (Z.ltb_lt _ _)) by lia. cbn [andb]. f_equal.
    rewrite lookup_total_app_l by (unfold len in Hll; lia). f_equal. lia.
  - destruct (Z.eqb_spec q (2 * k + 1)) as [->|Hne'].
    + rewrite (proj2 (Z.leb_le _ _)), (proj2 (Z.ltb_lt _ _)) by lia. cbn [andb]. f_equal.
      rewrite lookup_total_app_r by (unfold len in Hll; lia). f_equal. unfold len in Hll. lia.
    + rewrite land_255 by apply nor_byte. destruct (Z.leb_spec (65536 + 2 * k * 128) (65536 + (128 * q + r))); [|done].
      rewrite (proj2 (Z.ltb_ge _ _)) by lia. done.
Qed.

Lemma held_byte st a : rp_inv st -> is_u8 (held st a).
Proof. intros [Hh _]. unfold held. case_match; [by apply page_byte|]. by vm_compute. Qed.
Lemma app_u8 a w : is_u8 (app_byte a w).
Proof. apply nor_byte. Qed.

Lemma flush_spec st : rp_inv st ->
  rp_inv (hold_flush st) /\ hold_valid (hold_flush st) = false
  /\ forall a, in_region a -> content (hold_flush st) a = content st a.
Proof.
  intros Hst. pose proof Hst as [Hh Hp]. unfold hold_flush, content, held. destruct (hold_valid st) eqn:Hv; cbn [negb].
  2: { split_and!; try done. by rewrite Hv. }
  destruct (Hp eq_refl) as [Hpg Hev]. split_and!; [by split|done|]. intros a Ha. cbn [rp_flash hold_valid andb hold hold_page].
  rewrite prog_flash_page_spec by (done || (intros ? [[= <-]|]; done)). rewrite land_255 by (apply land_u8; apply app_u8).
  f_equal. by repeat case_match.
Qed.

(** Nothing held. *)
Lemma content_flash w h p a : content (mkRp w h p false) a = app_byte a w.
Proof. unfold content, held. cbn [hold_valid andb rp_flash]. apply land_255, app_u8. Qed.

Lemma even_land p : (Z.land p 1 =? 0) = Z.even p.
Proof. change 1 with (Z.ones 1). rewrite Z.land_ones by lia. change (2 ^ 1) with 2. rewrite Zmod_even. by destruct (Z.even p). Qed.

(** A page onto a flash with nothing held. *)
Lemma write_unheld w h p page data a : 0 <= page < UPDATER_APP_PAGES -> is_page data -> in_region a ->
  let st' := if Z.land page 1 =? 0 then mkRp w data page true
             else mkRp (prog_flash_page ((page - 1) mod 2 ^ 16) None (Some data) w) h p false in
  content st' a = Z.land (app_byte a w)
    (if a / UPDATER_PAGE_SIZE =? page then data !!! Z.to_nat (a mod UPDATER_PAGE_SIZE) else 0xFF).
Proof.
  intros Hpg Hd Ha st'. subst st'. rewrite even_land. destruct (Z.even page) eqn:Hev.
  - unfold content, held. cbn [hold_valid andb rp_flash hold hold_page]. done.
  - change UPDATER_APP_PAGES with 8192 in Hpg.
    assert (1 <= page) by (destruct (decide (page = 0)) as [->|]; [done|lia]).
    rewrite content_flash, Z.mod_small, prog_flash_page_spec; [|change UPDATER_APP_PAGES with 8192; lia| |done| |lia].
    + rewrite Z.sub_add. cbn [half]. f_equal. destruct (Z.eqb_spec (a / UPDATER_PAGE_SIZE) (page - 1)) as [->|]; [|done].
      by rewrite (proj2 (Z.eqb_neq _ _)) by lia.
    + rewrite Z.even_sub, Hev. done.
    + by intros ? [|[= <-]].
Qed.

(** A write changes its page only, and there to what was written, where the
    page was erased or already held that. *)
Definition wrote (page : Z) (data : list Z) st st' : Prop := forall a, in_region a ->
  (a / UPDATER_PAGE_SIZE <> page -> content st' a = content st a)
  /\ (a / UPDATER_PAGE_SIZE = page -> let b := data !!! Z.to_nat (a mod UPDATER_PAGE_SIZE) in
      content st a = 0xFF \/ content st a = b -> content st' a = b).

Lemma write_spec st page data : rp_inv st -> 0 <= page < UPDATER_APP_PAGES -> is_page data ->
  let st' := port_flash_write_page page data st in rp_inv st' /\ wrote page data st st'.
Proof.
  intros Hst Hpg Hd st'. pose proof Hst as [Hh Hp]. subst st'. unfold port_flash_write_page.
  destruct (hold_valid st && (page =? hold_page st)) eqn:H1.
  { apply andb_true_iff in H1 as [Hv ->%Z.eqb_eq]. split; [by split|]. intros a Ha. unfold content, held.
    cbn [rp_flash hold_valid hold hold_page]. rewrite Hv. cbn [andb]. split; intros Hq.
    - by rewrite (proj2 (Z.eqb_neq _ _)).
    - rewrite Hq, Z.eqb_refl. apply reprogram; [apply app_u8|by apply page_byte..]. }
  destruct (hold_valid st && (page =? (hold_page st + 1) mod 2 ^ 16)) eqn:H2.
  { apply andb_true_iff in H2 as [Hv Hq%Z.eqb_eq]. destruct (Hp Hv) as [Hhp Hev]. change UPDATER_APP_PAGES with 8192 in *.
    rewrite Z.mod_small in Hq by lia. subst page. split; [by split|]. intros a Ha. rewrite content_flash.
    rewrite prog_flash_page_spec by (done || (intros ? [[= <-]|[= <-]]; done)). cbn [half]. unfold content, held. rewrite Hv. cbn [andb].
    destruct (Z.eqb_spec (a / UPDATER_PAGE_SIZE) (hold_page st)) as [Hq|Hq]; (split; [intros Hne|intros Heq]).
    - done.
    - lia.
    - by rewrite (proj2 (Z.eqb_neq _ _)).
    - rewrite Heq, Z.eqb_refl. apply reprogram; [apply app_u8|by vm_compute|by apply page_byte]. }
  destruct (flush_spec st Hst) as (Hst1 & Hv1 & Hc1). set (st1 := hold_flush st) in *.
  destruct st1 as [w h p v]. cbn [hold_valid] in Hv1. subst v. cbn [rp_flash hold hold_page hold_valid].
  pose proof (fun a Ha => write_unheld w h p page data a Hpg Hd Ha) as Hw. cbv zeta in Hw.
  set (st' := if Z.land page 1 =? 0 then _ else _) in *. split.
  { subst st'. rewrite even_land. destruct (Z.even page) eqn:Hev; [by split|]. split; [by destruct Hst1|done]. }
  intros a Ha. rewrite (Hw a Ha), <- (Hc1 a Ha), content_flash. split; intros Hq.
  - rewrite (proj2 (Z.eqb_neq _ _)) by done. apply land_255, app_u8.
  - rewrite Hq, Z.eqb_refl. cbv zeta. intros Hor. apply (reprogram _ 0xFF); [apply app_u8|by vm_compute|by apply page_byte|].
    by rewrite land_255 by apply app_u8.
Qed.

(** ERASE_APP calls the erase for every page, in order. *)
Fixpoint erase_pages (n : nat) (page : Z) st : Rp W :=
  match n with O => st | S n => erase_pages n (page + 1) (port_flash_erase_page page st) end.

Lemma erase_page_spec st page : 0 <= page < UPDATER_APP_PAGES ->
  let st' := port_flash_erase_page page st in
  hold_valid st' = false /\ hold st' = hold st
  /\ forall a, in_region a -> content st' a
      = if (page mod PAGES_PER_SECTOR =? 0) && (page * UPDATER_PAGE_SIZE <=? a)
           && (a <? page * UPDATER_PAGE_SIZE + FLASH_SECTOR_SIZE)
        then 0xFF else app_byte a (rp_flash st).
Proof.
  intros Hpg st'. subst st'. unfold port_flash_erase_page. destruct (page mod PAGES_PER_SECTOR =? 0) eqn:Hs; cbn [negb andb hold hold_valid].
  2: { split_and!; [done..|]. intros a Ha. apply content_flash. }
  split_and!; [done..|]. intros a Ha. cbn [rp_flash hold_page]. rewrite content_flash. apply Z.eqb_eq in Hs.
  change PAGES_PER_SECTOR with 32 in Hs. unfold app_byte. change UPDATER_APP_PAGES with 8192 in Hpg.
  unfold UPDATER_PAGE_SIZE, UPDATER_APP_FLASH_OFFSET, in_region in *. rewrite Z.mod_small by lia.
  rewrite nor_erase; [|unfold FLASH_SECTOR_SIZE; pose proof (Z.div_mod page 32 ltac:(lia)) as Hd|done].
  - destruct (Z.leb_spec (page * 128) a), (Z.ltb_spec a (page * 128 + FLASH_SECTOR_SIZE)); cbn [andb];
      repeat (first [rewrite (proj2 (Z.leb_le _ _)) by lia|rewrite (proj2 (Z.ltb_lt _ _)) by lia
                    |rewrite (proj2 (Z.leb_gt _ _)) by lia|rewrite (proj2 (Z.ltb_ge _ _)) by lia]); done.
  - replace (65536 + page * 128) with ((16 + page / 32) * 4096) by lia. by apply Z_mod_mult.
Qed.

Lemma erase_pages_spec n : forall page st, 0 <= page -> page + Z.of_nat n = UPDATER_APP_PAGES -> is_page (hold st) ->
  (n = 0%nat -> hold_valid st = false) ->
  (forall a, in_region a -> a < (page + 31) / 32 * FLASH_SECTOR_SIZE -> app_byte a (rp_flash st) = 0xFF) ->
  let st' := erase_pages n page st in rp_inv st' /\ forall a, in_region a -> content st' a = 0xFF.
Proof.
  induction n as [|n IH]; intros page st Hpg Hn Hh Hv Her; cbn [erase_pages].
  - specialize (Hv eq_refl). split; [split; [done|by rewrite Hv]|]. intros a Ha.
    destruct st as [w h p v]; cbn [hold_valid rp_flash] in *. subst v. rewrite content_flash. apply Her; [done|].
    assert (page = 8192) as -> by (change UPDATER_APP_PAGES with 8192 in Hn; lia).
    unfold in_region in Ha. change (UPDATER_APP_PAGES * UPDATER_PAGE_SIZE) with ((8192 + 31) / 32 * FLASH_SECTOR_SIZE) in Ha. lia.
  - destruct (erase_page_spec st page ltac:(lia)) as (Hv1 & Hh1 & Hc1). set (st1 := port_flash_erase_page page st) in *.
    apply IH; [lia|lia|by rewrite Hh1|done|]. intros a Ha Hlt. specialize (Hc1 a Ha).
    destruct st1 as [w h p v]; cbn [hold_valid rp_flash] in *. subst v. rewrite content_flash in Hc1. rewrite Hc1.
    destruct ((_ && _) && _) eqn:Hin; [done|]. apply Her; [done|]. change PAGES_PER_SECTOR with 32 in Hin.
    unfold UPDATER_PAGE_SIZE, FLASH_SECTOR_SIZE in *. pose proof (Z.div_mod page 32 ltac:(lia)) as Hd.
    pose proof (Z.mod_pos_bound page 32 ltac:(lia)). set (q := page / 32) in *. set (r := page mod 32) in *. clearbody q r.
    assert ((page + 1 + 31) / 32 = q + 1) as Hq1 by (symmetry; apply (Z.div_unique _ _ _ r); lia).
    rewrite Hq1 in Hlt. destruct (Z.eqb_spec r 0) as [Hr|Hr]; cbn [andb] in Hin.
    + assert ((page + 31) / 32 = q) as -> by (symmetry; apply (Z.div_unique _ _ _ 31); lia). lia.
    + assert ((page + 31) / 32 = q + 1) as -> by (symmetry; apply (Z.div_unique _ _ _ (r - 1)); lia). lia.
Qed.

Lemma read_spec st off : rp_inv st -> in_region off ->
  let '(b, st') := port_flash_read_byte off st in
  b = content st off /\ rp_inv st' /\ forall a, in_region a -> content st' a = content st a.
Proof.
  intros Hst Hoff. destruct (flush_spec st Hst) as (Hst1 & Hv & Hc). unfold port_flash_read_byte.
  split_and!; [|done|done]. rewrite <- (Hc off Hoff). destruct (hold_flush st) as [w h p v]. cbn [hold_valid] in Hv. subst v.
  by rewrite content_flash.
Qed.

(** ** What the protocol does with the flash *)
Inductive flash_op :=
| EraseApp
| WritePage (page : Z) (data : list Z)
| ReadByte (off : Z).

Definition port_op (op : flash_op) st : option Z * Rp W :=
  match op with
  | EraseApp => (None, erase_pages (Z.to_nat UPDATER_APP_PAGES) 0 st)
  | WritePage page data => (None, port_flash_write_page page data st)
  | ReadByte off => let '(b, st) := port_flash_read_byte off st in (Some b, st)
  end.

(** The same on an array of bytes, where writing overwrites. *)
Definition array_op (op : flash_op) (m : Z -> Z) : option Z * (Z -> Z) :=
  match op with
  | EraseApp => (None, fun _ => 0xFF)
  | WritePage page data =>
      (None, fun a => if a / UPDATER_PAGE_SIZE =? page then data !!! Z.to_nat (a mod UPDATER_PAGE_SIZE) else m a)
  | ReadByte off => (Some (m off), m)
  end.

Fixpoint run_ops {M} (step : flash_op -> M -> option Z * M) (ops : list flash_op) (m : M) : list Z * M :=
  match ops with
  | [] => ([], m)
  | op :: ops => let '(b, m) := step op m in let '(bs, m) := run_ops step ops m in (option_list b ++ bs, m)
  end.

(** A page is written where it is erased, or again with what is there; pages and
    offsets are in range. *)
Definition allowed (op : flash_op) (m : Z -> Z) : Prop :=
  match op with
  | EraseApp => True
  | WritePage page data => 0 <= page < UPDATER_APP_PAGES /\ is_page data
      /\ forall a, in_region a -> a / UPDATER_PAGE_SIZE = page ->
           m a = 0xFF \/ m a = data !!! Z.to_nat (a mod UPDATER_PAGE_SIZE)
  | ReadByte off => in_region off
  end.
Fixpoint all_allowed (ops : list flash_op) (m : Z -> Z) : Prop :=
  match ops with
  | [] => True
  | op :: ops => allowed op m /\ all_allowed ops (snd (array_op op m))
  end.

Definition shows st (m : Z -> Z) : Prop := rp_inv st /\ forall a, in_region a -> content st a = m a.

Lemma port_op_spec op st m : shows st m -> allowed op m ->
  fst (port_op op st) = fst (array_op op m) /\ shows (snd (port_op op st)) (snd (array_op op m)).
Proof.
  intros [Hst Hc] Hop. destruct op as [|page data|off]; cbn [port_op array_op fst snd allowed] in *.
  - split; [done|]. apply erase_pages_spec; [lia|by vm_compute|apply Hst|by vm_compute|].
    intros a Ha Hlt. unfold in_region in Ha. change ((0 + 31) / 32) with 0 in Hlt. lia.
  - destruct Hop as (Hpg & Hd & Hw). destruct (write_spec st page data Hst Hpg Hd) as [Hst' Hwr]. split; [done|]. split; [done|].
    intros a Ha. destruct (Hwr a Ha) as [Hne Heq]. destruct (Z.eqb_spec (a / UPDATER_PAGE_SIZE) page) as [Hq|Hq].
    + apply Heq; [done|]. rewrite (Hc a Ha). by apply Hw.
    + by rewrite (Hne Hq), (Hc a Ha).
  - pose proof (read_spec st off Hst Hop) as Hr. destruct (port_flash_read_byte off st) as [b st']. destruct Hr as (-> & Hst' & Hc').
    cbn [fst snd]. split; [by rewrite Hc|]. split; [done|]. intros a Ha. by rewrite Hc', Hc.
Qed.

(** C33: the RP2350 port's flash is a plain array of bytes. Whatever the order of
    erases, page writes and reads, as long as a page is written only where it is erased or
    again with the same bytes (a repeated request), every read shows what an
    array of bytes would: pages held back are seen, their partners are not
    disturbed, and the one call in 32 that erases erases everything. *)
Theorem rp2350_flash_is_array ops : forall st m, shows st m -> all_allowed ops m ->
  fst (run_ops port_op ops st) = fst (run_ops array_op ops m)
  /\ shows (snd (run_ops port_op ops st)) (snd (run_ops array_op ops m)).
Proof.
  induction ops as [|op ops IH]; intros st m Hs Hall; cbn [run_ops all_allowed] in *; [done|].
  destruct Hall as [Hop Hall]. destruct (port_op_spec op st m Hs Hop) as [Hb Hs'].
  destruct (port_op op st) as [b st'], (array_op op m) as [b' m']. cbn [fst snd] in *. subst b'.
  destruct (IH st' m' Hs' Hall) as [Hbs Hs'']. destruct (run_ops port_op ops st'), (run_ops array_op ops m').
  cbn [fst snd] in *. by subst.
Qed.
End content.

(** ** A chip *)
#[local] Instance chip : NorFlash (Z -> Z) := {|
  flash_range_erase offs count w := fun a => if (offs <=? a) && (a <? offs + count) then 0xFF else w a;
  flash_range_program offs bs w := fun a =>
    if (offs <=? a) && (a <? offs + len bs) then Z.land (w a mod 256) (bs !!! Z.to_nat (a - offs)) else w a;
  xip_read a w := w a mod 256;
|}.
#[local] Instance chip_laws : NorLaws chip.
Proof.
  split; cbn [xip_read flash_range_erase flash_range_program chip].
  - intros a w. apply Z.mod_pos_bound. lia.
  - intros offs count a w _ _. by case_match.
  - intros offs bs a w _ _ Hb. case_match; [|done]. apply Z.mod_small. apply land_u8, Z.mod_pos_bound. lia.
Qed.

(** Out of order, with a page on its own, a repeat of a page that is held and
    one of a page that is not, and reads in between. *)
Definition page_of (b : Z) : list Z := replicate (Z.to_nat UPDATER_PAGE_SIZE) b.
Definition some_ops (a b c d : list Z) : list flash_op :=
  [EraseApp; WritePage 2 a; WritePage 2 a; WritePage 5 b; ReadByte 256;
   WritePage 4 c; WritePage 3 d; ReadByte 640; WritePage 5 b; ReadByte 512; ReadByte 384; ReadByte 0].
Lemma some_ops_allowed a b c d m : is_page a -> is_page b -> is_page c -> is_page d -> all_allowed (some_ops a b c d) m.
Proof.
  intros. cbn [some_ops all_allowed allowed array_op snd].
  repeat match goal with |- _ /\ _ => split end; try done; intros x _ Hx; rewrite ?Hx; cbn; auto.
Qed.

Lemma rp2350_flash_is_array_witness :
  fst (run_ops port_op (some_ops (page_of 7) (page_of 9) (page_of 1) (page_of 3)) (mkRp (fun _ => 0x5A) (page_of 0) 0 false))
    = [7; 9; 1; 3; 0xFF].
Proof.
  assert (forall b, is_u8 b -> is_page (page_of b)) as Hpage.
  { intros b Hb. split; [by apply bytes_replicate|]. unfold page_of. by rewrite len_replicate. }
  destruct (rp2350_flash_is_array (some_ops (page_of 7) (page_of 9) (page_of 1) (page_of 3))
    (mkRp (fun _ => 0x5A) (page_of 0) 0 false) (fun _ => 0x5A)) as [Hr _].
  - split; [split; [by apply Hpage|done]|reflexivity].
  - apply some_ops_allowed; by apply Hpage.
  - rewrite Hr. vm_compute. reflexivity.
Defined.
End Rp2350.
