(* ===== verification/AvrFlash.v ===== *)
(** The flash of the AVR ports ([device/ports/avr_ea_common/flash.c]), behind the
    registers of its controller and a window of 32 KiB that is moved over it.
    The controller is what the comments in that file say of it: a store into the
    window goes to a page buffer, a command moves the buffer into flash or erases
    a page and takes a while, and a command on top of another one collides. Used
    as the protocol uses it, the flash is the simulated port's. *)
From S2P Require Import Prelude Device.

Module AvrFlash.

(** ** The controller *)
Definition PROGMEM_PAGE_SIZE : Z := 128.
Definition MAPPED_PROGMEM_START : Z := 0x8000.
Definition MAPPED_PROGMEM_SIZE : Z := 0x8000.
Definition NVMCTRL_FLMAP_gm : Z := 0x30.
Definition NVMCTRL_FLMAP_gp : Z := 4.

Inductive command := NOCMD | FLPW | FLPER.

(** The 64 KiB of flash; the page buffer and the page that was stored to last;
    [CTRLB]; the command in [CTRLA]; the moments until [FLBUSY] falls; and
    whether a command has ever collided. *)
Record Nvm := mkNvm {
  flash : Z -> Z;
  buffer : Z -> Z;
  buf_page : Z;
  ctrlb : Z;
  ctrla : command;
  busy : nat;
  collided : bool;
}.

Section controller.
Context (op_time : nat).

Definition blank : Z -> Z := fun _ => 0xFF.
Definition commanded (c : command) (f : Z -> Z) (w : Nvm) : Nvm :=
  mkNvm f blank (buf_page w) (ctrlb w) c op_time (collided w).
Definition write_ctrla (c : command) (w : Nvm) : Nvm :=
  match c, ctrla w, busy w with
  | NOCMD, _, O => mkNvm (flash w) (buffer w) (buf_page w) (ctrlb w) NOCMD O (collided w)
  | FLPER, NOCMD, O => commanded FLPER (fun a => if a / PROGMEM_PAGE_SIZE =? buf_page w then 0xFF else flash w a) w
  | FLPW, NOCMD, O => commanded FLPW (fun a => if a / PROGMEM_PAGE_SIZE =? buf_page w
                        then Z.land (flash w a) (buffer w (a mod PROGMEM_PAGE_SIZE)) else flash w a) w
  | _, _, _ => mkNvm (flash w) (buffer w) (buf_page w) (ctrlb w) (ctrla w) (busy w) true
  end.
Definition read_busy (w : Nvm) : bool * Nvm :=
  match busy w with
  | O => (false, w)
  | S n => (true, mkNvm (flash w) (buffer w) (buf_page w) (ctrlb w) (ctrla w) n (collided w))
  end.
Definition write_ctrlb (b : Z) (w : Nvm) : Nvm :=
  mkNvm (flash w) (buffer w) (buf_page w) b (ctrla w) (busy w) (collided w).

(** Where in flash a byte of the window is: 64 KiB are two sections of 32. *)
Definition mapped (ptr : Z) (w : Nvm) : Z :=
  (Z.shiftr (Z.land (ctrlb w) NVMCTRL_FLMAP_gm) NVMCTRL_FLMAP_gp mod 2) * MAPPED_PROGMEM_SIZE + (ptr - MAPPED_PROGMEM_START).
Definition load (ptr : Z) (w : Nvm) : Z := flash w (mapped ptr w).
Definition store (ptr v : Z) (w : Nvm) : Nvm :=
  let a := mapped ptr w in
  mkNvm (flash w) (fun o => if o =? a mod PROGMEM_PAGE_SIZE then Z.land (buffer w o) v else buffer w o)
    (a / PROGMEM_PAGE_SIZE) (ctrlb w) (ctrla w) (busy w) (collided w).

(** ** [flash.c] *)
Definition UPDATER_APP_BASE : Z := 0x1000.
Definition UPDATER_PAGE_SIZE : Z := 128.
Definition UPDATER_APP_PAGES : Z := 480.

Definition port_info : Device.port_info := mkPortInfo UPDATER_PAGE_SIZE UPDATER_APP_PAGES [0x41; 0x45; 0x36; 0x34] 1.

Definition nvm_cmd (c : command) (w : Nvm) : Nvm := write_ctrla c w.
(** [None]: not done after [op_time] questions. *)
Fixpoint nvm_wait_loop (fuel : nat) (w : Nvm) : option Nvm :=
  match fuel with
  | O => None
  | S fuel => let '(b, w) := read_busy w in if b then nvm_wait_loop fuel w else Some w
  end.
Definition nvm_wait (w : Nvm) : option Nvm := nvm_wait_loop (S op_time) w.

(** The pointer, [flmap_saved] and the controller. *)
Definition flmap_window (addr : Z) (w : Nvm) : Z * Z * Nvm :=
  let flmap_saved := ctrlb w in
  let b := Z.lor (Z.land flmap_saved (Z.lnot NVMCTRL_FLMAP_gm mod 2 ^ 8))
             (Z.land (Z.shiftl (Z.shiftr addr 15) NVMCTRL_FLMAP_gp) NVMCTRL_FLMAP_gm mod 2 ^ 8) in
  ((MAPPED_PROGMEM_START + Z.land addr (MAPPED_PROGMEM_SIZE - 1)) mod 2 ^ 16, flmap_saved, write_ctrlb b w).
Definition flmap_restore (flmap_saved : Z) (w : Nvm) : Nvm := write_ctrlb flmap_saved w.

Definition page_addr (page : Z) : Z := (UPDATER_APP_BASE + page * UPDATER_PAGE_SIZE) mod 2 ^ 32.

Definition port_flash_erase_page (page : Z) (w : Nvm) : option Nvm :=
  let addr := page_addr page in
  w ← nvm_wait w;
  let w := nvm_cmd NOCMD w in
  let '(dst, flmap_saved, w) := flmap_window addr w in
  let w := nvm_cmd FLPER (store dst 0xFF w) in
  w ← nvm_wait w;
  Some (flmap_restore flmap_saved (nvm_cmd NOCMD w)).

Fixpoint store_all (dst : Z) (data : list Z) (w : Nvm) : Nvm :=
  match data with [] => w | b :: data => store_all (dst + 1) data (store dst b w) end.

(** [data] is a page. *)
Definition port_flash_write_page (page : Z) (data : list Z) (w : Nvm) : option Nvm :=
  let addr := page_addr page in
  w ← nvm_wait w;
  let w := nvm_cmd NOCMD w in
  let '(dst, flmap_saved, w) := flmap_window addr w in
  let w := nvm_cmd FLPW (store_all dst data w) in
  w ← nvm_wait w;
  Some (flmap_restore flmap_saved (nvm_cmd NOCMD w)).

Definition port_flash_read_byte (offset : Z) (w : Nvm) : Z * Nvm :=
  let '(src, flmap_saved, w) := flmap_window ((UPDATER_APP_BASE + offset) mod 2 ^ 32) w in
  (load src w, flmap_restore flmap_saved w).

(** ** What the operations do *)

(** Between calls: nothing under way, nothing in the page buffer, no command
    ever lost. *)
Record ready (w : Nvm) : Prop := {
  rd_busy : busy w = O;
  rd_ctrla : ctrla w = NOCMD;
  rd_buffer : forall o, buffer w o = 0xFF;
  rd_flash : forall a, is_u8 (flash w a);
  rd_collided : collided w = false;
}.

Lemma wait_loop n : forall f w, busy w = n -> (n < f)%nat ->
  nvm_wait_loop f w = Some (mkNvm (flash w) (buffer w) (buf_page w) (ctrlb w) (ctrla w) O (collided w)).
Proof.
  induction n as [|n IH]; intros [|f] [fl bu p cb ca bs co] Hb Hf; cbn in Hb; try lia; subst bs; cbn [nvm_wait_loop read_busy busy]; [done|].
  by rewrite IH by (cbn; lia).
Qed.

(** The window shows what the address is in, wherever it was before. *)
Lemma window_spec addr w : 0 <= addr < 2 ^ 16 -> exists dst b, flmap_window addr w = (dst, ctrlb w, write_ctrlb b w)
  /\ forall w' k, ctrlb w' = b -> mapped (dst + k) w' = addr + k.
Proof.
  intros Ha. unfold flmap_window. eexists _, _. split; [reflexivity|]. intros w' k Hb. unfold mapped. rewrite Hb.
  unfold MAPPED_PROGMEM_START, MAPPED_PROGMEM_SIZE, NVMCTRL_FLMAP_gm, NVMCTRL_FLMAP_gp.
  rewrite Z.land_lor_distr_l, <- Z.land_assoc. change (Z.land (Z.lnot 0x30 mod 2 ^ 8) 0x30) with 0. rewrite Z.land_0_r, Z.lor_0_l.
  rewrite (Z.shiftr_div_pow2 addr) by lia. change (0x8000 - 1) with (Z.ones 15). rewrite Z.land_ones by lia. change (2 ^ 15) with 32768.
  pose proof (Z.div_mod addr 32768 ltac:(lia)) as Hdm. pose proof (Z.mod_pos_bound addr 32768 ltac:(lia)).
  rewrite (Z.mod_small (32768 + _)) by lia.
  assert (addr / 32768 = 0 \/ addr / 32768 = 1) as [Hq|Hq] by lia; rewrite Hq in *;
    (match goal with |- ?s mod 2 * _ + _ = _ => let v := eval vm_compute in (s mod 2) in change (s mod 2) with v end); lia.
Qed.

(** A run of stores within a page. *)
Lemma store_all_spec page data : forall dst o w, 0 <= o -> o + len data <= PROGMEM_PAGE_SIZE ->
  (forall w' k, ctrlb w' = ctrlb w -> mapped (dst + k) w' = page * PROGMEM_PAGE_SIZE + o + k) ->
  exists bu, store_all dst data w
      = mkNvm (flash w) bu (if len data =? 0 then buf_page w else page) (ctrlb w) (ctrla w) (busy w) (collided w)
    /\ forall i, bu i = if (o <=? i) && (i <? o + len data) then Z.land (buffer w i) (data !!! Z.to_nat (i - o)) else buffer w i.
Proof.
  unfold PROGMEM_PAGE_SIZE. induction data as [|b data IH]; intros dst o w Ho Hfit Hmap; cbn [store_all].
  { exists (buffer w). split; [by destruct w|]. intros i. rewrite len_nil. by replace ((o <=? i) && (i <? o + 0)) with false by lia. }
  rewrite len_cons in *. pose proof (len_nonneg data). pose proof (Hmap w 0 eq_refl) as H0. rewrite !Z.add_0_r in H0.
  assert (mapped dst w / 128 = page /\ mapped dst w mod 128 = o) as [Hq Hr].
  { rewrite H0. rewrite (Z.add_comm (page * 128)). rewrite Z.div_add, Z.div_small, Z_mod_plus_full, Z.mod_small by lia. lia. }
  destruct (IH (dst + 1) (o + 1) (store dst b w)) as (bu & -> & Hbu); [lia|lia| |].
  { intros w' k Hw'. rewrite <- Z.add_assoc, (Hmap w') by done. lia. }
  exists bu. unfold store in *. cbv zeta in *. cbn [flash buffer buf_page ctrlb ctrla busy collided] in *. unfold PROGMEM_PAGE_SIZE in *.
  rewrite Hq, (proj2 (Z.eqb_neq (1 + len data) 0)) by lia. split; [by destruct (len data =? 0)|].
  intros i. rewrite Hbu, Hr. destruct (Z.eqb_spec i o) as [->|Hne].
  - rewrite (proj2 (Z.leb_gt (o + 1) o)), (proj2 (Z.leb_le o o)), (proj2 (Z.ltb_lt o (o + (1 + len data)))) by lia. cbn [andb]. by rewrite Z.sub_diag.
  - replace ((o <=? i) && (i <? o + (1 + len data))) with ((o + 1 <=? i) && (i <? o + 1 + len data)) by lia.
    destruct ((o + 1 <=? i) && _) eqn:Hin; [|done]. f_equal. replace (Z.to_nat (i - o)) with (S (Z.to_nat (i - (o + 1)))) by lia. done.
Qed.

(** The page of flash a protocol page is. *)
Definition flash_page (page : Z) : Z := UPDATER_APP_BASE / PROGMEM_PAGE_SIZE + page.
Definition in_page (page a : Z) : bool := a / PROGMEM_PAGE_SIZE =? flash_page page.

Lemma page_addr_eq page : 0 <= page < UPDATER_APP_PAGES ->
  page_addr page = flash_page page * PROGMEM_PAGE_SIZE /\ 0 <= page_addr page < 2 ^ 16.
Proof.
  unfold page_addr, flash_page, UPDATER_APP_PAGES, UPDATER_APP_BASE, UPDATER_PAGE_SIZE, PROGMEM_PAGE_SIZE. intros.
  change (0x1000 / 128) with 32. rewrite Z.mod_small by lia. lia.
Qed.

(** Stores into a page, then a command: done, with the window back. *)
Lemma programmed page data c w : ready w -> 0 <= page < UPDATER_APP_PAGES -> 0 < len data <= PROGMEM_PAGE_SIZE -> c <> NOCMD ->
  exists bu w', (w ← nvm_wait w;
      let w := nvm_cmd NOCMD w in
      let '(dst, flmap_saved, w) := flmap_window (page_addr page) w in
      let w := nvm_cmd c (store_all dst data w) in
      w ← nvm_wait w;
      Some (flmap_restore flmap_saved (nvm_cmd NOCMD w))) = Some w'
    /\ (forall i, bu i = if (0 <=? i) && (i <? len data) then Z.land 0xFF (data !!! Z.to_nat i) else 0xFF)
    /\ w' = mkNvm (fun a => if in_page page a then match c with FLPER => 0xFF | _ => Z.land (flash w a) (bu (a mod PROGMEM_PAGE_SIZE)) end
                              else flash w a) blank (flash_page page) (ctrlb w) NOCMD O false.
Proof.
  intros [Hb Hca Hbu Hfl Hco] Hp Hlen Hc. destruct (page_addr_eq page Hp) as [Hpa Hpr].
  unfold nvm_wait. rewrite (wait_loop O) by (done || lia). cbn [mbind option_bind].
  destruct w as [fl bu0 bp cb ca bs co]. cbn [flash buffer buf_page ctrlb ctrla busy collided] in *. subst ca bs co.
  unfold nvm_cmd at 1. cbn [write_ctrla flash buffer buf_page ctrlb ctrla busy collided].
  destruct (window_spec (page_addr page) (mkNvm fl bu0 bp cb NOCMD 0 false) Hpr) as (dst & b & -> & Hmap).
  unfold write_ctrlb at 1. cbn [flash buffer buf_page ctrlb ctrla busy collided].
  destruct (store_all_spec (flash_page page) data dst 0 (mkNvm fl bu0 bp b NOCMD 0 false)) as (bu & -> & Hbus); [lia|lia| |].
  { intros w' k Hw'. rewrite (Hmap w') by done. rewrite Hpa. lia. }
  cbn [flash buffer buf_page ctrlb ctrla busy collided] in *. rewrite (proj2 (Z.eqb_neq _ _)) by lia. exists bu.
  assert (forall f, (w1 ← nvm_wait_loop (S op_time) (commanded c f (mkNvm fl bu (flash_page page) b NOCMD 0 false));
    Some (flmap_restore cb (nvm_cmd NOCMD w1))) = Some (mkNvm f blank (flash_page page) cb NOCMD 0 false)) as Hend.
  { intros f. rewrite (wait_loop op_time) by (done || lia). reflexivity. }
  destruct c; [done|..]; unfold nvm_cmd at 2; cbn [write_ctrla flash buffer buf_page ctrlb ctrla busy collided]; rewrite Hend;
    (eexists; split; [done|]; split; [|done]); intros i; rewrite Hbus, Hbu, Z.sub_0_r; done.
Qed.

Lemma ready_flash f bp cb : (forall a, is_u8 (f a)) -> ready (mkNvm f blank bp cb NOCMD O false).
Proof. intros. by split. Qed.

Lemma nvm_erase_page page w : ready w -> 0 <= page < UPDATER_APP_PAGES ->
  exists w', port_flash_erase_page page w = Some w' /\ ready w' /\ ctrlb w' = ctrlb w
    /\ forall a, flash w' a = if in_page page a then 0xFF else flash w a.
Proof.
  intros Hw Hp. destruct (programmed page [0xFF] FLPER w Hw Hp) as (bu & w' & He & _ & ->); [by vm_compute|done|].
  eexists. split; [exact He|]. split; [|done]. apply ready_flash. intros a. case_match; [lia|apply Hw].
Qed.

Lemma nvm_write_page page data w : ready w -> 0 <= page < UPDATER_APP_PAGES -> bytes data -> len data = UPDATER_PAGE_SIZE ->
  exists w', port_flash_write_page page data w = Some w' /\ ready w' /\ ctrlb w' = ctrlb w
    /\ forall a, flash w' a = if in_page page a then Z.land (flash w a) (data !!! Z.to_nat (a mod PROGMEM_PAGE_SIZE)) else flash w a.
Proof.
  intros Hw Hp Hb Hl. destruct (programmed page data FLPW w Hw Hp) as (bu & w' & He & Hbu & ->); [by rewrite Hl|done|].
  assert (forall a, in_page page a = true -> bu (a mod PROGMEM_PAGE_SIZE) = data !!! Z.to_nat (a mod PROGMEM_PAGE_SIZE)) as Hbd.
  { intros a _. unfold PROGMEM_PAGE_SIZE, UPDATER_PAGE_SIZE in *. pose proof (Z.mod_pos_bound a 128 ltac:(lia)).
    rewrite Hbu, Hl. rewrite (proj2 (Z.leb_le _ _)), (proj2 (Z.ltb_lt _ _)) by lia. cbn [andb].
    destruct (lookup_lt_is_Some_2 data (Z.to_nat (a mod 128))) as [x Hx]; [unfold len in Hl; lia|].
    rewrite (list_lookup_total_correct _ _ _ Hx), Z.land_comm. pose proof (bytes_lookup _ _ _ Hb Hx).
    by apply land_255. }
  eexists. split; [exact He|]. cbn [flash ctrlb]. split; [|split; [done|]].
  - apply ready_flash. intros a. destruct (in_page page a); [apply land_u8|]; apply Hw.
  - intros a. destruct (in_page page a) eqn:Hin; [|done]. by rewrite Hbd.
Qed.

Lemma read_byte_spec off w : ready w -> 0 <= off < UPDATER_APP_PAGES * UPDATER_PAGE_SIZE ->
  exists w', port_flash_read_byte off w = (flash w (UPDATER_APP_BASE + off), w') /\ ready w' /\ ctrlb w' = ctrlb w /\ flash w' = flash w.
Proof.
  intros Hw Hoff. unfold UPDATER_APP_PAGES, UPDATER_PAGE_SIZE in Hoff. unfold port_flash_read_byte. rewrite Z.mod_small by (unfold UPDATER_APP_BASE; lia).
  destruct (window_spec (UPDATER_APP_BASE + off) w) as (dst & b & -> & Hmap); [unfold UPDATER_APP_BASE; lia|].
  exists (flmap_restore (ctrlb w) (write_ctrlb b w)). split; [|split; [destruct Hw; by split|done]]. f_equal. unfold load. specialize (Hmap (write_ctrlb b w) 0 eq_refl).
  rewrite !Z.add_0_r in Hmap. by rewrite Hmap.
Qed.

(** ** Against the simulated port *)
Inductive flash_op :=
| ErasePage (page : Z)
| WritePage (page : Z) (data : list Z)
| ReadByte (off : Z).

Definition avr_op (op : flash_op) (w : Nvm) : option (list Z * Nvm) :=
  match op with
  | ErasePage page => w ← port_flash_erase_page page w; Some ([], w)
  | WritePage page data => w ← port_flash_write_page page data w; Some ([], w)
  | ReadByte off => let '(b, w) := port_flash_read_byte off w in Some ([b], w)
  end.
Definition sim_op (op : flash_op) (s : Sim) : option (list Z * Sim) :=
  match op with
  | ErasePage page => s ← Device.port_flash_erase_page page s; Some ([], s)
  | WritePage page data => s ← Device.port_flash_write_page page data s; Some ([], s)
  | ReadByte off => b ← Device.port_flash_read_byte off (g_flash s); Some ([b], s)
  end.
Fixpoint run_ops {M} (step : flash_op -> M -> option (list Z * M)) (ops : list flash_op) (m : M) : option (list Z * M) :=
  match ops with
  | [] => Some ([], m)
  | op :: ops => '(b, m) ← step op m; '(bs, m) ← run_ops step ops m; Some (b ++ bs, m)
  end.

(** In range, and a page is written where it is erased, or again with what is
    there. *)
Definition allowed (op : flash_op) (f : list Z) : Prop :=
  match op with
  | ErasePage page => 0 <= page < UPDATER_APP_PAGES
  | WritePage page data => 0 <= page < UPDATER_APP_PAGES /\ bytes data /\ len data = UPDATER_PAGE_SIZE
      /\ forall i b, 0 <= i < UPDATER_PAGE_SIZE -> f !! Z.to_nat (page * UPDATER_PAGE_SIZE + i) = Some b ->
           b = 0xFF \/ data !! Z.to_nat i = Some b
  | ReadByte off => 0 <= off < UPDATER_APP_PAGES * UPDATER_PAGE_SIZE
  end.
Fixpoint all_allowed (ops : list flash_op) (s : Sim) : Prop :=
  match ops with
  | [] => True
  | op :: ops => allowed op (g_flash s) /\ forall b s', sim_op op s = Some (b, s') -> all_allowed ops s'
  end.

(** The chip's flash above the bootloader is the simulated port's. *)
Record shows (w : Nvm) (s : Sim) : Prop := {
  sh_ready : ready w;
  sh_info : s_info s = port_info;
  sh_uncut : uncut s;
  sh_len : len (g_flash s) = UPDATER_APP_PAGES * UPDATER_PAGE_SIZE;
  sh_flash : forall i, 0 <= i < UPDATER_APP_PAGES * UPDATER_PAGE_SIZE ->
    g_flash s !! Z.to_nat i = Some (flash w (UPDATER_APP_BASE + i));
}.

Lemma in_page_app page i : 0 <= page -> 0 <= i ->
  in_page page (UPDATER_APP_BASE + i) = (page * UPDATER_PAGE_SIZE <=? i) && (i <? page * UPDATER_PAGE_SIZE + UPDATER_PAGE_SIZE)
  /\ (UPDATER_APP_BASE + i) mod PROGMEM_PAGE_SIZE = i mod UPDATER_PAGE_SIZE.
Proof.
  unfold in_page, flash_page, UPDATER_APP_BASE, PROGMEM_PAGE_SIZE, UPDATER_PAGE_SIZE. change (0x1000 / 128) with 32. intros.
  replace (4096 + i) with (i + 32 * 128) by lia. rewrite Z_div_plus_full, Z_mod_plus_full by lia. split; [|done].
  pose proof (Z.div_mod i 128 ltac:(lia)). pose proof (Z.mod_pos_bound i 128 ltac:(lia)).
  apply Bool.eq_iff_eq_true. rewrite andb_true_iff, Z.eqb_eq, Z.leb_le, Z.ltb_lt. lia.
Qed.

(** The bootloader's own flash. *)
Definition boot_kept (w w' : Nvm) : Prop := forall a, a < UPDATER_APP_BASE -> flash w' a = flash w a.
Lemma in_page_boot page a : 0 <= page -> a < UPDATER_APP_BASE -> in_page page a = false.
Proof.
  unfold in_page, flash_page, UPDATER_APP_BASE, PROGMEM_PAGE_SIZE. change (0x1000 / 128) with 32. intros.
  apply Z.eqb_neq. pose proof (Z.div_mod a 128 ltac:(lia)). pose proof (Z.mod_pos_bound a 128 ltac:(lia)). lia.
Qed.

(** An operation of the simulated port on a page, with no power cut. *)
Lemma sim_flash_op page data s : s_info s = port_info -> uncut s -> 0 <= page < UPDATER_APP_PAGES -> len data = UPDATER_PAGE_SIZE ->
  exists s', port_flash_op page data s = Some s' /\ s_info s' = port_info /\ uncut s'
    /\ g_flash s' = overwrite (page * UPDATER_PAGE_SIZE) data (g_flash s).
Proof.
  intros Hi Hun Hp Hl. assert (exists s', port_flash_op page data s = Some s' /\ s_info s' = port_info
    /\ g_flash s' = overwrite (page * UPDATER_PAGE_SIZE) data (g_flash s)) as (s' & Hop & Hi' & Hf).
  { unfold port_flash_op, op_tears. destruct Hun as [Hc Hd]. rewrite Hi, Hd, Hc. cbn [port_info pi_app_pages pi_page_size].
    rewrite (proj2 (Z.leb_gt _ _)) by lia. cbn [Z.eqb negb andb]. eexists. split; [done|]. split; [done|].
    cbn [with_flash g_flash]. rewrite <- Hl at 2. by rewrite to_nat_len, firstn_all. }
  exists s'. split_and!; try done. by eapply port_flash_op_uncut.
Qed.

(** A page of the chip changed as the simulated port's was. *)
Lemma shows_page page data w w' s s' : shows w s -> ready w' -> 0 <= page < UPDATER_APP_PAGES -> len data = UPDATER_PAGE_SIZE ->
  s_info s' = port_info -> uncut s' -> g_flash s' = overwrite (page * UPDATER_PAGE_SIZE) data (g_flash s) ->
  (forall a, in_page page a = false -> flash w' a = flash w a) ->
  (forall i, 0 <= i < UPDATER_PAGE_SIZE -> data !! Z.to_nat i = Some (flash w' (UPDATER_APP_BASE + (page * UPDATER_PAGE_SIZE + i)))) ->
  shows w' s'.
Proof.
  intros [Hw Hi Hun Hl Hf] Hw' Hp Hld Hi' Hun' Hf' Hout Hin. unfold UPDATER_APP_PAGES, UPDATER_PAGE_SIZE in *.
  split; try done; rewrite Hf'; unfold UPDATER_APP_PAGES, UPDATER_PAGE_SIZE.
  - rewrite len_overwrite by lia. done.
  - intros i Hir. rewrite lookup_overwrite, Hld by lia. destruct (in_page_app page i) as [Hpg _]; [lia|lia|].
    unfold UPDATER_PAGE_SIZE in Hpg. destruct ((page * 128 <=? i) && (i <? page * 128 + 128)) eqn:Hr.
    + apply andb_true_iff in Hr as [?%Z.leb_le ?%Z.ltb_lt]. rewrite (Hin (i - page * 128)) by lia. do 2 f_equal. lia.
    + rewrite (Hout _ Hpg). by apply Hf.
Qed.

Lemma op_shows op w s : shows w s -> allowed op (g_flash s) ->
  exists b s' w', sim_op op s = Some (b, s') /\ avr_op op w = Some (b, w') /\ shows w' s' /\ ctrlb w' = ctrlb w /\ boot_kept w w'.
Proof.
  intros Hsh Hal. pose proof Hsh as [Hw Hi Hun Hl Hf]. destruct op as [page|page data|off]; cbn [allowed sim_op avr_op] in *.
  - destruct (nvm_erase_page page w Hw Hal) as (w' & -> & Hw' & Hc & Hfl).
    set (data := replicate (Z.to_nat UPDATER_PAGE_SIZE) 0xFF).
    destruct (sim_flash_op page data s Hi Hun Hal) as (s' & Hop & Hi' & Hun' & Hf'); [subst data; by rewrite len_replicate|].
    unfold Device.port_flash_erase_page. rewrite Hi. cbn [port_info pi_page_size]. fold data. rewrite Hop. cbn [mbind option_bind].
    exists [], s', w'. split_and!; try done.
    2: { intros a Ha. by rewrite Hfl, in_page_boot by (done || lia). }
    apply (shows_page page data w w' s s'); try done.
    + intros a Ha. by rewrite Hfl, Ha.
    + intros i Hir. rewrite Hfl. destruct (in_page_app page (page * UPDATER_PAGE_SIZE + i)) as [-> _]; [lia|unfold UPDATER_PAGE_SIZE; lia|].
      replace (_ && _) with true by lia. subst data. apply lookup_replicate_2. lia.
  - destruct Hal as (Hp & Hb & Hld & Hal). destruct (nvm_write_page page data w Hw Hp Hb Hld) as (w' & -> & Hw' & Hc & Hfl).
    destruct (sim_flash_op page data s Hi Hun Hp Hld) as (s' & Hop & Hi' & Hun' & Hf'). unfold Device.port_flash_write_page.
    rewrite Hop. cbn [mbind option_bind]. exists [], s', w'. split_and!; try done.
    2: { intros a Ha. by rewrite Hfl, in_page_boot by (done || lia). }
    apply (shows_page page data w w' s s'); try done.
    + intros a Ha. by rewrite Hfl, Ha.
    + unfold UPDATER_APP_PAGES, UPDATER_PAGE_SIZE in *. intros i Hir. rewrite Hfl.
      destruct (in_page_app page (page * 128 + i)) as [Hpg Hmod]; [lia|lia|]. unfold UPDATER_PAGE_SIZE in *. rewrite Hpg, Hmod.
      replace (_ && _) with true by lia. rewrite (Z.add_comm (page * 128)) at 2. rewrite Z_mod_plus_full, Z.mod_small by lia.
      destruct (lookup_lt_is_Some_2 data (Z.to_nat i)) as [x Hx]; [unfold len in Hld; lia|]. rewrite (list_lookup_total_correct _ _ _ Hx), Hx.
      f_equal. pose proof (bytes_lookup _ _ _ Hb Hx). specialize (Hf (page * 128 + i) ltac:(lia)).
      symmetry. apply (reprogram _ 0xFF); [apply Hw|lia|lia|]. rewrite land_255 by apply Hw.
      destruct (Hal i _ Hir Hf) as [?|Heq]; [by left|right; congruence].
  - destruct (read_byte_spec off w Hw Hal) as (w' & -> & Hw' & Hc & Hfl). unfold Device.port_flash_read_byte.
    rewrite (proj2 (Z.leb_gt _ _)), (Hf off Hal) by lia. cbn [mbind option_bind]. eexists _, s, w'. split_and!; try done; [|intros a _; by rewrite Hfl].
    split; try done. intros i Hir. rewrite Hfl. by apply Hf.
Qed.

(** C34: the AVR ports' flash is the simulated port's. Whatever the order of
    erases, page writes and reads, as long as a page is written only where it is
    erased or again with the same bytes: every read is the same, what is left in
    flash above the bootloader is the same, the bootloader's own flash is not
    touched, no command is lost to another one, and the window is back where it
    was. *)
Theorem avr_flash_is_sim ops : forall w s, shows w s -> all_allowed ops s ->
  exists bs s' w', run_ops sim_op ops s = Some (bs, s') /\ run_ops avr_op ops w = Some (bs, w')
    /\ shows w' s' /\ ctrlb w' = ctrlb w /\ boot_kept w w'.
Proof.
  induction ops as [|op ops IH]; intros w s Hsh; cbn [run_ops all_allowed]; [by exists [], s, w|]. intros [Hal Hrest].
  destruct (op_shows op w s Hsh Hal) as (b & s1 & w1 & Hs & -> & Hsh1 & Hc1 & Hk1). rewrite Hs. cbn [mbind option_bind].
  destruct (IH w1 s1 Hsh1 (Hrest _ _ Hs)) as (bs & s2 & w2 & -> & -> & Hsh2 & Hc2 & Hk2). cbn [mbind option_bind].
  exists (b ++ bs), s2, w2. split_and!; try done; [congruence|]. intros a Ha. by rewrite Hk2, Hk1.
Qed.
End controller.

(** ** A page erased, written twice and read *)
Definition some_ops (data : list Z) : list flash_op := [ErasePage 200; WritePage 200 data; WritePage 200 data; ReadByte 25601].
Definition some_page : list Z := 1 :: 2 :: replicate 126 0x5A.
Definition some_nvm : Nvm := mkNvm (fun _ => 0x17) blank 0 0x30 NOCMD O false.
Definition some_sim : Sim := sim_reset true port_info (replicate (Z.to_nat 61440) 0x17).

Lemma some_shows : shows some_nvm some_sim.
Proof.
  split; [split; [done|done|done| |done]|done|by split| |].
  - intros a. cbn. lia.
  - cbn [some_sim sim_reset g_flash]. by rewrite len_replicate.
  - intros i Hi. cbn [some_sim sim_reset g_flash flash some_nvm]. change (UPDATER_APP_PAGES * UPDATER_PAGE_SIZE) with 61440 in Hi.
    apply lookup_replicate_2. lia.
Qed.

Lemma page_ops_allowed w s : shows w s -> all_allowed (some_ops some_page) s.
Proof.
  intros [_ Hi Hun Hl _]. change (UPDATER_APP_PAGES * UPDATER_PAGE_SIZE) with 61440 in Hl.
  assert (len some_page = UPDATER_PAGE_SIZE) as Hlp by (by vm_compute).
  assert (bytes some_page) as Hb by (repeat constructor; by vm_compute).
  assert (forall (data f : list Z) i b, len data = UPDATER_PAGE_SIZE -> len f = 61440 -> 0 <= i < UPDATER_PAGE_SIZE ->
    overwrite (200 * UPDATER_PAGE_SIZE) data f !! Z.to_nat (200 * UPDATER_PAGE_SIZE + i) = Some b -> data !! Z.to_nat i = Some b) as Hget.
  { unfold UPDATER_PAGE_SIZE. intros data f i b Hd Hf Hir. rewrite lookup_overwrite, Hd by lia. replace (_ && _) with true by lia.
    by replace (200 * 128 + i - 200 * 128) with i by lia. }
  set (ff := replicate (Z.to_nat UPDATER_PAGE_SIZE) 0xFF). assert (len ff = UPDATER_PAGE_SIZE) as Hlf by (by vm_compute).
  destruct (sim_flash_op 200 ff s Hi Hun) as (s1 & H1 & Hi1 & Hun1 & Hf1); [by split; vm_compute|done|].
  destruct (sim_flash_op 200 some_page s1 Hi1 Hun1) as (s2 & H2 & Hi2 & Hun2 & Hf2); [by split; vm_compute|done|].
  assert (len (g_flash s1) = 61440) as Hl1 by (rewrite Hf1, len_overwrite; unfold UPDATER_PAGE_SIZE in *; lia).
  unfold some_ops. cbn [all_allowed allowed]. split; [by vm_compute|]. cbn [sim_op]. unfold Device.port_flash_erase_page, Device.port_flash_write_page.
  rewrite Hi. cbn [port_info pi_page_size]. fold ff. rewrite H1. intros b1 s1' [= _ <-].
  split; [split_and!; try done|].
  { intros i x Hir Hb'. rewrite Hf1 in Hb'. apply Hget in Hb'; [|done..]. left. by apply lookup_replicate in Hb' as [-> _]. }
  rewrite H2. intros b2 s2' [= _ <-]. split; [split_and!; try done|].
  { intros i x Hir Hb'. rewrite Hf2 in Hb'. apply Hget in Hb'; [by right|done..]. }
  intros b3 s3' _. split; [by vm_compute|done].
Qed.

Lemma avr_flash_is_sim_witness : exists s' w', run_ops (avr_op 3) (some_ops some_page) some_nvm = Some ([2], w')
  /\ shows w' s' /\ collided w' = false /\ ctrlb w' = 0x30.
Proof.
  destruct (avr_flash_is_sim 3 (some_ops some_page) some_nvm some_sim some_shows (page_ops_allowed _ _ some_shows))
    as (bs & s' & w' & _ & Hr & Hsh & Hc & _).
  assert (option_map fst (run_ops (avr_op 3) (some_ops some_page) some_nvm) = Some [2]) as Hb by (vm_compute; reflexivity).
  rewrite Hr in Hb. injection Hb as ->. exists s', w'. split; [exact Hr|]. split; [exact Hsh|]. split; [|exact Hc].
  exact (rd_collided _ (sh_ready _ _ Hsh)).
Defined.
End AvrFlash.
