(* ===== verification/DeviceLink.v ===== *)
(** The device's byte-stream link ([device/core/link_stream.c]) and the stream
    main loop of the simulated port ([sim_request_stream]). The receive machine
    is shown to read a stream exactly as the host's scanner does. As in
    [Device.v], [None] is the program aborting; an access outside the link
    buffer is given the same outcome. *)
From S2P Require Import Prelude Errors Frame Image Stream Device.

Definition UPD_LINK_SYNC : Z := 0x7E.

(** [link_t]; the buffer's length is [buf_len]. *)
Record link_t := mkLink { l_buf : list Z; l_n : Z; l_in_frame : bool }.

Definition link_init (buf : list Z) : link_t := mkLink buf 0 false.

(** The body of [link_poll]'s loop on one byte: the frame it returns, if it
    does. *)
Definition link_byte (l : link_t) (b : Z) : option (option upd_frame * link_t) :=
  if negb (l_in_frame l) then
    if (b =? UPD_LINK_SYNC) && (UPD_FRAME_OVERHEAD <=? len (l_buf l))
    then Some (None, mkLink (l_buf l) 0 true)
    else Some (None, l)
  else
    if len (l_buf l) <=? l_n l then None else
    let buf := <[Z.to_nat (l_n l) := b]> (l_buf l) in
    let n := (l_n l + 1) mod 2 ^ 8 in
    if n <? 2 then Some (None, mkLink buf n true) else
    declared ← get_at 1 buf;
    let total := declared + UPD_FRAME_OVERHEAD in
    if len buf <? total then Some (None, mkLink buf n false) else
    if n <? total then Some (None, mkLink buf n true) else
    Some (upd_frame_parse (take (Z.to_nat n) buf), mkLink buf n false).

(** [get_byte] hands out [stream]; the rest of it is what [link_poll] has not
    read. *)
Fixpoint link_poll (stream : list Z) (l : link_t) : option (option upd_frame * (link_t * list Z)) :=
  match stream with
  | [] => Some (None, (l, []))
  | b :: stream =>
    '(r, l) ← link_byte l b;
    match r with
    | Some req => Some (Some req, (l, stream))
    | None => link_poll stream l
    end
  end.

(** What [put_byte] sees. *)
Definition link_send (frame : list Z) : list Z := UPD_LINK_SYNC :: frame.

(** [sim_request_stream]'s loop; [out] is what has been put, at most [cap]
    bytes. Every turn but the last reads from the stream, so the stream's length
    is fuel enough. *)
Fixpoint stream_loop (fuel : nat) (cap : Z) (stream out : list Z) (l : link_t) (s : Sim)
    : option (list Z * (link_t * Sim)) :=
  match fuel with
  | O => None
  | S fuel =>
    '(r, (l, stream)) ← link_poll stream l;
    match r with
    | None => Some (out, (l, s))
    | Some req =>
      '(payload, s) ← upd_handle s req 252;
      let frame := upd_frame_build 255 (Z.lor (uf_cmd req) RSP_FLAG) payload in
      if g_dead s then Some (out, (l, s)) else
      let out := out ++ link_send frame in
      if cap <? len out then None else
      if s_boot_pending s then
        '(_, s) ← upd_boot_if_valid (with_boot_pending false s);
        if g_jumped s then Some (out, (l, s)) else stream_loop fuel cap stream out l s
      else stream_loop fuel cap stream out l s
    end
  end.

Definition sim_request_stream (cap : Z) (stream : list Z) (l : link_t) (s : Sim)
    : option (list Z * (link_t * Sim)) :=
  if g_dead s || g_jumped s then Some ([], (l, s))
  else stream_loop (S (length stream)) cap stream [] l s.

(** ** The receive machine is the host's *)

(** The comment at the head of [link_stream.c]: what holds between polls. *)
Record link_inv (l : link_t) : Prop := {
  li_bytes : bytes (l_buf l);
  li_len : len (l_buf l) <= 255;
  li_frame : l_in_frame l = true ->
    UPD_FRAME_OVERHEAD <= len (l_buf l) /\ 0 <= l_n l < len (l_buf l)
    /\ (2 <= l_n l -> exists d, l_buf l !! 1%nat = Some d
          /\ d + UPD_FRAME_OVERHEAD <= len (l_buf l) /\ l_n l < d + UPD_FRAME_OVERHEAD);
}.

Definition link_abs (l : link_t) : scan_state :=
  if l_in_frame l then Collecting (take (Z.to_nat (l_n l)) (l_buf l)) else Hunting.

(** The bytes of a stream that are a frame for the device. *)
Definition frame_of (req : upd_frame) : list Z := wire (uf_cmd req) (uf_payload req).
Definition req_ok (req : upd_frame) : Prop :=
  is_u8 (uf_cmd req) /\ bytes (uf_payload req) /\ len (uf_payload req) <= PAYLOAD_MAX
  /\ uf_len req = len (uf_payload req).

Lemma parse_req_ok raw req : bytes raw -> len raw <= 255 -> upd_frame_parse raw = Some req ->
  raw = frame_of req /\ req_ok req.
Proof.
  intros Hb Hl Hp. apply parse_inv in Hp as [-> Hu]; [|done]. split; [done|]. rewrite len_wire in Hl.
  unfold wire in Hb. rewrite !bytes_cons, bytes_app in Hb. unfold req_ok. change PAYLOAD_MAX with 252.
  split_and!; try tauto; lia.
Qed.

Lemma link_inv_hunting buf n : bytes buf -> len buf <= 255 -> link_inv (mkLink buf n false).
Proof. intros. by split. Qed.

Section link.
Context `{PtrWidth}.

Lemma parse_none raw : bytes raw -> len raw <= 255 -> upd_frame_parse raw = None -> is_ok (decode raw) = false.
Proof.
  intros Hb Hl Hp. destruct (decode raw) as [f|] eqn:Hd; [|done]. apply decode_ok_inv in Hd as [-> _]; [|done].
  by rewrite parse_wire in Hp.
Qed.

(** One byte, against the host's abstract machine. *)
Lemma link_byte_spec l b : link_inv l -> is_u8 b ->
  exists r l', link_byte l b = Some (r, l') /\ link_inv l' /\ len (l_buf l') = len (l_buf l)
    /\ match r with
       | None => (forall acc n, scan_step (len (l_buf l)) (link_abs l) b <> (Scan.Done n, acc))
           /\ snd (scan_step (len (l_buf l)) (link_abs l) b) = link_abs l'
       | Some req => req_ok req /\ link_abs l' = Hunting
           /\ exists acc, link_abs l = Collecting acc /\ acc ++ [b] = frame_of req
              /\ scan_step (len (l_buf l)) (link_abs l) b = (Scan.Done (len (frame_of req)), Hunting)
       end.
Proof.
  intros [Hb Hl Hf] Hu. destruct l as [buf n []]; cbn [l_buf l_n l_in_frame] in *.
  - destruct (Hf eq_refl) as (Hcap & Hn & Hd). clear Hf. unfold UPD_FRAME_OVERHEAD in *.
    unfold link_byte, link_abs; cbn [l_buf l_n l_in_frame negb scan_step].
    rewrite (proj2 (Z.leb_gt _ _)) by lia. rewrite Z.mod_small by lia.
    set (buf' := <[Z.to_nat n := b]> buf).
    assert (len buf' = len buf) as Hl' by apply len_insert.
    assert (bytes buf') as Hb' by (by apply Forall_insert).
    pose proof (take_insert_snoc buf n b ltac:(lia)) as Htk. fold buf' in Htk.
    destruct (decide (n = 0)) as [->|].
    { eexists _, _. split; [done|]. split; [|split; [done|split; [done|]]].
      - split; cbn [l_buf l_n l_in_frame]; try done; [lia|]. unfold UPD_FRAME_OVERHEAD.
        intros _. split_and!; [lia..|]. intros; lia.
      - simpl. by rewrite Htk. }
    rewrite (proj2 (Z.ltb_ge (n + 1) 2)) by lia. unfold get_at. change (Z.to_nat 1) with 1%nat.
    rewrite (declared_collected n buf b) by lia. fold buf'.
    destruct (lookup_lt_is_Some_2 buf' 1) as [d Hd1]; [unfold len in *; lia|]. rewrite Hd1.
    pose proof (bytes_lookup _ _ _ Hb' Hd1). cbn [mbind option_bind].
    change PAYLOAD_MAX with 252. change FRAME_OVERHEAD with 3. change UPD_FRAME_OVERHEAD with 3.
    rewrite (len_collected n buf b) by lia. rewrite Hl'.
    assert ((252 <? d) || (len buf <? d + 3) = (len buf <? d + 3)) as -> by lia.
    destruct (Z.ltb_spec (len buf) (d + 3)) as [Hbig|Hfit].
    { eexists _, _. split; [done|]. split; [apply link_inv_hunting; [done|lia]|]. by split_and!. }
    assert (n + 1 <= d + 3) as Hend.
    { destruct (decide (n < 2)); [lia|]. destruct Hd as (d' & Hd' & ?); [lia|]. subst buf'.
      rewrite list_lookup_insert_ne in Hd1 by lia. rewrite Hd1 in Hd'. injection Hd' as <-. lia. }
    destruct (Z.ltb_spec (n + 1) (d + 3)) as [Hmore|Hdone].
    + eexists _, _. split; [done|]. split; [|split; [done|split; [done|]]].
      2: { cbn [l_buf l_n l_in_frame snd]. by rewrite Htk. }
      split; cbn [l_buf l_n l_in_frame]; try done; [lia|]. unfold UPD_FRAME_OVERHEAD.
      intros _. split_and!; [lia..|]. intros _. exists d. split_and!; try done; lia.
    + eexists _, _. split; [done|]. split; [apply link_inv_hunting; [done|lia]|]. split; [done|]. rewrite Htk.
      set (raw := take (Z.to_nat n) buf ++ [b]).
      assert (bytes raw) by (apply bytes_app; split; [auto with ota|by constructor]).
      assert (len raw = n + 1) as Hlr by (by apply len_collected).
      destruct (upd_frame_parse raw) as [req|] eqn:Hp.
      * apply parse_req_ok in Hp as [Hraw Hreq]; [|done|lia]. split; [done|]. split; [done|].
        eexists. split; [done|]. split; [done|]. rewrite <- Hlr. fold raw. rewrite Hraw.
        destruct Hreq as (_ & _ & ? & _). unfold frame_of. by rewrite decode_wire.
      * rewrite parse_none by (done || lia). by split.
  - unfold link_byte, link_abs; cbn [l_buf l_n l_in_frame negb scan_step].
    change UPD_LINK_SYNC with SYNC. change UPD_FRAME_OVERHEAD with FRAME_OVERHEAD.
    destruct ((b =? SYNC) && (FRAME_OVERHEAD <=? len buf)) eqn:Hs.
    + apply andb_true_iff in Hs as [_ Hc%Z.leb_le]. unfold FRAME_OVERHEAD in Hc.
      eexists _, _. split; [done|]. split; [|by split_and!].
      split; try done. intros _. cbn [l_buf l_n]. unfold UPD_FRAME_OVERHEAD. split_and!; [lia..|]. intros; lia.
    + eexists _, _. split; [done|]. split; [by split|]. by split_and!.
Qed.

(** A poll, against the host's reading of the whole stream. *)
Lemma link_poll_spec stream : forall l, link_inv l -> bytes stream ->
  exists r l' rest, link_poll stream l = Some (r, (l', rest))
    /\ link_inv l' /\ len (l_buf l') = len (l_buf l) /\ bytes rest
    /\ let frames := scan_feed (len (l_buf l)) in
       match r with
       | None => rest = [] /\ forall more,
           frames (link_abs l) (stream ++ more) = frames (link_abs l') more
       | Some req => req_ok req /\ link_abs l' = Hunting /\ (length rest < length stream)%nat
           /\ forall more, frames (link_abs l) (stream ++ more)
                = frame_of req :: frames Hunting (rest ++ more)
       end.
Proof.
  induction stream as [|b stream IH]; intros l Hl Hs; cbn [link_poll].
  { eexists None, l, []. by split_and!. }
  apply bytes_cons in Hs as [Hb Hs].
  destruct (link_byte_spec l b Hl Hb) as (r & l1 & -> & Hl1 & Hlen & Hr). cbn [mbind option_bind].
  destruct r as [req|].
  - destruct Hr as (Hreq & Habs & acc & Hacc & Hfr & Hst). eexists (Some req), l1, stream.
    split_and!; try done; [simpl; lia|]. intros more. rewrite Hacc in *. cbn [app scan_feed]. by rewrite Hst, Hfr.
  - destruct Hr as [Hno Hst]. destruct (IH l1 Hl1 Hs) as (r & l2 & rest & -> & Hl2 & Hlen2 & Hrest & Hr).
    exists r, l2, rest. split_and!; try done; [by rewrite Hlen2|]. rewrite Hlen in Hr.
    assert (forall more, scan_feed (len (l_buf l)) (link_abs l) ((b :: stream) ++ more)
      = scan_feed (len (l_buf l)) (link_abs l1) (stream ++ more)) as Hstep.
    { intros more. cbn [app scan_feed]. rewrite <- Hst. revert Hno.
      destruct (link_abs l); destruct (scan_step _ _ b) as [[] st]; cbn [snd]; intros Hno; try done.
      by destruct (Hno st len). }
    destruct r as [req|].
    + destruct Hr as (? & ? & ? & Hf). split_and!; try done; [simpl; lia|]. intros more. by rewrite Hstep.
    + destruct Hr as [-> Hf]. split; [done|]. intros more. by rewrite Hstep.
Qed.
End link.

(** ** The stream main loop is the request cycle, frame by frame *)

(** The replies of one request after another, as the link sends them. *)
Definition sent_reply (raw : list Z) : list Z := match raw with [] => [] | _ => link_send raw end.
Fixpoint serve (frames : list (list Z)) (s : Sim) : option (list Z * Sim) :=
  match frames with
  | [] => Some ([], s)
  | f :: frames =>
    '(raw, s) ← sim_request f s;
    '(out, s) ← serve frames s;
    Some (sent_reply raw ++ out, s)
  end.

Lemma serve_silent frames s : g_dead s || g_jumped s = true -> serve frames s = Some ([], s).
Proof.
  intros Hd. induction frames as [|f frames IH]; [done|]. cbn [serve].
  rewrite sim_request_silent by done. cbn [mbind option_bind]. by rewrite IH.
Qed.
Lemma serve_ok frames : forall s, sim_ok s -> Forall bytes frames ->
  exists out s', serve frames s = Some (out, s') /\ sim_ok s'.
Proof.
  induction frames as [|f frames IH]; intros s Hok Hb; [by exists [], s|]. apply Forall_cons in Hb as [Hf Hb].
  cbn [serve]. destruct (sim_request_total f s Hok Hf) as (raw & s1 & -> & _ & Hok1 & _).
  cbn [mbind option_bind]. destruct (IH s1 Hok1 Hb) as (out & s2 & -> & Hok2). by eexists _, s2.
Qed.

(** [sim_request] on a frame, in the terms of the stream loop. *)
Lemma sim_request_frame req s : req_ok req -> g_dead s || g_jumped s = false ->
  sim_request (frame_of req) s =
    '(payload, s) ← upd_handle s req 252;
    let frame := upd_frame_build 255 (Z.lor (uf_cmd req) RSP_FLAG) payload in
    if g_dead s then Some ([], s) else
    if s_boot_pending s then '(_, s) ← upd_boot_if_valid (with_boot_pending false s); Some (frame, s)
    else Some (frame, s).
Proof.
  intros (_ & _ & Hl & Hu) Hd. change PAYLOAD_MAX with 252 in Hl. unfold sim_request, frame_of.
  rewrite Hd, len_wire, (proj2 (Z.leb_le _ 255)), parse_wire by lia.
  replace (mkUpdFrame _ _ _) with req by (destruct req; cbn in *; by subst). cbn [mbind option_bind].
  destruct (upd_handle s req 252) as [[payload s1]|]; [|done]. done.
Qed.

Lemma reply_sent req payload : len payload <= 17 ->
  let frame := upd_frame_build 255 (Z.lor (uf_cmd req) RSP_FLAG) payload in sent_reply frame = link_send frame.
Proof. intros Hp. cbv zeta. by rewrite build_wire by (change PAYLOAD_MAX with 252; lia). Qed.

Section loop.
Context `{PtrWidth}.

(** [res] is what the main loop makes of [stream]: the replies to the frames the
    host's scanner would find in it, behind [out]; and while the device is
    there, the link is left where the next stream continues. *)
Definition streamed (cap : Z) (stream out : list Z) (l : link_t) (s : Sim)
    (res : option (list Z * (link_t * Sim))) : Prop :=
  let frames := scan_feed (len (l_buf l)) in
  exists out1 s1, serve (frames (link_abs l) stream) s = Some (out1, s1)
    /\ (len out + len out1 <= cap ->
        exists l1, res = Some (out ++ out1, (l1, s1)) /\ link_inv l1 /\ len (l_buf l1) = len (l_buf l)
          /\ (g_dead s1 || g_jumped s1 = false -> forall more,
              frames (link_abs l) (stream ++ more)
                = frames (link_abs l) stream ++ frames (link_abs l1) more)).

Lemma streamed_stop cap stream out l s : link_inv l -> g_dead s || g_jumped s = true ->
  streamed cap stream out l s (Some (out, (l, s))).
Proof.
  intros Hl Hd. exists [], s. split; [by apply serve_silent|]. intros _. exists l. rewrite app_nil_r.
  split_and!; try done. by rewrite Hd.
Qed.

Lemma streamed_turn cap stream rest out l l1 s s2 req frame res :
  link_abs l1 = Hunting -> len (l_buf l1) = len (l_buf l) ->
  (forall more, scan_feed (len (l_buf l)) (link_abs l) (stream ++ more)
     = frame_of req :: scan_feed (len (l_buf l)) Hunting (rest ++ more)) ->
  sim_request (frame_of req) s = Some (frame, s2) -> frame <> [] ->
  streamed cap rest (out ++ link_send frame) l1 s2 res ->
  streamed cap stream out l s (if cap <? len (out ++ link_send frame) then None else res).
Proof.
  intros Habs Hlen Hm Hr Hne (out1 & s3 & Hsv & Hgo). unfold streamed in *. rewrite Hlen, Habs in *. cbv zeta in *.
  pose proof (Hm []) as Hm0. rewrite !app_nil_r in Hm0. rewrite Hm0. cbn [serve]. rewrite Hr.
  cbn [mbind option_bind]. rewrite Hsv. cbn [mbind option_bind].
  assert (sent_reply frame = link_send frame) as -> by (by destruct frame).
  eexists _, s3. split; [done|]. intros Hc. rewrite !len_app in *. pose proof (len_nonneg out1).
  rewrite (proj2 (Z.ltb_ge _ _)) by lia. destruct Hgo as (l2 & -> & Hl2 & Hlen2 & Hmore); [lia|].
  exists l2. rewrite <- app_assoc. split_and!; try done. intros Hd more.
  by rewrite Hm, Hmore.
Qed.

Lemma stream_loop_spec cap fuel : forall stream out l s,
  link_inv l -> bytes stream -> sim_ok s -> g_dead s || g_jumped s = false ->
  (length stream < fuel)%nat -> streamed cap stream out l s (stream_loop fuel cap stream out l s).
Proof.
  induction fuel as [|fuel IH]; intros stream out l s Hl Hs Hok Hd Hf; [lia|]. cbn [stream_loop].
  destruct (link_poll_spec stream l Hl Hs) as (r & l1 & rest & -> & Hl1 & Hlen & Hrest & Hr).
  cbn [mbind option_bind]. destruct r as [req|]; cbv zeta in Hr.
  2: { destruct Hr as [-> Hm]. pose proof (Hm []) as Hm0. rewrite app_nil_r in Hm0.
       assert (forall st, scan_feed (len (l_buf l)) st [] = []) as Hnil by done.
       unfold streamed. cbv zeta. rewrite Hm0, Hnil. exists [], s. split; [done|]. intros _. exists l1.
       rewrite app_nil_r. by split_and!. }
  destruct Hr as (Hreq & Habs & Hlt & Hm). pose proof Hok as [Hwf Hidle]. pose proof Hreq as (Hc & Hp & Hpl & Hu).
  destruct (upd_handle_ok s (uf_cmd req) (uf_payload req) Hwf Hp) as (payload & s1 & Hh & Hhs & Hwf1).
  replace (mkUpdFrame (uf_cmd req) _ _) with req in Hh by (destruct req; cbn in *; by subst).
  pose proof (handles_rsp _ _ _ _ _ Hhs (dw_id _ _ Hwf)) as [Hpl17 _].
  pose proof (handles_keeps _ _ _ _ _ Hhs) as (Hi & Hj & _).
  pose proof (sim_request_frame req s Hreq Hd) as Hsr.
  apply orb_false_iff in Hd as [Hd0 Hj0]. rewrite Hh in *. cbn [mbind option_bind] in *.
  set (frame := upd_frame_build 255 _ payload) in *.
  assert (frame <> []) as Hne by (subst frame; by rewrite build_wire by (change PAYLOAD_MAX with 252; lia)).
  assert (forall s2, sim_ok s2 -> g_dead s2 || g_jumped s2 = false ->
    streamed cap rest (out ++ link_send frame) l1 s2 (stream_loop fuel cap rest (out ++ link_send frame) l1 s2)) as Hgo
    by (intros; apply IH; try done; lia).
  destruct (g_dead s1) eqn:Hdead.
  { exists [], s1. pose proof (Hm []) as Hm0. rewrite !app_nil_r in Hm0. rewrite Hm0. cbn [serve].
    rewrite Hsr. cbn [mbind option_bind]. rewrite serve_silent by (by rewrite Hdead).
    split; [done|]. intros _. exists l1. rewrite app_nil_r. split_and!; try done. by rewrite Hdead. }
  destruct (s_boot_pending s1) eqn:Hbp.
  2: { apply (streamed_turn cap stream rest out l l1 s s1 req); try done. apply Hgo; [by split|].
       by rewrite Hdead, Hj. }
  unfold upd_boot_if_valid in *. cbn [with_boot_pending s_info g_flash] in *.
  destruct (app_valid_ok _ _ Hwf1) as (b & Hv & _). rewrite Hv in *. cbn [mbind option_bind] in *.
  destruct b; cbn [negb mbind option_bind] in *.
  - cbn [port_jump_to_app with_boot_pending g_jumped] in *.
    apply (streamed_turn cap stream rest out l l1 s (port_jump_to_app (with_boot_pending false s1)) req frame
      (Some (out ++ link_send frame, (l1, port_jump_to_app (with_boot_pending false s1))))); try done.
    apply streamed_stop; [done|]. apply orb_true_r.
  - cbn [with_boot_pending g_jumped]. rewrite Hj, Hj0.
    apply (streamed_turn cap stream rest out l l1 s (with_boot_pending false s1) req); try done.
    apply Hgo; [by split|]. cbn [with_boot_pending g_dead g_jumped]. by rewrite Hdead, Hj.
Qed.

Lemma sim_request_stream_spec cap stream l s : link_inv l -> bytes stream -> sim_ok s ->
  streamed cap stream [] l s (sim_request_stream cap stream l s).
Proof.
  intros Hl Hs Hok. unfold sim_request_stream. destruct (g_dead s || g_jumped s) eqn:Hd.
  - by apply streamed_stop.
  - apply stream_loop_spec; try done. lia.
Qed.
End loop.

(** ** Properties *)
Section properties.
Context `{PtrWidth}.

(** C20: the device reads a byte stream as the host does, and stream mode is
    request mode: whatever state the link is in, the replies put on the wire are
    those of [sim_request] to each frame the host's scanner finds in the stream,
    each behind a sync byte, and the device is left the same; the link is left
    where the next stream continues, so the stream may be split anywhere; and
    there is neither an abort nor an access outside the link buffer as long as
    the caller's buffer holds the replies. *)
Theorem stream_mode_is_request_mode cap stream l s :
  link_inv l -> bytes stream -> sim_ok s ->
  let frames := scan_feed (len (l_buf l)) in
  (l_in_frame l = false -> frames (link_abs l) stream = fst (feed rx_new (l_buf l) stream))
  /\ exists out s', serve (frames (link_abs l) stream) s = Some (out, s')
    /\ (len out <= cap ->
        exists l', sim_request_stream cap stream l s = Some (out, (l', s'))
          /\ link_inv l' /\ len (l_buf l') = len (l_buf l)
          /\ (g_dead s' || g_jumped s' = false -> forall more,
              frames (link_abs l) (stream ++ more)
                = frames (link_abs l) stream ++ frames (link_abs l') more)).
Proof.
  intros Hl Hs Hok frames. split.
  { intros Hh. destruct (feed_scan_feed stream rx_new (l_buf l)) as (? & ? & -> & _); [done| |done|].
    - destruct Hl. split; [done|]. usize_bounds. lia.
    - subst frames. unfold link_abs. by rewrite Hh. }
  exact (sim_request_stream_spec cap stream l s Hl Hs Hok).
Qed.
End properties.

Lemma stream_mode_is_request_mode_witness :
  exists l', sim_request_stream 512 ([1; 2] ++ SYNC :: wire CMD_ECHO [7] ++ [9] ++ SYNC :: wire CMD_BOOT [])
      (link_init (replicate 255 0)) sample_sim
    = Some (SYNC :: reply CMD_ECHO [ST_OK; 7] ++ SYNC :: reply CMD_BOOT [ST_OK],
            (l', port_jump_to_app sample_sim)).
Proof.
  destruct (stream_mode_is_request_mode (H:=ptr64) 512
    ([1; 2] ++ SYNC :: wire CMD_ECHO [7] ++ [9] ++ SYNC :: wire CMD_BOOT [])
    (link_init (replicate 255 0)) sample_sim) as (_ & out & s' & Hsv & Hgo).
  - split; [exact (bytes_replicate 255 0 ltac:(lia))|by vm_compute|done].
  - by apply sample_bytes_dec.
  - split; [exact sample_wf|reflexivity].
  - assert (serve (scan_feed (len (replicate 255 0)) Hunting
        ([1; 2] ++ SYNC :: wire CMD_ECHO [7] ++ [9] ++ SYNC :: wire CMD_BOOT [])) sample_sim
      = Some (SYNC :: reply CMD_ECHO [ST_OK; 7] ++ SYNC :: reply CMD_BOOT [ST_OK],
              port_jump_to_app sample_sim)) as Hc by (vm_compute; reflexivity).
    assert (Some (out, s') = Some (SYNC :: reply CMD_ECHO [ST_OK; 7] ++ SYNC :: reply CMD_BOOT [ST_OK],
              port_jump_to_app sample_sim)) as He by (rewrite <- Hc, <- Hsv; reflexivity).
    injection He as -> ->. destruct Hgo as (l' & Hr & _); [by vm_compute|]. exists l'. exact Hr.
Defined.
