(* ===== verification/Pumps.v ===== *)
(** The byte pumps of the device's ports ([device/ports/skeletons]): the glue
    between the stream link ([link_stream.c]) and a UART, an SPI client or two
    pins. The register operations a port supplies are parameters; where a
    theorem needs hardware, it is the one the operations' contract in the pump's
    header describes. As in [DeviceLink.v], [None] is an access outside a
    buffer. *)
From S2P Require Import Prelude Errors Frame Image Stream Hal EhSoftUart Device DeviceLink.

(** ** The link over any port *)

(** [link_io_t]: the port's state [W] and its two callbacks; [get_byte] gives
    [None] when nothing is waiting. *)
Class LinkIo (W : Type) := {
  get_byte : W -> option (option Z * W);
  put_byte : Z -> W -> option W;
}.

Section io.
Context `{LinkIo W}.

(** [link_poll]; a turn of fuel per byte. *)
Fixpoint link_poll_io (fuel : nat) (l : link_t) (w : W) : option (option upd_frame * (link_t * W)) :=
  match fuel with
  | O => None
  | S fuel =>
    '(b, w) ← get_byte w;
    match b with
    | None => Some (None, (l, w))
    | Some b =>
      '(r, l) ← link_byte l b;
      match r with
      | Some req => Some (Some req, (l, w))
      | None => link_poll_io fuel l w
      end
    end
  end.

Fixpoint put_all (bs : list Z) (w : W) : option W :=
  match bs with
  | [] => Some w
  | b :: bs => w ← put_byte b w; put_all bs w
  end.
Definition link_send_io (frame : list Z) (w : W) : option W :=
  w ← put_byte UPD_LINK_SYNC w; put_all frame w.

Lemma link_send_io_puts frame w : link_send_io frame w = put_all (link_send frame) w.
Proof. done. Qed.

(** The port hands out these bytes and then nothing. *)
Fixpoint hands_out (bs : list Z) (w w' : W) : Prop :=
  match bs with
  | [] => get_byte w = Some (None, w')
  | b :: bs => exists w1, get_byte w = Some (Some b, w1) /\ hands_out bs w1 w'
  end.

(** [link_poll] over such a port is [link_poll] on the bytes. *)
Lemma link_poll_hands_out bs : forall fuel l w w' r l' rest,
  (length bs < fuel)%nat -> hands_out bs w w' -> link_poll bs l = Some (r, (l', rest)) ->
  exists w1, link_poll_io fuel l w = Some (r, (l', w1))
    /\ match r with Some _ => hands_out rest w1 w' | None => w1 = w' end.
Proof.
  induction bs as [|b bs IH]; intros [|fuel] l w w' r l' rest Hf; simpl in Hf; try lia; cbn [hands_out link_poll link_poll_io].
  - intros Hg [= <- <- <-]. rewrite Hg. by exists w'.
  - intros (w1 & Hg & Hh). rewrite Hg. cbn [mbind option_bind].
    destruct (link_byte l b) as [[[req|] l1]|]; cbn [mbind option_bind]; [|by apply IH; [lia|]|done].
    intros [= <- <- <-]. by exists w1.
Qed.
End io.

(** ** [uart_pump.c] *)

(** [uart_pump_ops_t]: asking whether the transmitter is free takes time. *)
Class UartPumpOps (W : Type) := {
  rx_ready : W -> bool;
  rx_read : W -> Z * W;
  tx_ready : W -> bool * W;
  tx_write : Z -> W -> W;
}.

Module UartPump.
Section uart_pump.
Context `{UartPumpOps W} (patience : nat).

Definition pump_get (w : W) : option Z * W :=
  if negb (rx_ready w) then (None, w) else
  let '(b, w) := rx_read w in (Some b, w).

(** The wait for the transmitter; a turn of fuel per question. *)
Fixpoint wait_tx (fuel : nat) (w : W) : option W :=
  match fuel with
  | O => None
  | S fuel => let '(free, w) := tx_ready w in if free then Some w else wait_tx fuel w
  end.
Definition pump_put (b : Z) (w : W) : option W := tx_write b <$> wait_tx patience w.

#[global] Instance pump_io : LinkIo W := {|
  get_byte w := Some (pump_get w);
  put_byte := pump_put;
|}.
End uart_pump.

(** Registers that keep the contract: a queue of received bytes, and a
    transmitter that is free after [tx_stall] questions. *)
Record regs := mkRegs { r_rx : list Z; r_tx : list Z; tx_stall : nat; tx_busy : nat }.
#[global] Instance regs_ops : UartPumpOps regs := {|
  rx_ready w := negb (bool_decide (r_rx w = []));
  rx_read w := (default 0 (head (r_rx w)), mkRegs (tail (r_rx w)) (r_tx w) (tx_stall w) (tx_busy w));
  tx_ready w := match tx_busy w with
                | O => (true, w)
                | S n => (false, mkRegs (r_rx w) (r_tx w) (tx_stall w) n)
                end;
  tx_write b w := mkRegs (r_rx w) (r_tx w ++ [b]) (tx_stall w) (tx_stall w);
|}.

Section uart_pump_proofs.
Context (patience : nat).
#[local] Existing Instance pump_io.

Lemma pump_hands_out rx : forall tx st busy,
  hands_out (H:=pump_io patience) rx (mkRegs rx tx st busy) (mkRegs [] tx st busy).
Proof.
  induction rx as [|b rx IH]; intros tx st busy; cbn [hands_out]; [done|]. by eexists.
Qed.

Lemma wait_tx_spec rx tx st busy : forall fuel, (busy < fuel)%nat ->
  wait_tx fuel (mkRegs rx tx st busy) = Some (mkRegs rx tx st 0).
Proof.
  induction busy as [|n IH]; intros [|fuel] Hf; try lia; cbn [wait_tx tx_ready regs_ops tx_busy]; [done|].
  apply IH. lia.
Qed.

Lemma pump_puts bs rx st : (st < patience)%nat -> forall tx busy, (busy < patience)%nat ->
  exists busy', put_all (H:=pump_io patience) bs (mkRegs rx tx st busy) = Some (mkRegs rx (tx ++ bs) st busy').
Proof.
  intros Hst. induction bs as [|b bs IH]; intros tx busy Hb; cbn [put_all].
  { exists busy. by rewrite app_nil_r. }
  cbn [put_byte pump_io]. unfold pump_put. rewrite wait_tx_spec by done. cbn [fmap option_fmap option_map mbind option_bind].
  destruct (IH (tx ++ [b]) st Hst) as [busy' Hp]. exists busy'. by rewrite <- app_assoc in Hp.
Qed.
End uart_pump_proofs.

(** The pump is transparent: polling through it reads the received bytes as
    [link_poll] does, leaving what follows a frame in the queue; and sending
    through it waits for the transmitter and loses nothing. *)
Lemma uart_pump_transparent patience fuel l rx tx st busy frame :
  (length rx < fuel)%nat -> (st < patience)%nat -> (busy < patience)%nat ->
  (forall r l' rest, link_poll rx l = Some (r, (l', rest)) ->
     exists w, link_poll_io (H:=pump_io patience) fuel l (mkRegs rx tx st busy) = Some (r, (l', w))
       /\ match r with
          | Some _ => hands_out (H:=pump_io patience) rest w (mkRegs [] tx st busy)
          | None => w = mkRegs [] tx st busy
          end)
  /\ exists busy', link_send_io (H:=pump_io patience) frame (mkRegs rx tx st busy)
       = Some (mkRegs rx (tx ++ link_send frame) st busy').
Proof.
  intros Hf Hst Hb. split.
  - intros r l' rest. by apply link_poll_hands_out, pump_hands_out.
  - rewrite link_send_io_puts. by apply pump_puts.
Qed.
End UartPump.

(** ** [spi_pump.c] *)

(** [spi_pump_ops_t]. *)
Class SpiPumpOps (W : Type) := {
  xfer_done : W -> bool;
  data_read : W -> Z * W;
  data_write : Z -> W -> W;
}.

Module SpiPump.

Definition SPI_PUMP_IDLE : Z := 0x00.

(** [spi_pump_t]; [tx_cap] is the queue's length. *)
Record spi_pump_t := mkSpiPump {
  tx_buf : list Z;
  tx_len : Z;
  tx_idx : Z;
  staked_from_queue : bool;
}.

Definition next_out (p : spi_pump_t) : option (Z * spi_pump_t) :=
  if tx_idx p <? tx_len p then
    b ← get_at (tx_idx p) (tx_buf p);
    Some (b, mkSpiPump (tx_buf p) (tx_len p) ((tx_idx p + 1) mod 2 ^ 8) true)
  else Some (SPI_PUMP_IDLE, mkSpiPump (tx_buf p) (tx_len p) (tx_idx p) false).

Section spi_pump.
Context `{SpiPumpOps W}.
Implicit Types w : W.

Definition pump_get (pw : spi_pump_t * W) : option (option Z * (spi_pump_t * W)) :=
  let '(p, w) := pw in
  if negb (xfer_done w) then Some (None, (p, w)) else
  let '(b, w) := data_read w in
  '(out, p) ← next_out p;
  Some (Some b, (p, data_write out w)).

Definition pump_put (b : Z) (pw : spi_pump_t * W) : option (spi_pump_t * W) :=
  let '(p, w) := pw in
  if tx_len p <? len (tx_buf p) then
    Some (mkSpiPump (<[Z.to_nat (tx_len p) := b]> (tx_buf p)) ((tx_len p + 1) mod 2 ^ 8)
            (tx_idx p) (staked_from_queue p), w)
  else Some (p, w).

#[global] Instance pump_io : LinkIo (spi_pump_t * W) := {| get_byte := pump_get; put_byte := pump_put |}.

Definition spi_pump_init (buf : list Z) (w : W) : spi_pump_t * W :=
  (mkSpiPump buf 0 0 false, data_write SPI_PUMP_IDLE w).
End spi_pump.

Definition spi_pump_tx_clear (p : spi_pump_t) : spi_pump_t := mkSpiPump (tx_buf p) 0 0 (staked_from_queue p).
Definition spi_pump_tx_idle (p : spi_pump_t) : bool := (tx_idx p =? tx_len p) && negb (staked_from_queue p).

(** *** The queue *)

Record pump_inv (p : spi_pump_t) : Prop := {
  pi_cap : len (tx_buf p) <= 255;
  pi_idx : 0 <= tx_idx p <= tx_len p;
  pi_len : tx_len p <= len (tx_buf p);
}.

(** What is queued and not yet staked. *)
Definition pending (p : spi_pump_t) : list Z := drop (Z.to_nat (tx_idx p)) (take (Z.to_nat (tx_len p)) (tx_buf p)).
Definition room (p : spi_pump_t) : Z := len (tx_buf p) - tx_len p.

Lemma len_pending p : pump_inv p -> len (pending p) = tx_len p - tx_idx p.
Proof. intros [? ? ?]. unfold pending, len in *. rewrite length_drop, length_take. lia. Qed.

Lemma next_out_spec p : pump_inv p ->
  exists p', next_out p = Some (default SPI_PUMP_IDLE (head (pending p)), p')
    /\ pump_inv p' /\ pending p' = tail (pending p) /\ len (tx_buf p') = len (tx_buf p)
    /\ staked_from_queue p' = negb (bool_decide (pending p = [])).
Proof.
  intros Hp. pose proof (len_pending p Hp) as Hl. pose proof Hp as [Hc Hi Hn]. unfold next_out. zcase.
  - destruct (pending p) as [|b q] eqn:Hq; [change (len []) with 0 in Hl; lia|].
    assert (take (Z.to_nat (tx_len p)) (tx_buf p) !! Z.to_nat (tx_idx p) = Some b) as Hb.
    { rewrite <- (Nat.add_0_r (Z.to_nat (tx_idx p))), <- lookup_drop. fold (pending p). by rewrite Hq. }
    apply lookup_take_Some in Hb as [Hb _]. unfold get_at. rewrite Hb. cbn [mbind option_bind].
    eexists. split; [done|]. rewrite Z.mod_small by lia. split_and!; [by split; cbn; lia| |done|done].
    cbn [tail]. unfold pending in *. cbn [tx_idx tx_len tx_buf]. rewrite Z2Nat.inj_add by lia. change (Z.to_nat 1) with 1%nat.
    by rewrite <- drop_drop, Hq.
  - destruct (pending p) as [|b q] eqn:Hq; [|rewrite len_cons in Hl; pose proof (len_nonneg q); lia].
    eexists. split; [done|]. by split_and!.
Qed.

Lemma tx_clear_spec p : pump_inv p ->
  pump_inv (spi_pump_tx_clear p) /\ pending (spi_pump_tx_clear p) = [] /\ room (spi_pump_tx_clear p) = len (tx_buf p).
Proof. intros [? ? ?]. split_and!; [split; cbn; lia|done|unfold room; cbn; lia]. Qed.

Lemma pump_init_inv buf : len buf <= 255 -> pump_inv (mkSpiPump buf 0 0 false).
Proof. intros. pose proof (len_nonneg buf). split; cbn; lia. Qed.

Section put.
Context `{SpiPumpOps W}.
Implicit Types w : W.

Lemma pump_put_spec b p w : pump_inv p -> 0 < room p ->
  exists p', put_byte b (p, w) = Some (p', w) /\ pump_inv p' /\ pending p' = pending p ++ [b]
    /\ room p' = room p - 1 /\ len (tx_buf p') = len (tx_buf p).
Proof.
  intros [Hc Hi Hn] Hr. unfold room in *. cbn [put_byte pump_io pump_put]. rewrite (proj2 (Z.ltb_lt _ _)) by lia.
  eexists. split; [done|]. rewrite Z.mod_small by lia. split_and!; try done.
  - split; cbn; rewrite ?len_insert; lia.
  - unfold pending; cbn. rewrite Z2Nat.inj_add, Nat.add_1_r by lia. unfold len in *.
    rewrite (take_S_r _ _ b) by (apply list_lookup_insert_eq; lia). rewrite take_insert_ge by lia.
    rewrite drop_app_le; [done|]. rewrite length_take. lia.
  - cbn. rewrite len_insert. lia.
  - cbn. by rewrite len_insert.
Qed.

Lemma put_all_spec bs : forall p w, pump_inv p -> len bs <= room p ->
  exists p', put_all bs (p, w) = Some (p', w) /\ pump_inv p' /\ pending p' = pending p ++ bs
    /\ room p' = room p - len bs /\ len (tx_buf p') = len (tx_buf p).
Proof.
  induction bs as [|b bs IH]; intros p w Hp Hr; cbn [put_all].
  { exists p. rewrite app_nil_r. change (len []) with 0. split_and!; try done; lia. }
  rewrite len_cons in Hr. pose proof (len_nonneg bs).
  destruct (pump_put_spec b p w) as (p1 & -> & Hp1 & Hq1 & Hr1 & Hs1); [done|lia|]. cbn [mbind option_bind].
  destruct (IH p1 w) as (p2 & -> & Hp2 & Hq2 & Hr2 & Hs2); [done|lia|]. exists p2.
  rewrite Hq2, Hq1, <- app_assoc, len_cons, Hs2, Hs1. split_and!; try done; lia.
Qed.
End put.

(** *** The shift register *)

(** The peripheral: the byte to go out with the next exchange, the one the last
    exchange brought, and whether that is still to be read. *)
Record shifter := mkShifter { sh_out : Z; sh_in : Z; sh_done : bool }.

#[global] Instance shifter_ops : SpiPumpOps shifter := {|
  xfer_done := sh_done;
  data_read w := (sh_in w, mkShifter (sh_out w) (sh_in w) false);
  data_write b w := mkShifter b (sh_in w) (sh_done w);
|}.

(** The host clocks one byte: what it sees was staked before. *)
Definition clock (mosi : Z) (w : shifter) : Z * shifter := (sh_out w, mkShifter (sh_out w) mosi true).

(** Bytes clocked, the pump having run after each: what the host sees and what
    the link hears. *)
Fixpoint exchanges (mosi : list Z) (pw : spi_pump_t * shifter)
    : option (list Z * (list Z * (spi_pump_t * shifter))) :=
  match mosi with
  | [] => Some ([], ([], pw))
  | b :: mosi =>
    let '(miso, sh) := clock b pw.2 in
    '(heard, pw) ← get_byte (pw.1, sh);
    '(misos, (heards, pw)) ← exchanges mosi pw;
    Some (miso :: misos, (option_list heard ++ heards, pw))
  end.

Lemma get_after_clock b p sh : pump_inv p ->
  exists p', get_byte (p, snd (clock b sh)) = Some (Some b, (p', mkShifter (default SPI_PUMP_IDLE (head (pending p))) b false))
    /\ pump_inv p' /\ pending p' = tail (pending p) /\ len (tx_buf p') = len (tx_buf p)
    /\ staked_from_queue p' = negb (bool_decide (pending p = [])).
Proof.
  intros Hp. destruct (next_out_spec p Hp) as (p' & Hn & Hrest). exists p'. split; [|done].
  cbn. by rewrite Hn.
Qed.

Lemma take_idle n m (l : list Z) x : (n <= m)%nat -> take n (l ++ replicate m x) = take n (l ++ replicate n x).
Proof. intros. rewrite !take_app, !take_replicate. do 2 f_equal. lia. Qed.

Lemma exchanges_spec mosi : forall p sh, pump_inv p ->
  exists p' sh', exchanges mosi (p, sh)
      = Some (take (length mosi) (sh_out sh :: pending p ++ replicate (length mosi) SPI_PUMP_IDLE), (mosi, (p', sh')))
    /\ pump_inv p' /\ pending p' = drop (length mosi) (pending p)
    /\ staked_from_queue p' = match mosi with
                              | [] => staked_from_queue p
                              | _ => negb (bool_decide (length (pending p) < length mosi)%nat)
                              end.
Proof.
  induction mosi as [|b mosi IH]; intros p sh Hp; cbn [exchanges].
  { exists p, sh. by rewrite drop_0. }
  destruct (get_after_clock b p sh Hp) as (p1 & Hg & Hp1 & Hq1 & _ & Hs1).
  cbn [clock fst snd] in *. rewrite Hg. cbn [mbind option_bind].
  destruct (IH p1 (mkShifter (default SPI_PUMP_IDLE (head (pending p))) b false) Hp1) as (p2 & sh2 & -> & Hp2 & Hq2 & Hs2).
  exists p2, sh2. cbn [mbind option_bind]. split; [|split_and!].
  - rewrite Hq1. do 3 f_equal. cbn [length take]. f_equal. destruct (pending p) as [|c q]; cbn [head tail default app sh_out].
    + by destruct mosi.
    + symmetry. exact (take_idle (length mosi) (S (length mosi)) (c :: q) SPI_PUMP_IDLE ltac:(lia)).
  - done.
  - rewrite Hq2, Hq1. by destruct (pending p); [destruct (length mosi)|].
  - rewrite Hs2, Hs1, Hq1. destruct mosi, (pending p); cbn [length tail]; apply f_equal, bool_decide_ext; split; intros; first [done|lia].
Qed.

(** A response queued behind whatever was abandoned, and then clocked out: the
    host sees the byte that was staked, the sync byte, the frame and idle bytes;
    the link hears what the host clocked; and [spi_pump_tx_idle] says when all
    of it has left. *)
Lemma response_shifts_out p sh frame mosi : pump_inv p -> len frame < len (tx_buf p) ->
  exists p1 p2 sh2, link_send_io frame (spi_pump_tx_clear p, sh) = Some (p1, sh)
    /\ exchanges mosi (p1, sh)
       = Some (take (length mosi) (sh_out sh :: link_send frame ++ replicate (length mosi) SPI_PUMP_IDLE), (mosi, (p2, sh2)))
    /\ spi_pump_tx_idle p2 = bool_decide (length frame + 2 <= length mosi)%nat
    /\ pump_inv p2.
Proof.
  intros Hp Hfit. destruct (tx_clear_spec p Hp) as (Hc & Hq & Hr).
  rewrite link_send_io_puts. destruct (put_all_spec (link_send frame) (spi_pump_tx_clear p) sh) as (p1 & Hput & Hp1 & Hq1 & _);
    [done|unfold link_send; rewrite len_cons, Hr; lia|].
  destruct (exchanges_spec mosi p1 sh Hp1) as (p2 & sh2 & Hx & Hp2 & Hq2 & Hs2). rewrite Hq1, Hq in *.
  exists p1, p2, sh2. split_and!; [done|exact Hx| |done].
  pose proof (len_pending p2 Hp2) as Hl. rewrite Hq2 in Hl. unfold spi_pump_tx_idle. rewrite Hs2. unfold len in Hl.
  rewrite length_drop in Hl. cbn [app link_send length] in *.
  destruct mosi as [|b mosi]; cbn [length] in *.
  - rewrite (proj2 (Z.eqb_neq _ _)) by lia. by rewrite bool_decide_false by lia.
  - destruct (decide (length frame + 2 <= S (length mosi))%nat).
    + rewrite (proj2 (Z.eqb_eq _ _)) by lia. by rewrite !bool_decide_true by lia.
    + rewrite (bool_decide_false (_ < _)%nat) by lia. rewrite andb_false_r. by rewrite bool_decide_false by lia.
Qed.
End SpiPump.
