(* ===== verification/Conformance.v ===== *)
(** The conformance harness ([conformance/src/lib.rs]): the handle on the
    simulated device, and the two loopback transports a [Session] drives it
    through. [None] is a panic of the harness or an abort of the device. *)
From S2P Require Import Prelude Errors Frame Image Stream Transport Device DeviceLink.

Definition PAGE_SIZE : Z := 128.
Definition APP_PAGES : Z := 32.
Definition REGION : Z := PAGE_SIZE * APP_PAGES.
Definition RESP_CAP : Z := 259.
Definition STREAM_RESP_CAP : Z := 512.

(** [port_info] of [conformance/sim/sim_port.c]. *)
Definition sim_port_info : port_info := mkPortInfo 128 32 [0x53; 0x49; 0x4D; 0x30] 1.

(** The static state of the C side: the device, and its link. *)
Record World := mkWorld { w_sim : Sim; w_link : link_t }.

Module Harness.

Definition reset (preserve_flash : bool) (w : World) : World :=
  mkWorld (sim_reset preserve_flash sim_port_info (g_flash (w_sim w))) (link_init (l_buf (w_link w))).
(** Whatever an earlier test left. *)
Definition acquire (w : World) : World := reset false w.
Definition powercut_after (flash_ops : Z) (w : World) : World :=
  mkWorld (sim_powercut_after flash_ops (w_sim w)) (w_link w).
Definition powercut_hit (w : World) : bool := g_cut_hit (w_sim w).
Definition flash_ops (w : World) : Z := g_ops (w_sim w).
Definition jumped (w : World) : bool := g_jumped (w_sim w).
Definition flash_snapshot (w : World) : list Z := g_flash (w_sim w).

Definition request (frame : list Z) (w : World) : option (list Z * World) :=
  _ ← u16_try_from (len frame);
  '(raw, s) ← sim_request frame (w_sim w);
  if RESP_CAP <? len raw then None else Some (raw, mkWorld s (w_link w)).

Definition flash_xor (offset mask : Z) (w : World) : option World :=
  if negb (offset <? REGION) then None else
  b ← get_at offset (g_flash (w_sim w));
  Some (mkWorld (with_flash (<[Z.to_nat offset := Z.lxor b mask]> (g_flash (w_sim w))) (w_sim w)) (w_link w)).

Definition request_stream (bytes : list Z) (w : World) : option (list Z * World) :=
  _ ← u16_try_from (len bytes);
  '(raw, (l, s)) ← sim_request_stream STREAM_RESP_CAP bytes (w_link w) (w_sim w);
  Some (raw, mkWorld s l).

End Harness.

(** [SimTransport::request]: the answer, padded as an idle bus reads; the
    call cannot fail. *)
Definition sim_transport_request (w : World) (req rsp : list Z) : option (Z * (World * list Z)) :=
  '(raw, w) ← Harness.request req w;
  let n := Z.min (len raw) (len rsp) in
  Some (len rsp, (w, take (Z.to_nat n) raw ++ replicate (Z.to_nat (len rsp - n)) 0xFF)).

Inductive StreamError := StreamErr.

Section stream_transport.
Context `{PtrWidth}.

(** The scan of a response stream: the first frame it completes. *)
Fixpoint scan_lag (lag : nat) (sc : RxScanner) (rsp : list Z) : RxScanner * list Z :=
  match lag with
  | O => (sc, rsp)
  | S lag => let '(_, (sc, rsp)) := push sc 0x00 rsp in scan_lag lag sc rsp
  end.
Fixpoint scan_raw (raw : list Z) (sc : RxScanner) (rsp : list Z) : result Z StreamError * list Z :=
  match raw with
  | [] => (Err StreamErr, rsp)
  | b :: raw =>
    match push sc b rsp with
    | (Scan.Done n, (_, rsp)) => (Ok n, rsp)
    | (_, (sc, rsp)) => scan_raw raw sc rsp
    end
  end.

(** [SimStreamTransport::request]. *)
Definition sim_stream_transport_request (lag : nat) (w : World) (req rsp : list Z)
    : option (result Z StreamError * (World * list Z)) :=
  let tx := SYNC :: req in
  '(raw, w) ← Harness.request_stream tx w;
  let '(scanner, rsp) := scan_lag lag rx_new rsp in
  let '(r, rsp) := scan_raw raw scanner rsp in
  Some (r, (w, rsp)).

End stream_transport.

(** ** The two loopbacks carry the same exchanges *)

Record world_ok (w : World) : Prop := {
  wo_sim : sim_ok (w_sim w);
  wo_link : link_inv (w_link w);
  wo_cap : len (l_buf (w_link w)) = 255;
}.

(** A request frame makes the device answer with a reply frame, or not at all. *)
Lemma sim_request_frame_reply s cmd payload : sim_ok s -> bytes payload -> len payload <= PAYLOAD_MAX ->
  exists raw s', sim_request (wire cmd payload) s = Some (raw, s') /\ sim_ok s' /\ s_info s' = s_info s
    /\ (raw = [] \/ exists rsp, raw = reply cmd rsp /\ bytes rsp /\ 1 <= len rsp <= 17).
Proof.
  intros Hok Hb Hl. pose proof (so_wf _ Hok) as Hwf. destruct (g_dead s || g_jumped s) eqn:Hd.
  { exists [], s. split; [by apply sim_request_silent|]. split_and!; try done. by left. }
  destruct (sim_request_wire s cmd payload) as (rsp & s1 & s' & _ & Hh & Hr & Hok' & Hi & _); [done..|].
  pose proof (handles_rsp _ _ _ _ _ Hh (dw_id _ _ Hwf)) as [? (st & rest & ->)].
  pose proof (len_nonneg rest). rewrite Hr. eexists _, s'. split_and!; [done..|].
  destruct (g_dead s1); [by left|right]. eexists. split_and!; [done|by eapply handles_rsp_bytes| |done].
  rewrite len_cons. lia.
Qed.

Lemma len_reply cmd rsp : len (reply cmd rsp) = len rsp + 3.
Proof. apply len_wire. Qed.

(** What the request transport leaves in the response window. *)
Definition padded (raw : list Z) (n : Z) : list Z :=
  take (Z.to_nat (Z.min (len raw) n)) raw ++ replicate (Z.to_nat (n - Z.min (len raw) n)) 0xFF.

Lemma sim_transport_eq w req rsp raw s : len req <= 65535 -> len raw <= RESP_CAP ->
  sim_request req (w_sim w) = Some (raw, s) ->
  sim_transport_request w req rsp = Some (len rsp, (mkWorld s (w_link w), padded raw (len rsp))).
Proof.
  intros Hl Hraw Hr. unfold sim_transport_request, Harness.request, u16_try_from.
  rewrite (proj2 (Z.leb_le _ _)) by done. cbn [mbind option_bind]. rewrite Hr. cbn [mbind option_bind].
  by rewrite (proj2 (Z.ltb_ge _ _)) by done.
Qed.

Section loopback.
Context `{PtrWidth}.

Lemma scan_lag_hunts lag rsp : scan_lag lag rx_new rsp = (rx_new, rsp).
Proof. induction lag as [|lag IH]; [done|]. exact IH. Qed.

Lemma scan_raw_done raw : forall sc rsp n, ends_done (outcomes sc rsp raw) n ->
  scan_raw raw sc rsp = (Ok n, snd (after sc rsp raw)).
Proof.
  induction raw as [|b raw IH]; intros sc rsp n Hd; cbn [outcomes scan_raw after] in *.
  { destruct Hd as ([|] & ? & _); done. }
  destruct (push sc b rsp) as [o [sc1 rsp1]]. apply ends_done_cons in Hd as [[Ho ->]|[Hno Hd]].
  - by destruct raw; [|cbn in Ho; destruct (push _ _ _) as [? [? ?]]].
  - destruct o as [| |k|]; try (by apply IH). by destruct (Hno k).
Qed.

(** A reply behind its sync byte is found whole at the front of the window. *)
Lemma scan_raw_reply lag cmd p rsp : slice rsp -> is_u8 cmd -> bytes p -> len p <= PAYLOAD_MAX ->
  len p + 3 <= len rsp ->
  exists rsp', (let '(sc, rsp) := scan_lag lag rx_new rsp in scan_raw (link_send (wire cmd p)) sc rsp)
      = (Ok (len (wire cmd p)), rsp')
    /\ take (length (wire cmd p)) rsp' = wire cmd p.
Proof.
  intros Hrsp Hc Hp Hm Hl. rewrite scan_lag_hunts.
  destruct (frame_ends_done rsp [] cmd p) as [Hd _]; try done; [by constructor..|].
  change ([] ++ SYNC :: wire cmd p) with (link_send (wire cmd p)) in Hd.
  rewrite (scan_raw_done _ _ _ _ Hd), len_wire. eexists. split; [done|].
  by apply (after_frame rsp []); try done; constructor.
Qed.

Lemma scan_feed_one cap cmd p : is_u8 cmd -> bytes p -> len p <= PAYLOAD_MAX -> len p + 3 <= cap ->
  scan_feed cap Hunting (SYNC :: wire cmd p) = [wire cmd p].
Proof.
  intros Hc Hp Hm Hl. change PAYLOAD_MAX with 252 in Hm.
  assert (bytes (SYNC :: wire cmd p)) by (apply bytes_cons; split; [by unfold SYNC|by apply wire_bytes; [..|lia]]).
  rewrite (scan_feed_frames cap (S (length (wire cmd p)))) by (done || simpl; lia).
  rewrite <- (app_nil_r (SYNC :: wire cmd p)). cbn [app]. by rewrite stream_frames_wire.
Qed.
End loopback.

Section properties.
Context `{PtrWidth}.

(** The stream transport's scan of what the device sent back. *)
Lemma stream_transport_reply w cmd payload lag rsp raw s l :
  is_u8 cmd -> len payload <= PAYLOAD_MAX -> slice rsp ->
  (raw = [] \/ exists p, raw = reply cmd p /\ bytes p /\ 1 <= len p <= 17) ->
  sim_request_stream STREAM_RESP_CAP (SYNC :: wire cmd payload) (w_link w) (w_sim w) = Some (sent_reply raw, (l, s)) ->
  exists rsp2 r, sim_stream_transport_request lag w (wire cmd payload) rsp = Some (r, (mkWorld s l, rsp2))
    /\ (raw = [] /\ r = Err StreamErr
        \/ exists p, raw = reply cmd p /\ (len raw <= len rsp ->
             r = Ok (len raw) /\ decode (take (length raw) rsp2) = Ok (mkFrame (Z.lor cmd RSP_FLAG) p))).
Proof.
  intros Hc Hl Hrsp Hraw Hgo. change PAYLOAD_MAX with 252 in Hl.
  unfold sim_stream_transport_request, Harness.request_stream, u16_try_from.
  rewrite len_cons, len_wire, (proj2 (Z.leb_le _ _)) by lia. cbn [mbind option_bind]. rewrite Hgo.
  cbn [mbind option_bind app].
  destruct Hraw as [->|(p & -> & Hp & Hpl)].
  { cbn [sent_reply]. rewrite scan_lag_hunts. eexists _, _. split; [done|]. by left. }
  change (sent_reply (reply cmd p)) with (link_send (reply cmd p)).
  destruct (scan_lag lag rx_new rsp) as [sc rsp'] eqn:Hlag.
  destruct (scan_raw (link_send (reply cmd p)) sc rsp') as [r rsp2] eqn:Hsc.
  exists rsp2, r. split; [done|]. right. exists p. split; [done|]. intros Hfit. rewrite len_reply in Hfit.
  destruct (scan_raw_reply lag (Z.lor cmd RSP_FLAG) p rsp) as (rsp3 & Hsc' & Htake); try done.
  { apply lor_u8; [done|by vm_compute]. } { change PAYLOAD_MAX with 252. lia. }
  rewrite Hlag in Hsc'. unfold reply in Hsc. rewrite Hsc in Hsc'. injection Hsc' as -> ->. split; [done|].
  unfold reply. rewrite Htake. apply decode_wire. change PAYLOAD_MAX with 252. lia.
Qed.

(** The two loopback transports carry the same exchange. One request frame
    through either leaves the device the same; whenever the answer fits the
    response window the stream transport's scan finds the very frame that is at
    the front of the padded window, whatever lag precedes it; and silence is
    idle bytes on the one and an error on the other. *)
Theorem loopbacks_agree w cmd payload lag rsp :
  world_ok w -> l_in_frame (w_link w) = false -> is_u8 cmd -> bytes payload -> len payload <= PAYLOAD_MAX ->
  slice rsp ->
  exists raw s l rsp1 rsp2 r,
    sim_transport_request w (wire cmd payload) rsp = Some (len rsp, (mkWorld s (w_link w), rsp1))
    /\ sim_stream_transport_request lag w (wire cmd payload) rsp = Some (r, (mkWorld s l, rsp2))
    /\ world_ok (mkWorld s l)
    /\ (raw = [] /\ r = Err StreamErr /\ rsp1 = replicate (length rsp) 0xFF
        \/ exists p, raw = reply cmd p /\ (len raw <= len rsp ->
             r = Ok (len raw) /\ decode (take (length raw) rsp2) = Ok (mkFrame (Z.lor cmd RSP_FLAG) p)
             /\ decode_padded rsp1 = Ok (mkFrame (Z.lor cmd RSP_FLAG) p))).
Proof.
  intros [Hok Hlink Hcap] Hhunt Hc Hb Hl Hrsp. pose proof Hl as Hl'. change PAYLOAD_MAX with 252 in Hl'.
  destruct (sim_request_frame_reply (w_sim w) cmd payload) as (raw & s & Hr & Hok' & Hi & Hraw); [done..|].
  assert (len raw <= 20) as Hrl.
  { destruct Hraw as [->|(p & -> & _ & ?)]; [by vm_compute|]. rewrite len_reply. lia. }
  assert (bytes (SYNC :: wire cmd payload)) as Htx
    by (apply bytes_cons; split; [by unfold SYNC|by apply wire_bytes; [..|lia]]).
  destruct (sim_request_stream_spec STREAM_RESP_CAP (SYNC :: wire cmd payload) (w_link w) (w_sim w))
    as (out & s1 & Hsv & Hgo); try done.
  assert (link_abs (w_link w) = Hunting) as Habs by (unfold link_abs; by rewrite Hhunt).
  rewrite Habs, Hcap, scan_feed_one in Hsv by (done || lia). cbn [serve] in Hsv. rewrite Hr in Hsv.
  cbn [mbind option_bind] in Hsv. injection Hsv as <- <-. rewrite app_nil_r in Hgo.
  destruct Hgo as (l & Hgo & Hlink' & Hcap' & _).
  { change STREAM_RESP_CAP with 512. rewrite len_nil. destruct raw; [by vm_compute|].
    unfold sent_reply, link_send. rewrite (len_cons UPD_LINK_SYNC). lia. }
  exists raw, s, l, (padded raw (len rsp)).
  destruct (stream_transport_reply w cmd payload lag rsp raw s l) as (rsp2 & r & Hst & Hcase); try done.
  exists rsp2, r. split.
  { apply sim_transport_eq; [rewrite len_wire; lia|change RESP_CAP with 259; lia|done]. }
  split; [done|]. split; [split; [done|done|exact (eq_trans Hcap' Hcap)]|]. destruct Hcase as [[-> ->]|(p & -> & Hd)].
  - left. split_and!; try done. unfold padded. pose proof (len_nonneg rsp).
    rewrite len_nil, Z.min_l, Z.sub_0_r, to_nat_len by lia. done.
  - right. exists p. split; [done|]. intros Hfit. destruct (Hd Hfit) as [-> Hdec]. split_and!; try done.
    unfold padded. rewrite Z.min_l, to_nat_len, take_ge by lia. apply decode_padded_wire.
    rewrite len_reply in Hrl. change PAYLOAD_MAX with 252. lia.
Qed.
End properties.

(** ** Witness *)
Definition sample_world : World := mkWorld sample_sim (link_init (replicate 255 0)).

Lemma loopbacks_agree_witness :
  exists s l rsp1 rsp2 r,
    sim_transport_request sample_world (wire CMD_ECHO [7]) (replicate 8 0)
      = Some (8, (mkWorld s (w_link sample_world), rsp1))
    /\ sim_stream_transport_request (H:=ptr64) 2 sample_world (wire CMD_ECHO [7]) (replicate 8 0)
      = Some (r, (mkWorld s l, rsp2)).
Proof.
  destruct (loopbacks_agree (H:=ptr64) sample_world CMD_ECHO [7] 2 (replicate 8 0))
    as (raw & s & l & rsp1 & rsp2 & r & H1 & H2 & _).
  - split; [split; [exact sample_wf|reflexivity]| |reflexivity].
    split; [exact (bytes_replicate 255 0 ltac:(lia))|by vm_compute|done].
  - reflexivity.
  - by vm_compute.
  - repeat constructor; lia.
  - by vm_compute.
  - split; [exact (bytes_replicate 8 0 ltac:(lia))|by vm_compute].
  - exists s, l, rsp1, rsp2, r. split; [exact H1|exact H2].
Defined.
