(* ===== verification/AvrTwi.v ===== *)
(** The I2C port ([device/ports/avr_ea_twi]): the polled bus client ([twi.c])
    as a state machine on the peripheral's status flags, and the main loop
    around it ([main.c]) over the core and the simulated port's flash. The bus
    is the sequence of conditions the peripheral reports, each standing until it
    is serviced, while the clock is stretched. A whole transaction, written with
    or without a stop before the answer is read, is [sim_request]. *)
From S2P Require Import Prelude Errors Frame Device Conformance.

Module AvrTwi.

Definition UPDATER_RX_BUF_SIZE : Z := 136.
Definition UPDATER_RSP_PAYLOAD_MAX : Z := 17.
Definition UPDATER_TX_BUF_SIZE : Z := UPDATER_RSP_PAYLOAD_MAX + UPD_FRAME_OVERHEAD.
Definition UPDATER_T_ENTRY_MS : Z := 300.

(** ** [twi.c] *)
Record Rx := mkRx {
  rx_buf : list Z;
  rx_len : Z;
  rx_frame : Z;
  rx_over : bool;
  rx_done : bool;
  in_write : bool;
}.
Record Tx := mkTx {
  tx_buf : list Z;
  tx_len : Z;
  tx_idx : Z;
  tx_first : bool;
  tx_active : bool;
  tx_consumed : bool;
}.
Record Twi := mkTwi { rx : Rx; awaiting : bool; tx : Tx }.

(** [SSTATUS]: bus error or collision, address or stop, address match, data,
    direction (the host reads), and the host's acknowledge (true for none). *)
Record Sstatus := mkSstatus { st_err : bool; st_apif : bool; st_ap : bool; st_dif : bool; st_dir : bool; st_rxack : bool }.
(** What ends a condition: a command, or the flags being cleared. *)
Inductive Scmd := SCMD_RESPONSE | SCMD_COMPTRANS | Cleared.

Definition end_read_txn (t : Tx) : Tx :=
  mkTx (tx_buf t) (tx_len t) (tx_idx t) false false
    (if negb (tx_len t =? 0) && (tx_len t <=? tx_idx t) then true else tx_consumed t).

(** The end of a write segment parks the frame. *)
Definition end_write (r : Rx) : Rx :=
  if in_write r then
    let whole := negb (rx_len r =? 0) && negb (rx_over r) in
    mkRx (rx_buf r) 0 (if whole then rx_len r else rx_frame r) false (if whole then true else rx_done r) false
  else r.

(** One poll: the state, the byte put into [SDATA] and the command; none leaves
    the condition standing. *)
Definition twi_poll (st : Sstatus) (sdata : Z) (t : Twi) : Twi * (option Z * option Scmd) :=
  let '(mkTwi r aw x) := t in
  if st_err st then
    (mkTwi (mkRx (rx_buf r) 0 (rx_frame r) false (rx_done r) false) aw
       (mkTx (tx_buf x) (tx_len x) (tx_idx x) false false (tx_consumed x)), (None, Some Cleared))
  else if st_apif st then
    if st_ap st then
      let r := end_write r in
      if rx_done r || aw then (mkTwi r aw x, (None, None)) else
      if st_dir st then
        (mkTwi r aw (mkTx (tx_buf x) (tx_len x) 0 true true (tx_consumed x)), (None, Some SCMD_RESPONSE))
      else
        (mkTwi (mkRx (rx_buf r) 0 (rx_frame r) false (rx_done r) true) aw
           (mkTx (tx_buf x) 0 (tx_idx x) (tx_first x) (tx_active x) (tx_consumed x)), (None, Some SCMD_RESPONSE))
    else
      let x := if tx_active x then end_read_txn x else x in
      (mkTwi (end_write r) aw x, (None, Some SCMD_COMPTRANS))
  else if st_dif st then
    if st_dir st then
      if negb (tx_first x) && st_rxack st then (mkTwi r aw (end_read_txn x), (None, Some SCMD_COMPTRANS)) else
      if tx_idx x <? tx_len x then
        (mkTwi r aw (mkTx (tx_buf x) (tx_len x) (tx_idx x + 1) false (tx_active x) (tx_consumed x)),
         (Some (default 0 (get_at (tx_idx x) (tx_buf x))), Some SCMD_RESPONSE))
      else
        (mkTwi r aw (mkTx (tx_buf x) (tx_len x) (tx_idx x) false (tx_active x) (tx_consumed x)),
         (Some 0xFF, Some SCMD_RESPONSE))
    else
      let r := if in_write r then
                 if rx_len r <? UPDATER_RX_BUF_SIZE
                 then mkRx (<[Z.to_nat (rx_len r) := sdata]> (rx_buf r)) (rx_len r + 1) (rx_frame r) (rx_over r) (rx_done r) true
                 else mkRx (rx_buf r) (rx_len r) (rx_frame r) true (rx_done r) true
               else r in
      (mkTwi r aw x, (None, Some SCMD_RESPONSE))
  else (t, (None, None)).

(** [port_recv] behind its poll: the parked frame, if there is one. *)
Definition port_recv (t : Twi) : option (list Z) * Twi :=
  let '(mkTwi r aw x) := t in
  if negb (rx_done r) then (None, t) else
  (Some (take (Z.to_nat (rx_frame r)) (rx_buf r)),
   mkTwi (mkRx (rx_buf r) (rx_len r) (rx_frame r) (rx_over r) false (in_write r)) true
     (mkTx (tx_buf x) 0 (tx_idx x) (tx_first x) (tx_active x) false)).

Definition port_send (buf : list Z) (t : Twi) : Twi :=
  let buf := take (Z.to_nat UPDATER_TX_BUF_SIZE) buf in
  mkTwi (rx t) false (mkTx (overwrite 0 buf (tx_buf (tx t))) (len buf) 0 (tx_first (tx t)) (tx_active (tx t)) false).

Definition twi_response_consumed (t : Twi) : bool := tx_consumed (tx t).

(** ** [main.c] *)
Record Board := mkBoard { b_twi : Twi; b_sim : Sim; b_resident : bool }.

(** What becomes of a received frame. *)
Definition answer (frame : list Z) (b : Board) : option Board :=
  match upd_frame_parse frame with
  | Some req =>
      '(payload, s) ← upd_handle (b_sim b) req UPDATER_RSP_PAYLOAD_MAX;
      Some (mkBoard (port_send (upd_frame_build UPDATER_TX_BUF_SIZE (Z.lor (uf_cmd req) RSP_FLAG) payload) (b_twi b)) s true)
  | None =>
      Some (mkBoard (port_send (upd_frame_build UPDATER_TX_BUF_SIZE (Z.lor (default 0 (head frame)) RSP_FLAG) [ST_BAD_FRAME])
        (b_twi b)) (b_sim b) (b_resident b))
  end.
Definition receive_step (b : Board) : option Board :=
  match port_recv (b_twi b) with
  | (Some frame, t) => answer frame (mkBoard t (b_sim b) (b_resident b))
  | (None, _) => Some b
  end.

Definition boot_step (b : Board) : option Board :=
  if s_boot_pending (b_sim b) && twi_response_consumed (b_twi b) then
    '(_, s) ← upd_boot_if_valid (with_boot_pending false (b_sim b)); Some (mkBoard (b_twi b) s (b_resident b))
  else Some b.

(** The application takes over where [upd_boot_if_valid] jumps, so nothing of a
    lap follows that. *)
Definition entry_step (ticks : Z) (b : Board) : option Board :=
  if g_jumped (b_sim b) then Some b else
  if negb (b_resident b) && (UPDATER_T_ENTRY_MS <=? ticks) then
    '(jumped, s) ← upd_boot_if_valid (b_sim b);
    Some (mkBoard (b_twi b) s (if (jumped : bool) then b_resident b else true))
  else Some b.

(** A lap of the loop, behind its poll of the bus. *)
Definition lap_rest (ticks : Z) (b : Board) : option Board :=
  b ← receive_step b; b ← boot_step b; entry_step ticks b.

(** ** The bus *)
Inductive condition :=
| Address (read : bool)
| Written (d : Z)
| Wanted (nack : bool)
| Stop
| Collision.

Definition status (c : condition) : Sstatus :=
  match c with
  | Address read => mkSstatus false true true false read false
  | Written _ => mkSstatus false false false true false false
  | Wanted nack => mkSstatus false false false true true nack
  | Stop => mkSstatus false true false false false false
  | Collision => mkSstatus true false false false false false
  end.
Definition sdata (c : condition) : Z := match c with Written d => d | _ => 0 end.

(** The loop until every condition is serviced, or the application runs; the
    bytes the host was given. [None] when the fuel, a lap per unit, runs out. *)
Fixpoint run_bus (fuel : nat) (ticks : Z) (cs : list condition) (b : Board) : option (list Z * Board) :=
  match cs with
  | [] => Some ([], b)
  | c :: rest =>
    match fuel with
    | O => None
    | S fuel =>
      if g_jumped (b_sim b) then Some ([], b) else
      let '(t, (out, cmd)) := twi_poll (status c) (sdata c) (b_twi b) in
      b ← lap_rest ticks (mkBoard t (b_sim b) (b_resident b));
      '(outs, b) ← run_bus fuel ticks (match cmd with Some _ => rest | None => cs end) b;
      Some (option_list out ++ outs, b)
    end
  end.

(** ** What a request becomes *)
Lemma boot_uncut s v s' : upd_boot_if_valid (with_boot_pending false s) = Some (v, s') -> uncut s -> uncut s'.
Proof.
  unfold upd_boot_if_valid. destruct (upd_app_valid _ _) as [[]|]; cbn; [by intros [= _ <-]..|done].
Qed.

(** The board has answered: it holds the device's answer and the session that
    produced it; the jump of a BOOT is due when the answer has been read. *)
Lemma answer_spec frame b : sim_ok (b_sim b) -> uncut (b_sim b) -> g_jumped (b_sim b) = false -> bytes frame ->
  len frame <= 255 ->
  exists raw s1 s' res, sim_request frame (b_sim b) = Some (raw, s')
    /\ answer frame b = Some (mkBoard (port_send raw (b_twi b)) s1 res)
    /\ 1 <= len raw <= UPDATER_TX_BUF_SIZE /\ g_jumped s1 = false /\ (b_resident b = true -> res = true)
    /\ sim_ok s' /\ uncut s' /\ (g_jumped s' = true -> s_boot_pending s1 = true)
    /\ forall t, tx_consumed (tx t) = true -> boot_step (mkBoard t s1 res) = Some (mkBoard t s' res).
Proof.
  intros Hok Hun Hj Hb Hl. assert (g_dead (b_sim b) || g_jumped (b_sim b) = false) as Hd by (by rewrite (proj2 Hun), Hj).
  unfold answer. destruct (upd_frame_parse frame) as [f|] eqn:Hp.
  - pose proof (parse_inv _ _ Hb Hp) as [Hw Hlf]. destruct f as [cmd n payload]. cbn [uf_cmd uf_payload uf_len] in *. subst n frame.
    rewrite len_wire in Hl. assert (bytes payload) as Hpb.
    { unfold wire in Hb. rewrite !bytes_cons, bytes_app in Hb. tauto. }
    destruct (sim_request_wire (b_sim b) cmd payload) as (rsp & s1 & s' & Hh & Hhs & Hr & Hok' & Hi & Hset);
      [done|done|done|change PAYLOAD_MAX with 252; lia|].
    pose proof (upd_handle_uncut _ _ _ _ _ Hun Hh) as Hun1. rewrite (proj2 Hun1) in Hr, Hset.
    pose proof (handles_rsp _ _ _ _ _ Hhs (dw_id _ _ (so_wf _ Hok))) as [Hrl (st & rest & Hne)].
    pose proof (handles_keeps _ _ _ _ _ Hhs) as (_ & Hj1 & _).
    rewrite upd_handle_cap, Hh by done. cbn [mbind option_bind]. pose proof (len_nonneg rest) as Hrest.
    assert (1 <= len rsp) by (rewrite Hne, len_cons; lia).
    rewrite build_wire by (unfold UPDATER_TX_BUF_SIZE, UPDATER_RSP_PAYLOAD_MAX, UPD_FRAME_OVERHEAD; change PAYLOAD_MAX with 252; lia).
    fold (reply cmd rsp). exists (reply cmd rsp), s1, s', true. split; [exact Hr|]. split; [done|].
    split; [unfold reply; rewrite len_wire; unfold UPDATER_TX_BUF_SIZE, UPDATER_RSP_PAYLOAD_MAX, UPD_FRAME_OVERHEAD; lia|].
    split; [congruence|]. split; [done|]. split; [done|].
    unfold sim_request in Hr. rewrite Hd, len_wire, (proj2 (Z.leb_le _ 255)), parse_wire, Hh in Hr by lia.
    cbn [mbind option_bind uf_cmd] in Hr. rewrite (proj2 Hun1) in Hr. unfold boot_step. cbn [b_sim b_twi b_resident].
    destruct (s_boot_pending s1) eqn:Hbp.
    + destruct (upd_boot_if_valid (with_boot_pending false s1)) as [[v s2]|] eqn:Hv; [|done]. cbn [mbind option_bind] in Hr.
      injection Hr as _ <-. split; [by apply (boot_uncut s1 v)|]. split; [done|]. intros t Ht.
      unfold twi_response_consumed. cbn [andb]. by rewrite Ht.
    + injection Hr as _ <-. split; [done|]. split; [congruence|]. done.
  - destruct (sim_request_total frame (b_sim b) Hok Hb) as (raw & s' & Hr & _).
    rewrite sim_request_garbled in Hr by auto. injection Hr as <- <-. cbn [mbind option_bind].
    rewrite build_wire by (unfold UPDATER_TX_BUF_SIZE, UPDATER_RSP_PAYLOAD_MAX, UPD_FRAME_OVERHEAD; by vm_compute).
    fold (reply (default 0 (head frame)) [ST_BAD_FRAME]). eexists _, _, _, _.
    split; [by apply sim_request_garbled; auto|]. split; [done|].
    split; [unfold reply; rewrite len_wire; by vm_compute|]. split_and!; try done; [congruence|].
    intros t Ht. unfold boot_step. cbn [b_sim]. by rewrite (so_idle _ Hok).
Qed.

(** ** Laps *)
Section laps.
Context (ticks : Z).

(** Nothing for the rest of a lap to do. *)
Definition quiet (b : Board) : Prop :=
  rx_done (rx (b_twi b)) = false
  /\ s_boot_pending (b_sim b) && tx_consumed (tx (b_twi b)) = false
  /\ g_jumped (b_sim b) = false /\ (b_resident b = true \/ ticks < UPDATER_T_ENTRY_MS).

Lemma entry_stays t s res : res = true \/ ticks < UPDATER_T_ENTRY_MS -> entry_step ticks (mkBoard t s res) = Some (mkBoard t s res).
Proof.
  intros Hres. unfold entry_step. cbn [b_sim b_resident]. destruct (g_jumped s); [done|]. destruct Hres as [->|Hres]; [done|].
  by rewrite (proj2 (Z.leb_gt _ _)), andb_false_r.
Qed.

Lemma lap_quiet b : quiet b -> lap_rest ticks b = Some b.
Proof.
  intros (Hd & Hc & Hj & Ht). destruct b as [[r aw x] s res]. cbn [rx tx b_twi b_sim b_resident] in *.
  unfold lap_rest, receive_step. unfold port_recv. cbn [b_twi]. rewrite Hd. cbn [negb mbind option_bind].
  unfold boot_step, twi_response_consumed. cbn [b_sim b_twi tx]. rewrite Hc. cbn [mbind option_bind].
  by apply entry_stays.
Qed.

(** A condition that is serviced in one lap. *)
Lemma run_serviced f c rest b t out cmd b1 : g_jumped (b_sim b) = false ->
  twi_poll (status c) (sdata c) (b_twi b) = (t, (out, Some cmd)) ->
  lap_rest ticks (mkBoard t (b_sim b) (b_resident b)) = Some b1 ->
  run_bus (S f) ticks (c :: rest) b
    = '(outs, b2) ← run_bus f ticks rest b1; Some (option_list out ++ outs, b2).
Proof. intros Hj Hp Hl. cbn [run_bus]. rewrite Hj, Hp, Hl. done. Qed.

Lemma run_quiet f c rest b t out cmd :
  twi_poll (status c) (sdata c) (b_twi b) = (t, (out, Some cmd)) ->
  quiet (mkBoard t (b_sim b) (b_resident b)) ->
  run_bus (S f) ticks (c :: rest) b
    = '(outs, b2) ← run_bus f ticks rest (mkBoard t (b_sim b) (b_resident b)); Some (option_list out ++ outs, b2).
Proof. intros Hp Hq. eapply run_serviced; [apply Hq|done|by apply lap_quiet]. Qed.

Lemma bind_unit {A} (o : option (list Z * A)) : ('(outs, b) ← o; Some ([] ++ outs, b)) = o.
Proof. by destruct o as [[]|]. Qed.

(** Between transactions: nothing parked or awaited, the buffers as declared. *)
Record at_rest (b : Board) : Prop := {
  id_wait : awaiting (b_twi b) = false;
  id_done : rx_done (rx (b_twi b)) = false;
  id_write : in_write (rx (b_twi b)) = false;
  id_read : tx_active (tx (b_twi b)) = false;
  id_rx : len (rx_buf (rx (b_twi b))) = UPDATER_RX_BUF_SIZE;
  id_tx : len (tx_buf (tx (b_twi b))) = UPDATER_TX_BUF_SIZE;
  id_sim : sim_ok (b_sim b);
  id_uncut : uncut (b_sim b);
  id_jump : g_jumped (b_sim b) = false;
  id_stay : b_resident b = true \/ ticks < UPDATER_T_ENTRY_MS;
}.

(** ** Writing *)

(** In a write, [got] received and the rest of the buffer whatever it was. *)
Definition writing (got : list Z) (x : Tx) (s : Sim) (res : bool) (b : Board) : Prop :=
  exists buf fr over, b = mkBoard (mkTwi (mkRx buf (Z.min (len got) UPDATER_RX_BUF_SIZE) fr over false true) false x) s res
    /\ len buf = UPDATER_RX_BUF_SIZE /\ over = (UPDATER_RX_BUF_SIZE <? len got)
    /\ (over = false -> take (length got) buf = got).

Lemma write_byte f d rest got x s res b : writing got x s res b ->
  s_boot_pending s = false -> g_jumped s = false -> res = true \/ ticks < UPDATER_T_ENTRY_MS ->
  exists b', writing (got ++ [d]) x s res b' /\ run_bus (S f) ticks (Written d :: rest) b = run_bus f ticks rest b'.
Proof.
  intros (buf & fr & over & -> & Hl & -> & Ht) Hbp Hj Hres. pose proof (len_nonneg got).
  assert (forall r, rx_done r = false -> quiet (mkBoard (mkTwi r false x) s res)) as Hq.
  { intros r Hr. unfold quiet. cbn. by rewrite Hbp. }
  assert (len (got ++ [d]) = len got + 1) as Hlg by (by rewrite len_app, len_cons).
  destruct (Z.ltb_spec UPDATER_RX_BUF_SIZE (len got)) as [Hov|Hov]; [|destruct (Z.eq_dec (len got) UPDATER_RX_BUF_SIZE) as [Hfull|Hroom]].
  1-2: eexists; split; [|erewrite run_quiet;
         [|cbn; rewrite (proj2 (Z.ltb_ge _ _)) by lia; reflexivity|by apply Hq]; by apply bind_unit].
  1-2: eexists buf, fr, true; split_and!; [|done| |done]; [by rewrite !Z.min_r by lia|].
  1-2: rewrite Hlg; symmetry; apply Z.ltb_lt; lia.
  eexists. split; [|erewrite run_quiet;
         [|cbn; rewrite Z.min_l, (proj2 (Z.ltb_lt _ _)) by lia; reflexivity|by apply Hq]; by apply bind_unit].
  eexists _, fr, false. split_and!; [rewrite (Z.min_l (len (got ++ [d]))), Hlg by lia; reflexivity|unfold len in *; by rewrite length_insert| |].
  - rewrite Hlg. symmetry. apply Z.ltb_ge. lia.
  - intros _. rewrite length_app. cbn [length]. rewrite Nat.add_1_r. specialize (Ht eq_refl).
    rewrite to_nat_len. erewrite take_S_r; [|apply list_lookup_insert_eq; unfold len in *; lia].
    rewrite take_insert_ge by done. by rewrite Ht.
Qed.

Lemma write_bytes frame : forall f rest got x s res b, writing got x s res b ->
  s_boot_pending s = false -> g_jumped s = false -> res = true \/ ticks < UPDATER_T_ENTRY_MS ->
  exists b', writing (got ++ frame) x s res b'
    /\ run_bus (length frame + f) ticks ((Written <$> frame) ++ rest) b = run_bus f ticks rest b'.
Proof.
  induction frame as [|d frame IH]; intros f rest got x s res b Hw Hbp Hj Hres.
  - exists b. by rewrite app_nil_r.
  - destruct (write_byte (length frame + f) d ((Written <$> frame) ++ rest) got x s res b Hw) as (b1 & Hw1 & H1); [done..|].
    destruct (IH f rest (got ++ [d]) x s res b1 Hw1) as (b2 & Hw2 & H2); [done..|].
    exists b2. rewrite <- app_assoc in Hw2. split; [done|]. rewrite <- H2, <- H1. done.
Qed.

(** ** Reading *)

(** An answer is armed, between transactions; [c] once it was streamed whole. *)
Definition armed (raw : list Z) (c : bool) (s : Sim) (res : bool) (b : Board) : Prop :=
  exists r buf idx first, b = mkBoard (mkTwi r false (mkTx buf (len raw) idx first false c)) s res
    /\ rx_done r = false /\ in_write r = false /\ len (rx_buf r) = UPDATER_RX_BUF_SIZE
    /\ len buf = UPDATER_TX_BUF_SIZE /\ take (length raw) buf = raw.

(** In a read, [n] bytes given. *)
Definition reading (raw : list Z) (n : Z) (c : bool) (r : Rx) (s : Sim) (res : bool) (b : Board) : Prop :=
  exists buf, b = mkBoard (mkTwi r false (mkTx buf (len raw) (Z.min n (len raw)) (n =? 0) true c)) s res
    /\ len buf = UPDATER_TX_BUF_SIZE /\ take (length raw) buf = raw.

Lemma read_byte f nack rest raw n c r s res b : reading raw n c r s res b -> 0 <= n -> (nack = false \/ n = 0) ->
  rx_done r = false -> s_boot_pending s && c = false -> g_jumped s = false -> res = true \/ ticks < UPDATER_T_ENTRY_MS ->
  exists b', reading raw (n + 1) c r s res b'
    /\ run_bus (S f) ticks (Wanted nack :: rest) b
        = '(outs, b2) ← run_bus f ticks rest b'; Some ([default 0xFF (get_at n raw)] ++ outs, b2).
Proof.
  intros (buf & -> & Hl & Ht) Hn Hnack Hd Hc Hj Hres.
  assert (negb (n =? 0) && nack = false) as Hna by (destruct Hnack as [->| ->]; [apply andb_false_r|done]).
  assert (forall x, tx_consumed x = c -> quiet (mkBoard (mkTwi r false x) s res)) as Hq.
  { intros x Hx. unfold quiet. cbn. by rewrite Hx. }
  destruct (Z.lt_ge_cases n (len raw)) as [Hlt|Hge].
  - eexists. split; [|erewrite run_quiet; [|cbn; rewrite Hna, Z.min_l, (proj2 (Z.ltb_lt _ _)) by lia; reflexivity|by apply Hq]].
    + exists buf. rewrite Z.min_l, (proj2 (Z.eqb_neq (n + 1) 0)) by lia. done.
    + assert (default 0 (get_at n buf) = default 0xFF (get_at n raw)) as ->; [|done].
      assert (get_at n raw = get_at n buf) as ->; [|].
      * unfold get_at. rewrite <- Ht at 1. apply lookup_take_lt. unfold len in Hlt. lia.
      * unfold get_at. destruct (lookup_lt_is_Some_2 raw (Z.to_nat n)) as [y Hy]; [unfold len in Hlt; lia|].
        rewrite <- Ht, lookup_take_lt in Hy by (unfold len in Hlt; lia). by rewrite Hy.
  - eexists. split; [|erewrite run_quiet; [|cbn; rewrite Hna, Z.min_r, (proj2 (Z.ltb_ge _ _)) by lia; reflexivity|by apply Hq]].
    + exists buf. rewrite Z.min_r, (proj2 (Z.eqb_neq (n + 1) 0)) by lia. done.
    + assert (get_at n raw = None) as ->; [|done]. unfold get_at. apply lookup_ge_None_2. unfold len in Hge. lia.
Qed.

(** The bytes given from the [n]th on. *)
Definition given (raw : list Z) (n : Z) (k : nat) : list Z := (fun i => default 0xFF (get_at i raw)) <$> seqZ n (Z.of_nat k).

Lemma given_S raw n k : given raw n (S k) = default 0xFF (get_at n raw) :: given raw (n + 1) k.
Proof. unfold given. rewrite seqZ_cons by lia. cbn [fmap list_fmap]. do 3 f_equal; lia. Qed.
Lemma given_padded raw k : given raw 0 k = padded raw (Z.of_nat k).
Proof.
  apply list_eq. intros i. unfold given, padded. rewrite list_lookup_fmap.
  destruct (decide (i < k)%nat) as [Hi|Hi].
  - rewrite lookup_seqZ_lt by lia. cbn [fmap option_fmap option_map]. rewrite Z.add_0_l. unfold get_at. rewrite Nat2Z.id.
    destruct (raw !! i) as [y|] eqn:Hy.
    + pose proof (lookup_lt_Some _ _ _ Hy). rewrite lookup_app_l, lookup_take_lt by (rewrite ?length_take; unfold len; lia). by rewrite Hy.
    + apply lookup_ge_None in Hy. rewrite lookup_app_r by (rewrite length_take; unfold len; lia).
      rewrite lookup_replicate_2; [done|]. rewrite length_take. unfold len. lia.
  - rewrite lookup_seqZ_ge by lia. symmetry. apply lookup_ge_None. rewrite length_app, length_take, length_replicate. unfold len. lia.
Qed.

Lemma read_bytes k : forall f rest raw n c r s res b, reading raw n c r s res b -> 0 <= n ->
  rx_done r = false -> s_boot_pending s && c = false -> g_jumped s = false -> res = true \/ ticks < UPDATER_T_ENTRY_MS ->
  exists b', reading raw (n + Z.of_nat k) c r s res b'
    /\ run_bus (k + f) ticks (replicate k (Wanted false) ++ rest) b
        = '(outs, b2) ← run_bus f ticks rest b'; Some (given raw n k ++ outs, b2).
Proof.
  induction k as [|k IH]; intros f rest raw n c r s res b Hr Hn Hd Hc Hj Hres.
  - exists b. rewrite Z.add_0_r. split; [done|]. cbn [replicate app Nat.add]. unfold given. cbn. by destruct (run_bus _ _ _ _) as [[]|].
  - destruct (read_byte (k + f) false (replicate k (Wanted false) ++ rest) raw n c r s res b Hr) as (b1 & Hr1 & H1); [by auto..|].
    destruct (IH f rest raw (n + 1) c r s res b1 Hr1) as (b2 & Hr2 & H2); [lia|done..|].
    exists b2. replace (n + Z.of_nat (S k)) with (n + 1 + Z.of_nat k) by lia. split; [done|].
    change (S k + f)%nat with (S (k + f)). cbn [replicate app] in *. rewrite H1, H2, given_S.
    destruct (run_bus f ticks rest b2) as [[]|]; reflexivity.
Qed.

(** What a master does to read [k + 1] bytes: it acknowledges all but the last.
    Before the first, the acknowledge bit is left from earlier. *)
Definition read_txn (stale : bool) (k : nat) : list condition :=
  Address true :: Wanted stale :: replicate k (Wanted false) ++ [Wanted true; Stop].

(** Reading the whole answer. *)
Lemma read_armed f stale k raw c s s' res b : armed raw c s res b -> s_boot_pending s && c = false -> g_jumped s = false ->
  res = true \/ ticks < UPDATER_T_ENTRY_MS -> 1 <= len raw <= Z.of_nat (S k) -> s_boot_pending s' = false ->
  (forall t, tx_consumed (tx t) = true -> boot_step (mkBoard t s res) = Some (mkBoard t s' res)) ->
  exists b', run_bus (length (read_txn stale k) + f) ticks (read_txn stale k) b = Some (padded raw (Z.of_nat (S k)), b')
    /\ b_sim b' = s' /\ armed raw true s' res b'.
Proof.
  intros (r & buf & idx & first & -> & Hd & Hw & Hlr & Hl & Ht) Hc Hj Hres Hk Hp' Hboot.
  unfold read_txn. cbn [length Nat.add]. rewrite length_app, length_replicate. cbn [length].
  assert (forall x, tx_consumed x = c -> quiet (mkBoard (mkTwi r false x) s res)) as Hq.
  { intros x Hx. unfold quiet. cbn. by rewrite Hx. }
  erewrite run_quiet; [|cbn; unfold end_write; rewrite Hw, Hd; reflexivity|by apply Hq]. cbn [option_list app].
  rewrite bind_unit. set (b1 := mkBoard _ _ _).
  assert (reading raw 0 c r s res b1) as Hr1.
  { exists buf. split_and!; [|done|done]. subst b1. cbn. by rewrite Z.min_l by lia. }
  destruct (read_byte (k + (2 + f)) stale (replicate k (Wanted false) ++ [Wanted true; Stop]) raw 0 c r s res b1 Hr1)
    as (b2 & Hr2 & H2); [by auto..|].
  replace (k + 2 + f)%nat with (k + (2 + f))%nat by lia. rewrite H2.
  destruct (read_bytes k (2 + f) [Wanted true; Stop] raw (0 + 1) c r s res b2 Hr2) as (b3 & Hr3 & H3); [lia|done..|].
  rewrite H3. destruct Hr3 as (buf3 & -> & Hl3 & Ht3). change (2 + f)%nat with (S (S f)).
  rewrite Z.min_r, (proj2 (Z.eqb_neq _ 0)) by lia.
  set (x' := mkTx buf3 (len raw) (len raw) false false true).
  assert (run_bus (S (S f)) ticks [Wanted true; Stop] (mkBoard (mkTwi r false (mkTx buf3 (len raw) (len raw) false true c)) s res)
    = Some ([], mkBoard (mkTwi r false x') s' res)) as ->.
  { erewrite run_serviced;
      [|done|cbn; unfold end_read_txn; cbn; by rewrite (proj2 (Z.eqb_neq (len raw) 0)), Z.leb_refl by lia|].
    2: { unfold lap_rest, receive_step, port_recv. cbn [b_twi b_sim b_resident]. rewrite Hd. cbn [negb mbind option_bind].
         rewrite Hboot by done. cbn [mbind option_bind]. by apply entry_stays. }
    cbn [option_list]. rewrite bind_unit. cbn [run_bus]. destruct (g_jumped s') eqn:Hj'; cbn [b_sim]; rewrite Hj'; [done|].
    cbn. unfold end_write. rewrite Hw. rewrite lap_quiet; [cbn; by destruct f|]. unfold quiet. cbn. by rewrite Hp'. }
  cbn [mbind option_bind]. eexists. split; [|split; [|exists r, buf3, (len raw), false; by split_and!]]; [|done].
  rewrite app_nil_r, Z.add_0_l, <- given_padded, given_S. done.
Qed.

Lemma armed_idle raw c s res b : armed raw c s res b -> sim_ok s -> uncut s -> g_jumped s = false ->
  res = true \/ ticks < UPDATER_T_ENTRY_MS -> at_rest b.
Proof. intros (r & buf & idx & first & -> & Hd & Hw & Hlr & Hl & _) Hok Hun Hj Hres. by split. Qed.

(** ** Transactions *)

(** The lap that ends a write: the frame is parked, received and answered. *)
Lemma frame_handled frame buf fr x s res : len buf = UPDATER_RX_BUF_SIZE -> take (length frame) buf = frame ->
  len (tx_buf x) = UPDATER_TX_BUF_SIZE -> tx_active x = false -> sim_ok s -> uncut s -> g_jumped s = false ->
  res = true \/ ticks < UPDATER_T_ENTRY_MS -> bytes frame -> 1 <= len frame <= UPDATER_RX_BUF_SIZE -> fr = len frame ->
  exists raw s1 s' res' b', sim_request frame s = Some (raw, s')
    /\ lap_rest ticks (mkBoard (mkTwi (mkRx buf 0 fr false true false) false x) s res) = Some b'
    /\ armed raw false s1 res' b'
    /\ 1 <= len raw /\ g_jumped s1 = false /\ (res' = true \/ ticks < UPDATER_T_ENTRY_MS)
    /\ sim_ok s' /\ uncut s'
    /\ forall t, tx_consumed (tx t) = true -> boot_step (mkBoard t s1 res') = Some (mkBoard t s' res').
Proof.
  intros Hl Ht Hlx Hxa Hok Hun Hj Hres Hb Hlf ->.
  set (t0 := mkTwi (mkRx buf 0 (len frame) false false false) true (mkTx (tx_buf x) 0 (tx_idx x) (tx_first x) (tx_active x) false)).
  destruct (answer_spec frame (mkBoard t0 s res)) as (raw & s1 & s' & res' & Hr & Ha & Hlw & Hj1 & Hres1 & Hok' & Hun' & _ & Hboot);
    [done..|change UPDATER_RX_BUF_SIZE with 136 in Hlf; lia|]. cbn [b_sim b_twi b_resident] in *.
  assert (res' = true \/ ticks < UPDATER_T_ENTRY_MS) as Hres' by (destruct Hres; [left; by apply Hres1|by right]).
  exists raw, s1, s', res', (mkBoard (port_send raw t0) s1 res'). split_and!; try done; [| |lia].
  - unfold lap_rest, receive_step, port_recv. cbn [b_twi b_sim b_resident rx_done negb rx_frame rx_buf rx_len rx_over in_write].
    rewrite to_nat_len, Ht. fold t0. rewrite Ha. cbn [mbind option_bind]. unfold boot_step, twi_response_consumed.
    cbn [b_twi port_send tx tx_consumed]. rewrite andb_false_r. cbn [mbind option_bind]. by apply entry_stays.
  - unfold port_send, t0. cbn [rx tx tx_buf tx_first tx_active]. change UPDATER_TX_BUF_SIZE with 20 in *.
    rewrite take_ge by (unfold len in Hlw; lia). rewrite Hxa. eexists _, (overwrite 0 raw (tx_buf x)), 0, (tx_first x).
    split_and!; [done..| |]; [by rewrite len_overwrite by lia|]. rewrite overwrite_0. apply take_app_length.
Qed.

Definition transaction (frame : list Z) (stopped stale : bool) (k : nat) : list condition :=
  Address false :: (Written <$> frame) ++ (if stopped then [Stop] else []) ++ read_txn stale k.

(** C27: the I2C port. A master writes a frame, with a stop or a repeated start
    behind it, and reads: it is given what the device answers, padded, and the board is left
    as the device is. The jump of an accepted BOOT comes once the answer has
    been read. *)
Theorem twi_transaction b frame stopped stale k raw s' : at_rest b -> bytes frame -> 1 <= len frame <= UPDATER_RX_BUF_SIZE ->
  sim_request frame (b_sim b) = Some (raw, s') -> len raw <= Z.of_nat (S k) ->
  let cs := transaction frame stopped stale k in
  exists b', run_bus (S (length cs)) ticks cs b = Some (padded raw (Z.of_nat (S k)), b')
    /\ b_sim b' = s' /\ (g_jumped s' = false -> at_rest b').
Proof.
  intros [Haw Hd Hw Ha Hlr Hlt Hok Hun Hj Hres] Hb Hlf Hreq Hk cs. destruct b as [[r aw x] s res].
  cbn [b_twi b_sim b_resident rx tx awaiting] in *. subst aw.
  set (x0 := mkTx (tx_buf x) 0 (tx_idx x) (tx_first x) (tx_active x) (tx_consumed x)).
  set (after := (if stopped then [Stop] else []) ++ read_txn stale k).
  assert (length cs = S (length frame + length after)) as ->.
  { subst cs after. unfold transaction. cbn [length]. by rewrite length_app, length_fmap. }
  unfold cs, transaction. fold after.
  erewrite run_quiet; [|cbn; unfold end_write; rewrite Hw, Hd; reflexivity|unfold quiet; cbn; by rewrite (so_idle _ Hok)].
  cbn [option_list]. rewrite bind_unit. fold after x0. replace (S (length frame + length after)) with (length frame + S (length after))%nat by lia.
  match goal with |- context [run_bus _ _ _ ?b0] => destruct (write_bytes frame (S (length after)) after [] x0 s res b0) as (b1 & Hw1 & ->) end;
    [exists (rx_buf r), (rx_frame r), false; by split_and!|apply (so_idle _ Hok)|done|done|].
  destruct Hw1 as (buf & fr & over & -> & Hlb & -> & Ht). cbn [app] in *.
  rewrite (proj2 (Z.ltb_ge _ _)) in * by lia. rewrite Z.min_l by lia. specialize (Ht eq_refl).
  destruct (frame_handled frame buf (len frame) x0 s res) as (raw0 & s1 & s2 & res' & b2 & Hr & Hlap & Harm & Hlw & Hj1 & Hres' & Hok' & Hun' & Hboot);
    [done..|]. rewrite Hreq in Hr. injection Hr as <- <-.
  assert (forall f, exists b', run_bus (length (read_txn stale k) + f) ticks (read_txn stale k) b2 = Some (padded raw (Z.of_nat (S k)), b')
    /\ b_sim b' = s' /\ (g_jumped s' = false -> at_rest b')) as Hread.
  { intros f. destruct (read_armed f stale k raw false s1 s' res' b2) as (b' & Hrun & Hs & Harm');
      [done|by rewrite andb_false_r|done|done|lia|apply (so_idle _ Hok')|done|].
    exists b'. split_and!; [done..|]. intros Hj'. by eapply armed_idle. }
  assert (negb (len frame =? 0) = true) as Hne by (by rewrite (proj2 (Z.eqb_neq _ _)) by lia).
  subst after. destruct stopped; cbn [app length].
  - destruct (Hread 1%nat) as (b' & Hrun & Hs & Hi). exists b'. split; [|done].
    erewrite run_serviced; [|done| |]; [|cbn; rewrite Ha; unfold end_write; cbn; rewrite Hne; reflexivity|exact Hlap].
    cbn [option_list]. rewrite bind_unit. by replace (S (length (read_txn stale k))) with (length (read_txn stale k) + 1)%nat by lia.
  - destruct (Hread 0%nat) as (b' & Hrun & Hs & Hi). exists b'. split; [|done]. rewrite Nat.add_0_r in Hrun.
    unfold read_txn at 2. cbn [run_bus b_sim b_twi b_resident]. rewrite Hj. cbn [status sdata].
    cbn [twi_poll st_err st_apif st_ap st_dir end_write in_write rx_over rx_len rx_frame rx_buf rx_done]. rewrite Hne. cbn [andb negb orb].
    rewrite Hlap. cbn [mbind option_bind]. fold (read_txn stale k). rewrite Hrun. done.
Qed.

(** The answer can be read again, and is the same. *)
Lemma twi_reread f stale k raw s res b : armed raw true s res b -> s_boot_pending s = false -> g_jumped s = false ->
  res = true \/ ticks < UPDATER_T_ENTRY_MS -> 1 <= len raw <= Z.of_nat (S k) ->
  exists b', run_bus (length (read_txn stale k) + f) ticks (read_txn stale k) b = Some (padded raw (Z.of_nat (S k)), b')
    /\ b_sim b' = s /\ armed raw true s res b'.
Proof.
  intros Ha Hbp Hj Hres Hk. apply (read_armed f stale k raw true s s res); try done; [by rewrite Hbp|].
  intros t _. unfold boot_step. cbn [b_sim]. by rewrite Hbp.
Qed.

(** A write that the bus cuts short, or that is too long, changes nothing but
    the buffers. *)
Lemma twi_dropped frame last b : at_rest b ->
  last = Collision \/ last = Stop /\ (UPDATER_RX_BUF_SIZE < len frame \/ frame = []) ->
  let cs := Address false :: (Written <$> frame) ++ [last] in
  exists b', run_bus (length cs) ticks cs b = Some ([], b') /\ b_sim b' = b_sim b /\ b_resident b' = b_resident b /\ at_rest b'.
Proof.
  intros [Haw Hd Hw Ha Hlr Hlt Hok Hun Hj Hres] Hlast cs. destruct b as [[r aw x] s res].
  cbn [b_twi b_sim b_resident rx tx awaiting] in *. subst aw. unfold cs. cbn [length]. rewrite length_app, length_fmap.
  set (x0 := mkTx (tx_buf x) 0 (tx_idx x) (tx_first x) (tx_active x) (tx_consumed x)).
  erewrite run_quiet; [|cbn; unfold end_write; rewrite Hw, Hd; reflexivity|unfold quiet; cbn; by rewrite (so_idle _ Hok)].
  cbn [option_list]. rewrite bind_unit. fold x0. cbn [length].
  match goal with |- context [run_bus _ _ _ ?b0] => destruct (write_bytes frame 1 [last] [] x0 s res b0) as (b1 & Hw1 & ->) end;
    [exists (rx_buf r), (rx_frame r), false; by split_and!|apply (so_idle _ Hok)|done|done|].
  destruct Hw1 as (buf & fr & over & -> & Hlb & -> & _). cbn [app] in *.
  assert (forall r0 x1, rx_done r0 = false -> quiet (mkBoard (mkTwi r0 false x1) s res)) as Hq.
  { intros r0 x1 Hr0. unfold quiet. cbn. by rewrite (so_idle _ Hok). }
  destruct Hlast as [->|[-> Hlen]].
  - erewrite run_quiet; [|reflexivity|by apply Hq]. eexists. split; [reflexivity|]. by split_and!.
  - assert (negb (Z.min (len frame) UPDATER_RX_BUF_SIZE =? 0) && negb (UPDATER_RX_BUF_SIZE <? len frame) = false) as Hno.
    { destruct Hlen as [Hlen| ->]; [by rewrite (proj2 (Z.ltb_lt _ _)), andb_false_r|done]. }
    erewrite run_quiet; [|cbn; rewrite Ha; unfold end_write; cbn [in_write rx_buf rx_len rx_frame rx_over rx_done]; rewrite Hno; reflexivity|by apply Hq].
    eexists. split; [reflexivity|]. by split_and!.
Qed.
End laps.

(** The entry window closes, on a board no frame has reached: a valid
    application is entered, and without one the bootloader stays. *)
Lemma entry_window ticks b : sim_ok (b_sim b) -> g_jumped (b_sim b) = false -> b_resident b = false ->
  UPDATER_T_ENTRY_MS <= ticks ->
  exists b', entry_step ticks b = Some b' /\ (g_jumped (b_sim b') = true <-> bootable (g_flash (b_sim b)))
    /\ (g_jumped (b_sim b') = false -> b_sim b' = b_sim b /\ b_resident b' = true).
Proof.
  intros Hok Hj Hres Ht. destruct b as [t s res]. cbn [b_sim b_resident] in *. subst res.
  destruct (app_valid_ok _ _ (so_wf _ Hok)) as (v & Hv & Hb). unfold entry_step. cbn [b_sim b_resident].
  rewrite Hj, (proj2 (Z.leb_le _ _)) by done. cbn [negb andb]. unfold upd_boot_if_valid. rewrite Hv. cbn [mbind option_bind].
  destruct v; cbn [negb]; eexists; (split; [done|]); cbn [b_sim b_resident port_jump_to_app g_jumped].
  - split; [split; [intros _; by apply Hb|done]|done].
  - split; [split; [congruence|intros Hbo; by apply Hb in Hbo]|done].
Qed.

(** ** A board *)
Definition sample_board : Board :=
  mkBoard (mkTwi (mkRx (replicate 136 0) 0 0 false false false) false (mkTx (replicate 20 0) 0 0 false false false)) sample_sim false.

Lemma twi_transaction_witness :
  exists b', run_bus (S (length (transaction (wire CMD_BOOT []) false true 19))) 0 (transaction (wire CMD_BOOT []) false true 19) sample_board
      = Some (padded (reply CMD_BOOT [ST_OK]) 20, b') /\ g_jumped (b_sim b') = true.
Proof.
  destruct (twi_transaction 0 sample_board (wire CMD_BOOT []) false true 19 (reply CMD_BOOT [ST_OK]) (port_jump_to_app sample_sim))
    as (b' & Hr & Hs & _).
  - split; try reflexivity; [split; [exact sample_wf|reflexivity]|split; reflexivity|right; reflexivity].
  - repeat constructor; by vm_compute.
  - split; by vm_compute.
  - by vm_compute.
  - by vm_compute.
  - exists b'. split; [exact Hr|rewrite Hs; reflexivity].
Defined.

End AvrTwi.
