(* ===== verification/UartPort.v ===== *)
(** The main loop of the serial ports ([device/ports/avr_ea_uart/main.c] and
    [device/ports/rp2350_uart/main.c], the same loop on two chips) over the
    stream link, the pump and the simulated port's flash. What the loop needs of
    a chip's UART is an interface, [UartPort] with its laws; [Usart.v] has the
    chips. Time is a schedule: what the tick counter reads in each lap, and the
    bytes that arrive before it. *)
From S2P Require Import Prelude Errors Frame Image Stream Device DeviceLink Conformance Pumps.

(** ** The interface *)

(** The pump's register operations, [uart_tx_drain], and what happens to the
    registers meanwhile: some time passes and bytes are received. [None] is a
    wait that takes more than [patience] questions. *)
Class UartPort (W : Type) := {
  up_ops :: UartPumpOps W;
  patience : nat;
  uart_tx_drain : W -> option W;
  elapse : nat -> list Z -> W -> W;
}.

#[export] Instance port_io `{UartPort W} : LinkIo W := UartPump.pump_io patience.

(** What the loop relies on: received bytes are read in order, what is put is
    sent in order behind what was, and the drain that follows returns when all
    of it has left the chip. *)
Class UartLaws {W} (port : UartPort W) := {
  u_ok : W -> Prop;
  u_rx : W -> list Z;
  u_sent : W -> list Z;
  u_line : W -> list Z;
  ul_empty w : u_ok w -> u_rx w = [] -> rx_ready w = false;
  ul_read w b rx : u_ok w -> u_rx w = b :: rx ->
    rx_ready w = true /\ exists w', rx_read w = (b, w') /\ u_ok w' /\ u_rx w' = rx /\ u_sent w' = u_sent w;
  ul_put w bs : u_ok w -> 2 <= len bs ->
    exists w', put_all bs w = Some w' /\ u_ok w' /\ u_rx w' = u_rx w /\ u_sent w' = u_sent w ++ bs
      /\ exists w2, uart_tx_drain w' = Some w2 /\ u_ok w2 /\ u_rx w2 = u_rx w /\ u_sent w2 = u_sent w'
         /\ u_line w2 = u_sent w2;
  ul_elapse n bs w : u_ok w ->
    u_ok (elapse n bs w) /\ u_rx (elapse n bs w) = u_rx w ++ bs /\ u_sent (elapse n bs w) = u_sent w;
}.

(** ** [main.c] *)
Definition UPDATER_RX_BUF_SIZE : Z := 136.
Definition UPDATER_RSP_PAYLOAD_MAX : Z := 17.
Definition UPDATER_TX_BUF_SIZE : Z := UPDATER_RSP_PAYLOAD_MAX + UPD_FRAME_OVERHEAD.
Definition UPDATER_T_ENTRY_MS : Z := 300.

(** ** [entry.c] and [app_stub.h]

    A pair of cells that survives a soft reset: the application leaves a magic
    number and its complement there, the bootloader reads and clears them. On the
    AVR the cells are of 16 bits, on the RP2350 of 32. *)
Module Entry.
Record entry_cells := mkCells { cell_bits : Z; entry_magic : Z }.
Definition avr : entry_cells := mkCells 16 0xB007.
Definition rp2350 : entry_cells := mkCells 32 0xB007CA11.

Definition flipped (t : entry_cells) (x : Z) : Z := Z.lnot x mod 2 ^ cell_bits t.
Definition updater_reboot_to_bootloader (t : entry_cells) : Z * Z := (entry_magic t, flipped t (entry_magic t)).
(** [entry_flag], and the cells afterwards. *)
Definition updater_entry_capture (t : entry_cells) (pair : Z * Z) : bool * (Z * Z) :=
  let '(m, c) := pair in ((m =? entry_magic t) && (c =? flipped t (entry_magic t)), (0, 0)).

(** The request of the application, and no other contents, is taken; once. *)
Lemma entry_once t pair : t = avr \/ t = rp2350 ->
  (fst (updater_entry_capture t pair) = true <-> pair = updater_reboot_to_bootloader t)
  /\ fst (updater_entry_capture t (snd (updater_entry_capture t pair))) = false.
Proof.
  intros Ht. destruct pair as [m c]. cbn [updater_entry_capture fst snd]. unfold updater_reboot_to_bootloader. split.
  - rewrite andb_true_iff, !Z.eqb_eq. split; [by intros [-> ->]|by intros [= -> ->]].
  - by destruct Ht as [-> | ->].
Qed.
End Entry.

Record Board (W : Type) := mkBoard { b_link : link_t; b_uart : W; b_sim : Sim; b_resident : bool }.
Arguments mkBoard {W} b_link b_uart b_sim b_resident.
Arguments b_link {W} b.
Arguments b_uart {W} b.
Arguments b_sim {W} b.
Arguments b_resident {W} b.

(** A lap: the time before it, what arrives in that time, and the tick counter. *)
Record Lap := mkLap { lap_time : nat; lap_rx : list Z; lap_ticks : Z }.

Section main.
Context `{UartPort W} (fuel : nat).
Implicit Types b : Board W.

(** A power cut in the middle of a flash operation ends everything. *)
Definition serve_step b : option (Board W) :=
  '(r, (l, w)) ← link_poll_io fuel (b_link b) (b_uart b);
  match r with
  | None => Some (mkBoard l w (b_sim b) (b_resident b))
  | Some req =>
    '(payload, s) ← upd_handle (b_sim b) req UPDATER_RSP_PAYLOAD_MAX;
    if g_dead s then Some (mkBoard l w s true) else
    w ← link_send_io (upd_frame_build UPDATER_TX_BUF_SIZE (Z.lor (uf_cmd req) RSP_FLAG) payload) w;
    Some (mkBoard l w s true)
  end.

Definition boot_step b : option (Board W) :=
  if g_dead (b_sim b) then Some b else
  if s_boot_pending (b_sim b) then
    w ← uart_tx_drain (b_uart b);
    '(_, s) ← upd_boot_if_valid (with_boot_pending false (b_sim b));
    Some (mkBoard (b_link b) w s (b_resident b))
  else Some b.

(** The application takes over where [upd_boot_if_valid] jumps. *)
Definition entry_step (ticks : Z) b : option (Board W) :=
  if g_dead (b_sim b) || g_jumped (b_sim b) then Some b else
  if negb (b_resident b) && (UPDATER_T_ENTRY_MS <=? ticks) then
    '(jumped, s) ← upd_boot_if_valid (b_sim b);
    Some (mkBoard (b_link b) (b_uart b) s (if (jumped : bool) then b_resident b else true))
  else Some b.

Definition lap_step (lap : Lap) b : option (Board W) :=
  b ← serve_step (mkBoard (b_link b) (elapse (lap_time lap) (lap_rx lap) (b_uart b)) (b_sim b) (b_resident b));
  b ← boot_step b;
  entry_step (lap_ticks lap) b.

(** The loop for some laps, or until the application runs. *)
Fixpoint run (laps : list Lap) b : option (Board W) :=
  match laps with
  | [] => Some b
  | lap :: laps =>
    if g_dead (b_sim b) || g_jumped (b_sim b) then Some b else
    b ← lap_step lap b; run laps b
  end.

(** [main] up to the loop; [resident] is [port_entry_requested]. *)
Definition board_start (rx : list Z) (w : W) (s : Sim) (resident : bool) : Board W :=
  mkBoard (link_init rx) w s resident.
End main.

(** ** What a lap does *)
Section laps.
Context `{PtrWidth} {W} {port : UartPort W} {laws : UartLaws port} (fuel : nat).
Implicit Types (b : Board W) (w : W) (l : link_t).

(** Polling through the pump is polling the received bytes. *)
Lemma poll_rx rx : forall f l w r l' rest, u_ok w -> u_rx w = rx -> (length rx < f)%nat ->
  link_poll rx l = Some (r, (l', rest)) ->
  exists w', link_poll_io f l w = Some (r, (l', w')) /\ u_ok w' /\ u_rx w' = rest /\ u_sent w' = u_sent w.
Proof.
  induction rx as [|c rx IH]; intros [|f] l w r l' rest Hok Hrx Hf; simpl in Hf; try lia; cbn [link_poll link_poll_io].
  - intros [= <- <- <-]. cbn [get_byte port_io UartPump.pump_io]. unfold UartPump.pump_get. rewrite (ul_empty w) by done.
    by exists w.
  - destruct (ul_read w c rx Hok Hrx) as (Hr & w1 & Hrd & Hok1 & Hrx1 & Hs1).
    cbn [get_byte port_io UartPump.pump_io]. unfold UartPump.pump_get. rewrite Hr, Hrd. cbn [negb mbind option_bind].
    destruct (link_byte l c) as [[[req|] l1]|]; cbn [mbind option_bind]; [|intros Hp|done].
    + intros [= <- <- <-]. by exists w1.
    + destruct (IH f l1 w1 r l' rest) as (w2 & ? & ? & ? & ?); [done|done|lia|done|]. exists w2. split_and!; congruence.
Qed.

(** What the host's scanner finds in what the link has and what is to come. *)
Definition frames (l : link_t) (stream : list Z) : list (list Z) := scan_feed (len (l_buf l)) (link_abs l) stream.

Record board_ok b : Prop := {
  bo_link : link_inv (b_link b);
  bo_uart : u_ok (b_uart b);
  bo_rx : bytes (u_rx (b_uart b));
  bo_sim : sim_ok (b_sim b);
}.
Abbreviation gone s := (g_dead s || g_jumped s).

(** A frame becomes its reply, and its effect; a BOOT's jump waits for the reply. *)
Definition served (f : list Z) b b' : Prop :=
  exists raw, sim_request f (b_sim b) = Some (raw, b_sim b')
    /\ u_sent (b_uart b') = u_sent (b_uart b) ++ sent_reply raw
    /\ (g_jumped (b_sim b') = true -> u_line (b_uart b') = u_sent (b_uart b')).

(** A request frame, in the terms of the loop. *)
Lemma request_cycle s req : sim_ok s -> gone s = false -> req_ok req ->
  exists payload s1 s', upd_handle s req UPDATER_RSP_PAYLOAD_MAX = Some (payload, s1) /\ len payload <= 17 /\ g_jumped s1 = false
    /\ sim_ok s' /\ sim_request (frame_of req) s = Some (if g_dead s1 then [] else reply (uf_cmd req) payload, s')
    /\ (if g_dead s1 then s' = s1
        else if s_boot_pending s1 then exists v, upd_boot_if_valid (with_boot_pending false s1) = Some (v, s') else s' = s1).
Proof.
  intros Hok Hgone Hreq. pose proof (sim_request_frame req s Hreq Hgone) as Hcyc. destruct Hreq as (Hc & Hpb & Hpl & Hul).
  destruct (sim_request_wire s (uf_cmd req) (uf_payload req)) as (payload & s1 & s' & Hh & Hhs & Hr & Hok' & _ & Hset); [done..|].
  replace (mkUpdFrame (uf_cmd req) _ _) with req in Hh by (destruct req; cbn in *; by subst). fold (frame_of req) in Hr.
  pose proof (handles_rsp _ _ _ _ _ Hhs (dw_id _ _ (so_wf _ Hok))) as [Hpl17 _]. apply handles_keeps in Hhs as (_ & Hj1 & _).
  apply orb_false_iff in Hgone as [_ Hj]. exists payload, s1, s'. rewrite upd_handle_cap by done. split_and!; try done; [congruence|].
  rewrite Hr, Hh in Hcyc. cbn [mbind option_bind] in Hcyc. destruct (g_dead s1); [done|]. destruct (s_boot_pending s1).
  - destruct (upd_boot_if_valid _) as [[v s2]|]; [|done]. injection Hcyc as _ ->. by exists v.
  - by injection Hcyc.
Qed.

(** Polling, answering and the jump of a BOOT: one frame, if there is one. *)
Lemma serve_spec b : board_ok b -> gone (b_sim b) = false -> (length (u_rx (b_uart b)) < fuel)%nat ->
  exists b', (b1 ← serve_step fuel b; boot_step b1) = Some b' /\ board_ok b' /\ len (l_buf (b_link b')) = len (l_buf (b_link b))
    /\ ((u_rx (b_uart b') = [] /\ b_sim b' = b_sim b /\ b_resident b' = b_resident b /\ u_sent (b_uart b') = u_sent (b_uart b)
         /\ forall more, frames (b_link b) (u_rx (b_uart b) ++ more) = frames (b_link b') more)
        \/ b_resident b' = true /\ (length (u_rx (b_uart b')) < length (u_rx (b_uart b)))%nat
           /\ exists f, served f b b'
              /\ forall more, frames (b_link b) (u_rx (b_uart b) ++ more) = f :: frames (b_link b') (u_rx (b_uart b') ++ more)).
Proof.
  intros [Hl Hu Hrx Hok] Hgone Hf. destruct b as [l w s res]. cbn [b_link b_uart b_sim b_resident] in *.
  destruct (link_poll_spec (u_rx w) l Hl Hrx) as (r & l1 & rest & Hp & Hl1 & Hlen & Hrest & Hr).
  destruct (poll_rx (u_rx w) fuel l w r l1 rest Hu eq_refl Hf Hp) as (w1 & Hp1 & Hu1 & Hrx1 & Hs1).
  unfold serve_step. cbn [b_link b_uart b_sim b_resident]. rewrite Hp1. cbn [mbind option_bind]. subst rest.
  destruct r as [req|]; cbv zeta in Hr.
  2: { destruct Hr as [Hnil Hm]. apply orb_false_iff in Hgone as [Hd _]. eexists.
       split; [unfold boot_step; cbn [mbind option_bind b_sim]; rewrite Hd, (so_idle _ Hok); reflexivity|].
       split; [by split|]. split; [done|]. left. split_and!; try done. intros more. cbn [b_link b_uart]. unfold frames. by rewrite Hlen, Hm. }
  destruct Hr as (Hreq & Habs & Hlt & Hm).
  assert (forall more, frames l (u_rx w ++ more) = frame_of req :: frames l1 (u_rx w1 ++ more)) as Hfr.
  { intros more. unfold frames. rewrite Hm, Habs. by rewrite Hlen. }
  destruct (request_cycle s req Hok Hgone Hreq) as (payload & s1 & s' & -> & Hpl & Hj1 & Hok' & Hcyc & Hend).
  cbn [mbind option_bind]. assert (forall w' s2, u_ok w' -> u_rx w' = u_rx w1 -> sim_ok s2 -> board_ok (mkBoard l1 w' s2 true)) as Hbo.
  { intros w' s2 ? Hrx' ?. split; try done. cbn [b_uart]. by rewrite Hrx'. }
  unfold boot_step. destruct (g_dead s1) eqn:Hdead; cbn [mbind option_bind b_sim].
  { rewrite Hdead. subst s'. eexists. split; [done|]. split; [by apply Hbo|]. split; [done|]. right.
    split_and!; [done|done|]. exists (frame_of req). split; [|done]. exists []. rewrite app_nil_r. split_and!; [done|done|].
    cbn [b_sim]. congruence. }
  rewrite build_wire by (unfold UPDATER_TX_BUF_SIZE, UPDATER_RSP_PAYLOAD_MAX, UPD_FRAME_OVERHEAD; change PAYLOAD_MAX with 252; lia).
  fold (reply (uf_cmd req) payload). rewrite link_send_io_puts.
  destruct (ul_put w1 (link_send (reply (uf_cmd req) payload)) Hu1) as (w2 & -> & Hu2 & Hrx2 & Hs2 & w3 & Hdr & Hu3 & Hrx3 & Hs3 & Hline).
  { unfold link_send. rewrite len_cons, len_reply. pose proof (len_nonneg payload). lia. }
  cbn [mbind option_bind b_sim b_uart b_link b_resident]. rewrite Hdead.
  destruct (s_boot_pending s1).
  - rewrite Hdr. destruct Hend as [v ->]. cbn [mbind option_bind]. eexists. split; [done|].
    split; [by apply Hbo|]. split; [done|]. right. cbn [b_uart]. rewrite Hrx3. split_and!; [done|done|].
    exists (frame_of req). split; [|done]. eexists. split; [exact Hcyc|]. cbn [b_uart sent_reply]. split; [by rewrite Hs3, Hs2, Hs1|done].
  - subst s'. eexists. split; [done|]. split; [by apply Hbo|]. split; [done|]. right. cbn [b_uart]. rewrite Hrx2. split_and!; [done|done|].
    exists (frame_of req). split; [|done]. eexists. split; [exact Hcyc|]. cbn [b_uart b_sim]. split; [by rewrite Hs2, Hs1|congruence].
Qed.

(** ** The entry window *)
Lemma entry_spec ticks b : sim_ok (b_sim b) -> gone (b_sim b) = false ->
  exists b', entry_step ticks b = Some b'
    /\ (b' = b /\ (b_resident b = true \/ ticks < UPDATER_T_ENTRY_MS)
        \/ b_resident b = false /\ UPDATER_T_ENTRY_MS <= ticks
           /\ (~ bootable (g_flash (b_sim b)) /\ b' = mkBoard (b_link b) (b_uart b) (b_sim b) true
               \/ bootable (g_flash (b_sim b)) /\ b' = mkBoard (b_link b) (b_uart b) (port_jump_to_app (b_sim b)) false)).
Proof.
  intros Hok Hg. destruct b as [l w s res]. cbn [b_link b_uart b_sim b_resident] in *. unfold entry_step.
  cbn [b_link b_uart b_sim b_resident]. rewrite Hg. destruct res; cbn [negb andb]; [eexists; split; [done|]; auto|].
  destruct (Z.leb_spec UPDATER_T_ENTRY_MS ticks) as [Ht|Ht]; [|eexists; split; [done|]; auto].
  destruct (app_valid_ok _ _ (so_wf _ Hok)) as (v & Hv & Hb). unfold upd_boot_if_valid. rewrite Hv. cbn [mbind option_bind].
  destruct v; cbn [negb mbind option_bind]; (eexists; split; [done|]; right; split; [done|]; split; [done|]).
  - right. split; [by apply Hb|done].
  - left. split; [intros Hbo; by apply Hb in Hbo|done].
Qed.

(** What is received in a lap, and read in it or kept. *)
Definition heard (lap : Lap) b : list Z := u_rx (b_uart b) ++ lap_rx lap.

Inductive lap_outcome (lap : Lap) b b' : Prop :=
| lap_served f : b_resident b' = true -> (length (u_rx (b_uart b')) < length (heard lap b))%nat -> served f b b' ->
    (forall more, frames (b_link b) (heard lap b ++ more) = f :: frames (b_link b') (u_rx (b_uart b') ++ more)) ->
    lap_outcome lap b b'
| lap_quiet : u_rx (b_uart b') = [] -> b_sim b' = b_sim b -> u_sent (b_uart b') = u_sent (b_uart b) ->
    (forall more, frames (b_link b) (heard lap b ++ more) = frames (b_link b') more) ->
    (b_resident b' = b_resident b /\ (b_resident b = true \/ lap_ticks lap < UPDATER_T_ENTRY_MS)
     \/ b_resident b = false /\ b_resident b' = true /\ ~ bootable (g_flash (b_sim b))) ->
    lap_outcome lap b b'
| lap_window : b_resident b = false -> UPDATER_T_ENTRY_MS <= lap_ticks lap -> bootable (g_flash (b_sim b)) ->
    frames (b_link b) (heard lap b) = [] -> b_sim b' = port_jump_to_app (b_sim b) -> u_sent (b_uart b') = u_sent (b_uart b) ->
    lap_outcome lap b b'.

Lemma lap_spec lap b : board_ok b -> gone (b_sim b) = false -> bytes (lap_rx lap) -> (length (heard lap b) < fuel)%nat ->
  exists b', lap_step fuel lap b = Some b' /\ board_ok b' /\ lap_outcome lap b b'.
Proof.
  intros [Hl Hu Hrx Hok] Hg Hb Hf. destruct (ul_elapse (lap_time lap) (lap_rx lap) (b_uart b) Hu) as (Hu0 & Hrx0 & Hs0).
  set (b0 := mkBoard (b_link b) (elapse (lap_time lap) (lap_rx lap) (b_uart b)) (b_sim b) (b_resident b)).
  assert (board_ok b0) as Hb0 by (split; try done; subst b0; cbn [b_uart]; rewrite Hrx0; by apply bytes_app).
  destruct (serve_spec b0 Hb0 Hg) as (b1 & Hs & Hb1 & _ & Hout); [subst b0; cbn [b_uart]; by rewrite Hrx0|].
  unfold lap_step. fold b0. destruct (serve_step fuel b0) as [b00|]; [|done]. cbn [mbind option_bind] in *. rewrite Hs.
  subst b0. cbn [b_link b_uart b_sim b_resident mbind option_bind] in *. rewrite Hrx0 in Hout. fold (heard lap b) in Hout.
  destruct Hout as [(Hrx1 & Hsim & Hres & Hs1 & Hfr)|(Hres & Hlt & f & (raw & Hreq & Hs1 & Hline) & Hfr)].
  2: { exists b1. split; [|split; [done|]].
       - unfold entry_step. rewrite Hres. by case_match.
       - apply (lap_served _ _ _ f); try done. exists raw. cbn [b_sim b_uart] in *. by rewrite Hs0 in Hs1. }
  destruct (entry_spec (lap_ticks lap) b1) as (b2 & He & Hcase); [by rewrite Hsim, ?Hok|by rewrite Hsim|].
  rewrite He. exists b2. split; [done|]. rewrite Hs0 in Hs1. destruct Hb1 as [Hl1 Hu1 Hrx1' Hok1].
  destruct Hcase as [[-> Hc]|(Hr & Ht & [[Hnb ->]|[Hbo ->]])].
  - split; [by split|]. apply lap_quiet; try done. left. split; [done|]. by rewrite Hres in Hc.
  - split; [by split|]. apply lap_quiet; try done. right. rewrite Hsim in Hnb. split_and!; try done. by rewrite <- Hres.
  - split; [split; try done; cbn [b_sim port_jump_to_app]; by destruct Hok1|]. rewrite Hsim in *.
    apply lap_window; try done; [by rewrite <- Hres|]. by rewrite <- (app_nil_r (heard lap b)), Hfr.
Qed.

(** ** Some laps *)

(** What is received up to the end of these laps. *)
Definition heard_all (laps : list Lap) b : list Z := u_rx (b_uart b) ++ concat (lap_rx <$> laps).
Definition due (lap : Lap) : Prop := UPDATER_T_ENTRY_MS <= lap_ticks lap.

(** Where some laps lead: on, with the frames so far answered; to the end, by an
    answered BOOT or by a power cut; or, no frame having come, to the
    application when the entry window closes. *)
Inductive ran (laps : list Lap) b b' : Prop :=
| ran_on fs out : gone (b_sim b') = false ->
    frames (b_link b) (heard_all laps b) = fs ++ frames (b_link b') (u_rx (b_uart b')) ->
    serve fs (b_sim b) = Some (out, b_sim b') -> u_sent (b_uart b') = u_sent (b_uart b) ++ out ->
    (b_resident b = true \/ fs <> [] \/ Exists due laps -> b_resident b' = true) ->
    (b_resident b = false -> fs = [] -> Exists due laps -> ~ bootable (g_flash (b_sim b))) ->
    ran laps b b'
| ran_out fs left out : gone (b_sim b') = true -> fs <> [] ->
    frames (b_link b) (heard_all laps b) = fs ++ left ->
    serve fs (b_sim b) = Some (out, b_sim b') -> u_sent (b_uart b') = u_sent (b_uart b) ++ out ->
    (g_jumped (b_sim b') = true -> u_line (b_uart b') = u_sent (b_uart b')) ->
    ran laps b b'
| ran_window before lap after : laps = before ++ lap :: after -> due lap ->
    frames (b_link b) (heard_all (before ++ [lap]) b) = [] -> b_resident b = false -> bootable (g_flash (b_sim b)) ->
    b_sim b' = port_jump_to_app (b_sim b) -> u_sent (b_uart b') = u_sent (b_uart b) ->
    ran laps b b'.

Lemma run_gone laps b : gone (b_sim b) = true -> run fuel laps b = Some b.
Proof. intros Hg. destruct laps; cbn [run]; by rewrite ?Hg. Qed.

Lemma heard_all_cons lap laps b : heard_all (lap :: laps) b = heard lap b ++ concat (lap_rx <$> laps).
Proof. unfold heard_all, heard. cbn [fmap list_fmap concat]. by rewrite app_assoc. Qed.

(** A lap in front. *)
Lemma ran_served lap laps f b b1 b' : served f b b1 -> b_resident b1 = true -> gone (b_sim b1) = false ->
  (forall more, frames (b_link b) (heard lap b ++ more) = f :: frames (b_link b1) (u_rx (b_uart b1) ++ more)) ->
  ran laps b1 b' -> ran (lap :: laps) b b'.
Proof.
  intros (raw & Hreq & Hs & _) Hres Hg Hfr Hran.
  assert (forall fs out, serve fs (b_sim b1) = Some (out, b_sim b') ->
    serve (f :: fs) (b_sim b) = Some (sent_reply raw ++ out, b_sim b')) as Hserve.
  { intros fs out Hsv. cbn [serve]. rewrite Hreq. cbn [mbind option_bind]. by rewrite Hsv. }
  destruct Hran as [fs out Hg' Hf Hsv Hs' Hr Hn|fs left out Hg' Hne Hf Hsv Hs' Hl|before lp after -> Hd Hf Hr _ _ _]; [| |congruence].
  - apply (ran_on _ _ _ (f :: fs) (sent_reply raw ++ out)); try done.
    + rewrite heard_all_cons, Hfr. cbn [app]. f_equal. exact Hf.
    + by auto.
    + by rewrite Hs', Hs, app_assoc.
    + intros _. by apply Hr; left.
  - apply (ran_out _ _ _ (f :: fs) left (sent_reply raw ++ out)); try done; [|by auto|by rewrite Hs', Hs, app_assoc].
    rewrite heard_all_cons, Hfr. cbn [app]. f_equal. exact Hf.
Qed.

Lemma ran_quiet lap laps b b1 b' : u_rx (b_uart b1) = [] -> b_sim b1 = b_sim b -> u_sent (b_uart b1) = u_sent (b_uart b) ->
  (forall more, frames (b_link b) (heard lap b ++ more) = frames (b_link b1) more) ->
  (b_resident b1 = b_resident b /\ (b_resident b = true \/ lap_ticks lap < UPDATER_T_ENTRY_MS)
     \/ b_resident b = false /\ b_resident b1 = true /\ ~ bootable (g_flash (b_sim b))) ->
  ran laps b1 b' -> ran (lap :: laps) b b'.
Proof.
  intros Hrx Hsim Hs Hfr Hres Hran.
  assert (forall ls, frames (b_link b) (heard_all (lap :: ls) b) = frames (b_link b1) (heard_all ls b1)) as Hfr'.
  { intros ls. rewrite heard_all_cons, Hfr. unfold heard_all. by rewrite Hrx. }
  assert (b_resident b = true \/ due lap -> b_resident b1 = true) as Hres1.
  { unfold due. destruct Hres as [[-> [Hr|Ht]]|(_ & -> & _)]; try done. intros [?|?]; [done|lia]. }
  assert (b_resident b = false -> due lap \/ b_resident b1 = true -> ~ bootable (g_flash (b_sim b))) as Hboot.
  { unfold due. destruct Hres as [[Hr1 [Hr|Ht]]|(_ & _ & Hn)]; [congruence| |done]. intros Hr [?|?]; [lia|congruence]. }
  destruct Hran as [fs out Hg' Hf Hsv Hs' Hr Hn|fs left out Hg' Hne Hf Hsv Hs' Hl|before lp after -> Hd Hf Hr Hb Hj Hs'].
  - apply (ran_on _ _ _ fs out); try done; [by rewrite Hfr'|by rewrite <- Hsim|by rewrite <- Hs|..].
    + rewrite Exists_cons. intros [?|[?|[?|?]]]; apply Hr; auto.
    + rewrite Exists_cons. intros Hr0 -> Hdue. destruct (b_resident b1) eqn:Hr1; [by auto|]. rewrite <- Hsim.
      destruct Hdue as [?|?]; [rewrite Hsim; by auto|by apply Hn].
  - apply (ran_out _ _ _ fs left out); try done; [by rewrite Hfr'|by rewrite <- Hsim|by rewrite <- Hs].
  - apply (ran_window _ _ _ (lap :: before) lp after); try done; [cbn [app]; by rewrite Hfr'| |by rewrite <- Hsim|by rewrite <- Hsim|by rewrite <- Hs].
    destruct (b_resident b) eqn:Hr0; [|done]. rewrite Hres1 in Hr by auto. done.
Qed.

Lemma run_spec laps : forall b, board_ok b -> gone (b_sim b) = false -> Forall (fun lap => bytes (lap_rx lap)) laps ->
  (length (heard_all laps b) < fuel)%nat -> exists b', run fuel laps b = Some b' /\ board_ok b' /\ ran laps b b'.
Proof.
  induction laps as [|lap laps IH]; intros b Hb Hg Hall Hf; cbn [run].
  { exists b. split_and!; [done..|]. apply (ran_on _ _ _ [] []); try done.
    - unfold heard_all. cbn [fmap list_fmap concat app]. by rewrite app_nil_r.
    - by rewrite app_nil_r.
    - by intros [?|[?|?%Exists_nil]].
    - by intros _ _ ?%Exists_nil. }
  apply Forall_cons in Hall as [Hbytes Hall]. rewrite Hg. rewrite heard_all_cons, length_app in Hf.
  destruct (lap_spec lap b Hb Hg Hbytes) as (b1 & -> & Hb1 & Hout); [lia|]. cbn [mbind option_bind].
  destruct Hout as [f Hr Hlt Hsv Hfr|Hrx Hsim Hs Hfr Hr|Hr Hd Hbo Hfr Hsim Hs].
  - destruct (gone (b_sim b1)) eqn:Hg1.
    + rewrite run_gone by done. exists b1. split_and!; [done..|]. destruct Hsv as (raw & Hreq & Hs & Hl).
      apply (ran_out _ _ _ [f] (frames (b_link b1) (u_rx (b_uart b1) ++ concat (lap_rx <$> laps))) (sent_reply raw)); try done.
      * by rewrite heard_all_cons, Hfr.
      * cbn [serve]. rewrite Hreq. cbn [mbind option_bind]. by rewrite app_nil_r.
    + destruct (IH b1 Hb1 Hg1 Hall) as (b' & -> & Hb' & Hran); [unfold heard_all; rewrite length_app; lia|].
      exists b'. split_and!; [done..|]. by apply (ran_served _ _ f b b1).
  - destruct (IH b1 Hb1) as (b' & -> & Hb' & Hran); [by rewrite Hsim|done|unfold heard_all; rewrite Hrx; cbn [app]; lia|].
    exists b'. split_and!; [done..|]. by apply (ran_quiet _ _ b b1).
  - rewrite run_gone by (rewrite Hsim; apply orb_true_r). exists b1. split_and!; [done..|].
    apply (ran_window _ _ _ [] lap laps); try done. unfold heard_all. cbn [app fmap list_fmap concat]. by rewrite app_nil_r.
Qed.

(** Every lap takes a frame or everything that is there. *)
Lemma run_drains laps : forall b b', board_ok b -> gone (b_sim b) = false -> Forall (fun lap => lap_rx lap = []) laps ->
  (length (u_rx (b_uart b)) < fuel)%nat -> run fuel laps b = Some b' -> gone (b_sim b') = false ->
  (length (u_rx (b_uart b')) <= length (u_rx (b_uart b)) - length laps)%nat.
Proof.
  induction laps as [|lap laps IH]; intros b b' Hb Hg Hall Hf; cbn [run]; [intros [= <-] _; simpl; lia|].
  apply Forall_cons in Hall as [Hnil Hall]. assert (heard lap b = u_rx (b_uart b)) as Hh by (unfold heard; by rewrite Hnil, app_nil_r).
  rewrite Hg. destruct (lap_spec lap b Hb Hg) as (b1 & -> & Hb1 & Hout); [rewrite Hnil; by constructor|by rewrite Hh|].
  cbn [mbind option_bind length]. intros Hrun Hg'. destruct (gone (b_sim b1)) eqn:Hg1.
  { rewrite run_gone in Hrun by done. injection Hrun as <-. congruence. }
  destruct Hout as [f _ Hlt _ _|Hrx _ _ _ _|_ _ _ _ Hsim _].
  - rewrite Hh in Hlt. specialize (IH b1 b' Hb1 Hg1 Hall ltac:(lia) Hrun Hg'). lia.
  - specialize (IH b1 b' Hb1 Hg1 Hall ltac:(rewrite Hrx; simpl; lia) Hrun Hg'). rewrite Hrx in IH. simpl in IH. lia.
  - rewrite Hsim in Hg1. unfold port_jump_to_app in Hg1. cbn [g_dead g_jumped] in Hg1. by rewrite orb_true_r in Hg1.
Qed.

Lemma run_app before after b : run fuel (before ++ after) b = (b1 ← run fuel before b; run fuel after b1).
Proof.
  revert b. induction before as [|lap before IH]; intros b; [done|]. cbn [app run]. destruct (gone (b_sim b)) eqn:Hg.
  - cbn [mbind option_bind]. by rewrite run_gone.
  - destruct (lap_step fuel lap b); [|done]. cbn [mbind option_bind]. apply IH.
Qed.
Lemma run_length laps b b' : board_ok b -> gone (b_sim b) = false -> Forall (fun lap => bytes (lap_rx lap)) laps ->
  (length (heard_all laps b) < fuel)%nat -> run fuel laps b = Some b' ->
  gone (b_sim b') = false -> (length (u_rx (b_uart b')) <= length (heard_all laps b))%nat.
Proof.
  revert b. induction laps as [|lap laps IH]; intros b Hb Hg Hall Hf; cbn [run].
  { intros [= <-] _. unfold heard_all. rewrite length_app. lia. }
  apply Forall_cons in Hall as [Hbytes Hall]. rewrite Hg. rewrite heard_all_cons, length_app in *.
  destruct (lap_spec lap b Hb Hg Hbytes) as (b1 & -> & Hb1 & Hout); [lia|]. cbn [mbind option_bind]. intros Hrun Hg'.
  destruct (gone (b_sim b1)) eqn:Hg1.
  { rewrite run_gone in Hrun by done. injection Hrun as <-. congruence. }
  assert (length (u_rx (b_uart b1)) <= length (heard lap b))%nat as Hle.
  { destruct Hout as [f _ Hlt _ _|Hrx _ _ _ _|_ _ _ _ Hsim _]; [lia|rewrite Hrx; simpl; lia|].
    rewrite Hsim in Hg1. unfold port_jump_to_app in Hg1. cbn [g_dead g_jumped] in Hg1. by rewrite orb_true_r in Hg1. }
  assert (length (heard_all laps b1) <= length (heard lap b) + length (concat (lap_rx <$> laps)))%nat as Hha
    by (unfold heard_all; rewrite length_app; lia).
  specialize (IH b1 Hb1 Hg1 Hall ltac:(lia) Hrun Hg'). lia.
Qed.

(** C21: the main loop of the serial ports. Whatever arrives when, and whatever
    the clock says: what the board sends are the device's answers to the frames
    the host's scanner finds in what it received, in order, and nothing else;
    and the device is left as those requests leave it. An answered BOOT enters
    the application with its whole answer on the wire. The entry window enters
    the application only if no frame has come, the time is up and the flash is
    valid; with an invalid flash, or once a frame has come, the board stays. And
    enough laps answer everything. *)
Theorem uart_main laps b : board_ok b -> gone (b_sim b) = false -> Forall (fun lap => bytes (lap_rx lap)) laps ->
  (length (heard_all laps b) < fuel)%nat ->
  exists b', run fuel laps b = Some b' /\ ran laps b b'
    /\ forall before quiet, laps = before ++ quiet -> Forall (fun lap => lap_rx lap = []) quiet ->
         (length (heard_all laps b) <= length quiet)%nat -> gone (b_sim b') = false ->
         frames (b_link b') (u_rx (b_uart b')) = [].
Proof.
  intros Hb Hg Hall Hf. destruct (run_spec laps b Hb Hg Hall Hf) as (b' & Hrun & _ & Hran). exists b'. split_and!; [done..|].
  intros before quiet -> Hq Hlen Hg'. assert (u_rx (b_uart b') = []) as ->; [|done].
  rewrite run_app in Hrun. apply Forall_app in Hall as [Hall1 _].
  assert (heard_all (before ++ quiet) b = heard_all before b ++ concat (lap_rx <$> quiet)) as Hsplit
    by (unfold heard_all; by rewrite fmap_app, concat_app, app_assoc).
  rewrite Hsplit, length_app in Hf, Hlen.
  destruct (run_spec before b Hb Hg Hall1) as (b1 & Hr1 & Hb1 & _); [lia|]. rewrite Hr1 in Hrun. cbn [mbind option_bind] in Hrun.
  destruct (gone (b_sim b1)) eqn:Hg1; [rewrite run_gone in Hrun by done; injection Hrun as <-; congruence|].
  pose proof (run_length before b b1 Hb Hg Hall1 ltac:(lia) Hr1 Hg1).
  apply run_drains in Hrun; [|done..|lia|done]. apply nil_length_inv. lia.
Qed.
End laps.
