(* ===== verification/Usart.v ===== *)
(** Two UARTs for the main loop of [UartPort.v]: [device/ports/avr_ea_uart/uart.c]
    on the registers of the AVR's USART0, and
    [device/ports/rp2350_uart/uart.c] on the PL011. The register operations and
    the drain are the ports'; the hardware under them is what the comments there
    say of it, with time: a register access takes a moment, a byte on the line
    takes [byte_time] of them. *)
From S2P Require Import Prelude Errors Frame Image Stream Device DeviceLink Conformance Pumps UartPort.

(** ** USART0 *)
Module Usart0.

(** The receive buffer; the shift register with the moments its byte still
    takes, [TXDATA], the flag [TXCIF]; and the line. *)
Record Usart := mkUsart {
  rx_buffer : list Z;
  shifting : option (Z * nat);
  txdata : option Z;
  txcif : bool;
  line : list Z;
}.

Section usart.
Context (byte_time : nat).

(** A moment: the byte moves on, and when it is out the next one is taken from
    [TXDATA], or the transmission is complete. *)
Definition moment (w : Usart) : Usart :=
  match shifting w with
  | None => w
  | Some (b, S n) => mkUsart (rx_buffer w) (Some (b, n)) (txdata w) (txcif w) (line w)
  | Some (b, O) =>
    match txdata w with
    | Some d => mkUsart (rx_buffer w) (Some (d, byte_time)) None (txcif w) (line w ++ [b])
    | None => mkUsart (rx_buffer w) None None true (line w ++ [b])
    end
  end.

(** Writing to [TXDATAL]; [STATUS] with the bit of [TXCIF] clears the flag. *)
Definition load (b : Z) (w : Usart) : Usart :=
  match shifting w with
  | None => mkUsart (rx_buffer w) (Some (b, byte_time)) (txdata w) (txcif w) (line w)
  | Some _ => mkUsart (rx_buffer w) (shifting w) (Some b) (txcif w) (line w)
  end.
Definition clear_txcif (w : Usart) : Usart :=
  mkUsart (rx_buffer w) (shifting w) (txdata w) false (line w).

(** *** [uart.c] *)
Definition u0_rx_ready (w : Usart) : bool := negb (bool_decide (rx_buffer w = [])).
Definition u0_rx_read (w : Usart) : Z * Usart :=
  (default 0 (head (rx_buffer w)), mkUsart (tail (rx_buffer w)) (shifting w) (txdata w) (txcif w) (line w)).
Definition u0_tx_ready (w : Usart) : bool * Usart := (bool_decide (txdata w = None), moment w).
Definition u0_tx_write (b : Z) (w : Usart) : Usart := moment (load b (moment (clear_txcif w))).
Fixpoint tx_drain (fuel : nat) (w : Usart) : option Usart :=
  match fuel with
  | O => None
  | S fuel => if txcif w then Some (moment w) else tx_drain fuel (moment w)
  end.

#[export] Instance u0_ops : UartPumpOps Usart :=
  {| rx_ready := u0_rx_ready; rx_read := u0_rx_read; tx_ready := u0_tx_ready; tx_write := u0_tx_write |}.

#[export] Instance usart0 : UartPort Usart := {|
  up_ops := u0_ops;
  patience := 2 * byte_time + 4;
  uart_tx_drain := tx_drain (2 * byte_time + 4);
  elapse n bs w :=
    let w := Nat.iter n moment w in mkUsart (rx_buffer w ++ bs) (shifting w) (txdata w) (txcif w) (line w);
|}.

(** *** What holds of the registers *)
Definition sent (w : Usart) : list Z := line w ++ option_list (fst <$> shifting w) ++ option_list (txdata w).
Record ok (w : Usart) : Prop := {
  ok_data : txdata w = None \/ is_Some (shifting w);
  ok_time : forall b n, shifting w = Some (b, n) -> (n <= byte_time)%nat;
}.
(** [TXDATA] waits, or the byte on the line was loaded at most [k] moments ago. *)
Definition loaded (k : nat) (w : Usart) : Prop :=
  exists b n, shifting w = Some (b, n) /\ (txdata w = None -> (byte_time <= n + k)%nat).
Definition same (w w' : Usart) : Prop := rx_buffer w' = rx_buffer w /\ sent w' = sent w.

Lemma moment_step w : ok w -> ok (moment w) /\ same w (moment w).
Proof.
  intros [Hd Ht]. destruct w as [rx [[b [|n]]|] [d|] c l]; unfold moment, same, sent; cbn in *.
  all: split; [split; cbn; eauto; try (intros ? ? [= <- <-]); try lia; specialize (Ht _ _ eq_refl); lia|].
  all: repeat split; try done; by rewrite <- ?app_assoc.
Qed.
Lemma moments_ok n w : ok w -> ok (Nat.iter n moment w) /\ same w (Nat.iter n moment w).
Proof.
  intros Hw. induction n as [|n [Hi [Hr Hs]]]; [by split|]. change (Nat.iter (S n) moment w) with (moment (Nat.iter n moment w)). destruct (moment_step _ Hi) as [Hm [Hr' Hs']].
  split; [done|]. split; congruence.
Qed.

(** The byte on the line moves out, and [TXDATA] is taken. *)
Lemma moments_take d n : forall f w c, shifting w = Some (c, n) -> txdata w = Some d ->
  UartPump.wait_tx (S n + f) w
    = UartPump.wait_tx f (mkUsart (rx_buffer w) (Some (d, byte_time)) None (txcif w) (line w ++ [c])).
Proof.
  induction n as [|n IH]; intros f w c Hs Hd; cbn [Nat.add UartPump.wait_tx tx_ready u0_ops]; unfold u0_tx_ready;
    rewrite Hd, bool_decide_false by done; unfold moment; rewrite Hs; [by rewrite Hd|].
  exact (IH f (mkUsart (rx_buffer w) (Some (c, n)) (txdata w) (txcif w) (line w)) c eq_refl Hd).
Qed.

Context (Hslow : (3 <= byte_time)%nat).

(** Waiting for [DREIF]. *)
Lemma wait_free f w : ok w -> txdata w = None -> exists w', UartPump.wait_tx (S f) w = Some w'
  /\ ok w' /\ same w w' /\ txdata w' = None /\ (loaded 1 w -> loaded 2 w').
Proof.
  intros Hok Hd. exists (moment w). destruct (moment_step w Hok) as [Hm Hs]. cbn [UartPump.wait_tx tx_ready u0_ops].
  unfold u0_tx_ready. rewrite bool_decide_true by done. split_and!; try done; unfold moment.
  - destruct (shifting w) as [[b [|n]]|]; [by rewrite Hd|done|done].
  - intros (b & n & -> & Hn). specialize (Hn Hd). destruct n as [|n]; [lia|]. exists b, n. split; [done|]. intros _. lia.
Qed.
Lemma wait_dreif w : ok w -> exists w', UartPump.wait_tx (2 * byte_time + 4) w = Some w'
  /\ ok w' /\ same w w' /\ txdata w' = None /\ (loaded 1 w -> loaded 2 w').
Proof.
  intros Hok. destruct (txdata w) as [d|] eqn:Hd.
  2: { replace (2 * byte_time + 4)%nat with (S (2 * byte_time + 3)) by lia. by apply wait_free. }
  pose proof Hok as [[?|[[c n] Hs]] Ht]; [congruence|]. specialize (Ht _ _ Hs).
  replace (2 * byte_time + 4)%nat with (S n + S (2 * byte_time + 2 - n))%nat by lia. rewrite (moments_take d n _ _ c) by done.
  set (w1 := mkUsart _ _ _ _ _). destruct (wait_free (2 * byte_time + 2 - n) w1) as (w' & -> & Hok' & [Hr Hse] & Hd' & Hl).
  - split; [by left|]. intros ? ? [= <- <-]. lia.
  - done.
  - exists w'. split_and!; try done; [split; [done|]|].
    + rewrite Hse. subst w1. unfold sent. rewrite Hs, Hd. cbn. by rewrite <- app_assoc.
    + intros _. apply Hl. exists d, byte_time. split; [done|]. intros _. lia.
Qed.

(** Writing to the free [TXDATA]. [TXCIF] is down afterwards unless the byte
    before it left the chip between the two register writes. *)
Lemma write_loads b w : ok w -> txdata w = None -> let w' := u0_tx_write b w in
  ok w' /\ rx_buffer w' = rx_buffer w /\ sent w' = sent w ++ [b] /\ loaded 1 w' /\ (loaded 2 w -> txcif w' = false).
Proof.
  intros [_ Ht] Hd. destruct w as [rx [[c n]|] d f l]; cbn in Hd; subst d; unfold u0_tx_write, clear_txcif, loaded, sent; cbn in *.
  - specialize (Ht _ _ eq_refl). destruct n as [|[|n]]; unfold moment, load; cbn;
      [destruct byte_time as [|bt] eqn:Hbt; [lia|]; cbn| |].
    all: split; [split; cbn; [eauto..|intros ? ? [= <- <-]; lia]|].
    all: split; [done|]; split; [by rewrite <- ?app_assoc|]; split; [eexists _, _; split; [done|]; intros; (done || lia)|].
    all: intros (? & ? & [= <- <-] & Hl); try done. specialize (Hl eq_refl). lia.
  - unfold moment, load; cbn. destruct byte_time as [|bt] eqn:Hbt; [lia|]. cbn.
    split; [split; cbn; [eauto..|intros ? ? [= <- <-]; lia]|].
    split; [done|]. split; [by rewrite app_nil_r|]. split; [eexists _, _; split; [done|]; intros; lia|]. done.
Qed.

Lemma put_spec b w : ok w -> exists w', put_byte b w = Some w'
  /\ ok w' /\ rx_buffer w' = rx_buffer w /\ sent w' = sent w ++ [b] /\ loaded 1 w' /\ (loaded 1 w -> txcif w' = false).
Proof.
  intros Hok. destruct (wait_dreif w Hok) as (w1 & Hw & Hok1 & [Hr1 Hs1] & Hd1 & Hl1).
  cbn [put_byte port_io UartPump.pump_io]. unfold UartPump.pump_put. cbn [patience usart0 up_ops].
  change (UartPump.wait_tx (2 * byte_time + 4) w) with (UartPump.wait_tx (H:=u0_ops) (2 * byte_time + 4) w). rewrite Hw.
  destruct (write_loads b w1 Hok1 Hd1) as (Hok2 & Hr2 & Hs2 & Hl2 & Hc2). eexists. split; [done|].
  cbn [tx_write u0_ops]. split_and!; try done; [congruence|by rewrite Hs2, Hs1|auto].
Qed.

Lemma put_bytes bs : forall w, ok w -> loaded 1 w -> exists w', put_all bs w = Some w'
  /\ ok w' /\ rx_buffer w' = rx_buffer w /\ sent w' = sent w ++ bs /\ loaded 1 w' /\ (bs <> [] \/ txcif w = false -> txcif w' = false).
Proof.
  induction bs as [|b bs IH]; intros w Hok Hl; cbn [put_all].
  { exists w. rewrite app_nil_r. split_and!; try done. by intros [?|?]. }
  destruct (put_spec b w Hok) as (w1 & -> & Hok1 & Hr1 & Hs1 & Hl1 & Hc1). cbn [mbind option_bind].
  destruct (IH w1 Hok1 Hl1) as (w2 & -> & Hok2 & Hr2 & Hs2 & Hl2 & Hc2). exists w2. split_and!; try done; [congruence| |].
  - by rewrite Hs2, Hs1, <- app_assoc.
  - intros _. apply Hc2. right. by apply Hc1.
Qed.

(** The drain ends when everything is on the line. *)
Lemma drain_shift n : forall f w c, shifting w = Some (c, n) -> txdata w = None -> txcif w = false ->
  tx_drain (S n + S f) w = Some (mkUsart (rx_buffer w) None None true (line w ++ [c])).
Proof.
  induction n as [|n IH]; intros f w c Hs Hd Hc; cbn [Nat.add tx_drain]; rewrite Hc; unfold moment; rewrite Hs; [by rewrite Hd|].
  exact (IH f (mkUsart (rx_buffer w) (Some (c, n)) (txdata w) (txcif w) (line w)) c eq_refl Hd Hc).
Qed.
Lemma drain_data d n : forall f w c, shifting w = Some (c, n) -> txdata w = Some d -> txcif w = false ->
  tx_drain (S n + f) w = tx_drain f (mkUsart (rx_buffer w) (Some (d, byte_time)) None false (line w ++ [c])).
Proof.
  induction n as [|n IH]; intros f w c Hs Hd Hc; cbn [Nat.add tx_drain]; rewrite Hc; unfold moment; rewrite Hs; [by rewrite Hd, Hc|].
  exact (IH f (mkUsart (rx_buffer w) (Some (c, n)) (txdata w) (txcif w) (line w)) c eq_refl Hd Hc).
Qed.
Lemma tx_drain_done w : ok w -> loaded 1 w -> txcif w = false -> exists w', tx_drain (2 * byte_time + 4) w = Some w'
  /\ ok w' /\ rx_buffer w' = rx_buffer w /\ sent w' = sent w /\ line w' = sent w'.
Proof.
  intros Hok (c & n & Hs & _) Hc. pose proof Hok as [_ Ht]. specialize (Ht _ _ Hs).
  assert (forall rx l, ok (mkUsart rx None None true l)) as Hempty by (intros; by split; [left|]).
  destruct (txdata w) as [d|] eqn:Hd.
  - replace (2 * byte_time + 4)%nat with (S n + (S byte_time + S (byte_time + 1 - n)))%nat by lia.
    rewrite (drain_data d n _ w c), (drain_shift byte_time _ _ d) by done.
    eexists. split; [done|]. unfold sent. cbn. rewrite Hs, Hd. cbn. rewrite app_nil_r, <- app_assoc. by split_and!.
  - replace (2 * byte_time + 4)%nat with (S n + S (2 * byte_time + 2 - n))%nat by lia. rewrite (drain_shift n _ w c) by done.
    eexists. split; [done|]. unfold sent. cbn. rewrite Hs, Hd. cbn. rewrite app_nil_r. by split_and!.
Qed.

#[export] Instance usart0_laws : UartLaws usart0.
Proof.
  refine {| u_ok := ok; u_rx := rx_buffer; u_sent := sent; u_line := line |}.
  - intros w _ Hrx. cbn [rx_ready up_ops usart0 u0_ops]. unfold u0_rx_ready. by rewrite Hrx.
  - intros w b rx [Hd Ht] Hrx. cbn [rx_ready rx_read up_ops usart0 u0_ops]. unfold u0_rx_ready, u0_rx_read. rewrite Hrx.
    split; [done|]. eexists. split; [done|]. by split_and!.
  - intros w bs Hok Hlen. destruct bs as [|b1 [|b2 bs]]; [by rewrite len_nil in Hlen|by rewrite len_cons, len_nil in Hlen|].
    cbn [put_all]. destruct (put_spec b1 w Hok) as (w1 & -> & Hok1 & Hr1 & Hs1 & Hl1 & _). cbn [mbind option_bind].
    destruct (put_bytes (b2 :: bs) w1 Hok1 Hl1) as (w2 & Hp & Hok2 & Hr2 & Hs2 & Hl2 & Hc2). cbn [put_all] in Hp. rewrite Hp.
    exists w2. split_and!; try done; [congruence|by rewrite Hs2, Hs1, <- app_assoc|].
    destruct (tx_drain_done w2 Hok2 Hl2) as (w3 & Hd & Hok3 & Hr3 & Hs3 & Hline); [apply Hc2; by left|].
    exists w3. split_and!; try done; congruence.
  - intros n bs w Hok. cbn [elapse usart0]. destruct (moments_ok n w Hok) as [[Hd Ht] [Hr Hs]]. cbn [rx_buffer].
    split_and!; [by split|by rewrite Hr|exact Hs].
Defined.
End usart.
End Usart0.

(** ** The PL011 *)
Module Pl011.

Definition FIFO_LEN : nat := 32.

(** The receive FIFO, the transmit FIFO, the shift register and the line. *)
Record Uart := mkUart { rx_fifo : list Z; tx_fifo : list Z; shifting : option (Z * nat); line : list Z }.

Section pl011.
Context (byte_time : nat).

Definition advance (w : Uart) (out : list Z) : Uart :=
  match tx_fifo w with
  | [] => mkUart (rx_fifo w) [] None (line w ++ out)
  | b :: fifo => mkUart (rx_fifo w) fifo (Some (b, byte_time)) (line w ++ out)
  end.
Definition moment (w : Uart) : Uart :=
  match shifting w with
  | Some (b, S n) => mkUart (rx_fifo w) (tx_fifo w) (Some (b, n)) (line w)
  | Some (b, O) => advance w [b]
  | None => advance w []
  end.

(** [uart_is_readable], [uart_is_writable], the data register and [FR.BUSY],
    which [uart_tx_wait_blocking] waits for. *)
Definition uart_is_readable (w : Uart) : bool := negb (bool_decide (rx_fifo w = [])).
Definition uart_is_writable (w : Uart) : bool := (length (tx_fifo w) <? FIFO_LEN)%nat.
Definition busy (w : Uart) : bool := negb (bool_decide (tx_fifo w = [] /\ shifting w = None)).
Fixpoint uart_tx_wait_blocking (fuel : nat) (w : Uart) : option Uart :=
  match fuel with
  | O => None
  | S fuel => if busy w then uart_tx_wait_blocking fuel (moment w) else Some (moment w)
  end.

(** *** [uart.c] *)
Definition u0_rx_ready (w : Uart) : bool := uart_is_readable w.
Definition u0_rx_read (w : Uart) : Z * Uart :=
  (default 0 (head (rx_fifo w)), mkUart (tail (rx_fifo w)) (tx_fifo w) (shifting w) (line w)).
Definition u0_tx_ready (w : Uart) : bool * Uart := (uart_is_writable w, moment w).
Definition u0_tx_write (b : Z) (w : Uart) : Uart :=
  moment (mkUart (rx_fifo w) (if uart_is_writable w then tx_fifo w ++ [b] else tx_fifo w) (shifting w) (line w)).
Definition updater_uart_tx_drain (fuel : nat) (w : Uart) : option Uart := uart_tx_wait_blocking fuel w.

#[export] Instance u0_ops : UartPumpOps Uart :=
  {| rx_ready := u0_rx_ready; rx_read := u0_rx_read; tx_ready := u0_tx_ready; tx_write := u0_tx_write |}.

(** A full FIFO is out in this time. *)
Definition long : nat := (FIFO_LEN + 2) * (byte_time + 2).
#[export] Instance pl011 : UartPort Uart := {|
  up_ops := u0_ops;
  patience := long;
  uart_tx_drain := updater_uart_tx_drain long;
  elapse n bs w := let w := Nat.iter n moment w in mkUart (rx_fifo w ++ bs) (tx_fifo w) (shifting w) (line w);
|}.

(** *** What holds of the registers *)
Definition sent (w : Uart) : list Z := line w ++ option_list (fst <$> shifting w) ++ tx_fifo w.
Record ok (w : Uart) : Prop := {
  ok_fifo : (length (tx_fifo w) <= FIFO_LEN)%nat;
  ok_time : forall b n, shifting w = Some (b, n) -> (n <= byte_time)%nat;
}.
Definition same (w w' : Uart) : Prop := rx_fifo w' = rx_fifo w /\ sent w' = sent w.

(** The moments until all is out. *)
Definition pending (w : Uart) : nat :=
  from_option (fun '(_, n) => S n) O (shifting w) + length (tx_fifo w) * (byte_time + 2).

Lemma fifo_moment w : ok w -> ok (moment w) /\ same w (moment w) /\ (pending (moment w) <= pending w - 1)%nat.
Proof.
  intros [Hf Ht]. destruct w as [rx fifo [[b [|n]]|] l]; unfold moment, advance, same, sent, pending; cbn in *.
  2: { specialize (Ht _ _ eq_refl). split; [split; cbn; [done|intros ? ? [= <- <-]; lia]|]. split; [done|]. lia. }
  all: destruct fifo as [|d fifo]; cbn in *; (split; [split; cbn; [lia|intros ? ? [= <- <-]; lia]|]) || (split; [split; cbn; [lia|done]|]).
  all: (split; [split; [done|]; by rewrite <- ?app_assoc, ?app_nil_r|lia]).
Qed.
Lemma fifo_moments n w : ok w -> ok (Nat.iter n moment w) /\ same w (Nat.iter n moment w).
Proof.
  intros Hw. induction n as [|n [Hi [Hr Hs]]]; [by split|].
  change (Nat.iter (S n) moment w) with (moment (Nat.iter n moment w)). destruct (fifo_moment _ Hi) as (Hm & [Hr' Hs'] & _).
  split; [done|]. split; congruence.
Qed.
Lemma pending_long w : ok w -> (pending w < long)%nat.
Proof.
  intros [Hf Ht]. unfold pending, long, FIFO_LEN in *. destruct (shifting w) as [[b n]|]; cbn; [specialize (Ht _ _ eq_refl)|]; nia.
Qed.

Lemma fifo_wait f : forall w, ok w -> (pending w < f)%nat -> exists w', UartPump.wait_tx f w = Some w'
  /\ ok w' /\ same w w' /\ (length (tx_fifo w') < FIFO_LEN)%nat.
Proof.
  induction f as [|f IH]; intros w Hok Hf; [lia|]. destruct (fifo_moment w Hok) as (Hm & [Hr Hs] & Hp).
  cbn [UartPump.wait_tx tx_ready u0_ops]. unfold u0_tx_ready, uart_is_writable. destruct (Nat.ltb_spec (length (tx_fifo w)) FIFO_LEN) as [Hlt|Hge].
  - exists (moment w). split_and!; try done. unfold moment, advance. destruct (shifting w) as [[b [|n]]|]; cbn; [|done|];
      destruct (tx_fifo w); cbn in *; lia.
  - destruct (IH (moment w) Hm) as (w' & -> & Hok' & [Hr' Hs'] & Hl).
    + assert (0 < pending w)%nat by (unfold pending, FIFO_LEN in *; nia). lia.
    + exists w'. split_and!; try done. split; congruence.
Qed.
Lemma fifo_drained f : forall w, ok w -> (pending w < f)%nat -> exists w', uart_tx_wait_blocking f w = Some w'
  /\ ok w' /\ same w w' /\ line w' = sent w'.
Proof.
  induction f as [|f IH]; intros w Hok Hf; [lia|]. destruct (fifo_moment w Hok) as (Hm & [Hr Hs] & Hp).
  cbn [uart_tx_wait_blocking]. unfold busy. case_bool_decide as Hb; cbn [negb].
  - destruct Hb as [Hb1 Hb2]. exists (moment w). split_and!; try done.
    unfold moment, advance, sent. rewrite Hb2. destruct w as [rx fifo s l]; cbn in *. by subst; cbn; rewrite !app_nil_r.
  - destruct (IH (moment w) Hm) as (w' & -> & Hok' & [Hr' Hs'] & Hl).
    + assert (0 < pending w)%nat; [|lia]. unfold pending. destruct (shifting w) as [[]|]; cbn; [lia|].
      destruct (tx_fifo w); [by destruct Hb|]. cbn. lia.
    + exists w'. split_and!; try done. split; congruence.
Qed.

Lemma fifo_puts bs : forall w, ok w -> exists w', put_all bs w = Some w'
  /\ ok w' /\ rx_fifo w' = rx_fifo w /\ sent w' = sent w ++ bs.
Proof.
  induction bs as [|b bs IH]; intros w Hok; cbn [put_all].
  { exists w. by rewrite app_nil_r. }
  destruct (fifo_wait long w Hok (pending_long w Hok)) as (w1 & Hw & [Hf1 Ht1] & [Hr1 Hs1] & Hlt).
  cbn [put_byte port_io UartPump.pump_io]. unfold UartPump.pump_put. cbn [patience pl011 up_ops]. rewrite Hw.
  cbn [fmap option_fmap option_map mbind option_bind tx_write u0_ops]. unfold u0_tx_write, uart_is_writable.
  rewrite (proj2 (Nat.ltb_lt _ _)) by done. set (w2 := mkUart _ _ _ _).
  destruct (fifo_moment w2) as (Hok3 & [Hr3 Hs3] & _).
  { split; subst w2; cbn; [rewrite length_app; cbn; lia|done]. }
  destruct (IH (moment w2) Hok3) as (w4 & -> & Hok4 & Hr4 & Hs4). exists w4. split_and!; try done; [by rewrite Hr4, Hr3|].
  rewrite Hs4, Hs3, <- Hs1. subst w2. unfold sent. cbn. by rewrite <- !app_assoc.
Qed.

#[export] Instance pl011_laws : UartLaws pl011.
Proof.
  refine {| u_ok := ok; u_rx := rx_fifo; u_sent := sent; u_line := line |}.
  - intros w _ Hrx. cbn [rx_ready up_ops pl011 u0_ops]. unfold u0_rx_ready, uart_is_readable. by rewrite Hrx.
  - intros w b rx [Hf Ht] Hrx. cbn [rx_ready rx_read up_ops pl011 u0_ops]. unfold u0_rx_ready, uart_is_readable, u0_rx_read. rewrite Hrx.
    split; [done|]. eexists. split; [done|]. by split_and!.
  - intros w bs Hok _. destruct (fifo_puts bs w Hok) as (w1 & -> & Hok1 & Hr1 & Hs1). exists w1. split_and!; try done.
    destruct (fifo_drained long w1 Hok1 (pending_long w1 Hok1)) as (w2 & Hd & Hok2 & [Hr2 Hs2] & Hl). exists w2. split_and!; try done. congruence.
  - intros n bs w Hok. cbn [elapse pl011]. destruct (fifo_moments n w Hok) as [[Hf Ht] [Hr Hs]]. cbn [rx_fifo].
    split_and!; [by split|by rewrite Hr|exact Hs].
Defined.
End pl011.
End Pl011.

(** ** A board *)

(** Noise, an ECHO in two parts, and a BOOT, over USART0. *)
Definition sample_laps : list Lap :=
  [mkLap 3 [1; 2; SYNC; CMD_ECHO] 10; mkLap 500 (drop 1 (wire CMD_ECHO [7]) ++ [9]) 299; mkLap 0 [] 350;
   mkLap 40 (SYNC :: wire CMD_BOOT []) 351].
Definition sample_board : Board Usart0.Usart :=
  board_start (replicate 136 0) (Usart0.mkUsart [] None None false []) sample_sim false.

#[local] Instance chip : UartPort Usart0.Usart := Usart0.usart0 20.
#[local] Instance chip_laws : UartLaws chip.
Proof. apply Usart0.usart0_laws. lia. Defined.

Lemma sample_board_ok : board_ok sample_board.
Proof.
  split; cbn [b_link b_uart b_sim sample_board board_start].
  - split; [exact (bytes_replicate 136 0 ltac:(lia))|by vm_compute|done].
  - split; [by left|done].
  - constructor.
  - split; [exact sample_wf|reflexivity].
Qed.

Lemma uart_main_witness : exists b', run 100 sample_laps sample_board = Some b'
  /\ ran (H:=ptr64) sample_laps sample_board b'
  /\ g_jumped (b_sim b') = true
  /\ Usart0.line (b_uart b') = SYNC :: reply CMD_ECHO [ST_OK; 7] ++ SYNC :: reply CMD_BOOT [ST_OK].
Proof.
  destruct (uart_main (H:=ptr64) 100 sample_laps sample_board sample_board_ok)
    as (b' & Hrun & Hran & _).
  - reflexivity.
  - repeat constructor; by vm_compute.
  - vm_compute. lia.
  - exists b'. split; [exact Hrun|]. split; [exact Hran|].
    assert (option_map (fun b => (g_jumped (b_sim b), Usart0.line (b_uart b))) (run 100 sample_laps sample_board)
      = Some (true, SYNC :: reply CMD_ECHO [ST_OK; 7] ++ SYNC :: reply CMD_BOOT [ST_OK])) as Hc by (vm_compute; reflexivity).
    rewrite Hrun in Hc. cbn [option_map] in Hc. injection Hc as Hj Hl. by split.
Defined.
