(* ===== verification/Carrier.v ===== *)
(** What a session needs of the way to the device: the interface between the
    host and the simulated device. A carrier is a transport that, asked for one
    request frame, either hands it to the device and brings the answer back, or
    fails in a way that makes the session try again, the device having heard
    the frame or not. Whatever carries frames so, an exchange and every session
    operation do to the device what is proved of them here; [Wire.v],
    [SerialLine.v] and [Tool.v] have carriers. *)
From stdpp Require Import relations.
From S2P Require Import Prelude Errors Frame Image Stream Transport Session Recorded Device DeviceLink Conformance.

(** ** Answers *)

(** An answer of the idle bus. *)
Definition idle (rsp : list Z) : list Z := replicate (length rsp) 0xFF.

Lemma len_idle rsp : len (idle rsp) = len rsp.
Proof. unfold idle, len. by rewrite length_replicate. Qed.
Lemma bytes_idle rsp : bytes (idle rsp).
Proof. by apply bytes_replicate. Qed.

Lemma len_padded raw n : 0 <= n -> len (padded raw n) = n.
Proof.
  intros Hn. pose proof (len_nonneg raw). unfold padded. rewrite len_app, len_take, len_replicate by lia. lia.
Qed.
Lemma bytes_padded raw n : bytes raw -> bytes (padded raw n).
Proof. intros Hb. apply bytes_app. split; [auto with ota|by apply bytes_replicate]. Qed.

Lemma padded_nil rsp : padded [] (len rsp) = idle rsp.
Proof.
  unfold padded, idle. pose proof (len_nonneg rsp). rewrite len_nil, Z.min_l, Z.sub_0_r, to_nat_len by lia. done.
Qed.

Section answers.
Context `{PtrWidth} {E : Type}.
Implicit Types rsp tx p payload : list Z.

Lemma verdict_ok_len c (tx : list Z) rx : verdict c (mkAttempt (E:=E) tx (Ok (len rx)) rx) =
  match decode_padded rx with
  | Ok f =>
    if negb (frame_cmd f =? c) then Err Error.BadFrame else
    match frame_payload f with
    | [] => Err Error.BadFrame
    | st :: _ => if st =? ST_OK then Ok (len rx) else Err (Error.Device st)
    end
  | Err _ => Err Error.BadFrame
  end.
Proof.
  unfold verdict. cbn [at_res at_rsp]. rewrite Z.min_id.
  pose proof (len_nonneg rx). rewrite get_to_Some by lia. by rewrite to_nat_len, firstn_all.
Qed.

(** Idle bytes are no frame. *)
Lemma decode_padded_idle rsp : decode_padded (idle rsp) = Err Error.BadFrame.
Proof.
  destruct (decode_padded (idle rsp)) as [f|e] eqn:Hd; [|by rewrite (decode_padded_err _ _ Hd)]. exfalso.
  destruct (decode_padded_ok_inv _ _ (bytes_idle rsp) Hd) as (k & Hk & Hl).
  assert (idle rsp !! 1%nat = Some (len (frame_payload f))) as Hx by (by rewrite Hk).
  unfold idle in Hx. apply lookup_replicate in Hx as [Hx _]. change PAYLOAD_MAX with 252 in Hl. lia.
Qed.
Lemma verdict_idle c (tx rsp : list Z) : verdict c (mkAttempt (E:=E) tx (Ok (len rsp)) (idle rsp)) = Err Error.BadFrame.
Proof. by rewrite <- len_idle, verdict_ok_len, decode_padded_idle. Qed.
(** An answer cut off by the window is no frame, one that fits is itself. *)
Lemma decode_padded_padded c p rsp : bytes (wire c p) -> len p <= PAYLOAD_MAX ->
  decode_padded (padded (wire c p) (len rsp)) =
    if len rsp <? len p + 3 then Err Error.BadFrame else Ok (mkFrame c p).
Proof.
  intros Hb Hp. zcase.
  - destruct (decode_padded _) as [f|e] eqn:Hd; [|by rewrite (decode_padded_err _ _ Hd)]. exfalso.
    pose proof (len_nonneg rsp) as Hn.
    apply decode_padded_ok_inv in Hd as (k & Hk & Hl); [|by apply bytes_padded].
    pose proof (f_equal (@len Z) Hk) as Hlk. rewrite len_padded, len_app, len_wire in Hlk by done.
    pose proof (len_nonneg (replicate k 255)). pose proof (len_nonneg (frame_payload f)).
    assert (padded (wire c p) (len rsp) !! 1%nat = Some (len p)) as Hx.
    { unfold padded. rewrite len_wire, Z.min_r, Z.sub_diag, app_nil_r by lia.
      rewrite lookup_take_lt by lia. done. }
    rewrite Hk in Hx. injection Hx as Hx. lia.
  - unfold padded. rewrite Z.min_l by (rewrite len_wire; lia). rewrite to_nat_len, firstn_all.
    by apply decode_padded_wire.
Qed.

(** The verdict on an answer of the device. *)
Lemma verdict_reply cmd p (tx rsp : list Z) : bytes (reply cmd p) -> 1 <= len p <= 17 ->
  verdict (Z.lor cmd RSP_FLAG) (mkAttempt (E:=E) tx (Ok (len rsp)) (padded (reply cmd p) (len rsp))) =
    if len rsp <? len p + 3 then Err Error.BadFrame else
    match p with
    | [] => Err Error.BadFrame
    | st :: _ => if st =? ST_OK then Ok (len rsp) else Err (Error.Device st)
    end.
Proof.
  intros Hb Hp. pose proof (len_nonneg rsp) as Hn.
  rewrite <- (len_padded (reply cmd p) (len rsp)) at 1 by done. rewrite verdict_ok_len.
  unfold reply in *. rewrite decode_padded_padded by (done || change PAYLOAD_MAX with 252; lia).
  zcase; [done|]. cbn [frame_cmd frame_payload]. rewrite Z.eqb_refl. cbn [negb].
  by rewrite len_padded.
Qed.

(** The device handles one request frame. *)
Definition hear (cmd : Z) (payload : list Z) (s s' : Sim) : Prop :=
  exists raw, sim_request (wire cmd payload) s = Some (raw, s').

Lemma len_reply_cap raw cmd : (raw = [] \/ exists rsp, raw = reply cmd rsp /\ bytes rsp /\ 1 <= len rsp <= 17) ->
  len raw <= RESP_CAP.
Proof. intros [->|(p & -> & _ & ?)]; [by vm_compute|]. rewrite len_reply. change RESP_CAP with 259. lia. Qed.

(** What the session makes of the device's answer [raw] as it arrived: a
    success is the answer, and an answer that fits is a success. *)
Definition understood (cmd : Z) (tx raw : list Z) (r : result Z E) rsp : Prop :=
  match verdict (Z.lor cmd RSP_FLAG) (mkAttempt tx r rsp) with
  | Ok rlen => exists p, raw = reply cmd (ST_OK :: p) /\ response_payload rlen rsp = Ok p (E:=Error.t E)
  | Err _ => forall p, raw = reply cmd (ST_OK :: p) -> len rsp < len p + 4
  end.

Lemma reply_inj cmd p p' : reply cmd p = reply cmd p' -> p = p'.
Proof.
  unfold reply, wire. intros Heq. injection Heq as Hl Heq. apply app_inj_1 in Heq as [-> _]; [done|].
  unfold len in Hl. lia.
Qed.

(** An answer that arrives whole, followed by the idle bus. *)
Lemma padded_understood cmd payload s s' raw (rx : list Z) : sim_ok s -> bytes payload -> len payload <= PAYLOAD_MAX ->
  is_u8 cmd -> sim_request (wire cmd payload) s = Some (raw, s') ->
  understood cmd (wire cmd payload) raw (Ok (len rx)) (padded raw (len rx)).
Proof.
  intros Hok Hpayload Hlen Hcmd Hr. destruct (sim_request_frame_reply s cmd payload Hok Hpayload Hlen)
    as (raw' & s1 & Hr' & _ & _ & Hraw). rewrite Hr in Hr'. injection Hr' as <- <-.
  pose proof (len_nonneg rx) as Hn. unfold understood. destruct Hraw as [->|(p & -> & Hp & Hpl)].
  { by rewrite padded_nil, verdict_idle. }
  assert (bytes (reply cmd p)) as Hb by (apply reply_bytes; [done..|lia]).
  rewrite verdict_reply, len_padded by done. zcase.
  { intros p' Heq. unfold reply, wire in Heq. injection Heq as Hl _. rewrite len_cons in Hl. lia. }
  destruct p as [|st p]; [change (len []) with 0 in *; lia|]. destruct (Z.eqb_spec st ST_OK) as [->|Hst].
  - exists p. split; [done|]. unfold response_payload.
    rewrite get_to_Some by (rewrite len_padded; lia).
    pose proof (len_padded (reply cmd (ST_OK :: p)) (len rx) ltac:(done)) as HP.
    set (raw := padded (reply cmd (ST_OK :: p)) (len rx)) in *.
    rewrite take_ge by (rewrite <- HP, to_nat_len; done). subst raw. unfold reply in *. rewrite decode_padded_padded by (done || change PAYLOAD_MAX with 252; lia).
    by rewrite (proj2 (Z.ltb_ge _ _)).
  - intros p' Heq%reply_inj. injection Heq as -> _. done.
Qed.

(** An answer that is at the front of the window. *)
Lemma front_understood cmd tx p rx : 1 <= len p <= 17 ->
  take (length (reply cmd p)) rx = reply cmd p -> understood cmd tx (reply cmd p) (Ok (len p + 3)) rx.
Proof.
  intros Hp Hf. assert (len (reply cmd p) = len p + 3) as Hl by apply len_reply.
  assert (len p + 3 <= len rx) as Hle.
  { apply (f_equal length) in Hf. rewrite length_take in Hf. unfold len in *. lia. }
  replace (length (reply cmd p)) with (Z.to_nat (len p + 3)) in Hf by (unfold len in *; lia).
  assert (get_to (len p + 3) rx = Some (reply cmd p)) as Hget by (rewrite get_to_Some by lia; by rewrite Hf).
  unfold understood, verdict. cbn [at_res at_rsp]. rewrite Z.min_l by lia. unfold response_payload. rewrite Hget.
  pose proof (decode_padded_wire (Z.lor cmd RSP_FLAG) p 0 ltac:(change PAYLOAD_MAX with 252; lia)) as Hd.
  cbn [replicate] in Hd. rewrite app_nil_r in Hd. cbn [default]. unfold id, reply. rewrite Hd. cbn [frame_cmd frame_payload].
  rewrite Z.eqb_refl. cbn [negb]. destruct p as [|st p]; [change (len []) with 0 in *; lia|].
  destruct (Z.eqb_spec st ST_OK) as [->|Hst]; [exists p; split; [done|]; unfold reply in Hget; by rewrite Hget, Hd|].
  intros p' Heq%reply_inj. congruence.
Qed.
End answers.

(** The longest answer to a command. *)
Definition answer_max (cmd : Z) (payload : list Z) : Z :=
  if cmd =? CMD_INFO then INFO_RSP_PAYLOAD
  else if cmd =? CMD_ECHO then len payload + ST_RSP_PAYLOAD
  else ST_RSP_PAYLOAD.

Lemma handles_answer_max d cmd payload rsp d' : handles d cmd payload rsp d' ->
  length (pi_device_id (s_info d)) = 4%nat -> len rsp <= answer_max cmd payload.
Proof.
  intros Hh Hid. pose proof (len_nonneg payload). unfold answer_max.
  change INFO_RSP_PAYLOAD with 12. change ST_RSP_PAYLOAD with 1.
  destruct Hh; try (by vm_compute).
  - unfold identity, len. cbn [app length]. rewrite !length_app, Hid. simpl. lia.
  - cbn. rewrite len_cons. lia.
  - cbn. change (len [ST_BAD_FRAME]) with 1. lia.
  - change (len [ST_BAD_CMD]) with 1. repeat case_match; lia.
Qed.

(** What the device answers to a request frame. *)
Lemma frame_answer d cmd payload : sim_ok d -> bytes payload -> len payload <= PAYLOAD_MAX ->
  exists raw d', sim_request (wire cmd payload) d = Some (raw, d') /\ sim_ok d' /\ s_info d' = s_info d
    /\ (raw = [] \/ exists p, raw = reply cmd p /\ bytes p /\ 1 <= len p <= 17 /\ len p <= answer_max cmd payload).
Proof.
  intros Hok Hb Hl. pose proof (so_wf _ Hok) as Hwf. destruct (g_dead d || g_jumped d) eqn:Hd.
  { exists [], d. split; [by apply sim_request_silent|]. split_and!; try done. by left. }
  destruct (sim_request_wire d cmd payload) as (rsp & s1 & s' & _ & Hh & Hr & Hok' & Hi & _); [done..|].
  pose proof (handles_rsp _ _ _ _ _ Hh (dw_id _ _ Hwf)) as [? (st & rest & Hrsp)].
  pose proof (handles_answer_max _ _ _ _ _ Hh (dw_id _ _ Hwf)). pose proof (len_nonneg rest).
  rewrite Hr. eexists _, s'. split_and!; [done..|]. destruct (g_dead s1); [by left|right]. exists rsp.
  split_and!; try done; [by eapply handles_rsp_bytes|]. rewrite Hrsp, len_cons. lia.
Qed.

(** ** The interface *)

(** The device behind a transport, the transport's invariant, and how much
    trouble is still to come: [spare n t] when the next [n + 1] attempts, and
    later any four in a row, do not all fail for a reason other than the
    transport's patience; [patient cmd t] when it waits long enough for the
    answer to [cmd]. *)
Class Carried (T : Type) := {
  carrier_ok : T -> Prop;
  dev : T -> Sim;
  spare : nat -> T -> Prop;
  patient : Z -> T -> Prop;
}.

(** A request frame and a window that holds the longest answer to it. *)
Record asking `{PtrWidth} (cmd : Z) (payload rsp : list Z) : Prop := {
  as_cmd : is_u8 cmd;
  as_payload : bytes payload;
  as_len : len payload <= PAYLOAD_MAX;
  as_slice : slice rsp;
  as_fits : answer_max cmd payload + 3 <= len rsp;
}.

Class Carrier {T A} (tr : Transport T A) `{Carried T, PtrWidth} : Prop := {
  carrier_sim t : carrier_ok t -> sim_ok (dev t);
  carrier_typed t cmd payload rsp r t' rsp' : carrier_ok t -> asking cmd payload rsp ->
    request t (wire cmd payload) rsp = (r, (t', rsp')) ->
    carrier_ok t' /\ len rsp' = len rsp /\ bytes rsp';
  carrier_attempt t cmd payload rsp r t' rsp' : carrier_ok t -> asking cmd payload rsp ->
    request t (wire cmd payload) rsp = (r, (t', rsp')) ->
    (forall c, patient c t -> patient c t')
    /\ ((exists raw, sim_request (wire cmd payload) (dev t) = Some (raw, dev t')
           /\ understood cmd (wire cmd payload) raw r rsp'
           /\ forall n, (n <= 3)%nat -> spare n t -> spare 3 t')
        \/ retryable (verdict (Z.lor cmd RSP_FLAG) (mkAttempt (wire cmd payload) r rsp')) = true
           /\ (dev t' = dev t \/ hear cmd payload (dev t) (dev t'))
           /\ forall n, (n <= 3)%nat -> patient cmd t -> spare n t -> exists m, n = S m /\ spare m t');
}.

(** ** Exchanges *)
Section exchanges.
Context `{PtrWidth} {T A : Type} {tr : Transport T A} `{Carried T} {Hcarrier : Carrier tr}.
Context (cmd : Z) (payload : list Z).
Context (Hcmd : is_u8 cmd) (Hpayload : bytes payload) (Hlen : len payload <= PAYLOAD_MAX).
Implicit Types t : T.
Implicit Types rx : list Z.

Abbreviation tx := (wire cmd payload).
Abbreviation c := (Z.lor cmd RSP_FLAG).

Lemma exchange_loop_carried k : forall last t rx r t' rx',
  carrier_ok t -> slice rx -> answer_max cmd payload + 3 <= len rx ->
  exchange_loop k last t tx rx c = (r, (t', rx')) ->
  carrier_ok t' /\ len rx' = len rx /\ bytes rx' /\ (forall c, patient c t -> patient c t')
  /\ exists s1, rtc (hear cmd payload) (dev t) s1
     /\ match r with
        | Ok rlen => exists p, sim_request tx s1 = Some (reply cmd (ST_OK :: p), dev t')
            /\ response_payload rlen rx' = Ok p (E:=Error.t A)
        | Err _ => dev t' = s1
        end.
Proof.
  induction k as [|k IH]; intros last t rx r t' rx' Ht Hrx Hwin.
  { cbn [exchange_loop]. intros [= <- <- <-]. split_and!; try done; [by destruct Hrx|]. by exists (dev t). }
  rewrite exchange_loop_step. destruct (request t tx rx) as [r1 [t1 rx1]] eqn:Hreq.
  destruct (carrier_typed t cmd payload rx r1 t1 rx1 Ht ltac:(by split) Hreq) as (Ht1 & Hl1 & Hb1).
  destruct (carrier_attempt t cmd payload rx r1 t1 rx1 Ht ltac:(by split) Hreq) as [Hpat Hatt].
  assert (slice rx1) as Hrx1 by (split; [done|rewrite Hl1; by apply slice_len]).
  assert (rtc (hear cmd payload) (dev t) (dev t1)) as Hheard.
  { destruct Hatt as [(raw & Hr & _)|(_ & [->|Hh] & _)]; [|done|by apply rtc_once].
    apply rtc_once. by exists raw. }
  cbv beta iota zeta. destruct (retryable _) eqn:Hretry.
  - intros Hx. destruct (IH _ _ _ _ _ _ Ht1 Hrx1 ltac:(by rewrite Hl1) Hx) as (Ht' & Hl' & Hb' & Hpat' & s1 & Hs1 & Hr).
    split_and!; try done; [by rewrite Hl'|auto|]. exists s1. split; [by etrans|done].
  - destruct Hatt as [(raw & Hr & Hv & _)|(Hv & _)]; [|congruence].
    intros [<- [<- <-]%pair_equal_spec]%pair_equal_spec. split_and!; try done.
    unfold understood in Hv. destruct (verdict _ _) as [rlen|e].
    + destruct Hv as (p & -> & Hp). exists (dev t). split; [done|]. by exists p.
    + by exists (dev t1).
Qed.

(** A device that would accept the request whenever it comes is heard. *)
Lemma exchange_loop_live k : forall last t rx, (k <= 3)%nat ->
  carrier_ok t -> slice rx -> answer_max cmd payload + 3 <= len rx -> patient cmd t -> spare k t ->
  (forall s1, rtc (hear cmd payload) (dev t) s1 ->
     exists p s2, sim_request tx s1 = Some (reply cmd (ST_OK :: p), s2) /\ len p + 4 <= len rx) ->
  exists rlen t' rx', exchange_loop (S k) last t tx rx c = (Ok rlen, (t', rx')) /\ spare 3 t'.
Proof.
  induction k as [|k IH]; intros last t rx Hk Ht Hrx Hwin Hpt Hsp Hans; rewrite exchange_loop_step;
    destruct (request t tx rx) as [r1 [t1 rx1]] eqn:Hreq;
    destruct (carrier_typed t cmd payload rx r1 t1 rx1 Ht ltac:(by split) Hreq) as (Ht1 & Hl1 & Hb1);
    destruct (carrier_attempt t cmd payload rx r1 t1 rx1 Ht ltac:(by split) Hreq) as [Hpat Hatt];
    (destruct Hatt as [(raw & Hr & Hv & Hspare)|(Hv & Hdev & Hspare)];
     [destruct (Hans (dev t) ltac:(done)) as (p & s2 & Hp & Hfit); rewrite Hr in Hp; injection Hp as -> _;
      unfold understood in Hv; cbv beta iota zeta;
      destruct (verdict _ _) as [rlen|e]; [|specialize (Hv p eq_refl); lia];
      cbn [retryable]; eexists _, _, _; split; [done|]; by eapply Hspare|]);
    destruct (Hspare _ Hk Hpt Hsp) as (m & Hm & Hsp'); [done|].
  injection Hm as <-. cbv beta iota zeta. rewrite Hv. apply IH; try done; [lia| |by rewrite Hl1|by apply Hpat|].
  - split; [done|]. rewrite Hl1. by apply slice_len.
  - rewrite Hl1. intros s1 Hs1. apply Hans. destruct Hdev as [<-|Hh]; [done|]. by eapply rtc_l.
Qed.
End exchanges.

(** ** Session operations *)
Section operations.
Context `{PtrWidth} {T A : Type} {tr : Transport T A} `{Carried T} {Hcarrier : Carrier tr}.
Implicit Types s : Session T.
Implicit Types payload : list Z.

Definition on_carrier s : Prop := carrier_ok (transport s) /\ slice (buf s).
Definition sdev s : Sim := dev (transport s).

(** An operation that asked the device [cmd]: it heard the request any number
    of times, and when the operation succeeded, with the answer [r], the last
    time was the one that answered. *)
Definition asked (cmd : Z) payload s s' (r : result (list Z) (Error.t A)) : Prop :=
  on_carrier s' /\ len (buf s') = len (buf s)
  /\ (forall c, patient c (transport s) -> patient c (transport s'))
  /\ exists d, rtc (hear cmd payload) (sdev s) d
     /\ match r with
        | Ok p => sim_request (wire cmd payload) d = Some (reply cmd (ST_OK :: p), sdev s')
        | Err _ => sdev s' = d
        end.

Lemma asked_nothing cmd payload s e : on_carrier s -> asked cmd payload s s (Err e).
Proof. intros Hs. split_and!; try done. by exists (sdev s). Qed.

Lemma windows_on_carrier cmd payload rx bh (t : T) L : is_u8 cmd -> bytes payload -> len payload <= PAYLOAD_MAX ->
  carrier_ok t -> bytes rx -> bytes bh -> len (wire cmd payload ++ rx ++ bh) = L -> L <= isize_max ->
  on_carrier (mkSession t (wire cmd payload ++ rx ++ bh)).
Proof.
  intros Hc Hp Hl Ht Hrx Hbh HL Hmax. split; [done|]. split; [|by cbn [buf]; rewrite HL].
  cbn [buf]. rewrite !bytes_app. change PAYLOAD_MAX with 252 in Hl. split_and!; try done.
  apply wire_bytes; [done..|lia].
Qed.

Lemma exchange_asked cmd payload n s v t rx : on_carrier s -> is_u8 cmd -> bytes payload ->
  len payload <= PAYLOAD_MAX -> answer_max cmd payload + 3 <= n -> 0 <= n -> len payload + 3 + n <= len (buf s) ->
  exchange (transport s) (wire cmd payload) (rx_window (len payload + 3) n (buf s)) (Z.lor cmd RSP_FLAG)
    = (v, (t, rx)) ->
  let s' := mkSession t (wire cmd payload ++ rx ++ drop (Z.to_nat (len payload + 3 + n)) (buf s)) in
  exists r, asked cmd payload s s' r
    /\ match v with
       | Ok rlen => exists p, r = Ok p /\ response_payload rlen rx = Ok p (E:=Error.t A)
       | Err e => r = Err e
       end.
Proof.
  intros [Hw Hb] Hc Hp Hl Ha Hn Hfit Hx s'. pose proof Hb as [Hbb Hbl]. pose proof (len_nonneg payload).
  assert (len (rx_window (len payload + 3) n (buf s)) = n) as Hlw by (unfold rx_window; lens).
  apply (exchange_loop_carried cmd payload Hc Hp Hl) in Hx as (Hw' & Hlr & Hbr & Hpat & d & Hd & Hv); [|done| |by rewrite Hlw].
  2: { split; [by apply bytes_rx_window|]. rewrite Hlw. lia. }
  assert (len (wire cmd payload ++ rx ++ drop (Z.to_nat (len payload + 3 + n)) (buf s)) = len (buf s)) as HL by lens.
  assert (on_carrier s') as Hs' by (eapply windows_on_carrier; try done; auto with ota).
  destruct v as [rlen|e].
  - destruct Hv as (p & Hr & Hpp). exists (Ok p). split; [|by exists p]. split_and!; try done. by exists d.
  - exists (Err e). split; [|done]. split_and!; try done. by exists d.
Qed.

Lemma transact_asked cmd payload cap s r s' : on_carrier s -> is_u8 cmd -> bytes payload ->
  len payload <= PAYLOAD_MAX -> 0 <= cap <= 255 -> (answer_max cmd payload <=? cap) = true ->
  transact cmd payload cap s = (r, s') -> asked cmd payload s s' r.
Proof.
  intros Hs Hc Hp Hl Hcap Hmax%Z.leb_le. rewrite transact_eq by (done || by destruct Hs). cbv zeta.
  zcase; [intros [= <- <-]; by apply asked_nothing|].
  destruct (exchange _ _ _ _) as [v [t rx]] eqn:Hx. intros Hr.
  replace (len payload + cap + 6) with (len payload + 3 + (cap + 3)) in * by lia.
  destruct (exchange_asked cmd payload (cap + 3) s v t rx) as (r' & Ha & Hv); try done; try lia.
  destruct v as [rlen|e].
  - destruct Hv as (p & -> & Hpp). rewrite Hpp in Hr. by injection Hr as <- <-.
  - subst r'. by injection Hr as <- <-.
Qed.

Definition write_payload (img : Image) (i : Z) : list Z :=
  u16_to_le_bytes i ++ page_of (img_page_size img) (region img) i.
Lemma len_write_payload img i : image_wf img -> 0 <= i < img_app_pages img ->
  len (write_payload img i) = img_page_size img + 2.
Proof. intros. unfold write_payload. rewrite len_app, len_region_page by done. unfold u16_to_le_bytes. lens. Qed.
Lemma bytes_write_payload img i : image_wf img -> bytes (write_payload img i).
Proof. intros. unfold write_payload. rewrite bytes_app. split; [auto with ota|by apply region_page_bytes]. Qed.

Lemma write_page_asked img i s r s' : image_wf img -> 0 <= i < img_app_pages img -> on_carrier s ->
  write_page img i s = (r, s') ->
  exists r', asked CMD_WRITE_PAGE (write_payload img i) s s' r' /\ (is_ok r = true -> is_ok r' = true).
Proof.
  intros Hwf Hi Hs. rewrite write_page_eq by (done || by destruct Hs). cbv zeta.
  pose proof (len_write_payload img i Hwf Hi) as Hpl. pose proof (wf_page_size _ Hwf) as Hps.
  change PAGE_SIZE_MAX with 250 in Hps. change FOOTER_LEN with 16 in Hps.
  zcase; [intros [= <- <-]; exists (Err Error.BadFrame); split; [by apply asked_nothing|done]|].
  destruct (exchange _ _ _ _) as [v [t rx]] eqn:Hx. intros Hr.
  change (page_frame img i) with (wire CMD_WRITE_PAGE (write_payload img i)) in *.
  replace (img_page_size img + 9) with (len (write_payload img i) + 3 + 4) in * by lia.
  replace (img_page_size img + 5) with (len (write_payload img i) + 3) in * by lia.
  destruct (exchange_asked CMD_WRITE_PAGE (write_payload img i) 4 s v t rx) as (r' & Ha & Hv); try done;
    [by apply bytes_write_payload|change PAYLOAD_MAX with 252; lia|].
  exists r'. destruct v as [rlen|e]; injection Hr as <- <-; (split; [done|]); [|done].
  by destruct Hv as (p & -> & _).
Qed.

(** A device that would accept the request whenever it comes. *)
Definition accepts (cmd : Z) payload (cap : Z) (d : Sim) : Prop :=
  forall d', rtc (hear cmd payload) d d' ->
    exists p d'', sim_request (wire cmd payload) d' = Some (reply cmd (ST_OK :: p), d'') /\ len p + 1 <= cap.

Lemma exchange_accepted cmd payload cap s : on_carrier s -> is_u8 cmd -> bytes payload ->
  len payload <= PAYLOAD_MAX -> 0 <= cap -> (answer_max cmd payload <=? cap) = true ->
  len payload + 3 + (cap + 3) <= len (buf s) ->
  patient cmd (transport s) -> spare 3 (transport s) -> accepts cmd payload cap (sdev s) ->
  exists rlen t rx, exchange (transport s) (wire cmd payload)
      (rx_window (len payload + 3) (cap + 3) (buf s)) (Z.lor cmd RSP_FLAG) = (Ok rlen, (t, rx))
    /\ spare 3 t.
Proof.
  intros [Hw [Hb Hbl]] Hc Hp Hl Hcap Hmax%Z.leb_le Hfit Hpt Hsp Hacc. pose proof (len_nonneg payload).
  assert (len (rx_window (len payload + 3) (cap + 3) (buf s)) = cap + 3) as Hlw by (unfold rx_window; lens).
  apply (exchange_loop_live cmd payload Hc Hp Hl); try done.
  - split; [by apply bytes_rx_window|]. rewrite Hlw. lia.
  - rewrite Hlw. lia.
  - intros d Hd. destruct (Hacc d Hd) as (p & d' & Hr & Hpl). exists p, d'. split; [done|]. lia.
Qed.

Lemma transact_accepted cmd payload cap s : on_carrier s -> is_u8 cmd -> bytes payload ->
  len payload <= PAYLOAD_MAX -> 0 <= cap <= 255 -> (answer_max cmd payload <=? cap) = true ->
  len payload + cap + 6 <= len (buf s) -> patient cmd (transport s) -> spare 3 (transport s) -> accepts cmd payload cap (sdev s) ->
  exists p s', transact cmd payload cap s = (Ok p, s') /\ spare 3 (transport s').
Proof.
  intros Hs Hc Hp Hl Hcap Hmax Hfit Hpt Hsp Hacc. rewrite transact_eq by (done || by destruct Hs). cbv zeta.
  rewrite (proj2 (Z.ltb_ge _ _)) by lia.
  destruct (exchange_accepted cmd payload cap s) as (rlen & t & rx & Hx & Hsp'); try done; try lia.
  apply Z.leb_le in Hmax. rewrite Hx. pose proof (len_nonneg payload).
  destruct (exchange_asked cmd payload (cap + 3) s (Ok rlen) t rx) as (r' & _ & p & _ & Hpp); try done; try lia.
  rewrite Hpp. by eexists _, _.
Qed.

Lemma write_page_accepted img i s : image_wf img -> 0 <= i < img_app_pages img -> on_carrier s ->
  img_page_size img + 9 <= len (buf s) -> patient CMD_WRITE_PAGE (transport s) -> spare 3 (transport s) ->
  accepts CMD_WRITE_PAGE (write_payload img i) 1 (sdev s) ->
  exists s', write_page img i s = (Ok tt, s') /\ spare 3 (transport s').
Proof.
  intros Hwf Hi Hs Hfit Hpt Hsp Hacc. rewrite write_page_eq by (done || by destruct Hs). cbv zeta.
  rewrite (proj2 (Z.ltb_ge _ _)) by lia. pose proof (len_write_payload img i Hwf Hi) as Hpl.
  pose proof (wf_page_size _ Hwf) as Hps. change PAGE_SIZE_MAX with 250 in Hps.
  change (page_frame img i) with (wire CMD_WRITE_PAGE (write_payload img i)).
  replace (img_page_size img + 5) with (len (write_payload img i) + 3) by lia.
  destruct (exchange_accepted CMD_WRITE_PAGE (write_payload img i) 1 s) as (rlen & t & rx & Hx & Hsp'); try done;
    [by apply bytes_write_payload|change PAYLOAD_MAX with 252; lia|lia|].
  change (1 + 3) with 4 in Hx. rewrite Hx. by eexists.
Qed.
End operations.
