(* ===== verification/Flashing.v ===== *)
(** What the session's operations leave on the device, over any carrier: the
    device's side of each command, heard any number of times, and with it the
    effect of [flash] when it succeeds, and that it does. *)
From stdpp Require Import relations.
From S2P Require Import Prelude Errors Frame Image Stream Transport Session Recorded Device DeviceLink Conformance Carrier.

(** ** What the device makes of each command *)
Definition present (d : Sim) : Prop := g_dead d || g_jumped d = false.

Section effects.
Context (cmd : Z) (payload : list Z).
Context (Hcmd : cmd <> CMD_BOOT) (Hpayload : bytes payload) (Hlen : len payload <= PAYLOAD_MAX).

Lemma hear_handles d d' : sim_ok d -> hear cmd payload d d' ->
  (d' = d /\ ~ present d)
  \/ present d /\ exists rsp, handles d cmd payload rsp d' /\ g_jumped d' = false /\ (uncut d -> uncut d').
Proof.
  intros Hok [raw Hr]. unfold present. destruct (g_dead d || g_jumped d) eqn:Hd.
  - rewrite sim_request_silent in Hr by done. injection Hr as _ <-. by left.
  - right. split; [done|]. destruct (sim_request_handles d cmd payload raw d') as (rsp & Hh & _ & Hj & Hu); try done.
    by exists rsp.
Qed.

Lemma hear_ok d d' : sim_ok d -> hear cmd payload d d' -> sim_ok d' /\ s_info d' = s_info d.
Proof.
  intros Hok [raw Hr]. destruct (sim_request_frame_reply d cmd payload Hok Hpayload Hlen) as (raw' & d1 & Hr' & ? & ? & _).
  rewrite Hr in Hr'. by injection Hr' as _ <-.
Qed.

(** What the handler keeps, hearing the request any number of times keeps. *)
Lemma hears_keep (P : Sim -> Prop) d d' :
  (forall a rsp b, sim_ok a -> s_info a = s_info d -> present a -> P a -> handles a cmd payload rsp b ->
     g_jumped b = false -> (uncut a -> uncut b) -> P b) ->
  sim_ok d -> P d -> rtc (hear cmd payload) d d' -> sim_ok d' /\ s_info d' = s_info d /\ P d'.
Proof.
  set (info := s_info d). assert (s_info d = info) as Hi by done. clearbody info. intros HP Hok Hd Hr.
  induction Hr as [e|e1 e2 e3 Hh _ IH]; [done|].
  destruct (hear_ok _ _ Hok Hh) as [Hok2 Hi2].
  destruct (hear_handles _ _ Hok Hh) as [[-> _]|(Hpr & rsp & Hhs & Hj & Hu)]; [by apply IH|].
  apply IH; [congruence|done|]. by apply (HP e1 rsp e2).
Qed.

(** The hearing that answered. *)
Lemma answered d p d' : sim_ok d -> sim_request (wire cmd payload) d = Some (reply cmd (ST_OK :: p), d') ->
  present d /\ present d' /\ handles d cmd payload (ST_OK :: p) d' /\ sim_ok d' /\ s_info d' = s_info d
  /\ (uncut d -> uncut d').
Proof.
  intros Hok Hr. destruct (hear_ok d d' Hok ltac:(by eexists)) as [Hok' Hi]. unfold present.
  destruct (g_dead d || g_jumped d) eqn:Hd; [by rewrite sim_request_silent in Hr|].
  destruct (sim_request_handles d cmd payload _ d' Hok Hd Hcmd Hpayload Hlen Hr) as (rsp & Hh & Hraw & Hj & Hu).
  destruct (g_dead d') eqn:Hdead; [done|]. rewrite Hj. split_and!; try done.
  assert (ST_OK :: p = rsp) as ->; [|done]. unfold reply, wire in Hraw.
  injection Hraw as Hl Heq. assert (length (ST_OK :: p) = length rsp) by (rewrite !len_cons in *; unfold len in *; simpl; lia).
  change (ST_OK :: p ++ ?x) with ((ST_OK :: p) ++ x) in Heq. by apply app_inj_1 in Heq as [-> _].
Qed.
End effects.

(** The commands, one by one. *)

Ltac handles_inv Hh :=
  inversion Hh; subst; try congruence;
  try (exfalso; unfold CMD_INFO, CMD_ERASE_APP, CMD_WRITE_PAGE, CMD_VERIFY, CMD_BOOT, CMD_ECHO in *; lia).

Lemma handles_info_inv d rsp d' : handles d CMD_INFO [] rsp d' ->
  d' = d /\ exists valid, rsp = ST_OK :: identity (s_info d) valid /\ (valid = true <-> bootable (g_flash d)).
Proof. intros Hh. handles_inv Hh. split; [done|]. by eexists. Qed.

Lemma handles_erase_inv d rsp d' : handles d CMD_ERASE_APP ERASE_MAGIC rsp d' ->
  rsp = [ST_OK] /\ s_erased d' = true
  /\ (g_dead d' = false -> 0 < pi_page_size (s_info d) ->
      g_flash d' = erased (pi_page_size (s_info d) * pi_app_pages (s_info d))).
Proof. intros Hh. handles_inv Hh. split_and!; try done. cbn [with_erased g_dead g_flash].
  match goal with Hd : g_dead _ = false -> _ |- _ => intros Hx Hps; by destruct (Hd Hx Hps) end.
Qed.

Lemma handles_write_inv d i page rsp d' : s_erased d = true -> 0 <= i -> is_u16 (pi_app_pages (s_info d)) ->
  len page = pi_page_size (s_info d) -> i < pi_app_pages (s_info d) ->
  handles d CMD_WRITE_PAGE (u16_to_le_bytes i ++ page) rsp d' ->
  rsp = [ST_OK] /\ s_erased d' = true
  /\ (g_dead d' = false -> g_flash d' = write_at (pi_page_size (s_info d)) (g_flash d) i page).
Proof.
  intros He Hi Hap Hl Hr Hh. assert (is_u16 i) as Hi' by lia.
  assert (forall j q, is_u16 j -> u16_to_le_bytes j ++ q = u16_to_le_bytes i ++ page -> j = i /\ q = page) as Hinj.
  { intros j q Hj [Heq ->]%app_inj_1; [|done]. split; [|done]. by apply u16_le_inj. }
  remember (u16_to_le_bytes i ++ page) as pl eqn:Hpl. remember CMD_WRITE_PAGE as cmd eqn:Hc.
  destruct Hh; try discriminate; try congruence.
  - subst payload. rewrite len_app, Hl in *. unfold u16_to_le_bytes in *. exfalso. lens.
  - destruct (Hinj index page0) as [-> ->]; [done|congruence|]. lia.
  - destruct (Hinj index page0) as [-> ->]; [lia|congruence|].
    match goal with Hs : same_but_flash _ _ |- _ => destruct Hs as (_ & ? & _) end.
    split_and!; [done|congruence|].
    match goal with Hd : g_dead _ = false -> _ |- _ => intros Hx; by destruct (Hd Hx) end.
  - exfalso. unfold CMD_INFO, CMD_ERASE_APP, CMD_WRITE_PAGE, CMD_VERIFY, CMD_BOOT, CMD_ECHO in *. lia.
Qed.

Lemma handles_verify_inv d n c rsp d' : is_u32 n -> is_u32 c ->
  handles d CMD_VERIFY (u32_to_le_bytes n ++ u32_to_le_bytes c) rsp d' ->
  d' = d /\ rsp = [if (len (g_flash d) <? FOOTER_LEN) || (len (g_flash d) - FOOTER_LEN <? n) then ST_OUT_OF_RANGE
          else if crc32 (take (Z.to_nat n) (g_flash d)) =? c then ST_OK else ST_BAD_CRC].
Proof.
  intros Hn Hc Hh.
  assert (forall m k, is_u32 m -> is_u32 k ->
    u32_to_le_bytes m ++ u32_to_le_bytes k = u32_to_le_bytes n ++ u32_to_le_bytes c -> m = n /\ k = c) as Hinj.
  { intros m k Hm Hk [H1 H2]%app_inj_1; [|done]. split; by apply u32_le_inj. }
  remember (u32_to_le_bytes n ++ u32_to_le_bytes c) as pl eqn:Hpl. remember CMD_VERIFY as cmd eqn:Hcm.
  destruct Hh; try discriminate.
  - exfalso. by subst payload.
  - subst st. by destruct (Hinj n0 c0) as [-> ->].
  - exfalso. unfold CMD_INFO, CMD_ERASE_APP, CMD_WRITE_PAGE, CMD_VERIFY, CMD_BOOT, CMD_ECHO in *. lia.
Qed.

(** ** What an update does to the device *)
Record programmed (f : list Z) (d : Sim) : Prop := {
  pg_flash : g_flash d = f;
  pg_erased : s_erased d = true;
  pg_present : present d;
}.

(** The image is for this device. *)
Definition fits (img : Image) (d : Sim) : Prop :=
  pi_page_size (s_info d) = img_page_size img /\ pi_app_pages (s_info d) = img_app_pages img.

Lemma write_at_idem ps f i page : 0 <= ps -> 0 <= i -> len page = ps -> (i + 1) * ps <= len f ->
  write_at ps (write_at ps f i page) i page = write_at ps f i page.
Proof.
  intros Hps Hi Hl Hf. unfold write_at, overwrite.
  assert (length (take (Z.to_nat (i * ps)) f) = Z.to_nat (i * ps)) as Ht.
  { rewrite length_take. unfold len in *. nia. }
  rewrite take_app_length' by done. do 2 f_equal.
  rewrite app_assoc, drop_app_length' by (rewrite length_app; lia). done.
Qed.

Lemma verify_payload_bytes img : bytes (verify_payload img).
Proof. unfold verify_payload. rewrite bytes_app. auto with ota. Qed.

Section flashing.
Context `{PtrWidth} {T A : Type} {tr : Transport T A} `{Carried T} {Hcarrier : Carrier tr}.

Lemma image_u32 img : image_wf img -> is_u32 (img_len img) /\ is_u32 (img_crc img).
Proof.
  intros []. rewrite wf_len, wf_crc. split; [|auto with ota]. pose proof (len_nonneg (img_data img)).
  change FOOTER_LEN with 16 in *. change PAGE_SIZE_MAX with 250 in *. nia.
Qed.
Abbreviation asked := (Carrier.asked (A:=A)).
Implicit Types s : Session T.

Lemma on_carrier_ok s : on_carrier s -> sim_ok (sdev s).
Proof. intros [Hok _]. by apply carrier_sim. Qed.

(** [s'] waits as long as [s] does. *)
Definition lenient s s' : Prop := forall c, patient c (transport s) -> patient c (transport s').

Lemma asked_keep (P : Sim -> Prop) cmd payload s s' p : on_carrier s -> cmd <> CMD_BOOT -> bytes payload ->
  len payload <= PAYLOAD_MAX -> asked cmd payload s s' (Ok p) -> P (sdev s) ->
  (forall a rsp b, sim_ok a -> s_info a = s_info (sdev s) -> present a -> P a -> handles a cmd payload rsp b ->
     g_jumped b = false -> (uncut a -> uncut b) -> P b) ->
  on_carrier s' /\ len (buf s') = len (buf s) /\ s_info (sdev s') = s_info (sdev s) /\ lenient s s'
  /\ exists d, sim_ok d /\ s_info d = s_info (sdev s) /\ P d /\ present d /\ present (sdev s')
     /\ handles d cmd payload (ST_OK :: p) (sdev s') /\ (uncut d -> uncut (sdev s')).
Proof.
  intros Hs Hc Hb Hl (Hs' & Hlen & Hpat & d & Hd & Hr) HP Hkeep.
  destruct (hears_keep cmd payload Hc Hb Hl P (sdev s) d) as (Hok & Hi & HPd); [done|by apply on_carrier_ok|done..|].
  destruct (answered cmd payload Hc Hb Hl d p (sdev s') Hok Hr) as (? & ? & ? & ? & Hi' & ?).
  split_and!; try done; [congruence|]. exists d. by split_and!.
Qed.

Lemma info_effect s s' p : on_carrier s -> asked CMD_INFO [] s s' (Ok p) ->
  on_carrier s' /\ len (buf s') = len (buf s) /\ lenient s s' /\ sdev s' = sdev s /\ present (sdev s)
  /\ exists valid, p = identity (s_info (sdev s)) valid /\ (valid = true <-> bootable (g_flash (sdev s))).
Proof.
  intros Hs Ha. apply (asked_keep (fun a => a = sdev s)) in Ha
    as (Hs' & Hl & Hi & Hpat & d & Hok & Hid & -> & Hpr & Hpr' & Hh & Hu); try done.
  - apply handles_info_inv in Hh as (-> & valid & [= ->] & Hv). split_and!; try done. by exists valid.
  - intros a rsp b _ _ _ -> Hh _ _. by apply handles_info_inv in Hh as [-> _].
Qed.

Lemma erase_effect s s' p : on_carrier s -> asked CMD_ERASE_APP ERASE_MAGIC s s' (Ok p) ->
  0 < pi_page_size (s_info (sdev s)) ->
  on_carrier s' /\ len (buf s') = len (buf s) /\ lenient s s' /\ s_info (sdev s') = s_info (sdev s)
  /\ programmed (erased (pi_page_size (s_info (sdev s)) * pi_app_pages (s_info (sdev s)))) (sdev s').
Proof.
  intros Hs Ha Hps. apply (asked_keep (fun _ => True)) in Ha
    as (Hs' & Hl & Hi & Hpat & d & Hok & Hid & _ & Hpr & Hpr' & Hh & _); try done.
  - apply handles_erase_inv in Hh as (_ & He & Hf). rewrite Hid in Hf. split_and!; try done.
    split; try done. apply Hf; [|done]. by apply orb_false_iff in Hpr' as [? _].
  - repeat constructor; by vm_compute.
Qed.

Lemma write_effect img i f s s' p : image_wf img -> 0 <= i < img_app_pages img -> on_carrier s ->
  fits img (sdev s) -> programmed f (sdev s) ->
  asked CMD_WRITE_PAGE (write_payload img i) s s' (Ok p) ->
  on_carrier s' /\ len (buf s') = len (buf s) /\ lenient s s' /\ s_info (sdev s') = s_info (sdev s)
  /\ programmed (write_at (img_page_size img) f i (page_of (img_page_size img) (region img) i)) (sdev s').
Proof.
  intros Hwf Hi Hs [Hps Hap] [Hf He Hp] Ha. pose proof (wf_page_size _ Hwf) as Hpsz.
  change PAGE_SIZE_MAX with 250 in Hpsz. change FOOTER_LEN with 16 in Hpsz. pose proof (wf_pages _ Hwf) as Hapz.
  set (page := page_of (img_page_size img) (region img) i) in *.
  assert (len page = img_page_size img) as Hlp by (by apply len_region_page).
  pose proof (dw_region _ _ (so_wf _ (on_carrier_ok _ Hs))) as Hreg. rewrite Hps, Hap, Hf in Hreg.
  set (f' := write_at (img_page_size img) f i page).
  assert (write_at (img_page_size img) f' i page = f') as Hidem by (apply write_at_idem; try lia; nia).
  assert (forall a rsp b, s_info a = s_info (sdev s) -> s_erased a = true -> g_flash a = f \/ g_flash a = f' ->
    handles a CMD_WRITE_PAGE (write_payload img i) rsp b -> s_erased b = true /\ (g_dead b = false -> g_flash b = f')) as Hone.
  { intros a rsp b Hia Hea Hfa Hh. apply handles_write_inv in Hh as (_ & Heb & Hfb);
      [|done|lia|rewrite Hia, Hap; lia|by rewrite Hia, Hps|rewrite Hia, Hap; lia].
    split; [done|]. intros Hd. rewrite (Hfb Hd), Hia, Hps. by destruct Hfa as [-> | ->]. }
  apply (asked_keep (fun a => s_erased a = true /\ (present a -> g_flash a = f \/ g_flash a = f'))) in Ha
    as (Hs' & Hl & Hinf & Hpat & d & Hok & Hid & [Hed Hfd] & Hpr & Hpr' & Hh & _); try done.
  - destruct (Hone _ _ _ Hid Hed (Hfd Hpr) Hh) as [He' Hf']. split_and!; try done. split; try done.
    apply Hf'. by apply orb_false_iff in Hpr' as [? _].
  - by apply bytes_write_payload.
  - rewrite len_write_payload by done. change PAYLOAD_MAX with 252. lia.
  - split; [done|]. by left.
  - intros a rsp b _ Hia Hpra [Hea Hfa] Hh _ _. destruct (Hone _ _ _ Hia Hea (Hfa Hpra) Hh) as [Heb Hfb].
    split; [done|]. intros Hprb. right. apply Hfb. by apply orb_false_iff in Hprb as [? _].
Qed.

Lemma verify_effect img s s' p : image_wf img -> on_carrier s ->
  asked CMD_VERIFY (verify_payload img) s s' (Ok p) ->
  on_carrier s' /\ sdev s' = sdev s.
Proof.
  intros Hwf Hs Ha. destruct (image_u32 img Hwf) as [Hn Hc].
  apply (asked_keep (fun a => a = sdev s)) in Ha as (Hs' & Hl & Hi & Hpat & d & Hok & Hid & -> & Hpr & Hpr' & Hh & Hu); try done.
  - apply handles_verify_inv in Hh as [-> _]; done.
  - apply verify_payload_bytes.
  - intros a rsp b _ _ _ -> Hh _ _. by apply handles_verify_inv in Hh as [-> _].
Qed.

Lemma region_bootable img : image_wf img -> bootable (region img).
Proof.
  intros Hwf. pose proof Hwf as []. destruct (image_u32 img Hwf). pose proof (len_region img Hwf) as Hlr.
  assert (FOOTER_LEN <= len (region img)) as Hfl by (rewrite Hlr; change FOOTER_LEN with 16 in *; nia).
  exists (img_len img), (img_crc img), (replicate 4 0xFF). rewrite Hlr in *. split_and!; try done; try lia.
  - unfold region. rewrite app_assoc. apply drop_app_length'. rewrite length_app, length_replicate.
    unfold len in *. lia.
  - rewrite wf_crc, wf_len, to_nat_len. unfold region. by rewrite take_app_length.
Qed.

Lemma parse_identity d valid : sim_ok d ->
  parse_info (E:=A) (identity (s_info d) valid)
    = Ok (mkInfo UPD_PROTO_VERSION (pi_bl_version (s_info d)) (pi_device_id (s_info d))
            (pi_page_size (s_info d)) (pi_app_pages (s_info d)) valid).
Proof.
  intros [[Hps Hap Hid _ _ _] _]. unfold identity.
  destruct (pi_device_id (s_info d)) as [|a [|b [|c [|e [|]]]]]; try done. unfold u16_to_le_bytes.
  cbn [app parse_info]. unfold u16_from_le_bytes. do 2 f_equal; try by destruct valid.
  all: Z.to_euclidean_division_equations; lia.
Qed.

Context {P : Type} (progress : Z -> Z -> P -> P).

Definition program (img : Image) (indices : list Z) (f : list Z) : list Z :=
  fold_left (fun f i => write_at (img_page_size img) f i (page_of (img_page_size img) (region img) i)) indices f.

Lemma program_pages img : image_wf img ->
  program img (pages_list (pages img)) (erased (img_page_size img * img_app_pages img)) = region img.
Proof.
  intros Hwf. destruct (pages_in_range img Hwf) as [Hall _]. apply flash_image_rebuild; [done| |].
  - intros i Hi. unfold pages. by rewrite pages_list_remaining.
  - intros i Hi. by apply (proj1 (Forall_forall _ _) Hall).
Qed.

Lemma write_page_effect img i f s s' : image_wf img -> 0 <= i < img_app_pages img -> on_carrier s ->
  fits img (sdev s) -> programmed f (sdev s) -> write_page img i s = (Ok tt, s') ->
  on_carrier s' /\ len (buf s') = len (buf s) /\ lenient s s' /\ s_info (sdev s') = s_info (sdev s)
  /\ programmed (write_at (img_page_size img) f i (page_of (img_page_size img) (region img) i)) (sdev s').
Proof.
  intros Hwf Hi Hs Hfit Hf Hw. destruct (write_page_asked img i s _ s' Hwf Hi Hs Hw) as ([p|e] & Ha & Hok); [|by specialize (Hok eq_refl)].
  by eapply write_effect.
Qed.

Lemma flash_pages_effect img total indices : image_wf img ->
  Forall (fun i => 0 <= i < img_app_pages img) indices ->
  forall done f s p s' p', on_carrier s -> fits img (sdev s) -> programmed f (sdev s) ->
  flash_pages progress img total indices done (s, p) = (Ok tt, (s', p')) ->
  on_carrier s' /\ s_info (sdev s') = s_info (sdev s) /\ programmed (program img indices f) (sdev s').
Proof.
  intros Hwf Hall. induction Hall as [|i indices Hi _ IH]; intros done f s p s' p' Hs Hfit Hf; cbn [flash_pages].
  { intros [= <- <-]. by split_and!. }
  unfold sbind, on_session, report. destruct (write_page img i s) as [[[]|e] s1] eqn:Hw; [|by intros].
  destruct (write_page_effect img i f s s1) as (Hs1 & _ & _ & Hi1 & Hf1); try done.
  intros Hrest. destruct (IH _ _ _ _ _ _ Hs1 ltac:(unfold fits in *; by rewrite Hi1) Hf1 Hrest) as (? & Hi2 & ?).
  split_and!; [done|congruence|done].
Qed.

Lemma flash_effect img s p s' p' : image_wf img -> on_carrier s ->
  flash progress img (s, p) = (Ok tt, (s', p')) ->
  on_carrier s' /\ s_info (sdev s') = s_info (sdev s) /\ fits img (sdev s) /\ present (sdev s)
  /\ programmed (region img) (sdev s').
Proof.
  intros Hwf Hs. unfold flash. unfold sbind at 1, on_session at 1, info, sbind at 1, lift at 1.
  destruct (transact CMD_INFO [] INFO_RSP_PAYLOAD s) as [[rest|e] s1] eqn:Ht1; [|by intros].
  apply transact_asked in Ht1; try done. apply info_effect in Ht1 as (Hs1 & _ & _ & Hd1 & Hpr & valid & -> & _); [|done].
  rewrite parse_identity by (by apply on_carrier_ok). cbn [di_proto di_page_size di_app_pages].
  change (negb (UPD_PROTO_VERSION =? PROTO_VERSION)) with false. cbn iota.
  destruct (Z.eqb_spec (pi_page_size (s_info (sdev s))) (img_page_size img)) as [Hps|]; cbn [negb orb]; [|by intros].
  destruct (Z.eqb_spec (pi_app_pages (s_info (sdev s))) (img_app_pages img)) as [Hap|]; cbn [negb]; [|by intros].
  pose proof (wf_page_size _ Hwf) as Hpsz. change FOOTER_LEN with 16 in Hpsz.
  unfold sbind at 1, on_session at 1.
  destruct (transact CMD_ERASE_APP ERASE_MAGIC ST_RSP_PAYLOAD s1) as [[r2|e] s2] eqn:Ht2; [|by intros].
  apply transact_asked in Ht2; try done; [|repeat constructor; by vm_compute].
  apply erase_effect in Ht2 as (Hs2 & _ & _ & Hi2 & Hf2); [|done|rewrite Hd1; lia]. rewrite Hd1 in *.
  unfold sbind at 1, report at 1, sbind at 1. destruct (pages_in_range img Hwf) as [Hall _].
  set (indices := pages_list (pages img)) in *.
  destruct (flash_pages _ _ _ _ _ _) as [[[]|e] [s3 p3]] eqn:Ht3; [|by intros].
  eapply (flash_pages_effect img _ indices Hwf Hall) in Ht3 as (Hs3 & Hi3 & Hf3);
    [|done|unfold fits; by rewrite Hi2|exact Hf2].
  unfold sbind, on_session.
  destruct (transact CMD_VERIFY (verify_payload img) ST_RSP_PAYLOAD s3) as [[r4|e] s4] eqn:Ht4; [|by intros].
  apply transact_asked in Ht4; try done; [|apply verify_payload_bytes].
  apply verify_effect in Ht4 as (Hs4 & Hd4); [|done..]. intros [= <- <-].
  split_and!; try done; [by rewrite Hd4, Hi3|]. rewrite Hd4, Hps, Hap in *.
  by rewrite program_pages in Hf3.
Qed.

Lemma flash_installed data ps ap img s p s' p' :
  is_u16 ps -> is_u16 ap -> bytes data -> from_bin data ps ap = Ok img -> on_carrier s ->
  flash progress img (s, p) = (Ok tt, (s', p')) ->
  g_flash (sdev s') = region img /\ present (sdev s')
  /\ pi_page_size (s_info (sdev s')) = ps /\ pi_app_pages (s_info (sdev s')) = ap
  /\ upd_app_valid (s_info (sdev s')) (g_flash (sdev s')) = Some true.
Proof.
  intros Hps Hap Hd Himg Hs Hf. apply from_bin_ok_inv in Himg as (Hwf & _ & <- & <-); [|done..].
  apply flash_effect in Hf as (Hs' & Hi & [Hf1 Hf2] & _ & [Hfl _ Hpr]); [|done..].
  rewrite Hi. split_and!; try done.
  destruct (app_valid_ok _ _ (so_wf _ (on_carrier_ok _ Hs'))) as (b & Hv & Hb). rewrite Hi in Hv. rewrite Hv.
  f_equal. apply Hb. rewrite Hfl. by apply region_bootable.
Qed.

(** ** The update succeeds over a carrier that spares one attempt in four *)
Lemma accepts_intro cmd payload cap d (Q : Sim -> Prop) : cmd <> CMD_BOOT -> bytes payload ->
  len payload <= PAYLOAD_MAX -> sim_ok d -> present d -> uncut d -> Q d ->
  (forall a rsp b, sim_ok a -> s_info a = s_info d -> Q a -> handles a cmd payload rsp b ->
     Q b /\ exists p, rsp = ST_OK :: p /\ len p + 1 <= cap) ->
  accepts cmd payload cap d.
Proof.
  intros Hc Hb Hl Hok Hpr Hun HQ Hacc d' Hd'.
  destruct (hears_keep cmd payload Hc Hb Hl (fun a => present a /\ uncut a /\ Q a) d d')
    as (Hok' & Hi' & Hpr' & Hun' & HQ'); [|done..|].
  { intros a rsp b Hoka Hia _ (_ & Huna & HQa) Hh Hj Hu. specialize (Hu Huna). split_and!; [|done|].
    - unfold present. destruct Hu as [_ ->]. by rewrite Hj.
    - by destruct (Hacc a rsp b Hoka Hia HQa Hh). }
  destruct (sim_request_frame_reply d' cmd payload Hok' Hb Hl) as (raw & d'' & Hr & _).
  destruct (sim_request_handles d' cmd payload raw d'' Hok' Hpr' Hc Hb Hl Hr) as (rsp & Hh & -> & _ & Hu).
  destruct (Hu Hun') as [_ Hd]. rewrite Hd in Hr.
  destruct (Hacc d' rsp d'' Hok' Hi' HQ' Hh) as (_ & p & -> & Hp). by exists p, d''.
Qed.

Lemma asked_uncut cmd payload s s' p : on_carrier s -> cmd <> CMD_BOOT -> bytes payload ->
  len payload <= PAYLOAD_MAX -> asked cmd payload s s' (Ok p) -> uncut (sdev s) -> uncut (sdev s').
Proof.
  intros Hs Hc Hb Hl Ha Hu. apply (asked_keep uncut) in Ha as (_ & _ & _ & _ & d & _ & _ & Hd & _ & _ & _ & Hdu); try done.
  - by apply Hdu.
  - intros a rsp b _ _ _ Hua _ _ Hkeep. by apply Hkeep.
Qed.

Lemma info_accepted d : sim_ok d -> present d -> uncut d -> accepts CMD_INFO [] INFO_RSP_PAYLOAD d.
Proof.
  intros Hok Hp Hu. apply (accepts_intro _ _ _ _ (fun a => a = d)); try done.
  intros a rsp b _ _ -> Hh. apply handles_info_inv in Hh as (-> & valid & -> & _). split; [done|].
  eexists. split; [done|]. unfold identity, u16_to_le_bytes. change INFO_RSP_PAYLOAD with 12.
  pose proof (dw_id _ _ (so_wf _ Hok)). rewrite !len_app. unfold len. cbn [length]. lia.
Qed.
Lemma erase_accepted d : sim_ok d -> present d -> uncut d -> accepts CMD_ERASE_APP ERASE_MAGIC ST_RSP_PAYLOAD d.
Proof.
  intros Hok Hp Hu. apply (accepts_intro _ _ _ _ (fun _ => True)); try done.
  - repeat constructor; by vm_compute.
  - intros a rsp b _ _ _ Hh. apply handles_erase_inv in Hh as (-> & _). split; [done|]. by exists [].
Qed.
Lemma write_accepted img i d : image_wf img -> 0 <= i < img_app_pages img -> sim_ok d -> uncut d -> fits img d ->
  present d -> s_erased d = true -> accepts CMD_WRITE_PAGE (write_payload img i) 1 d.
Proof.
  intros Hwf Hi Hok Hu [Hps Hap] Hp He. pose proof (wf_page_size _ Hwf) as Hpsz.
  change PAGE_SIZE_MAX with 250 in Hpsz. pose proof (wf_pages _ Hwf).
  apply (accepts_intro _ _ _ _ (fun a => s_erased a = true)); try done.
  - by apply bytes_write_payload.
  - rewrite len_write_payload by done. change PAYLOAD_MAX with 252. lia.
  - intros a rsp b _ Hia Hea Hh.
    apply handles_write_inv in Hh as (-> & Heb & _);
      [|done|lia|rewrite Hia, Hap; lia|by rewrite Hia, Hps; apply len_region_page|rewrite Hia, Hap; lia].
    split; [done|]. by exists [].
Qed.
Lemma verify_accepted img d : image_wf img -> sim_ok d -> uncut d -> present d -> g_flash d = region img ->
  accepts CMD_VERIFY (verify_payload img) ST_RSP_PAYLOAD d.
Proof.
  intros Hwf Hok Hu Hp Hf. destruct (image_u32 img Hwf). pose proof Hwf as [].
  apply (accepts_intro _ _ _ _ (fun a => a = d)); try done; [apply verify_payload_bytes|].
  intros a rsp b _ _ -> Hh. apply handles_verify_inv in Hh as (-> & ->); [|done..]. split; [done|].
  exists []. split; [|by vm_compute]. rewrite Hf, len_region by done. change FOOTER_LEN with 16 in *.
  rewrite !(proj2 (Z.ltb_ge _ _)) by nia. cbn [orb].
  rewrite wf_crc, wf_len, to_nat_len. unfold region. by rewrite take_app_length, Z.eqb_refl.
Qed.

(** A transport that waits long enough for every answer. *)
Definition all_patient s : Prop := forall c, patient c (transport s).

Lemma flash_pages_live img total indices : image_wf img ->
  Forall (fun i => 0 <= i < img_app_pages img) indices ->
  forall done f s p, on_carrier s -> fits img (sdev s) -> programmed f (sdev s) -> uncut (sdev s) ->
  img_page_size img + 9 <= len (buf s) -> all_patient s -> spare 3 (transport s) ->
  exists s' p', flash_pages progress img total indices done (s, p) = (Ok tt, (s', p'))
    /\ len (buf s') = len (buf s) /\ uncut (sdev s') /\ all_patient s' /\ spare 3 (transport s').
Proof.
  intros Hwf Hall. induction Hall as [|i indices Hi _ IH]; intros done f s p Hs Hfit Hf Hu Hb Hpt Hsp; cbn [flash_pages].
  { exists s, p. by split_and!. }
  unfold sbind, on_session, report.
  destruct (write_page_accepted img i s) as (s1 & Hw & Hsp1); try done.
  { destruct Hf. by apply write_accepted; [..|apply on_carrier_ok| | | |]. }
  rewrite Hw. destruct (write_page_effect img i f s s1) as (Hs1 & Hl1 & Hp1 & Hi1 & Hf1); try done.
  assert (uncut (sdev s1)) as Hu1.
  { destruct (write_page_asked img i s _ s1 Hwf Hi Hs Hw) as ([q|e] & Ha & Hok); [|by specialize (Hok eq_refl)].
    apply (asked_uncut CMD_WRITE_PAGE (write_payload img i) s s1 q); try done; [by apply bytes_write_payload|].
    rewrite len_write_payload by done. pose proof (wf_page_size _ Hwf) as Hps.
    change PAGE_SIZE_MAX with 250 in Hps. change PAYLOAD_MAX with 252. lia. }
  destruct (IH (u16_saturating_add done 1) _ s1 (progress (u16_saturating_add done 1) total p) Hs1
    ltac:(unfold fits in *; by rewrite Hi1) Hf1 Hu1 ltac:(lia) ltac:(by intros c; apply Hp1) Hsp1) as (s' & p' & Hr & Hl' & ? & ? & ?).
  rewrite Hr. exists s', p'. split_and!; try done. congruence.
Qed.

Lemma flash_live img s p : image_wf img -> on_carrier s -> fits img (sdev s) -> present (sdev s) ->
  uncut (sdev s) -> Z.max 18 (img_page_size img + 9) <= len (buf s) -> all_patient s ->
  spare 3 (transport s) ->
  exists s' p', flash progress img (s, p) = (Ok tt, (s', p')).
Proof.
  intros Hwf Hs [Hps Hap] Hpr Hu Hb Hpt Hsp. pose proof (wf_page_size _ Hwf) as Hpsz. change FOOTER_LEN with 16 in Hpsz.
  unfold flash. unfold sbind at 1, on_session at 1, info, sbind at 1, lift at 1.
  destruct (transact_accepted CMD_INFO [] INFO_RSP_PAYLOAD s) as (r1 & s1 & Ht1 & Hsp1); try done;
    [change (len [] + INFO_RSP_PAYLOAD + 6) with 18; lia|by apply info_accepted; [apply on_carrier_ok| |]|].
  rewrite Ht1. apply transact_asked in Ht1; try done.
  apply info_effect in Ht1 as (Hs1 & Hl1 & Hp1 & Hd1 & _ & valid & -> & _); [|done].
  rewrite parse_identity by (by apply on_carrier_ok). cbn [di_proto di_page_size di_app_pages].
  change (negb (UPD_PROTO_VERSION =? PROTO_VERSION)) with false. cbn iota.
  rewrite Hps, Hap, !Z.eqb_refl. cbn [negb orb].
  unfold sbind at 1, on_session at 1.
  destruct (transact_accepted CMD_ERASE_APP ERASE_MAGIC ST_RSP_PAYLOAD s1) as (r2 & s2 & Ht2 & Hsp2); try done;
    [repeat constructor; by vm_compute|change (len ERASE_MAGIC + ST_RSP_PAYLOAD + 6) with 11; lia
    |by apply Hp1|rewrite Hd1; by apply erase_accepted; [apply on_carrier_ok| |]|].
  rewrite Ht2. apply transact_asked in Ht2; try done; [|repeat constructor; by vm_compute].
  assert (uncut (sdev s2)) as Hu2.
  { apply (asked_uncut _ _ _ _ _ Hs1) in Ht2; try done; [repeat constructor; by vm_compute|by rewrite Hd1]. }
  apply erase_effect in Ht2 as (Hs2 & Hl2 & Hp2 & Hi2 & Hf2); [|done|rewrite Hd1; lia]. rewrite Hd1 in *.
  unfold sbind at 1, report at 1, sbind at 1. destruct (pages_in_range img Hwf) as [Hall _].
  set (total := default 65535 _).
  assert (fits img (sdev s2)) as Hfit2 by (unfold fits; by rewrite Hi2).
  destruct (flash_pages_live img total (pages_list (pages img)) Hwf Hall 0 _ s2 (progress 0 total p) Hs2 Hfit2 Hf2 Hu2
    ltac:(lia) ltac:(by intros c; apply Hp2, Hp1) Hsp2) as (s3 & p3 & Ht3 & Hl3 & Hu3 & Hp3 & Hsp3).
  rewrite Ht3. eapply (flash_pages_effect img _ _ Hwf Hall) in Ht3 as (Hs3 & Hi3 & Hf3); [|done..].
  unfold sbind, on_session. rewrite Hps, Hap, program_pages in Hf3 by done. destruct Hf3 as [Hfl3 _ Hpr3].
  destruct (transact_accepted CMD_VERIFY (verify_payload img) ST_RSP_PAYLOAD s3) as (r4 & s4 & Ht4 & _); try done;
    [apply verify_payload_bytes|change (len (verify_payload img) + ST_RSP_PAYLOAD + 6) with 15; lia
    |by apply verify_accepted; [|apply on_carrier_ok| | |]|].
  rewrite Ht4. by eexists _, _.
Qed.
End flashing.
