(* ===== verification/Wire.v ===== *)
(** A wire that loses and corrupts what it carries, between the session and the
    simulated device: the loopback transport of [conformance/src/lib.rs] under a
    list of faults, which are the environment's: a request or an answer may be
    lost, arrive as other bytes, or be refused by the bus, in any exchange. It is
    a carrier as long as the format detects the damage: other bytes than the
    request are none of the frames the device takes, other bytes than the answer
    none the host does. *)
From stdpp Require Import relations.
From S2P Require Import Prelude Errors Frame Image Stream Transport Session Recorded Device DeviceLink Conformance Carrier.

(** ** What happens to one exchange *)

(** The request on its way to the device: it arrives, or does not, or with one
    byte [i] changed by [x], or the device receives [raw] in its place. *)
Inductive Outward :=
| ReqWhole
| ReqLost
| ReqFlipped (i : nat) (x : Z)
| ReqDamaged (raw : list Z).

(** The answer on its way back: it arrives, or does not, or only [ns] after the
    device has it, or the host receives [raw] in its place. *)
Inductive Homeward :=
| AnsWhole
| AnsLost
| AnsLate (ns : Z)
| AnsDamaged (raw : list Z).

(** An exchange passes the wire both ways, or the bus refuses it. *)
Inductive Fault :=
| Passed (out : Outward) (back : Homeward)
| BusError.

Abbreviation Delivered := (Passed ReqWhole AnsWhole).
Abbreviation RequestLost := (Passed ReqLost AnsWhole).
Abbreviation ReplyLost := (Passed ReqWhole AnsLost).
Abbreviation RequestFlipped i x := (Passed (ReqFlipped i x) AnsWhole).

(** The faults ahead, exchange by exchange; none once they are used up. *)
Record Wire := mkWire { wi_world : World; wi_faults : list Fault }.

Definition next_fault (faults : list Fault) : Fault := default Delivered (head faults).

(** What the device receives of [req]. *)
Definition arrives (out : Outward) (req : list Z) : option (list Z) :=
  match out with
  | ReqWhole => Some req
  | ReqLost => None
  | ReqFlipped i x => Some (alter (Z.lxor x) i req)
  | ReqDamaged raw => Some raw
  end.
(** What the host finds in its window for an answer; the loopback does not
    wait, and [raw] is a reading of the whole window. *)
Definition returns (back : Homeward) (rsp whole : list Z) : list Z :=
  match back with
  | AnsWhole => whole
  | AnsLost | AnsLate _ => idle rsp
  | AnsDamaged raw => if decide (length raw = length rsp) then raw else idle rsp
  end.

(** [SimTransport::request] of [req] over the wire; the second case is an
    abort, which [wire_typed] shows there is none of. *)
Definition carry (w : World) (faults : list Fault) (req rsp : list Z) : result Z unit * (Wire * list Z) :=
  match sim_transport_request w req rsp with
  | Some (n, (w, rsp)) => (Ok n, (mkWire w faults, rsp))
  | None => (Ok (len rsp), (mkWire w faults, idle rsp))
  end.

#[global] Instance transport_wire : Transport Wire unit :=
  fun '(mkWire w faults) req rsp =>
  let rest := tail faults in
  match next_fault faults with
  | BusError => (Err tt, (mkWire w rest, rsp))
  | Passed out back =>
    match arrives out req with
    | None => (Ok (len rsp), (mkWire w rest, returns back rsp (idle rsp)))
    | Some req =>
      let '(r, (wire, got)) := carry w rest req rsp in
      (r, (wire, returns back rsp got))
    end
  end.

(** The damage that is covered is the damage the format detects: what the
    device receives for a request, its checksum refuses, as it does any one
    wrong byte ([flipped_refused]); what the host reads for an answer is no
    padded frame. *)
Definition refused (raw : list Z) : Prop := 255 < len raw \/ upd_frame_parse raw = None.
Definition unframed (raw : list Z) : Prop :=
  forall cmd payload k, len payload <= PAYLOAD_MAX -> raw <> wire cmd payload ++ replicate k 0xFF.
Definition out_ok (out : Outward) : Prop :=
  match out with
  | ReqFlipped _ x => is_u8 x /\ x <> 0
  | ReqDamaged raw => bytes raw /\ len raw <= 65535 /\ refused raw
  | _ => True
  end.
Definition back_ok (back : Homeward) : Prop :=
  match back with
  | AnsDamaged raw => bytes raw /\ unframed raw
  | _ => True
  end.
Definition fault_ok (f : Fault) : Prop :=
  match f with Passed out back => out_ok out /\ back_ok back | BusError => True end.

Record wire_ok (w : Wire) : Prop := {
  wr_world : world_ok (wi_world w);
  wr_faults : Forall fault_ok (wi_faults w);
}.

(** A wire that never fails [n + 1] times in a row from here, and never four
    times in a row later. *)
Definition delivered (f : Fault) : bool := match f with Delivered => true | _ => false end.
Fixpoint spares (n : nat) (faults : list Fault) : bool :=
  match faults with
  | [] => true
  | f :: faults =>
    if delivered f then spares 3 faults
    else match n with O => false | S n => spares n faults end
  end.

Lemma delivered_eq f : delivered f = true <-> f = Delivered.
Proof. split; [|by intros ->]. by destruct f as [[] []|]. Qed.
Lemma spares_le faults : forall n m, (n <= m <= 3)%nat -> spares n faults = true -> spares m faults = true.
Proof.
  induction faults as [|f faults IH]; [done|]. intros n m Hnm. cbn [spares].
  destruct (delivered f); [done|]. destruct n as [|n]; [done|]. destruct m as [|m]; [lia|]. apply IH. lia.
Qed.
Lemma spares_tail n faults : (n <= 3)%nat -> spares n faults = true -> spares 3 (tail faults) = true.
Proof.
  intros Hn. destruct faults as [|f faults]; [done|]. cbn [spares tail].
  destruct (delivered f); [done|]. destruct n as [|n]; [done|]. apply spares_le. lia.
Qed.
Lemma spares_fault n faults : next_fault faults <> Delivered -> spares n faults = true ->
  exists m, n = S m /\ spares m (tail faults) = true.
Proof.
  destruct faults as [|f faults]; [done|]. cbn. intros Hf Hs. destruct (delivered f) eqn:Hd; [by apply delivered_eq in Hd|].
  destruct n as [|n]; [done|]. by exists n.
Qed.

(** ** The wire is a transport *)

#[global] Instance wire_carried : Carried Wire := {|
  carrier_ok := wire_ok;
  dev w := w_sim (wi_world w);
  spare n w := spares n (wi_faults w) = true;
  patient _ _ := True;
|}.

Lemma Forall_tail {A} (P : A -> Prop) l : Forall P l -> Forall P (tail l).
Proof. by destruct 1. Qed.

Lemma unframed_decode `{PtrWidth} raw : bytes raw -> unframed raw <-> decode_padded raw = Err Error.BadFrame.
Proof.
  intros Hb. split.
  - intros Hun. destruct (decode_padded raw) as [f|e] eqn:Hd; [|by rewrite (decode_padded_err _ _ Hd)].
    apply decode_padded_ok_inv in Hd as (k & Hk & Hl); [|done]. by destruct (Hun _ _ _ Hl Hk).
  - intros Hd cmd payload k Hl ->. by rewrite decode_padded_wire in Hd.
Qed.

Lemma bytes_flip i x req : is_u8 x -> bytes req -> bytes (alter (Z.lxor x) i req).
Proof.
  intros Hx Hb. apply Forall_alter; [done|]. intros y _ Hy. by apply lxor_u8.
Qed.
Lemma sim_transport_inv w req rsp n w' rsp' : world_ok w -> bytes req ->
  sim_transport_request w req rsp = Some (n, (w', rsp')) ->
  exists raw, sim_request req (w_sim w) = Some (raw, w_sim w') /\ n = len rsp /\ rsp' = padded raw n
    /\ bytes raw /\ world_ok w' /\ s_info (w_sim w') = s_info (w_sim w).
Proof.
  intros [Hok Hlk Hcap] Hb. unfold sim_transport_request, Harness.request.
  destruct (u16_try_from _); [|done]. cbn [mbind option_bind].
  destruct (sim_request_total req (w_sim w) Hok Hb) as (raw & s' & Hr & Hraw & Hok' & Hi). rewrite Hr.
  cbn [mbind option_bind]. destruct (RESP_CAP <? len raw); [done|]. cbn [mbind option_bind].
  intros [= <- <- <-]. exists raw. by split_and!.
Qed.

Lemma carry_typed w faults req rsp r w' rsp' : world_ok w -> bytes req ->
  carry w faults req rsp = (r, (w', rsp')) ->
  (world_ok (wi_world w') /\ s_info (dev w') = s_info (w_sim w)) /\ wi_faults w' = faults
  /\ len rsp' = len rsp /\ bytes rsp' /\ (forall n, r = Ok n -> 0 <= n).
Proof.
  intros Hw Hb. unfold carry. pose proof (len_nonneg rsp).
  destruct (sim_transport_request w req rsp) as [[n [w1 rsp1]]|] eqn:Hr; intros [= <- <- <-].
  - apply sim_transport_inv in Hr as (raw & _ & -> & -> & Hraw & Hw1 & Hi1); [|done..].
    split_and!; try done; [by apply len_padded|by apply bytes_padded|by intros ? [= <-]].
  - split_and!; try done; [apply len_idle|apply bytes_idle|by intros ? [= <-]].
Qed.


Lemma next_fault_ok faults : Forall fault_ok faults -> fault_ok (next_fault faults).
Proof. by destruct 1. Qed.
Lemma arrives_bytes out req req' : out_ok out -> bytes req -> arrives out req = Some req' -> bytes req'.
Proof. destruct out as [| |i x|raw]; cbn; intros Ho Hb [= <-]; [done|by apply bytes_flip; [destruct Ho|]|by destruct Ho]. Qed.
Lemma returns_typed back rsp whole : back_ok back -> len whole = len rsp -> bytes whole ->
  len (returns back rsp whole) = len rsp /\ bytes (returns back rsp whole).
Proof.
  intros Hb Hl Hw. pose proof (len_idle rsp). pose proof (bytes_idle rsp).
  destruct back as [| |ns|raw]; cbn [returns]; try done. case_decide as Hr; [|done].
  destruct Hb. split; [unfold len; by rewrite Hr|done].
Qed.

Lemma wire_request_typed `{PtrWidth} w req rsp r w' rsp' : wire_ok w -> bytes req -> slice rsp ->
  request w req rsp = (r, (w', rsp')) ->
  (wire_ok w' /\ s_info (dev w') = s_info (dev w)) /\ len rsp' = len rsp /\ bytes rsp' /\ (forall n, r = Ok n -> 0 <= n).
Proof.
  intros [Hw Hf] Hreq [Hrb _]. destruct w as [w faults]. cbn [wi_world wi_faults] in *.
  unfold request, transport_wire. pose proof (Forall_tail _ _ Hf) as Hrest. pose proof (len_nonneg rsp).
  pose proof (next_fault_ok _ Hf) as Hok. assert (wire_ok (mkWire w (tail faults))) by (by split).
  destruct (next_fault faults) as [out back|]; [destruct Hok as [Ho Hb]|intros [= <- <- <-]; by split_and!].
  destruct (arrives out req) as [req'|] eqn:Ha.
  - apply arrives_bytes in Ha as Hreq'; [|done..]. destruct (carry w (tail faults) req' rsp) as [r1 [w1 got]] eqn:Hc.
    apply carry_typed in Hc as ([? ?] & Hfs & ? & ? & ?); [|done..]. intros [= <- <- <-].
    destruct (returns_typed back rsp got); [done..|]. split_and!; try done. split; [done|by rewrite Hfs].
  - intros [= <- <- <-]. destruct (returns_typed back rsp (idle rsp)); [done|apply len_idle|apply bytes_idle|].
    split_and!; try done. by intros ? [= <-].
Qed.

#[global] Instance wire_typed `{PtrWidth} : TransportTyped transport_wire wire_ok.
Proof. intros w req rsp r w' rsp' ? ? ? Hr. by destruct (wire_request_typed w req rsp r w' rsp') as ([? _] & ?). Qed.
(** The device keeps its geometry. *)
#[global] Instance wire_typed_info `{PtrWidth} info :
  TransportTyped transport_wire (fun w => wire_ok w /\ s_info (dev w) = info).
Proof.
  intros w req rsp r w' rsp' [? <-] ? ? Hr. by destruct (wire_request_typed w req rsp r w' rsp') as ([? ?] & ?).
Qed.

(** ** One attempt *)
Section attempts.
Context `{PtrWidth}.
Implicit Types w : Wire.
Implicit Types rsp tx p payload : list Z.

Lemma alter_is_insert f i (l : list Z) y : l !! i = Some y -> alter f i l = <[i := f y]> l.
Proof. intros Hy. rewrite list_insert_alter. apply list_alter_ext; [|done]. intros z Hz. congruence. Qed.

(** A request with a wrong byte is refused by the device, and the refusal
    makes the session try again. *)
Lemma flipped_refused cmd payload i x : is_u8 cmd -> bytes payload -> len payload <= PAYLOAD_MAX ->
  is_u8 x -> x <> 0 -> (i < length (wire cmd payload))%nat ->
  upd_frame_parse (alter (Z.lxor x) i (wire cmd payload)) = None.
Proof.
  intros Hc Hb Hl Hx Hx0 Hi. change PAYLOAD_MAX with 252 in Hl.
  assert (bytes (wire cmd payload)) as Hw by (by apply wire_bytes; [..|lia]).
  destruct (lookup_lt_is_Some_2 (wire cmd payload) i Hi) as [y Hy].
  rewrite (alter_is_insert _ _ _ y) by done.
  pose proof (bytes_lookup _ _ _ Hw Hy) as Hyb.
  assert (Z.lxor x y <> y) as Hne.
  { intros Heq. apply Hx0. apply (f_equal (fun z => Z.lxor z y)) in Heq.
    by rewrite Z.lxor_assoc, Z.lxor_nilpotent, Z.lxor_0_r in Heq. }
  pose proof (decode_byte_error (wire cmd payload) i (Z.lxor x y) y (mkFrame cmd payload) Hw
    (decode_wire cmd payload Hl) Hy (lxor_u8 _ _ Hx Hyb) Hne) as Hd.
  destruct (upd_frame_parse _) as [f|] eqn:Hp; [|done]. exfalso.
  assert (bytes (<[i := Z.lxor x y]> (wire cmd payload))) as Hw' by (apply Forall_insert; [done|by apply lxor_u8]).
  apply parse_inv in Hp as [Hraw _]; [|done].
  rewrite Hraw in Hd. rewrite decode_wire in Hd; [done|].
  pose proof (len_wire cmd payload) as Hl1. rewrite <- (len_insert i (Z.lxor x y)), Hraw, len_wire in Hl1.
  change PAYLOAD_MAX with 252. lia.
Qed.

(** A request frame carried over the wire. *)
Lemma carry_frame (w : World) faults cmd payload rsp : world_ok w -> bytes payload -> len payload <= PAYLOAD_MAX ->
  exists raw s, sim_request (wire cmd payload) (w_sim w) = Some (raw, s)
    /\ carry w faults (wire cmd payload) rsp
       = (Ok (len rsp), (mkWire (mkWorld s (w_link w)) faults, padded raw (len rsp))).
Proof.
  intros [Hok _ _] Hb Hl. change PAYLOAD_MAX with 252 in Hl.
  destruct (sim_request_frame_reply (w_sim w) cmd payload Hok Hb Hl) as (raw & s & Hr & _ & _ & Hraw).
  exists raw, s. split; [done|]. unfold carry. apply len_reply_cap in Hraw.
  by rewrite (sim_transport_eq w _ rsp raw s) by (done || rewrite len_wire; lia).
Qed.

(** Beyond the frame there is nothing to flip. *)
Lemma flipped_past (req : list Z) i x : ~ (i < length req)%nat -> alter (Z.lxor x) i req = req.
Proof.
  intros Hi. rewrite <- (list_alter_id id req i) at 2 by done. apply list_alter_ext; [|done].
  intros y Hy%lookup_lt_Some. lia.
Qed.

(** What the device gets for a request frame: nothing, the frame, or bytes that
    it refuses. *)
Inductive arrival (out : Outward) (tx : list Z) : option (list Z) -> Prop :=
| arrival_none : out <> ReqWhole -> arrival out tx None
| arrival_whole : arrival out tx (Some tx)
| arrival_bad bad : out <> ReqWhole -> bytes bad -> len bad <= 65535 -> refused bad -> arrival out tx (Some bad).

Lemma arrives_frame out cmd payload : out_ok out -> is_u8 cmd -> bytes payload -> len payload <= PAYLOAD_MAX ->
  arrival out (wire cmd payload) (arrives out (wire cmd payload)).
Proof.
  intros Ho Hc Hb Hl. pose proof Hl as Hl'. change PAYLOAD_MAX with 252 in Hl'.
  destruct out as [| |i x|raw]; cbn [arrives out_ok] in *; [apply arrival_whole|by apply arrival_none| |by destruct_and?; apply arrival_bad].
  destruct Ho as [Hx Hx0]. destruct (decide (i < length (wire cmd payload))%nat) as [Hi|Hi].
  - apply arrival_bad; [done|by apply bytes_flip; [|apply wire_bytes; [..|lia]]| |right; by apply flipped_refused].
    unfold len. rewrite length_alter. fold (len (wire cmd payload)). rewrite len_wire. lia.
  - rewrite flipped_past by done. apply arrival_whole.
Qed.

(** What the device answers to bytes that are no request, and what the session
    makes of that. *)
Lemma refused_answer {E} d cmd payload rsp bad : sim_ok d -> bytes bad -> refused bad ->
  exists raw, sim_request bad d = Some (raw, d) /\ len raw <= RESP_CAP
    /\ retryable (verdict (Z.lor cmd RSP_FLAG)
         (mkAttempt (E:=E) (wire cmd payload) (Ok (len rsp)) (padded raw (len rsp)))) = true.
Proof.
  intros Hok Hbb Hp.
  assert (exists raw, sim_request bad d = Some (raw, d)
    /\ (raw = [] \/ raw = reply (default 0 (head bad)) [ST_BAD_FRAME])) as (raw & Hr & Hraw).
  { destruct (g_dead d || g_jumped d) eqn:Hd.
    - exists []. split; [by apply sim_request_silent|by left].
    - eexists. split; [by apply sim_request_garbled|by right]. }
  exists raw. split_and!; [done|destruct Hraw as [->| ->]; by vm_compute|].
  destruct Hraw as [->| ->]; [by rewrite padded_nil, verdict_idle|].
  pose proof (len_nonneg rsp). rewrite <- (len_padded (reply (default 0 (head bad)) [ST_BAD_FRAME]) (len rsp)) at 1 by done.
  rewrite verdict_ok_len. unfold reply.
  rewrite decode_padded_padded by (done || by apply reply_garbled_bytes).
  zcase; [done|]. cbn [frame_cmd frame_payload]. by destruct (negb _).
Qed.

(** A window that holds no frame makes the session try again. *)
Lemma unframed_verdict {E} c tx rx : bytes rx -> unframed rx ->
  retryable (verdict c (mkAttempt (E:=E) tx (Ok (len rx)) rx)) = true.
Proof. intros Hb Hun. rewrite verdict_ok_len. by rewrite (proj1 (unframed_decode rx Hb) Hun). Qed.
Lemma returned_verdict {E} c tx rsp whole back : back_ok back ->
  retryable (verdict c (mkAttempt (E:=E) tx (Ok (len rsp)) whole)) = true \/ back <> AnsWhole ->
  retryable (verdict c (mkAttempt (E:=E) tx (Ok (len rsp)) (returns back rsp whole))) = true.
Proof.
  intros Hb Hw. destruct back as [| |ns|raw]; cbn [returns]; [by destruct Hw|by rewrite verdict_idle..|].
  case_decide as Hr; [|by rewrite verdict_idle]. destruct Hb.
  replace (len rsp) with (len raw) by (unfold len; by rewrite Hr). by apply unframed_verdict.
Qed.

Lemma wire_attempt w cmd payload rsp r w' rsp' : wire_ok w -> is_u8 cmd -> bytes payload ->
  len payload <= PAYLOAD_MAX -> request w (wire cmd payload) rsp = (r, (w', rsp')) ->
  wi_faults w' = tail (wi_faults w)
  /\ ((exists raw, sim_request (wire cmd payload) (dev w) = Some (raw, dev w')
        /\ r = Ok (len rsp) /\ rsp' = padded raw (len rsp))
      \/ next_fault (wi_faults w) <> Delivered
         /\ retryable (verdict (Z.lor cmd RSP_FLAG) (mkAttempt (wire cmd payload) r rsp')) = true
         /\ (dev w' = dev w \/ hear cmd payload (dev w) (dev w'))).
Proof.
  intros [Hw Hf] Hc Hb Hl. destruct w as [w faults]. cbn [wi_world wi_faults] in *.
  unfold request, transport_wire, dev. cbn [wi_world]. pose proof (next_fault_ok _ Hf) as Hok.
  destruct (next_fault faults) as [out back|]; [destruct Hok as [Ho Hback]
    |intros [= <- <- <-]; split; [done|]; right; split_and!; try done; by left].
  pose proof (arrives_frame out cmd payload Ho Hc Hb Hl) as Ha.
  assert (out <> ReqWhole \/ back <> AnsWhole -> Passed out back <> Delivered) as Hn by (intros [] [= -> ->]; done).
  destruct Ha as [Hout| |bad Hout Hbb Hlb Hbad].
  - intros [= <- <- <-]. split; [done|]. right. split_and!; [auto| |by left]. apply returned_verdict; [done|].
    left. by rewrite verdict_idle.
  - destruct (carry_frame w (tail faults) cmd payload rsp Hw Hb Hl) as (raw & s & Hr & ->).
    intros [= <- <- <-]. split; [done|].
    destruct back as [| |ns|bad]; [left; by exists raw|..]; right; (split_and!; [auto| |right; by exists raw]);
      (apply returned_verdict; [done|by right]).
  - destruct Hw as [Hsim Hlk Hcap].
    destruct (refused_answer (E:=unit) (w_sim w) cmd payload rsp bad) as (raw & Hr & Hrc & Hv); [done..|].
    unfold carry. rewrite (sim_transport_eq w _ rsp raw (w_sim w)) by done. intros [= <- <- <-]. split; [done|].
    right. split_and!; [auto| |by left]. apply returned_verdict; [done|by left].
Qed.
End attempts.

#[global] Instance wire_carrier `{PtrWidth} : Carrier transport_wire.
Proof.
  split; [by intros w [[Hok _ _] _]|..].
  - intros w cmd payload rsp r w' rsp' Hw [Hc Hb Hl Hs _] Hreq. change PAYLOAD_MAX with 252 in Hl.
    destruct (wire_request_typed w (wire cmd payload) rsp r w' rsp') as ([? _] & ? & ? & _); [done| |done..].
    apply wire_bytes; [done..|lia].
  - intros w cmd payload rsp r w' rsp' Hw [Hc Hb Hl _ _] Hreq. split; [done|].
    destruct (wire_attempt w cmd payload rsp r w' rsp' Hw Hc Hb Hl Hreq) as [Hf [(raw & Hr & -> & ->)|(Hn & Hv & Hd)]].
    + left. exists raw. split_and!; [done| |].
      * eapply padded_understood; try done. by destruct Hw as [[Hok _ _] _].
      * intros n Hle. cbn [spare wire_carried]. rewrite Hf. by apply spares_tail.
    + right. split_and!; [done..|]. intros n _ _ Hs. cbn [spare wire_carried] in *. rewrite Hf.
      by apply spares_fault.
Qed.
