(* ===== verification/EndToEnd.v ===== *)
(** The host and the device together: what an update and a boot leave on the
    device, over any carrier, with retries, power cuts and corrupted flash, and
    that they hold of the faulty wire. *)
From stdpp Require Import relations.
From S2P Require Import Prelude Errors Frame Image Stream Transport Session Recorded Device DeviceLink Conformance Carrier Flashing Wire.

(** ** Corrupted flash *)
Lemma corrupted_not_bootable `{PtrWidth} img data' : image_wf img -> len data' = len (img_data img) ->
  crc32 data' <> crc32 (img_data img) -> ~ bootable (data' ++ drop (length (img_data img)) (region img)).
Proof.
  intros Hwf Hl Hne (n & c & pad & Hft & _ & Hn & Hc & Hle & Hcrc). pose proof Hwf as [].
  destruct (image_u32 img Hwf) as [Hil Hic]. pose proof (len_region img Hwf) as Hlr.
  assert (len (data' ++ drop (length (img_data img)) (region img)) = len (region img)) as Hlf.
  { rewrite len_app, Hl. unfold len. rewrite length_drop. unfold region. rewrite length_app. lia. }
  rewrite Hlf in *. unfold region in Hft at 2. rewrite drop_app_length, app_assoc in Hft.
  rewrite drop_app_length' in Hft.
  2: { rewrite length_app, length_replicate. unfold len in *. lia. }
  unfold footer in Hft. apply app_inj_1 in Hft as [_ Hft]; [|done]. apply app_inj_1 in Hft as [H1 Hft]; [|done].
  apply app_inj_1 in Hft as [H2 _]; [|done]. apply u32_le_inj in H1 as <-; [|done..]. apply u32_le_inj in H2 as <-; [|done..].
  rewrite wf_len, wf_crc, <- Hl, to_nat_len, take_app_length in Hcrc. done.
Qed.

(** ** Booting over the wire *)
Lemma hears_boot d d' : sim_ok d -> rtc (hear CMD_BOOT []) d d' ->
  d' = d \/ present d /\ bootable (g_flash d) /\ d' = port_jump_to_app d.
Proof.
  intros Hok Hr. revert Hok. induction Hr as [d|d d1 d2 [raw Hh] Hrest IH]; [by left|]. intros Hok.
  destruct (g_dead d || g_jumped d) eqn:Hd.
  { rewrite sim_request_silent in Hh by done. injection Hh as _ <-. by apply IH. }
  destruct (sim_request_boot d [] Hok Hd) as [[Hb Hq]|[Hb Hq]]; [done|..]; rewrite Hh in Hq; injection Hq as -> ->.
  - right. split_and!; try done. destruct (IH (Build_sim_ok (port_jump_to_app d) (so_wf _ Hok) (so_idle _ Hok)))
      as [->|(Hp & _)]; [done|]. unfold present in Hp. cbn [port_jump_to_app g_dead g_jumped] in Hp.
    by rewrite orb_true_r in Hp.
  - by apply IH.
Qed.

Section properties.
Context `{PtrWidth} {T A : Type} {tr : Transport T A} `{Carried T} {Hcarrier : Carrier tr}.
Context {P : Type} (progress : Z -> Z -> P -> P).
Implicit Types s : Session T.

(** C5: the session's update is correct end to end, over any carrier. Whatever
    is lost or corrupted on the way and whatever the session repeats, when [flash] returns success the device is
    alive, has the image's geometry, its whole region is the image's byte for
    byte, and its own check accepts it; in particular no update during which the
    power was cut is reported as done. *)
Theorem flash_installs_image data ps ap img s p s' p' :
  is_u16 ps -> is_u16 ap -> bytes data -> from_bin data ps ap = Ok img -> on_carrier s ->
  flash progress img (s, p) = (Ok tt, (s', p')) ->
  g_flash (sdev s') = region img /\ present (sdev s')
  /\ pi_page_size (s_info (sdev s')) = ps /\ pi_app_pages (s_info (sdev s')) = ap
  /\ upd_app_valid (s_info (sdev s')) (g_flash (sdev s')) = Some true.
Proof. apply flash_installed. Qed.

(** C6: and it succeeds: over a carrier that spares one attempt in four and
    waits for the answers, to a device of the image's geometry whose power
    lasts, with a frame buffer of the documented size, [flash] returns
    success. *)
Theorem flash_succeeds data ps ap img s p :
  is_u16 ps -> is_u16 ap -> bytes data -> from_bin data ps ap = Ok img -> on_carrier s ->
  pi_page_size (s_info (sdev s)) = ps -> pi_app_pages (s_info (sdev s)) = ap ->
  present (sdev s) -> uncut (sdev s) ->
  Z.max 18 (ps + 9) <= len (buf s) -> all_patient s -> spare 3 (transport s) ->
  exists s' p', flash progress img (s, p) = (Ok tt, (s', p')).
Proof.
  intros Hps Hap Hd Himg Hs Hp Ha Hpr Hu Hb Hpt Hsp. apply from_bin_ok_inv in Himg as (Hwf & _ & Hps' & Hap'); [|done..].
  apply flash_live; try done; [|by rewrite Hps']. split; congruence.
Qed.

(** C14: the boot gate end to end. Over any carrier, BOOT enters the application
    only if the flash holds one, it changes nothing else, and when the session
    reports success the application has been entered. *)
Theorem boot_end_to_end s r s' : on_carrier s -> boot s = (r, s') ->
  on_carrier s'
  /\ (sdev s' = sdev s \/ bootable (g_flash (sdev s)) /\ sdev s' = port_jump_to_app (sdev s))
  /\ (r = Ok tt -> bootable (g_flash (sdev s)) /\ sdev s' = port_jump_to_app (sdev s)).
Proof.
  intros Hs. unfold boot, sbind. destruct (transact CMD_BOOT [] ST_RSP_PAYLOAD s) as [r1 s1] eqn:Ht.
  apply transact_asked in Ht; try done. destruct Ht as (Hs1 & _ & _ & d & Hd & Hr).
  pose proof (hears_boot _ _ (on_carrier_ok _ Hs) Hd) as Hcase. destruct r1 as [q|e].
  - intros [= <- <-]. split; [done|].
    assert (bootable (g_flash (sdev s)) /\ sdev s1 = port_jump_to_app (sdev s)) as Hj; [|by split; [right|]].
    destruct Hcase as [->|(_ & _ & ->)].
    + destruct (g_dead (sdev s) || g_jumped (sdev s)) eqn:Hpr; [by rewrite sim_request_silent in Hr|].
      destruct (sim_request_boot (sdev s) [] (on_carrier_ok _ Hs) Hpr) as [[Hb Hq]|[Hb Hq]]; [done|..];
        rewrite Hr in Hq; [split; [done|congruence]|done].
    + rewrite sim_request_silent in Hr; [done|]. apply orb_true_r.
  - intros [= <- <-]. split; [done|]. split; [|done]. rewrite Hr. destruct Hcase as [->|(_ & ? & ->)]; [by left|by right].
Qed.

End properties.

Section recovery.
Context `{PtrWidth} {P : Type} (progress : Z -> Z -> P -> P).
Implicit Types s : Session Wire.

(** The device rebooted, flash as it is. *)
Definition reboot (w : World) : World :=
  mkWorld (sim_reset true (s_info (w_sim w)) (g_flash (w_sim w))) (link_init (l_buf (w_link w))).

Lemma flash_keeps img s p r s' p' : image_wf img -> on_carrier s -> flash progress img (s, p) = (r, (s', p')) ->
  on_carrier s' /\ s_info (sdev s') = s_info (sdev s).
Proof.
  intros Hwf Hs Hf. rewrite <- (over_recorded (E:=unit) s), (flash_hom (@lg_inner Wire unit) progress img) in Hf.
  destruct (flash progress img (recorded s, p)) as [r1 [l p1]] eqn:Hl. injection Hf as <- <- <-.
  destruct (flash_spec transport_wire (fun w => wire_ok w /\ s_info (dev w) = s_info (sdev s)) progress img
    (recorded s) p r1 l p1 Hwf) as (_ & _ & _ & _ & _ & _ & [[Hw Hi] Hb] & _); [|done|by split].
  by destruct Hs.
Qed.

(** C11: no brick. However an update went, power cut or not, after a reboot the
    next one over a usable wire succeeds and leaves its image. *)
Theorem flash_recovers data ps ap img img0 s p r s1 p1 faults buf :
  is_u16 ps -> is_u16 ap -> bytes data -> from_bin data ps ap = Ok img -> image_wf img0 -> on_carrier s ->
  pi_page_size (s_info (sdev s)) = ps -> pi_app_pages (s_info (sdev s)) = ap ->
  flash progress img0 (s, p) = (r, (s1, p1)) ->
  Forall fault_ok faults -> spares 3 faults = true -> slice buf -> Z.max 18 (ps + 9) <= len buf ->
  exists s' p', flash progress img (mkSession (mkWire (reboot (wi_world (transport s1))) faults) buf, p1)
      = (Ok tt, (s', p'))
    /\ g_flash (sdev s') = region img.
Proof.
  intros Hps Hap Hd Himg Hwf0 Hs Hp Ha Hf Hfs Hsp Hb Hbl.
  apply from_bin_ok_inv in Himg as (Hwf & _ & Hps' & Hap'); [|done..].
  apply flash_keeps in Hf as [[[[Hok Hlk Hcap] _] _] Hi]; [|done..].
  set (s2 := mkSession _ buf). assert (on_carrier s2) as Hs2.
  { split; [|done]. split; [|done]. cbn. destruct Hok as [Hokwf _], Hlk as [Hlb Hll _]. split; cbn; [by split| |done].
    by split. }
  assert (s_info (sdev s2) = s_info (sdev s)) as Hi2 by (by rewrite <- Hi).
  destruct (flash_live progress img s2 p1) as (s' & p' & Hf'); try done;
    [split; by rewrite Hi2; congruence|by rewrite Hps'|].
  exists s', p'. split; [done|]. apply flash_effect in Hf' as (_ & _ & _ & _ & [Hfl _ _]); done.
Qed.

(** C23: one corrupted byte of an installed application, whichever byte and
    whatever it is changed to, and the device refuses to boot: BOOT is answered
    [ST_NO_APP] and the application is not entered. *)
Theorem corrupted_image_refused img w offset mask :
  image_wf img -> world_ok w -> g_flash (w_sim w) = region img -> present (w_sim w) ->
  0 <= offset < img_len img -> offset < REGION -> is_u8 mask -> mask <> 0 ->
  exists w', Harness.flash_xor offset mask w = Some w'
    /\ sim_request (wire CMD_BOOT []) (w_sim w') = Some (reply CMD_BOOT [ST_NO_APP], w_sim w').
Proof.
  intros Hwf [Hok _ _] Hfl Hpr Ho Hreg Hm Hm0. pose proof Hwf as [].
  unfold Harness.flash_xor. rewrite (proj2 (Z.ltb_lt _ _)) by done. cbn [negb]. unfold get_at. rewrite Hfl.
  assert (Z.to_nat offset < length (img_data img))%nat as Hlt by (unfold len in *; lia).
  destruct (lookup_lt_is_Some_2 (img_data img) _ Hlt) as [b Hb].
  assert (region img !! Z.to_nat offset = Some b) as -> by (by apply lookup_app_l_Some). cbn [mbind option_bind].
  eexists. split; [done|]. cbn [w_sim].
  pose proof (bytes_lookup _ _ _ wf_bytes Hb) as Hbb. pose proof (lxor_u8 _ _ Hbb Hm) as Hx.
  assert (<[Z.to_nat offset := Z.lxor b mask]> (region img)
    = <[Z.to_nat offset := Z.lxor b mask]> (img_data img) ++ drop (length (img_data img)) (region img)) as Heq.
  { unfold region. by rewrite drop_app_length, insert_app_l by done. }
  set (flash' := <[Z.to_nat offset := Z.lxor b mask]> (region img)) in *.
  assert (~ bootable flash') as Hnb.
  { rewrite Heq. apply corrupted_not_bootable; [done|apply len_insert|].
    apply (crc32_insert_ne (img_data img) _ _ b); try done. intros Hxb. apply Hm0.
    apply (f_equal (fun z => Z.lxor b z)) in Hxb. by rewrite <- Z.lxor_assoc, Z.lxor_nilpotent, Z.lxor_0_l in Hxb. }
  assert (sim_ok (with_flash flash' (w_sim w))) as Hok'.
  { destruct Hok as [Hdw Hidle]. split; [|done]. apply (device_wf_flash _ (g_flash (w_sim w))); [done|..].
    - apply Forall_insert; [by apply bytes_region|done].
    - rewrite Hfl. apply len_insert. }
  by destruct (sim_request_boot (with_flash flash' (w_sim w)) [] Hok' Hpr) as [[? _]|[_ ?]].
Qed.

End recovery.

(** ** Witnesses *)
Definition blank_world : World := mkWorld (sim_reset false sample_port (region sample_image)) (link_init (replicate 255 0)).
(** Requests lost, flipped and turned into other bytes, answers lost, late and
    turned into other bytes, and a refused transfer, never more than three
    exchanges in a row. *)
Definition bad_wire : list Fault :=
  [RequestLost; ReplyLost; RequestFlipped 1 4; Delivered; BusError; Delivered;
   Passed (ReqDamaged [3; 1; 7]) (AnsLate 5000000); Passed ReqWhole (AnsDamaged [0; 0; 0; 0]); ReplyLost].
Lemma bad_wire_ok : Forall fault_ok bad_wire.
Proof.
  assert (bytes [3; 1; 7] /\ bytes [0; 0; 0; 0]) as [Hb1 Hb2] by (split; repeat constructor; lia).
  do 2 (constructor; [by split|]). constructor; [cbn; lia|]. do 3 (constructor; [by split|]).
  constructor; [split; [|done]; split_and!; [done|by vm_compute|by right]|].
  constructor; [split; [done|]; split; [done|]; by apply (unframed_decode (H:=ptr64)); [|vm_compute]|].
  constructor; [by split|]. constructor.
Qed.
Definition blank_session : Session Wire := mkSession (mkWire blank_world bad_wire) (replicate 64 0).
Definition no_progress (done total : Z) (p : unit) : unit := p.

Lemma sample_link_inv : link_inv (link_init (replicate 255 0)).
Proof. split; [exact (bytes_replicate 255 0 ltac:(lia))|by vm_compute|done]. Qed.
Lemma sample_world_ok s : sim_ok s -> world_ok (mkWorld s (link_init (replicate 255 0))).
Proof. intros Hs. split; [done|exact sample_link_inv|done]. Qed.
Lemma sample_slice : slice (H:=ptr64) (replicate 64 0).
Proof. split; [exact (bytes_replicate 64 0 ltac:(lia))|by vm_compute]. Qed.
Lemma sample_on_wire s : sim_ok s ->
  on_carrier (H:=ptr64) (mkSession (mkWire (mkWorld s (link_init (replicate 255 0))) bad_wire) (replicate 64 0)).
Proof.
  intros Hs. split; [|exact sample_slice]. split; [by apply sample_world_ok|].
  exact bad_wire_ok.
Qed.
Lemma blank_ok : sim_ok (sim_reset false sample_port (region sample_image)).
Proof.
  split; [|done]. apply (device_wf_flash _ (region sample_image)); [exact sample_wf|by apply sample_bytes_dec|by vm_compute].
Qed.
Lemma installed_ok : sim_ok sample_sim.
Proof. split; [exact sample_wf|done]. Qed.

Abbreviation sample_update := (flash (H:=ptr64) no_progress sample_image (blank_session, tt)).

Lemma flash_installs_image_witness :
  exists s', fst sample_update = Ok tt /\ g_flash (sdev s') = region sample_image
    /\ upd_app_valid (s_info (sdev s')) (g_flash (sdev s')) = Some true.
Proof.
  destruct sample_update as [r [s' p']] eqn:Hf.
  assert (r = Ok tt) as -> by (apply (f_equal fst) in Hf; revert Hf; vm_compute; by intros <-).
  exists s'. split; [reflexivity|].
  destruct (flash_installs_image (H:=ptr64) no_progress sample_data 16 4 sample_image blank_session tt s' p')
    as (H1 & _ & _ & _ & H2);
    [lia|lia|exact sample_bytes|by vm_compute|apply sample_on_wire, blank_ok|exact Hf|].
  split; [exact H1|exact H2].
Defined.

Lemma flash_succeeds_witness : exists s' p', sample_update = (Ok tt, (s', p')).
Proof.
  apply (flash_succeeds (H:=ptr64) no_progress sample_data 16 4 sample_image blank_session tt);
    [lia|lia|exact sample_bytes|by vm_compute|apply sample_on_wire, blank_ok|reflexivity|reflexivity|reflexivity
    |split; reflexivity|by vm_compute|by intros c|by vm_compute].
Defined.

(** A power cut armed on the third flash operation. *)
Abbreviation cut_session :=
  (mkSession (mkWire (mkWorld (sim_powercut_after 3 (w_sim blank_world)) (w_link blank_world)) []) (replicate 64 0)).

Lemma flash_recovers_witness :
  let '(r, (s1, p1)) := flash (H:=ptr64) no_progress sample_image (cut_session, tt) in
  is_ok r = false
  /\ exists s' p', flash (H:=ptr64) no_progress sample_image
       (mkSession (mkWire (reboot (wi_world (transport s1))) bad_wire) (replicate 64 0), p1) = (Ok tt, (s', p'))
     /\ g_flash (sdev s') = region sample_image.
Proof.
  destruct (flash _ _ _) as [r [s1 p1]] eqn:Hf. split.
  { apply (f_equal (fun x => is_ok (fst x))) in Hf. revert Hf. vm_compute. by intros <-. }
  apply (flash_recovers (H:=ptr64) no_progress sample_data 16 4 sample_image sample_image cut_session tt r s1 p1);
    [lia|lia|exact sample_bytes|by vm_compute| |
     |reflexivity|reflexivity|exact Hf| |by vm_compute|exact sample_slice|by vm_compute].
  - destruct (from_bin_ok_inv (H:=ptr64) sample_data 16 4 sample_image ltac:(lia) ltac:(lia) sample_bytes ltac:(by vm_compute))
      as [Hwf _]. exact Hwf.
  - split; [|exact sample_slice]. split; [|constructor]. apply sample_world_ok.
    split; [exact (so_wf _ blank_ok)|reflexivity].
  - exact bad_wire_ok.
Defined.

Lemma boot_end_to_end_witness :
  let '(r, s') := boot (H:=ptr64) (mkSession (mkWire sample_world [RequestLost]) (replicate 64 0)) in
  r = Ok tt /\ sdev s' = port_jump_to_app sample_sim.
Proof.
  destruct (boot _) as [r s'] eqn:Hb.
  assert (r = Ok tt) as -> by (apply (f_equal fst) in Hb; revert Hb; vm_compute; by intros <-).
  split; [reflexivity|].
  destruct (boot_end_to_end (H:=ptr64) (mkSession (mkWire sample_world [RequestLost]) (replicate 64 0)) (Ok tt) s'
    ltac:(split; [split; [apply sample_world_ok, installed_ok|repeat constructor]|exact sample_slice]) Hb) as (_ & _ & Hj).
  exact (proj2 (Hj eq_refl)).
Defined.

Lemma corrupted_image_refused_witness :
  exists w', Harness.flash_xor 3 1 sample_world = Some w'
    /\ sim_request (wire CMD_BOOT []) (w_sim w') = Some (reply CMD_BOOT [ST_NO_APP], w_sim w').
Proof.
  apply (corrupted_image_refused (H:=ptr64) sample_image sample_world 3 1);
    [|apply sample_world_ok, installed_ok|reflexivity|reflexivity|by vm_compute|by vm_compute|lia|lia].
  destruct (from_bin_ok_inv (H:=ptr64) sample_data 16 4 sample_image ltac:(lia) ltac:(lia) sample_bytes ltac:(by vm_compute))
    as [Hwf _]. exact Hwf.
Defined.
