(* ===== verification/Atomic.v ===== *)
(** An update is atomic: whatever the carrier loses and whenever the power
    fails, what an update leaves in flash is the old contents with some of the
    front erased, or nothing the device would boot, or the new image, complete.
    The argument is on the flash operations themselves, torn ones included. *)
From stdpp Require Import relations.
From S2P Require Import Prelude Errors Frame Image Stream Transport Session Recorded.
From S2P Require Import Device DeviceLink Conformance Carrier Flashing Wire EndToEnd.

(** ** Erasing from the front *)

(** [f] with its first [k] bytes erased. *)
Definition front_erased (k : Z) (f : list Z) : list Z := replicate (Z.to_nat k) 0xFF ++ drop (Z.to_nat k) f.

Lemma len_front_erased k f : 0 <= k <= len f -> len (front_erased k f) = len f.
Proof. intros. unfold front_erased. lens. Qed.
Lemma lookup_front_erased k f i : 0 <= k <= len f -> 0 <= i ->
  front_erased k f !! Z.to_nat i = if i <? k then Some 0xFF else f !! Z.to_nat i.
Proof.
  intros Hk Hi. unfold front_erased. unfold len in *. zcase.
  - rewrite lookup_app_l by (rewrite length_replicate; lia). apply lookup_replicate_2. lia.
  - rewrite lookup_app_r, length_replicate, lookup_drop by (rewrite length_replicate; lia). f_equal. lia.
Qed.
Lemma list_eq_len (l k : list Z) : len l = len k -> (forall i, 0 <= i < len l -> l !! Z.to_nat i = k !! Z.to_nat i) -> l = k.
Proof.
  intros Hl Heq. apply list_eq_same_length with (length l); [unfold len in *; lia|done|].
  intros i x y Hi Hx Hy. specialize (Heq (Z.of_nat i)). rewrite Nat2Z.id in Heq. unfold len in Heq. rewrite Hx, Hy in Heq.
  by injection Heq as ->; [|lia].
Qed.

Lemma front_erased_0 f : front_erased 0 f = f.
Proof. unfold front_erased. by rewrite drop_0. Qed.
Lemma front_erased_twice j k f : 0 <= j <= len f -> 0 <= k <= len f ->
  front_erased j (front_erased k f) = front_erased (Z.max j k) f.
Proof.
  intros Hj Hk. assert (len (front_erased k f) = len f) as Hl by (by apply len_front_erased).
  apply list_eq_len; [rewrite !len_front_erased by lia; done|].
  rewrite len_front_erased by lia. intros i Hi. rewrite !lookup_front_erased by lia. repeat zcase; try lia; done.
Qed.
(** Erasing some bytes behind, or across, the end of what is erased. *)
Lemma erase_next o n k f : 0 <= o <= k -> k <= len f -> 0 <= n -> o + n <= len f ->
  overwrite o (replicate (Z.to_nat n) 0xFF) (front_erased k f) = front_erased (Z.max k (o + n)) f.
Proof.
  intros Ho Hk Hn Hon. assert (len (front_erased k f) = len f) as Hl by (by apply len_front_erased; lia).
  assert (len (replicate (Z.to_nat n) 0xFF) = n) as Hr by (rewrite len_replicate; lia).
  assert (len (overwrite o (replicate (Z.to_nat n) 0xFF) (front_erased k f)) = len f) as Hlo by (rewrite len_overwrite; lia).
  apply list_eq_len; [rewrite len_front_erased; lia|]. rewrite Hlo. intros i Hi.
  rewrite lookup_overwrite, Hr, !lookup_front_erased by lia.
  destruct (Z.leb_spec o i), (Z.ltb_spec i (o + n)), (Z.ltb_spec i k), (Z.ltb_spec i (Z.max k (o + n))); cbn [andb]; try lia; try done;
    apply lookup_replicate_2; lia.
Qed.

(** Some of the front of [f0] is erased. *)
Definition partly_erased (f0 f : list Z) : Prop := exists k, 0 <= k <= len f0 /\ f = front_erased k f0.

Lemma partly_erased_refl f : partly_erased f f.
Proof. exists 0. pose proof (len_nonneg f). split; [lia|]. by rewrite front_erased_0. Qed.
Lemma partly_erased_trans f g h : partly_erased f g -> partly_erased g h -> partly_erased f h.
Proof.
  intros (k & Hk & ->) (j & Hj & ->). rewrite len_front_erased in Hj by done. exists (Z.max j k).
  split; [lia|]. by apply front_erased_twice.
Qed.

(** ** The operations *)

(** A write to a page, torn or not, is a write of the front of the page. *)
Lemma port_flash_op_inv p data s s' : device_wf (s_info s) (g_flash s) -> 0 <= p ->
  len data = pi_page_size (s_info s) -> port_flash_op p data s = Some s' ->
  s_info s' = s_info s /\ p < pi_app_pages (s_info s)
  /\ (g_dead s = true -> s' = s)
  /\ (g_dead s = false -> exists n, 0 <= n <= len data
       /\ g_flash s' = overwrite (p * pi_page_size (s_info s)) (take (Z.to_nat n) data) (g_flash s)
       /\ (if g_dead s' then n = len data / 2 else n = len data)).
Proof.
  intros [] Hp Hl. unfold port_flash_op. zcase; [done|]. destruct (g_dead s) eqn:Hd.
  { intros [= <-]. by split_and!. }
  unfold op_tears. set (torn := negb _ && _). cbv zeta. intros [= <-]. cbn [with_flash s_info g_flash g_dead].
  split_and!; [done|lia|done|]. intros _. rewrite <- Hl in *. pose proof (len_nonneg data).
  exists (if torn then len data / 2 else len data). split; [|split; [done|]].
  - destruct torn; [|lia]. Z.to_euclidean_division_equations; lia.
  - destruct torn; [done|]. by rewrite Hd.
Qed.

Lemma erase_loop_partly n : forall p s s' f0, device_wf (s_info s) (g_flash s) -> 0 <= p ->
  len (g_flash s) = len f0 ->
  (exists k, 0 <= k <= len f0 /\ g_flash s = front_erased k f0 /\ (g_dead s = false -> p * pi_page_size (s_info s) <= k)) ->
  erase_loop n p s = Some s' -> partly_erased f0 (g_flash s').
Proof.
  induction n as [|n IH]; intros p s s' f0 Hwf Hp Hl (k & Hk & Hf & Hal); cbn [erase_loop].
  { intros [= <-]. by exists k. }
  unfold port_flash_erase_page. pose proof (dw_page_size _ _ Hwf) as Hps. set (ps := pi_page_size (s_info s)) in *.
  set (data := replicate (Z.to_nat ps) 0xFF). assert (len data = ps) as Hld by (unfold data; rewrite len_replicate; lia).
  destruct (port_flash_op p data s) as [s1|] eqn:Hop; [|done]. cbn [mbind option_bind]. intros He.
  destruct (port_flash_op_inv p data s s1 Hwf Hp Hld Hop) as (Hi & Hap & Hdead & Hlive).
  destruct (g_dead s) eqn:Hd.
  { rewrite (Hdead eq_refl) in *. apply (IH (p + 1) s s' f0); [done|lia|done| |done]. exists k. split_and!; [lia..|done|congruence]. }
  destruct (Hlive eq_refl) as (m & Hm & Hf1 & Hdm). specialize (Hal eq_refl). fold ps in Hf1.
  assert (p * ps + ps <= len f0) as Hfit.
  { rewrite <- Hl, (dw_region _ _ Hwf). fold ps. nia. }
  assert (take (Z.to_nat m) data = replicate (Z.to_nat m) 0xFF) as Htk.
  { unfold data. rewrite take_replicate. f_equal. lia. }
  rewrite Htk, Hf, erase_next in Hf1 by lia.
  destruct (port_flash_op_ok p data s Hwf) as (s2 & Hop' & Hwf1 & _); [lia|by apply bytes_replicate|done|].
  rewrite Hop in Hop'. injection Hop' as <-.
  apply (IH (p + 1) s1 s' f0); [done|lia|by rewrite Hf1, len_front_erased by lia| |done].
  eexists. split; [|split; [exact Hf1|]]; [lia|]. rewrite Hi. fold ps. intros Hd1. rewrite Hd1 in Hdm. nia.
Qed.

(** ** What a request does to the flash *)
Lemma hear_handled cmd payload d d' : sim_ok d -> bytes payload -> len payload <= PAYLOAD_MAX -> hear cmd payload d d' ->
  (d' = d /\ ~ present d)
  \/ present d /\ exists rsp d1, upd_handle d (mkUpdFrame cmd (len payload) payload) 252 = Some (rsp, d1)
       /\ g_flash d' = g_flash d1 /\ g_dead d' = g_dead d1.
Proof.
  intros Hok Hb Hl [raw Hr]. unfold present. destruct (g_dead d || g_jumped d) eqn:Hd.
  { rewrite sim_request_silent in Hr by done. injection Hr as _ <-. by left. }
  right. split; [done|].
  destruct (sim_request_wire d cmd payload) as (rsp & s1 & s' & Hh & _ & Hr' & _ & _ & Hset); [done..|].
  rewrite Hr in Hr'. injection Hr' as _ <-. exists rsp, s1. split; [done|].
  destruct (g_dead s1) eqn:Hd1; [by subst|]. destruct Hset as (? & _ & _ & Hdd & _). split; [done|]. congruence.
Qed.

Lemma hear_erase d d' : sim_ok d -> hear CMD_ERASE_APP ERASE_MAGIC d d' -> partly_erased (g_flash d) (g_flash d').
Proof.
  intros Hok Hh. destruct (hear_handled CMD_ERASE_APP ERASE_MAGIC d d') as [[-> _]|(Hpr & rsp & d1 & Hu & -> & _)];
    [done|repeat constructor; by vm_compute|by vm_compute|done|apply partly_erased_refl|].
  unfold upd_handle, handle_erase in Hu. cbn -[erase_loop] in Hu.
  destruct (erase_loop _ _ _) as [d2|] eqn:He; [|done]. injection Hu as _ <-.
  apply (erase_loop_partly (Z.to_nat (pi_app_pages (s_info d))) 0 d d2 (g_flash d)); [apply Hok|lia|done| |done].
  exists 0. pose proof (len_nonneg (g_flash d)). rewrite front_erased_0. split_and!; [lia..|done|lia].
Qed.

Lemma hear_write i page d d' : sim_ok d -> 0 <= i < pi_app_pages (s_info d) -> bytes page ->
  len page = pi_page_size (s_info d) -> len page <= 250 -> hear CMD_WRITE_PAGE (u16_to_le_bytes i ++ page) d d' ->
  g_flash d' = g_flash d
  \/ exists n, g_flash d' = overwrite (i * len page) (take (Z.to_nat n) page) (g_flash d)
       /\ (n = len page \/ n = len page / 2 /\ g_dead d' = true).
Proof.
  intros Hok Hi Hb Hl Hmax Hh. pose proof (so_wf _ Hok) as Hwf. pose proof (dw_app_pages _ _ Hwf) as Hap.
  assert (len (u16_to_le_bytes i ++ page) = len page + 2) as Hlp by (rewrite len_app; unfold u16_to_le_bytes; lens).
  destruct (hear_handled CMD_WRITE_PAGE (u16_to_le_bytes i ++ page) d d') as [[-> _]|(Hpr & rsp & d1 & Hu & -> & ->)];
    [done|apply bytes_app; split; auto with ota|change PAYLOAD_MAX with 252; lia|done|by left|].
  unfold upd_handle, handle_write in Hu. cbn [uf_cmd uf_len uf_payload] in Hu.
  change (252 =? 0) with false in Hu. change (CMD_WRITE_PAGE =? CMD_INFO) with false in Hu.
  change (CMD_WRITE_PAGE =? CMD_ERASE_APP) with false in Hu. change (CMD_WRITE_PAGE =? CMD_WRITE_PAGE) with true in Hu. cbn iota in Hu.
  destruct (negb (s_erased d)); [injection Hu as _ <-; by left|]. rewrite Hlp, Hl, Z.eqb_refl in Hu. cbn [negb] in Hu.
  set (idx := Z.land _ _) in Hu. assert (idx = i) as Hidx.
  { subst idx. unfold u16_to_le_bytes, get_at. cbn [app]. change (Z.to_nat 0) with 0%nat. change (Z.to_nat 1) with 1%nat.
    cbn [lookup list_lookup default from_option id]. unfold id. rewrite index_word by (apply Z.mod_pos_bound; lia).
    apply u16_le_roundtrip. lia. }
  rewrite Hidx, (proj2 (Z.leb_gt _ _)) in Hu by lia.
  change (drop 2 (u16_to_le_bytes i ++ page)) with page in Hu. unfold port_flash_write_page in Hu.
  destruct (port_flash_op i page d) as [d2|] eqn:Hop; [|done]. injection Hu as _ <-.
  destruct (port_flash_op_inv i page d d2) as (_ & _ & _ & Hlive); [done|lia|done..|].
  apply orb_false_iff in Hpr as [Hd _]. destruct (Hlive Hd) as (n & Hn & Hf & Hdn). right. exists n. rewrite Hl.
  split; [done|]. rewrite <- Hl. destruct (g_dead d2); [by right|by left].
Qed.

(** ** A blank footer *)
Definition footer_blank (f : list Z) : Prop :=
  FOOTER_LEN <= len f /\ forall i, len f - FOOTER_LEN <= i < len f -> f !! Z.to_nat i = Some 0xFF.

Lemma footer_blank_unbootable f : footer_blank f -> ~ bootable f.
Proof.
  intros [Hl Hb] (n & c & pad & Hd & _). change FOOTER_LEN with 16 in *. specialize (Hb (len f - 16) ltac:(lia)).
  replace (Z.to_nat (len f - 16)) with (Z.to_nat (len f - 16) + 0)%nat in Hb by lia.
  rewrite <- lookup_drop, Hd in Hb. done.
Qed.
Lemma footer_blank_erased n : FOOTER_LEN <= n -> footer_blank (erased n).
Proof.
  intros Hn. change FOOTER_LEN with 16 in Hn. assert (len (erased n) = n) as Hl by (unfold erased; rewrite len_replicate; lia).
  split; rewrite Hl; [done|]. intros i Hi. change FOOTER_LEN with 16 in Hi. apply lookup_replicate_2. lia.
Qed.
Lemma footer_blank_overwrite o src f : footer_blank f -> 0 <= o -> o + len src <= len f - FOOTER_LEN ->
  footer_blank (overwrite o src f).
Proof.
  intros [Hl Hb] Ho Hfit. change FOOTER_LEN with 16 in *. pose proof (len_nonneg src).
  assert (len (overwrite o src f) = len f) as Hlo by (apply len_overwrite; lia).
  split; rewrite Hlo; [done|]. change FOOTER_LEN with 16. intros i Hi. rewrite lookup_overwrite by lia.
  rewrite (proj2 (Z.ltb_ge _ _)), andb_false_r by lia. by apply Hb.
Qed.

(** Writing what is there. *)
Lemma overwrite_same o n ps (f : list Z) : 0 <= o -> 0 <= n <= ps -> o + ps <= len f ->
  overwrite o (take (Z.to_nat n) (take (Z.to_nat ps) (drop (Z.to_nat o) f))) f = f.
Proof.
  intros Ho Hn Hf. set (src := take _ _). assert (len src = n) as Hl by (subst src; lens).
  assert (len (overwrite o src f) = len f) as Hlo by (apply len_overwrite; lia).
  apply list_eq_len; [done|]. rewrite Hlo. intros i Hi. rewrite lookup_overwrite by lia. rewrite Hl.
  destruct (Z.leb_spec o i), (Z.ltb_spec i (o + n)); cbn [andb]; try done. subst src.
  rewrite !lookup_take_lt, lookup_drop by lia. f_equal. lia.
Qed.

(** What hearing a request any number of times keeps. *)
Lemma hears_inv cmd payload (P : Sim -> Prop) d d' : cmd <> CMD_BOOT -> bytes payload -> len payload <= PAYLOAD_MAX ->
  (forall a b, sim_ok a -> s_info a = s_info d -> P a -> hear cmd payload a b -> P b) ->
  sim_ok d -> P d -> rtc (hear cmd payload) d d' -> P d'.
Proof.
  intros Hc Hb Hl HP Hok Hd Hr. set (info := s_info d) in *. assert (s_info d = info) as Hi by done. clearbody info.
  induction Hr as [e|e1 e2 e3 Hh _ IH]; [done|]. destruct (hear_ok cmd payload Hb Hl _ _ Hok Hh) as [Hok2 Hi2].
  apply IH; [done|by apply (HP e1)|congruence].
Qed.

Section atomic.
Context `{PtrWidth} {T A : Type} {tr : Transport T A} `{Carried T} {Hcarrier : Carrier tr}.
Context {P : Type} (progress : Z -> Z -> P -> P).
Abbreviation asked := (Carrier.asked (A:=A)).
Implicit Types s : Session T.

Lemma asked_inv (Q : Sim -> Prop) cmd payload s s' r : on_carrier s -> cmd <> CMD_BOOT -> bytes payload ->
  len payload <= PAYLOAD_MAX -> asked cmd payload s s' r ->
  (forall a b, sim_ok a -> s_info a = s_info (sdev s) -> Q a -> hear cmd payload a b -> Q b) ->
  Q (sdev s) -> Q (sdev s').
Proof.
  intros Hs Hc Hb Hl (_ & _ & _ & d & Hd & Hr) HQ Hq. pose proof (on_carrier_ok _ Hs) as Hok.
  assert (Q d) as Hqd by (by eapply (hears_inv cmd payload)). destruct r as [p|e]; [|by rewrite Hr].
  destruct (hears_keep cmd payload Hc Hb Hl (fun _ => True) (sdev s) d) as (Hokd & Hid & _); try done.
  apply (HQ d); try done. by eexists.
Qed.

(** A page other than the footer's. *)
Lemma write_keeps_blank img i s r s' : image_wf img -> 0 <= i < img_app_pages img - 1 -> on_carrier s ->
  fits img (sdev s) -> footer_blank (g_flash (sdev s)) -> write_page img i s = (r, s') -> footer_blank (g_flash (sdev s')).
Proof.
  intros Hwf Hi Hs [Hps Hap] Hbl Hw. pose proof (wf_page_size _ Hwf) as Hpsz. change FOOTER_LEN with 16 in Hpsz.
  change PAGE_SIZE_MAX with 250 in Hpsz. pose proof (wf_pages _ Hwf) as Hapz.
  pose proof (len_write_payload img i Hwf ltac:(lia)) as Hlw. pose proof (len_region_page img i Hwf ltac:(lia)) as Hlp.
  destruct (write_page_asked img i s r s' Hwf ltac:(lia) Hs Hw) as (r' & Ha & _).
  eapply (asked_inv (fun a => footer_blank (g_flash a))) in Ha; [exact Ha|..]; try done;
    [by apply bytes_write_payload|change PAYLOAD_MAX with 252; lia|].
  intros a b Hok Hinf Hbla Hh. apply hear_write in Hh as [-> |(n & -> & Hn)];
    [done| |done|rewrite Hinf, Hap; lia|by apply region_page_bytes|by rewrite Hinf, Hps|lia].
  pose proof (dw_region _ _ (so_wf _ Hok)) as Hreg. rewrite Hinf, Hps, Hap in Hreg.
  apply footer_blank_overwrite; [done|nia|]. rewrite Hreg, Hlp in *. change FOOTER_LEN with 16.
  rewrite len_take, Hlp. nia.
Qed.

(** The footer's page, written last. *)
Lemma write_footer_outcome img i f s r s' : image_wf img -> i = img_app_pages img - 1 -> 32 <= img_page_size img -> on_carrier s ->
  fits img (sdev s) -> programmed f (sdev s) -> footer_blank f ->
  write_at (img_page_size img) f i (page_of (img_page_size img) (region img) i) = region img ->
  write_page img i s = (r, s') -> footer_blank (g_flash (sdev s')) \/ g_flash (sdev s') = region img.
Proof.
  intros Hwf Hi H32 Hs [Hps Hap] [Hf _ _] Hbl Hreg Hw. pose proof (wf_page_size _ Hwf) as Hpsz. change FOOTER_LEN with 16 in Hpsz.
  change PAGE_SIZE_MAX with 250 in Hpsz. pose proof (wf_pages _ Hwf) as Hapz.
  pose proof (len_write_payload img i Hwf ltac:(lia)) as Hlw. pose proof (len_region_page img i Hwf ltac:(lia)) as Hlp.
  set (page := page_of (img_page_size img) (region img) i) in *. pose proof (len_region img Hwf) as Hlr.
  destruct (write_page_asked img i s r s' Hwf ltac:(lia) Hs Hw) as (r' & Ha & _).
  eapply (asked_inv (fun a => g_flash a = f \/ g_flash a = region img \/ footer_blank (g_flash a) /\ ~ present a)) in Ha;
    [|try done..]; [|by apply bytes_write_payload|change PAYLOAD_MAX with 252; lia| |by left].
  { destruct Ha as [-> |[-> |[? _]]]; [by left|by right|by left]. }
  intros a b Hok Hinf Hq Hh. destruct (hear_handles CMD_WRITE_PAGE (write_payload img i) ltac:(done) ltac:(by apply bytes_write_payload)
    ltac:(change PAYLOAD_MAX with 252; lia) a b Hok Hh) as [[-> _]|[Hpr _]]; [done|].
  assert (g_flash a = f \/ g_flash a = region img) as Hfa by (destruct Hq as [?|[?|[_ ?]]]; [by left|by right|done]). clear Hq.
  assert (len (g_flash a) = len (region img)) as Hla.
  { rewrite (dw_region _ _ (so_wf _ Hok)), Hinf, Hps, Hap. done. }
  assert (i * img_page_size img + img_page_size img = len (region img)) as Hend by (rewrite Hlr, Hi; lia).
  apply hear_write in Hh as [-> |(n & Hfb & Hn)];
    [by destruct Hfa; auto| |done|rewrite Hinf, Hap; lia|by apply region_page_bytes|by rewrite Hinf, Hps|fold page; lia].
  fold page in Hfb, Hn. rewrite Hlp in Hfb, Hn. assert (0 <= n <= img_page_size img) as Hnb.
  { destruct Hn as [-> |[-> _]]; [lia|]. Z.to_euclidean_division_equations; lia. }
  destruct Hfa as [Hfa|Hfa]; rewrite Hfa in Hfb, Hla.
  - destruct Hn as [-> |[-> Hdead]]; [right; left; rewrite Hfb; rewrite take_ge by (unfold len in *; lia); exact Hreg|].
    right; right. split; [|unfold present; by rewrite Hdead]. rewrite Hfb. apply footer_blank_overwrite; [done|nia|].
    assert (img_page_size img / 2 <= img_page_size img - 16) by (Z.to_euclidean_division_equations; lia).
    rewrite Hla, <- Hend. change FOOTER_LEN with 16. rewrite len_take. lia.
  - right; left. rewrite Hfb. unfold page, page_of. apply overwrite_same; nia.
Qed.

(** What the pages leave: no footer yet, or the image. *)
Lemma flash_pages_outcome img total before : image_wf img -> 32 <= img_page_size img ->
  Forall (fun i => 0 <= i < img_app_pages img - 1) before ->
  forall done f s p r s' p', on_carrier s -> fits img (sdev s) -> programmed f (sdev s) -> footer_blank f ->
  program img (before ++ [img_app_pages img - 1]) f = region img ->
  flash_pages progress img total (before ++ [img_app_pages img - 1]) done (s, p) = (r, (s', p')) ->
  footer_blank (g_flash (sdev s')) \/ g_flash (sdev s') = region img.
Proof.
  intros Hwf H32 Hall. pose proof (wf_pages _ Hwf) as Hapz.
  induction Hall as [|i before Hi _ IH]; intros done f s p r s' p' Hs Hfit Hf Hbl Hprog; cbn [app flash_pages];
    assert (footer_blank (g_flash (sdev s))) as Hbs by (by rewrite (pg_flash _ _ Hf)); unfold sbind, on_session, report; destruct (write_page img _ s) as [[[]|e] s1] eqn:Hw; intros Hr.
  - injection Hr as <- <- <-. by eapply write_footer_outcome.
  - injection Hr as <- <- <-. by eapply write_footer_outcome.
  - destruct (write_page_effect img i f s s1) as (Hs1 & _ & _ & Hi1 & Hf1); try done; [lia|].
    eapply (IH _ _ s1); [done|by unfold fits in *; rewrite Hi1|exact Hf1| |done|exact Hr].
    rewrite <- (pg_flash _ _ Hf1). by apply (write_keeps_blank img i s (Ok tt) s1).
  - injection Hr as <- <- <-. left. by apply (write_keeps_blank img i s (Err e) s1).
Qed.

Lemma pages_footer_last img : image_wf img -> exists before,
  pages_list (pages img) = before ++ [img_app_pages img - 1] /\ Forall (fun i => 0 <= i < img_app_pages img - 1) before.
Proof.
  intros Hwf. pose proof (wf_pages _ Hwf). unfold pages. rewrite pages_list_remaining by done.
  exists (filter (fun i => must_write img i = true) (seqZ 0 (img_app_pages img - 1))). split.
  - unfold remaining. replace (img_app_pages img - 0) with ((img_app_pages img - 1) + 1) by lia.
    rewrite seqZ_app, filter_app by lia. f_equal. rewrite Z.add_0_l. cbn [seqZ].
    change (seqZ (img_app_pages img - 1) 1) with [img_app_pages img - 1].
    rewrite filter_cons_True; [done|]. by apply must_write_footer.
  - apply Forall_forall. intros i [_ Hi%elem_of_seqZ]%list_elem_of_filter. lia.
Qed.


(** What an update may leave behind. *)
Definition update_outcome (img : Image) (f0 f : list Z) : Prop :=
  partly_erased f0 f \/ ~ bootable f \/ f = region img.

(** VERIFY reads. *)
Lemma verify_keeps img f s s' r : image_wf img -> on_carrier s -> asked CMD_VERIFY (verify_payload img) s s' r ->
  g_flash (sdev s) = f -> g_flash (sdev s') = f.
Proof.
  intros Hwf Hs Ha. destruct (image_u32 img Hwf) as [Hn Hc].
  apply (asked_inv (fun a => g_flash a = f) CMD_VERIFY (verify_payload img) s s' r); try done; [apply verify_payload_bytes|].
  intros a b Hok _ Hf Hh. apply hear_handles in Hh as [[-> _]|(_ & rsp & Hh & _)]; try done; [|apply verify_payload_bytes].
  by apply handles_verify_inv in Hh as [-> _].
Qed.

Lemma info_keeps f s s' r : on_carrier s -> asked CMD_INFO [] s s' r -> g_flash (sdev s) = f -> g_flash (sdev s') = f.
Proof.
  intros Hs Ha. apply (asked_inv (fun a => g_flash a = f) CMD_INFO [] s s' r); try done.
  intros a b Hok _ Hf Hh. apply hear_handles in Hh as [[-> _]|(_ & rsp & Hh & _)]; try done.
  by apply handles_info_inv in Hh as [-> _].
Qed.

Lemma erase_partly f s s' r : on_carrier s -> asked CMD_ERASE_APP ERASE_MAGIC s s' r ->
  partly_erased f (g_flash (sdev s)) -> partly_erased f (g_flash (sdev s')).
Proof.
  intros Hs Ha. apply (asked_inv (fun a => partly_erased f (g_flash a)) CMD_ERASE_APP ERASE_MAGIC s s' r); try done.
  - repeat constructor; by vm_compute.
  - intros a b Hok _ Hf Hh. eapply partly_erased_trans; [exact Hf|]. by apply hear_erase.
Qed.

(** Writing an image to an erased device. *)
Lemma pages_outcome img total s p r s' p' : image_wf img -> 32 <= img_page_size img -> on_carrier s -> fits img (sdev s) ->
  programmed (erased (img_page_size img * img_app_pages img)) (sdev s) ->
  flash_pages progress img total (pages_list (pages img)) 0 (s, p) = (r, (s', p')) ->
  (~ bootable (g_flash (sdev s')) \/ g_flash (sdev s') = region img) /\ (r = Ok tt -> on_carrier s').
Proof.
  intros Hwf H32 Hs Hfit Hp Hr. destruct (pages_footer_last img Hwf) as (before & Hpl & Hall).
  pose proof (program_pages img Hwf) as Hprog. pose proof (wf_pages _ Hwf). pose proof (wf_page_size _ Hwf) as Hpsz.
  change FOOTER_LEN with 16 in Hpsz. rewrite Hpl in *. split.
  - assert (footer_blank (erased (img_page_size img * img_app_pages img))) as Hbl.
    { apply footer_blank_erased. change FOOTER_LEN with 16. nia. }
    destruct (flash_pages_outcome img total before Hwf H32 Hall 0 _ s p r s' p' Hs Hfit Hp Hbl Hprog Hr)
      as [?%footer_blank_unbootable|?]; [by left|by right].
  - intros ->. eapply (flash_pages_effect progress img _ _ Hwf) in Hr as (Hs' & _); try done.
    apply Forall_app. split; [|repeat constructor; lia]. eapply Forall_impl; [exact Hall|]. cbn. lia.
Qed.

(** The flash at the end of an update, however it went. *)
Theorem flash_outcome img s p r s' p' : image_wf img -> 32 <= img_page_size img -> on_carrier s ->
  flash progress img (s, p) = (r, (s', p')) -> update_outcome img (g_flash (sdev s)) (g_flash (sdev s')).
Proof.
  intros Hwf H32 Hs. unfold flash. unfold sbind at 1, on_session at 1, info, sbind at 1, lift at 1.
  pose proof (partly_erased_refl (g_flash (sdev s))) as Hsame.
  destruct (transact CMD_INFO [] INFO_RSP_PAYLOAD s) as [r1 s1] eqn:Ht1.
  apply transact_asked in Ht1; try done. pose proof (info_keeps _ s s1 r1 Hs Ht1 eq_refl) as Hf1.
  assert (update_outcome img (g_flash (sdev s)) (g_flash (sdev s1))) as Hout1 by (left; by rewrite Hf1).
  destruct r1 as [rest|e]; [|by intros [= <- <- <-]].
  apply info_effect in Ht1 as (Hs1 & _ & _ & Hd1 & Hpr & valid & -> & _); [|done].
  rewrite parse_identity by (by apply on_carrier_ok). cbn [di_proto di_page_size di_app_pages].
  change (negb (UPD_PROTO_VERSION =? PROTO_VERSION)) with false. cbn iota.
  destruct (Z.eqb_spec (pi_page_size (s_info (sdev s))) (img_page_size img)) as [Hps|]; cbn [negb orb]; [|by intros [= <- <- <-]].
  destruct (Z.eqb_spec (pi_app_pages (s_info (sdev s))) (img_app_pages img)) as [Hap|]; cbn [negb]; [|by intros [= <- <- <-]].
  unfold sbind at 1, on_session at 1.
  destruct (transact CMD_ERASE_APP ERASE_MAGIC ST_RSP_PAYLOAD s1) as [r2 s2] eqn:Ht2.
  apply transact_asked in Ht2; try done; [|repeat constructor; by vm_compute].
  pose proof (erase_partly (g_flash (sdev s)) s1 s2 r2 Hs1 Ht2 ltac:(by rewrite Hf1)) as Hf2.
  destruct r2 as [r2|e]; [|intros [= <- <- <-]; by left].
  apply erase_effect in Ht2 as (Hs2 & _ & _ & Hi2 & Hp2); [|done|rewrite Hd1, Hps; lia]. rewrite Hd1, Hps, Hap in *.
  unfold sbind at 1, report at 1, sbind at 1. destruct (flash_pages _ _ _ _ _ _) as [r3 [s3 p3]] eqn:Ht3.
  apply pages_outcome in Ht3 as [Hout3 Hs3]; [|done|done|done|unfold fits; by rewrite Hi2|done].
  assert (update_outcome img (g_flash (sdev s)) (g_flash (sdev s3))) as Hout3' by (by right).
  destruct r3 as [[]|e]; [|by intros [= <- <- <-]]. specialize (Hs3 eq_refl).
  unfold sbind, on_session. destruct (transact CMD_VERIFY (verify_payload img) ST_RSP_PAYLOAD s3) as [r4 s4] eqn:Ht4.
  apply transact_asked in Ht4; try done; [|apply verify_payload_bytes].
  pose proof (verify_keeps img _ s3 s4 r4 Hwf Hs3 Ht4 eq_refl) as Hf4.
  destruct r4; intros [= <- <- <-]; by rewrite Hf4.
Qed.

(** C7: an update is atomic. Whatever the carrier loses or corrupts, whenever
    the power fails, and whether the session reports success or not, what it
    leaves in flash is the old contents with some of the front erased, or
    nothing the device would boot, or the new image, complete. (Pages of 32
    bytes at least, so that half of the last one does not reach the footer.) *)
Theorem update_atomic data ps ap img s p r s' p' :
  is_u16 ps -> is_u16 ap -> 32 <= ps -> bytes data -> from_bin data ps ap = Ok img -> on_carrier s ->
  flash progress img (s, p) = (r, (s', p')) -> update_outcome img (g_flash (sdev s)) (g_flash (sdev s')).
Proof.
  intros Hps Hap H32 Hd Himg Hs Hf. apply from_bin_ok_inv in Himg as (Hwf & _ & <- & <-); [|done..].
  by eapply flash_outcome.
Qed.
End atomic.

(** ** A torn update *)
Definition torn_port : port_info := mkPortInfo 32 3 [0x53; 0x49; 0x4D; 0x30] 1.
Definition torn_data : list Z := replicate 40 0x42.
Definition old_flash : list Z := replicate 96 0x17.
(** Power fails during the fifth flash operation, the write of the second page. *)
Definition torn_session : Session Wire :=
  mkSession (mkWire (mkWorld (sim_powercut_after 5 (sim_reset true torn_port old_flash)) (link_init (replicate 255 0)))
    [RequestLost; ReplyLost]) (replicate 64 0).
Definition torn_image : Image := mkImage torn_data 32 3 40 2427012687.
Abbreviation torn_update := (flash (H:=ptr64) no_progress torn_image (torn_session, tt)).

Lemma torn_session_ok : on_carrier (H:=ptr64) torn_session.
Proof.
  split; [|exact sample_slice]. split; [|repeat constructor]. apply sample_world_ok.
  split; [|reflexivity]. split; [by vm_compute|by vm_compute|reflexivity|by apply sample_bytes_dec|by apply sample_bytes_dec|reflexivity].
Qed.

Lemma update_atomic_witness :
  let '(r, (s', p')) := torn_update in
  is_ok r = false /\ g_cut_hit (sdev s') = true /\ update_outcome torn_image old_flash (g_flash (sdev s')).
Proof.
  destruct torn_update as [r [s' p']] eqn:Hf. split_and!.
  - apply (f_equal (fun x => is_ok (fst x))) in Hf. revert Hf. vm_compute. by intros <-.
  - apply (f_equal (fun x => g_cut_hit (sdev (fst (snd x))))) in Hf. revert Hf. vm_compute. by intros <-.
  - pose proof (update_atomic (H:=ptr64) no_progress torn_data 32 3 torn_image torn_session tt r s' p'
      ltac:(lia) ltac:(lia) ltac:(lia) ltac:(apply bytes_replicate; lia) ltac:(by vm_compute) torn_session_ok Hf) as Hout.
    exact Hout.
Defined.
