(* ===== verification/Order.v ===== *)
(** Pages may arrive in any order and may repeat ([docs/PROTOCOL.md], section 7):
    the device under whatever well-meant traffic, page writes of one image in any
    order and number, restarts, questions and noise in between. *)
From S2P Require Import Prelude Errors Frame Image Stream Transport Session Recorded.
From S2P Require Import Device DeviceLink Conformance Carrier Flashing.

(** What a frame does to an update of [img]. *)
Inductive effect := Restart | Page (i : Z) | Nothing.

Inductive does (img : Image) : list Z -> effect -> Prop :=
| does_erase : does img (wire CMD_ERASE_APP ERASE_MAGIC) Restart
| does_page i : 0 <= i < img_app_pages img -> does img (wire CMD_WRITE_PAGE (write_payload img i)) (Page i)
| does_ask cmd payload : is_u8 cmd -> bytes payload -> len payload <= PAYLOAD_MAX ->
    cmd <> CMD_ERASE_APP -> cmd <> CMD_WRITE_PAGE -> cmd <> CMD_BOOT -> does img (wire cmd payload) Nothing
| does_bad_erase payload : bytes payload -> len payload <= PAYLOAD_MAX -> payload <> ERASE_MAGIC ->
    does img (wire CMD_ERASE_APP payload) Nothing
| does_bad_page payload : bytes payload -> len payload <= PAYLOAD_MAX -> len payload <> img_page_size img + 2 ->
    does img (wire CMD_WRITE_PAGE payload) Nothing
| does_no_page i page : is_u16 i -> img_app_pages img <= i -> bytes page -> len page = img_page_size img ->
    does img (wire CMD_WRITE_PAGE (u16_to_le_bytes i ++ page)) Nothing
| does_garbage raw : bytes raw -> 255 < len raw \/ upd_frame_parse raw = None -> does img raw Nothing.

(** The pages written since the last restart, with repeats. *)
Fixpoint pages_since (effects : list effect) (pages : list Z) : list Z :=
  match effects with
  | [] => pages
  | Restart :: effects => pages_since effects []
  | Page i :: effects => pages_since effects (pages ++ [i])
  | Nothing :: effects => pages_since effects pages
  end.

(** One request after another. *)
Fixpoint requests (frames : list (list Z)) (s : Sim) : option (list (list Z) * Sim) :=
  match frames with
  | [] => Some ([], s)
  | f :: frames =>
    '(raw, s) ← sim_request f s;
    '(raws, s) ← requests frames s;
    Some (raw :: raws, s)
  end.

Section order.
Context `{PtrWidth} (img : Image) (Hwf : image_wf img).

(** A device that the image is for, in the middle of the update. *)
Record updating (pages : list Z) (s : Sim) : Prop := {
  ud_ok : sim_ok s;
  ud_uncut : uncut s;
  ud_fits : fits img s;
  ud_programmed : programmed (program img pages (erased (img_page_size img * img_app_pages img))) s;
}.

Lemma ps_bounds : FOOTER_LEN <= img_page_size img <= PAGE_SIZE_MAX.
Proof. apply (wf_page_size _ Hwf). Qed.

(** A request that changes nothing but perhaps the flash. *)
Lemma request_step s cmd payload : sim_ok s -> uncut s -> present s -> cmd <> CMD_BOOT -> bytes payload -> len payload <= PAYLOAD_MAX ->
  exists rsp s', sim_request (wire cmd payload) s = Some (reply cmd rsp, s') /\ handles s cmd payload rsp s'
    /\ sim_ok s' /\ uncut s' /\ present s' /\ s_info s' = s_info s.
Proof.
  intros Hok Hun Hpr Hc Hb Hl.
  destruct (sim_request_frame_reply s cmd payload Hok Hb Hl) as (raw & s' & Hr & Hok' & Hi & _).
  destruct (sim_request_handles s cmd payload raw s') as (rsp & Hh & Hraw & Hj & Hu); [done..|]. specialize (Hu Hun).
  rewrite (proj2 Hu) in Hraw. subst raw. exists rsp, s'. split_and!; try done. unfold present. by rewrite (proj2 Hu), Hj.
Qed.

Lemma unchanged s cmd payload rsp s' : s_erased s = true -> cmd <> CMD_BOOT -> handles s cmd payload rsp s' ->
  (cmd = CMD_ERASE_APP -> payload <> ERASE_MAGIC) ->
  (cmd = CMD_WRITE_PAGE -> forall i page, payload = u16_to_le_bytes i ++ page -> len page = pi_page_size (s_info s) ->
     ~ 0 <= i < pi_app_pages (s_info s)) -> s' = s.
Proof.
  intros He Hb Hh Herase Hwrite. destruct Hh; try done; [by destruct Herase|].
  exfalso. eapply Hwrite; [done|reflexivity|done|done].
Qed.

Lemma restart_step s : sim_ok s -> uncut s -> present s -> fits img s ->
  exists raw s', sim_request (wire CMD_ERASE_APP ERASE_MAGIC) s = Some (raw, s') /\ updating [] s'.
Proof.
  intros Hok Hun Hpr [Hps Hap]. pose proof ps_bounds as Hpsb. change FOOTER_LEN with 16 in Hpsb.
  destruct (request_step s CMD_ERASE_APP ERASE_MAGIC) as (rsp & s' & Hr & Hh & Hok' & Hun' & Hpr' & Hi);
    [done..|repeat constructor; by vm_compute|by vm_compute|].
  apply handles_erase_inv in Hh as (_ & He & Hf). eexists _, s'. split; [done|]. split; try done; [unfold fits; by rewrite Hi|].
  split; [|done|done]. cbn [program fold_left]. rewrite Hf, Hps, Hap by (apply Hun' || lia). done.
Qed.

Lemma does_step s f e pages : updating pages s -> does img f e ->
  exists raw s', sim_request f s = Some (raw, s') /\ updating (pages_since [e] pages) s'.
Proof.
  intros [Hok Hun Hfit [Hf He Hpr]] Hd. pose proof Hfit as [Hps Hap]. pose proof ps_bounds as Hpsb.
  change FOOTER_LEN with 16 in Hpsb. change PAGE_SIZE_MAX with 250 in Hpsb. pose proof (wf_pages _ Hwf) as Hapz.
  assert (forall cmd payload, cmd <> CMD_BOOT -> bytes payload -> len payload <= PAYLOAD_MAX ->
    (forall rsp s', handles s cmd payload rsp s' -> s' = s) ->
    exists raw s', sim_request (wire cmd payload) s = Some (raw, s') /\ updating pages s') as Hkeep.
  { intros cmd payload Hc Hb Hl Hsame. destruct (request_step s cmd payload) as (rsp & s' & Hr & Hh & _); [done..|].
    apply Hsame in Hh as ->. eexists _, s. split; [done|]. by split. }
  destruct Hd as [|i Hi|cmd payload _ Hb Hl Hce Hcw Hcb|payload Hb Hl Hne|payload Hb Hl Hne|i page Hi Hge Hb Hl|raw Hb Hg]; cbn [pages_since].
  - by apply restart_step.
  - pose proof (len_region_page img i Hwf Hi) as Hlp.
    destruct (request_step s CMD_WRITE_PAGE (write_payload img i)) as (rsp & s' & Hr & Hh & Hok' & Hun' & Hpr' & Hinf);
      [done..|by apply bytes_write_payload|rewrite len_write_payload by done; change PAYLOAD_MAX with 252; lia|].
    apply handles_write_inv in Hh as (_ & He' & Hf'); [|done|lia|rewrite Hap; lia|by rewrite Hps|rewrite Hap; lia].
    eexists _, s'. split; [done|]. split; try done; [unfold fits; by rewrite Hinf|]. split; [|done|done].
    rewrite Hf', Hf, Hps by apply Hun'. unfold program. by rewrite fold_left_app.
  - apply Hkeep; try done. intros rsp s' Hh. by refine (unchanged _ _ _ _ _ He _ Hh _ _); [|intros ->|intros ->].
  - apply Hkeep; try done. intros rsp s' Hh. by refine (unchanged _ _ _ _ _ He _ Hh _ _).
  - apply Hkeep; try done. intros rsp s' Hh. refine (unchanged _ _ _ _ _ He _ Hh _ _); [done|done|]. intros _ j page -> Hlj. rewrite len_app, Hlj, Hps in Hne.
    unfold u16_to_le_bytes in Hne. rewrite !len_cons, len_nil in Hne. lia.
  - apply Hkeep; [done|by apply bytes_app; split; [auto with ota|]| |].
    + rewrite len_app, Hl. unfold u16_to_le_bytes. rewrite !len_cons, len_nil. change PAYLOAD_MAX with 252. lia.
    + intros rsp s' Hh. refine (unchanged _ _ _ _ _ He _ Hh _ _); [done|done|]. intros _ j q [Heq _]%app_inj_1 _ Hj; [|done]. rewrite Hap in Hj.
      apply u16_le_inj in Heq; lia.
  - exists (reply (default 0 (head raw)) [ST_BAD_FRAME]), s. split; [by apply sim_request_garbled|by split].
Qed.

Lemma pages_since_app es es' pages : pages_since (es ++ es') pages = pages_since es' (pages_since es pages).
Proof. revert pages. induction es as [|[] es IH]; intros pages; cbn [app pages_since]; auto. Qed.

Lemma requests_does frames effects : Forall2 (does img) frames effects -> forall pages s, updating pages s ->
  exists raws s', requests frames s = Some (raws, s') /\ updating (pages_since effects pages) s'.
Proof.
  induction 1 as [|f e frames effects Hd _ IH]; intros pages s Hs; cbn [requests].
  { by exists [], s. }
  destruct (does_step s f e pages Hs Hd) as (raw & s1 & -> & Hs1). cbn [mbind option_bind].
  destruct (IH _ s1 Hs1) as (raws & s2 & -> & Hs2). cbn [mbind option_bind]. exists (raw :: raws), s2. split; [done|].
  change (e :: effects) with ([e] ++ effects). by rewrite pages_since_app.
Qed.

(** All of the image has come. *)
Lemma complete pages s : updating pages s -> (forall i, i ∈ pages -> 0 <= i < img_app_pages img) ->
  (forall i, 0 <= i < img_app_pages img -> must_write img i = true -> i ∈ pages) ->
  g_flash s = region img
  /\ sim_request (wire CMD_VERIFY (verify_payload img)) s = Some (reply CMD_VERIFY [ST_OK], s)
  /\ sim_request (wire CMD_BOOT []) s = Some (reply CMD_BOOT [ST_OK], port_jump_to_app s).
Proof.
  intros [Hok Hun Hfit [Hf He Hpr]] Hin Hall.
  assert (g_flash s = region img) as Hr.
  { rewrite Hf. apply flash_image_rebuild; [done| |done]. intros i [? ?]%remaining_elem. by apply Hall. }
  split; [done|]. split.
  - destruct (image_u32 img Hwf) as [Hn Hc].
    destruct (request_step s CMD_VERIFY (verify_payload img)) as (rsp & s' & Hreq & Hh & _);
      [done..|by apply verify_payload_bytes|by vm_compute|].
    apply handles_verify_inv in Hh as [-> ->]; [|done..]. rewrite Hreq. do 3 f_equal. pose proof Hwf as [].
    rewrite Hr, len_region by done. change FOOTER_LEN with 16 in *. rewrite !(proj2 (Z.ltb_ge _ _)) by nia. cbn [orb].
    rewrite wf_crc, wf_len, to_nat_len. unfold region. by rewrite take_app_length, Z.eqb_refl.
  - destruct (sim_request_boot s [] Hok Hpr) as [[_ Hb]|[Hnb _]]; [by vm_compute|done|].
    destruct Hnb. rewrite Hr. by apply region_bootable.
Qed.

Lemma pages_since_range frames effects : Forall2 (does img) frames effects -> forall pages,
  (forall i, i ∈ pages -> 0 <= i < img_app_pages img) -> forall i, i ∈ pages_since effects pages -> 0 <= i < img_app_pages img.
Proof.
  induction 1 as [|f e frames effects Hd _ IH]; intros pages Hp; cbn [pages_since]; [done|].
  destruct Hd; cbn [pages_since]; try (by apply IH).
  - apply IH. intros i ?%not_elem_of_nil. done.
  - apply IH. intros j [?| ->%list_elem_of_singleton]%elem_of_app; [by apply Hp|done].
Qed.
End order.

(** C15: pages may come in any order and may repeat. A device is sent an ERASE and
    then anything that means well by one image: its pages in whatever order and
    number, more ERASEs, questions, refused requests and noise. Its flash is
    exactly the pages since the last ERASE over erased flash; and once every page
    that is not all erased flash has come, it is the image, VERIFY says so and
    BOOT enters the application. *)
Theorem pages_any_order `{PtrWidth} data ps ap img s frames effects :
  is_u16 ps -> is_u16 ap -> bytes data -> from_bin data ps ap = Ok img ->
  sim_ok s -> uncut s -> present s -> fits img s -> Forall2 (does img) frames effects ->
  let since := pages_since effects [] in
  exists raws s', requests (wire CMD_ERASE_APP ERASE_MAGIC :: frames) s = Some (raws, s')
    /\ present s' /\ g_flash s' = program img since (erased (ps * ap))
    /\ ((forall i, must_write img i = true -> 0 <= i < ap -> i ∈ since) ->
         g_flash s' = region img
         /\ sim_request (wire CMD_VERIFY (verify_payload img)) s' = Some (reply CMD_VERIFY [ST_OK], s')
         /\ sim_request (wire CMD_BOOT []) s' = Some (reply CMD_BOOT [ST_OK], port_jump_to_app s')).
Proof.
  intros Hps Hap Hd Himg Hok Hun Hpr Hfit Hall since. apply from_bin_ok_inv in Himg as (Hwf & _ & <- & <-); [|done..].
  cbn [requests]. destruct (restart_step img Hwf s Hok Hun Hpr Hfit) as (raw & s1 & -> & Hs1). cbn [mbind option_bind].
  destruct (requests_does img Hwf frames effects Hall [] s1 Hs1) as (raws & s2 & -> & Hs2). cbn [mbind option_bind].
  exists (raw :: raws), s2. pose proof (ud_programmed _ _ _ Hs2) as [Hf _ Hp]. split_and!; try done. intros Hcov.
  apply (complete img Hwf since); [done| |by auto]. apply (pages_since_range img frames effects Hall). intros i ?%not_elem_of_nil. done.
Qed.

(** The last page first, a repeat, a question, noise, and a start over. *)
Definition sample_frames : list (list Z) :=
  [wire CMD_WRITE_PAGE (write_payload sample_image 3); wire CMD_ECHO [1]; wire CMD_ERASE_APP ERASE_MAGIC;
   wire CMD_WRITE_PAGE (write_payload sample_image 3); wire CMD_WRITE_PAGE (write_payload sample_image 2); [7];
   wire CMD_WRITE_PAGE (write_payload sample_image 1); wire CMD_WRITE_PAGE (write_payload sample_image 2);
   wire CMD_WRITE_PAGE (write_payload sample_image 0)].

Lemma sample_frames_do : exists effects, Forall2 (does sample_image) sample_frames effects /\ pages_since effects [] = [3; 2; 1; 2; 0].
Proof.
  exists [Page 3; Nothing; Restart; Page 3; Page 2; Nothing; Page 1; Page 2; Page 0]. split; [|reflexivity].
  unfold sample_frames. repeat (apply Forall2_cons; split); [..|constructor];
    try (apply does_page; by vm_compute); try apply does_erase.
  - apply does_ask; try (by vm_compute). repeat constructor; by vm_compute.
  - apply does_garbage; [repeat constructor; by vm_compute|by right].
Qed.

Lemma pages_any_order_witness : exists raws s', requests (wire CMD_ERASE_APP ERASE_MAGIC :: sample_frames) sample_sim = Some (raws, s')
  /\ g_flash s' = region sample_image
  /\ sim_request (wire CMD_BOOT []) s' = Some (reply CMD_BOOT [ST_OK], port_jump_to_app s').
Proof.
  destruct sample_frames_do as (effects & Hall & Hsince).
  destruct (pages_any_order (H:=ptr64) sample_data 16 4 sample_image sample_sim sample_frames effects
    ltac:(lia) ltac:(lia) sample_bytes ltac:(by vm_compute)
    ltac:(split; [exact sample_wf|reflexivity]) ltac:(by split) eq_refl ltac:(by split) Hall) as (raws & s' & Hr & _ & _ & Hc).
  exists raws, s'. split; [exact Hr|]. destruct Hc as (Hf & _ & Hb); [|by split].
  rewrite Hsince. intros i _ Hi. assert (i = 0 \/ i = 1 \/ i = 2 \/ i = 3) as [->|[->|[->| ->]]] by lia; repeat (apply list_elem_of_here || apply list_elem_of_further).
Defined.
