(* ===== verification/Fsm.v ===== *)
(** The exhaustive sweep of the device's state machine
    ([conformance/tests/fsm_exhaustive.rs]): both states of a session, every
    command byte and seven frames of each, with the table of the status bytes
    the protocol prescribes. [None] is a failed assertion. The sweep is shown
    to return by what [handles] says of a request, for any byte at once. *)
From S2P Require Import Prelude Asserts Errors Frame Image Device DeviceLink Conformance Carrier Flashing Wire EndToEnd Atomic.

Module Fsm.
Inductive State := Fresh | Erased.
Inductive Variant := WellformedEmpty | WellformedMax | BadCrc | LenMismatch | Truncated (k : Z).
#[global] Instance State_eq_dec : EqDecision State.
Proof. solve_decision. Defined.

Definition VARIANTS : list Variant :=
  [WellformedEmpty; WellformedMax; BadCrc; LenMismatch; Truncated 0; Truncated 1; Truncated 2].

Definition parseable (v : Variant) : bool :=
  match v with WellformedEmpty | WellformedMax => true | _ => false end.

Section fsm.
Context `{PtrWidth}.

Definition stimulus (cmd : Z) (v : Variant) : option (list Z) :=
  let buf := replicate 256 0 in
  let wellformed payload := let '(r, buf) := encode cmd payload buf in n ← unwrap r; get_to n buf in
  match v with
  | WellformedEmpty => wellformed []
  | WellformedMax => wellformed (replicate 252 0xA5)
  | BadCrc => f ← wellformed []; last ← last f; Some (take (length f - 1) f ++ [Z.lxor last 0xFF])
  | LenMismatch => let body := [cmd; 5; 0xAA] in Some (body ++ [crc8 body])
  | Truncated k => f ← wellformed []; get_to k f
  end.

Definition expected_status (state : State) (cmd : Z) (v : Variant) : Z :=
  if negb (parseable v) then ST_BAD_FRAME
  else if cmd =? CMD_INFO then ST_OK
  else if cmd =? CMD_ERASE_APP then ST_BAD_MAGIC
  else if cmd =? CMD_WRITE_PAGE then match state with Fresh => ST_NOT_ERASED | Erased => ST_BAD_FRAME end
  else if cmd =? CMD_VERIFY then ST_BAD_FRAME
  else if cmd =? CMD_BOOT then ST_NO_APP
  else if cmd =? CMD_ECHO then match v with WellformedEmpty => ST_OK | _ => ST_BAD_FRAME end
  else ST_BAD_CMD.

Definition enter_state (state : State) (w : World) : option World :=
  let w := Harness.reset false w in
  if decide (state = Erased) then
    let '(r, req) := encode CMD_ERASE_APP ERASE_MAGIC (replicate 8 0) in
    n ← unwrap r;
    req ← get_to n req;
    '(raw, w) ← Harness.request req w;
    rsp ← unwrap (decode raw);
    assert (bool_decide (frame_payload rsp = [ST_OK]));;
    Some w
  else Some w.

(** One cell of the table, from any earlier state of the device. *)
Definition cell (state : State) (cmd : Z) (v : Variant) (w : World) : option World :=
  w ← enter_state state w;
  let before := Harness.flash_snapshot w in
  stim ← stimulus cmd v;
  '(raw, w) ← Harness.request stim w;
  assert (negb (bool_decide (raw = [])));;
  rsp ← unwrap (decode raw);
  padded ← (if len raw <=? 259 then Some (overwrite 0 raw (replicate 259 0xFF)) else None);
  padded_rsp ← unwrap (decode_padded padded);
  assert ((frame_cmd padded_rsp =? frame_cmd rsp) && bool_decide (frame_payload padded_rsp = frame_payload rsp));;
  let expect := expected_status state cmd v in
  st ← head (frame_payload rsp);
  assert (st =? expect);;
  assert (if parseable v then frame_cmd rsp =? Z.lor cmd RSP_FLAG else true);;
  assert (if st =? ST_OK
          then if cmd =? CMD_INFO then len (frame_payload rsp) =? 12
               else if cmd =? CMD_ECHO then bool_decide (frame_payload rsp = [ST_OK]) else false
          else len (frame_payload rsp) =? 1);;
  assert (bool_decide (before = Harness.flash_snapshot w));;
  Some w.

Fixpoint cells (state : State) (todo : list (Z * Variant)) (w : World) : option World :=
  match todo with
  | [] => Some w
  | (cmd, v) :: todo => w ← cell state cmd v w; cells state todo w
  end.
Definition sweep (state : State) (w : World) : option World :=
  cells state (flat_map (fun cmd => (fun v => (cmd, v)) <$> VARIANTS) (seqZ 0 256)) (Harness.acquire w).

(** ** The device of a cell *)
Record fresh_device (state : State) (d : Sim) : Prop := {
  fd_ok : sim_ok d;
  fd_info : s_info d = sim_port_info;
  fd_flash : g_flash d = erased REGION;
  fd_erased : s_erased d = bool_decide (state = Erased);
  fd_present : g_dead d || g_jumped d = false;
  fd_uncut : uncut d;
}.

Lemma stimulus_parseable cmd v : parseable v = true -> exists payload,
  payload = match v with WellformedEmpty => [] | _ => replicate 252 0xA5 end
  /\ stimulus cmd v = Some (wire cmd payload).
Proof.
  intros Hp. destruct v; try done; eexists; (split; [reflexivity|]); unfold stimulus;
    rewrite encode_ok by (by vm_compute); cbn [unwrap mbind option_bind]; apply get_to_wire.
Qed.

Lemma erased_unbootable : ~ bootable (erased REGION).
Proof. apply footer_blank_unbootable, footer_blank_erased. by vm_compute. Qed.

Lemma reset_fresh w : len (g_flash (w_sim w)) = REGION -> fresh_device Fresh (w_sim (Harness.reset false w)).
Proof.
  intros Hl. assert (replicate (length (g_flash (w_sim w))) 0xFF = erased REGION) as He.
  { unfold erased. f_equal. unfold len in Hl. lia. }
  unfold Harness.reset, sim_reset. cbn [w_sim]. rewrite He. split; try done.
  split; [|done]. split; try (by vm_compute).
  - apply sample_bytes_dec. by vm_compute.
  - apply bytes_replicate. lia.
Qed.

Lemma request_reply frame w raw d : sim_request frame (w_sim w) = Some (raw, d) -> len frame <= 65535 -> len raw <= RESP_CAP ->
  Harness.request frame w = Some (raw, mkWorld d (w_link w)).
Proof.
  intros Hr Hf Hl. unfold Harness.request, u16_try_from. zcase; [|lia]. cbn [mbind option_bind]. rewrite Hr.
  cbn [mbind option_bind]. zcase; [lia|done].
Qed.

(** The setup's erase is answered and leaves the flash erased. *)
Lemma erase_setup d : fresh_device Fresh d -> exists d',
  sim_request (wire CMD_ERASE_APP ERASE_MAGIC) d = Some (reply CMD_ERASE_APP [ST_OK], d') /\ fresh_device Erased d'.
Proof.
  intros [Hok Hi Hfl _ Hpr Hun]. assert (bytes ERASE_MAGIC) as Hb by (repeat constructor; by vm_compute).
  destruct (sim_request_frame_reply d CMD_ERASE_APP ERASE_MAGIC) as (raw & d' & Hr & Hok' & Hi' & _); [done|done|by vm_compute|].
  destruct (sim_request_handles d CMD_ERASE_APP ERASE_MAGIC raw d') as (rsp & Hh & -> & Hj & Hu);
    [done|done|done|done|by vm_compute|done|]. specialize (Hu Hun). apply handles_erase_inv in Hh as (-> & He & Hfe).
  rewrite (proj2 Hu) in Hr. exists d'. split; [exact Hr|]. rewrite Hi in *. split; [done|done| |done| |done].
  - apply Hfe; [apply Hu|by vm_compute].
  - by rewrite (proj2 Hu), Hj.
Qed.

Lemma enter_state_fresh state w : len (g_flash (w_sim w)) = REGION ->
  exists w', enter_state state w = Some w' /\ fresh_device state (w_sim w').
Proof.
  intros Hl. pose proof (reset_fresh w Hl) as Hf. unfold enter_state. revert Hf. generalize (Harness.reset false w) as w0. intros w0 Hf.
  destruct state; [by exists w0|]. rewrite decide_True by done. destruct (erase_setup _ Hf) as (d & Hr & Hd).
  rewrite encode_ok by (by vm_compute). cbn [unwrap mbind option_bind]. rewrite get_to_wire. cbn [mbind option_bind].
  rewrite (request_reply _ _ _ _ Hr) by (by vm_compute). cbn [mbind option_bind]. unfold reply.
  rewrite decode_wire by (by vm_compute). cbn [unwrap mbind option_bind frame_payload]. rewrite bool_decide_true by done.
  cbn [assert mbind option_bind]. eexists. split; [reflexivity|exact Hd].
Qed.

Lemma not_a_page index page d {Q : Prop} : pi_page_size (s_info d) = 128 -> len page = pi_page_size (s_info d) ->
  len (u16_to_le_bytes index ++ page) = 0 \/ len (u16_to_le_bytes index ++ page) = 252 -> Q.
Proof. intros Hps Hp. rewrite len_app, Hp, Hps. change (len (u16_to_le_bytes index)) with 2. lia. Qed.

(** The answer to a frame that parses. *)
Lemma cell_answer state d cmd v payload : fresh_device state d -> is_u8 cmd -> parseable v = true ->
  payload = match v with WellformedEmpty => [] | _ => replicate 252 0xA5 end ->
  exists rsp d', sim_request (wire cmd payload) d = Some (reply cmd rsp, d') /\ g_flash d' = g_flash d
    /\ head rsp = Some (expected_status state cmd v)
    /\ (if expected_status state cmd v =? ST_OK
        then if cmd =? CMD_INFO then len rsp = 12 else cmd = CMD_ECHO /\ rsp = [ST_OK]
        else len rsp = 1).
Proof.
  intros [Hok Hi Hfl He Hpr Hun] Hc Hv Hpl. assert (bytes payload) as Hb.
  { subst payload. destruct v; try (by apply bytes_replicate). constructor. }
  assert (len payload = 0 /\ v = WellformedEmpty /\ payload = [] \/ len payload = 252 /\ v = WellformedMax) as Hlp.
  { subst payload. destruct v; try discriminate; [by left|by right]. }
  assert (len payload <= PAYLOAD_MAX) as Hmax by (change PAYLOAD_MAX with 252; lia).
  unfold expected_status. rewrite Hv. cbn [negb]. destruct (Z.eqb_spec cmd CMD_BOOT) as [->|Hnb].
  { destruct (sim_request_boot d payload Hok Hpr Hmax) as [[Hbo _]|[_ Hr]]; [exfalso; rewrite Hfl in Hbo; by apply erased_unbootable|].
    by exists [ST_NO_APP], d. }
  destruct (sim_request_frame_reply d cmd payload Hok Hb Hmax) as (raw & d' & Hr & _).
  destruct (sim_request_handles d cmd payload raw d' Hok Hpr Hnb Hb Hmax Hr) as (rsp & Hh & -> & _ & Hu).
  rewrite (proj2 (Hu Hun)) in Hr. exists rsp, d'. split; [done|].
  assert (len payload = 0 \/ len payload = 252) as Hl by (destruct Hlp as [(? & _)|(? & _)]; auto).
  assert (pi_page_size (s_info d) = 128) as Hps by (by rewrite Hi).
  inversion Hh; subst cmd rsp; try subst d'; try (by destruct Hnb).
  - split; [congruence|]. split; [done|]. cbn -[len identity]. rewrite Hi. by destruct valid.
  - split; [congruence|done].
  - exfalso. subst payload. rewrite <- H3 in Hl. change (len ERASE_MAGIC) with 4 in Hl. lia.
  - split; [congruence|]. rewrite He in *. by destruct state.
  - split; [congruence|]. rewrite He in *. by destruct state.
  - match goal with Hp : u16_to_le_bytes ?x ++ ?page = payload |- _ => rewrite <- Hp in Hl; by apply (not_a_page x page d) end.
  - match goal with Hp : u16_to_le_bytes ?x ++ ?page = payload |- _ => rewrite <- Hp in Hl; by apply (not_a_page x page d) end.
  - split; [congruence|done].
  - exfalso. match goal with Hp : u32_to_le_bytes ?x ++ u32_to_le_bytes ?y = payload |- _ =>
      rewrite <- Hp in Hl; change (len (u32_to_le_bytes x ++ u32_to_le_bytes y)) with 8 in Hl; lia end.
  - split; [done|]. unfold UPD_ECHO_MAX in *. destruct Hlp as [(_ & -> & ->)|(? & _)]; [done|lia].
  - split; [done|]. unfold UPD_ECHO_MAX in *. destruct Hlp as [(? & _)|(_ & ->)]; [lia|done].
  - split; [done|]. unfold CMD_INFO, CMD_ERASE_APP, CMD_WRITE_PAGE, CMD_VERIFY, CMD_ECHO in *.
    match goal with |- context [?c =? 1] => rewrite !(proj2 (Z.eqb_neq c _)) by lia end. done.
Qed.

(** A frame that does not parse. *)
Lemma stimulus_garbled cmd v : v ∈ VARIANTS -> parseable v = false ->
  exists stim, stimulus cmd v = Some stim /\ upd_frame_parse stim = None /\ len stim <= 255.
Proof.
  intros Hv Hp. assert (forall k, stimulus cmd (Truncated k) = get_to k (wire cmd [])) as Htr.
  { intros k. unfold stimulus. rewrite encode_ok by (by vm_compute). cbn [unwrap mbind option_bind]. by rewrite get_to_wire. }
  unfold VARIANTS in Hv. rewrite !elem_of_cons in Hv. destruct Hv as [->|[->|[->|[->|[->|[->|[->|Hv]]]]]]]; try done; [| | | | |by apply elem_of_nil in Hv].
  - unfold stimulus. rewrite encode_ok by (by vm_compute). cbn [unwrap mbind option_bind]. rewrite get_to_wire.
    change (wire cmd []) with ((cmd :: 0 :: []) ++ [crc8 [cmd; 0]]). set (c := crc8 [cmd; 0]). cbn [mbind option_bind].
    rewrite last_snoc. cbn [mbind option_bind]. eexists. split; [reflexivity|]. split; [|by vm_compute].
    change (take (length ([cmd; 0] ++ [c]) - 1) ([cmd; 0] ++ [c])) with [cmd; 0]. rewrite parse_snoc by done. fold c.
    destruct (Z.eqb_spec c (Z.lxor c 255)) as [Hc|]; [|done]. exfalso.
    apply (f_equal (fun x => Z.lxor c x)) in Hc. by rewrite <- Z.lxor_assoc, Z.lxor_nilpotent, Z.lxor_0_l in Hc.
  - eexists. split; [reflexivity|]. split; [|by vm_compute]. unfold upd_frame_parse. reflexivity.
  - rewrite Htr. eexists. split; [reflexivity|done].
  - rewrite Htr. eexists. split; [reflexivity|done].
  - rewrite Htr. eexists. split; [reflexivity|done].
Qed.

(** The device's reply to any cell's frame. *)
Lemma cell_reply state w cmd v : fresh_device state (w_sim w) -> is_u8 cmd -> v ∈ VARIANTS -> exists stim c rsp w',
  stimulus cmd v = Some stim /\ Harness.request stim w = Some (reply c rsp, w')
  /\ g_flash (w_sim w') = g_flash (w_sim w) /\ (parseable v = true -> c = cmd) /\ len rsp <= 12
  /\ head rsp = Some (expected_status state cmd v)
  /\ (if expected_status state cmd v =? ST_OK
      then if cmd =? CMD_INFO then len rsp = 12 else cmd = CMD_ECHO /\ rsp = [ST_OK]
      else len rsp = 1).
Proof.
  intros Hf Hc Hv. destruct (parseable v) eqn:Hp.
  - destruct (stimulus_parseable cmd v Hp) as (payload & Hpl & Hst).
    destruct (cell_answer state (w_sim w) cmd v payload Hf Hc Hp Hpl) as (rsp & d' & Hr & Hfl & Hst' & Hsh).
    assert (len rsp <= 12) as Hl.
    { destruct (_ =? ST_OK); [destruct (cmd =? CMD_INFO); [lia|destruct Hsh as [_ ->]; by vm_compute]|lia]. }
    assert (len payload <= 252) as Hpl' by (subst payload; destruct v; by vm_compute).
    exists (wire cmd payload), cmd, rsp, (mkWorld d' (w_link w)). split_and!; try done.
    apply request_reply; [done|rewrite len_wire; lia|]. rewrite len_reply. change RESP_CAP with 259. lia.
  - destruct (stimulus_garbled cmd v Hv Hp) as (stim & Hst & Hpn & Hl). destruct Hf as [Hok _ _ _ Hpr _].
    pose proof (sim_request_garbled stim (w_sim w) Hok Hpr (or_intror Hpn)) as Hr.
    exists stim, (default 0 (head stim)), [ST_BAD_FRAME], (mkWorld (w_sim w) (w_link w)).
    unfold expected_status. rewrite Hp. cbn [negb]. split_and!; try done.
    apply request_reply; [done|lia|by vm_compute].
Qed.

Lemma pad_raw raw : len raw <= 259 ->
  overwrite 0 raw (replicate 259 0xFF) = raw ++ replicate (259 - length raw) 0xFF.
Proof. intros Hl. by rewrite overwrite_0, drop_replicate. Qed.

Lemma cell_returns state cmd v w : len (g_flash (w_sim w)) = REGION -> is_u8 cmd -> v ∈ VARIANTS ->
  exists w', cell state cmd v w = Some w' /\ len (g_flash (w_sim w')) = REGION.
Proof.
  intros Hl Hc Hv. destruct (enter_state_fresh state w Hl) as (w1 & He & Hf). unfold cell. rewrite He. cbn [mbind option_bind].
  destruct (cell_reply state w1 cmd v Hf Hc Hv) as (stim & c & rsp & w2 & Hst & Hr & Hfl & Hcm & Hrl & Hhd & Hsh).
  rewrite Hst. cbn [mbind option_bind]. rewrite Hr. cbn [mbind option_bind]. unfold reply.
  assert (bool_decide (wire (Z.lor c RSP_FLAG) rsp = []) = false) as -> by (by apply bool_decide_false).
  rewrite decode_wire by (change PAYLOAD_MAX with 252; lia). rewrite len_wire, (proj2 (Z.leb_le _ _)) by lia.
  cbn [assert negb unwrap mbind option_bind frame_cmd frame_payload].
  rewrite pad_raw by (rewrite len_wire; lia). rewrite decode_padded_wire by (change PAYLOAD_MAX with 252; lia).
  cbn [unwrap mbind option_bind frame_cmd frame_payload]. rewrite Z.eqb_refl, bool_decide_true by done. rewrite Hhd.
  cbn [assert andb mbind option_bind]. rewrite Z.eqb_refl. cbn [assert mbind option_bind].
  assert ((if parseable v then Z.lor c RSP_FLAG =? Z.lor cmd RSP_FLAG else true) = true) as ->.
  { destruct (parseable v); [|done]. rewrite (Hcm eq_refl). apply Z.eqb_refl. }
  cbn [assert mbind option_bind]. set (shape := if _ =? ST_OK then _ else _). assert (shape = true) as ->.
  { subst shape. destruct (_ =? ST_OK); [|by apply Z.eqb_eq]. destruct (cmd =? CMD_INFO); [by apply Z.eqb_eq|].
    destruct Hsh as [-> ->]. done. }
  cbn [assert mbind option_bind]. unfold Harness.flash_snapshot. rewrite bool_decide_true by done.
  cbn [assert mbind option_bind]. exists w2. split; [done|]. rewrite Hfl, (fd_flash _ _ Hf). by vm_compute.
Qed.

Lemma cells_return state todo : Forall (fun cv => is_u8 (fst cv) /\ snd cv ∈ VARIANTS) todo -> forall w,
  len (g_flash (w_sim w)) = REGION -> exists w', cells state todo w = Some w' /\ len (g_flash (w_sim w')) = REGION.
Proof.
  induction 1 as [|[cmd v] todo [Hc Hv] _ IH]; intros w Hl; cbn [cells]; [by exists w|].
  destruct (cell_returns state cmd v w Hl Hc Hv) as (w1 & -> & Hl1). by apply IH.
Qed.
End fsm.

(** The status table of the protocol. From whatever the device was left
    as, both sweeps return: in a fresh session and after an erase, each of the
    256 command bytes, in each of seven frames, good and broken, is answered by
    one valid frame with the status the table prescribes, the payload of that
    status only, and the flash untouched. *)
Theorem fsm_exhaustive `{PtrWidth} state w : len (g_flash (w_sim w)) = REGION -> exists w', sweep state w = Some w'.
Proof.
  intros Hl. destruct (cells_return state (flat_map (fun cmd => (fun v => (cmd, v)) <$> VARIANTS) (seqZ 0 256))) with (w := Harness.acquire w)
    as (w' & Hr & _); [| |by exists w'].
  - apply Forall_forall. intros [cmd v] Hin. apply list_elem_of_In, in_flat_map in Hin as (c & Hc & Hv).
    apply list_elem_of_In, elem_of_seqZ in Hc. apply list_elem_of_In, list_elem_of_fmap in Hv as (v' & [= -> ->] & Hv). cbn. split; [lia|done].
  - cbn. unfold len. rewrite length_replicate. exact Hl.
Qed.

Lemma fsm_exhaustive_witness : exists w', sweep (H:=ptr64) Erased (mkWorld (sim_reset false sim_port_info (replicate 4096 0)) (link_init [])) = Some w'.
Proof. apply (fsm_exhaustive (H:=ptr64)). reflexivity. Defined.
End Fsm.
