(* ===== verification/BitBang.v ===== *)
(** The device's bit-banged UART ([device/ports/skeletons/softuart_pump.c]) and
    the host's ([updater-eh/src/softuart.rs]) on one pair of wires, with exact
    time: each hears what the other sends, byte for byte, though their bit times
    differ by a sixth of a percent and neither is told when a byte starts. *)
From S2P Require Import Prelude Errors Frame Image Stream Transport Hal EhSoftUart.
From S2P Require Import Device DeviceLink Pumps Conformance Carrier Flashing Wire EndToEnd.

Definition SOFTUART_BIT_US : Z := 104.
Definition SOFTUART_HALF_BIT_US : Z := SOFTUART_BIT_US / 2.

(** [softuart_pump_ops_t]; sampling may take time. *)
Class SoftPumpOps (W : Type) := {
  pin_tx : bool -> W -> W;
  pin_rx : W -> bool * W;
  delay_us : Z -> W -> W;
}.

Module SoftPump.
Section pump.
Context `{SoftPumpOps W}.

(** [for (i = 0; i < 8; i++)]: LSB first. *)
Fixpoint get_bits (bits : list Z) (v : Z) (w : W) : Z * W :=
  match bits with
  | [] => (v, w)
  | i :: bits =>
      let '(high, w) := pin_rx w in
      get_bits bits (if high then Z.lor v (Z.shiftl 1 i mod 2 ^ 8) else v) (delay_us SOFTUART_BIT_US w)
  end.

(** The bounded wait for mark behind a framing error. *)
Fixpoint await_mark (n : nat) (w : W) : W :=
  match n with
  | O => w
  | S n =>
      let '(high, w) := pin_rx w in
      if high then w else await_mark n (delay_us SOFTUART_HALF_BIT_US w)
  end.

Definition pump_get (w : W) : option Z * W :=
  let '(high, w) := pin_rx w in
  if high then (None, w) else
  let w := delay_us ((SOFTUART_BIT_US + SOFTUART_HALF_BIT_US) mod 2 ^ 16) w in
  let '(v, w) := get_bits (seqZ 0 8) 0 w in
  let '(high, w) := pin_rx w in
  if negb high then (None, await_mark 20 w) else (Some v, w).

Fixpoint put_bits (bits : list Z) (b : Z) (w : W) : W :=
  match bits with
  | [] => w
  | i :: bits => put_bits bits b (delay_us SOFTUART_BIT_US (pin_tx (negb (Z.land (Z.shiftr b i) 1 =? 0)) w))
  end.
Definition pump_put (b : Z) (w : W) : W :=
  let w := delay_us SOFTUART_BIT_US (pin_tx false w) in
  let w := put_bits (seqZ 0 8) b w in
  delay_us SOFTUART_BIT_US (pin_tx true w).

#[global] Instance pump_io : LinkIo W := {|
  get_byte w := Some (pump_get w);
  put_byte b w := Some (pump_put b w);
|}.

Definition softuart_pump_init (w : W) : W := pin_tx true w.
End pump.

(** ** On a line with exact time *)
#[global] Instance line_ops : SoftPumpOps Line := {|
  pin_tx level w := mkLine (ln_now w) (ln_rx w) (ln_tx w ++ [(ln_now w, level)]);
  pin_rx w := (ln_rx w (ln_now w), w);
  delay_us us w := mkLine (ln_now w + 1000 * us) (ln_rx w) (ln_tx w);
|}.
Definition BIT_NS : Z := 1000 * SOFTUART_BIT_US.
Definition FIRST_NS : Z := 1000 * (SOFTUART_BIT_US + SOFTUART_HALF_BIT_US).

(** *** Sending *)
Lemma bit_of b i : 0 <= i -> negb (Z.land (Z.shiftr b i) 1 =? 0) = Z.testbit b i.
Proof.
  intros. rewrite Z.testbit_odd by lia. change 1 with (Z.ones 1) at 1. rewrite Z.land_ones by lia.
  change (2 ^ 1) with 2. rewrite Zmod_odd. by destruct (Z.odd _).
Qed.

Lemma pump_put_line b now rx tx :
  pump_put b (mkLine now rx tx) = mkLine (now + 10 * BIT_NS) rx (tx ++ byte_edges BIT_NS now b).
Proof.
  unfold pump_put. change (seqZ 0 8) with [0; 1; 2; 3; 4; 5; 6; 7].
  cbn [put_bits pin_tx delay_us line_ops ln_now ln_rx ln_tx]. rewrite !bit_of by lia.
  unfold byte_edges. change (seqZ 0 10) with [0; 1; 2; 3; 4; 5; 6; 7; 8; 9]. rewrite <- !app_assoc.
  unfold BIT_NS, SOFTUART_BIT_US. f_equal; [lia|]. cbn [fmap list_fmap app]. unfold slot_8n1.
  f_equal. do 9 (apply (f_equal2 cons); [f_equal; lia|]). do 2 f_equal. lia.
Qed.

Lemma put_all_line bs rx : forall now tx,
  put_all bs (mkLine now rx tx) = Some (mkLine (now + 10 * len bs * BIT_NS) rx (tx ++ all_edges BIT_NS now bs)).
Proof.
  induction bs as [|b bs IH]; intros now tx; cbn [put_all all_edges].
  { change (len []) with 0. by rewrite app_nil_r, Z.add_0_r. }
  cbn [put_byte pump_io mbind option_bind]. rewrite pump_put_line, IH, len_cons, <- app_assoc.
  do 2 f_equal. lia.
Qed.

(** *** Hearing *)

(** The sampling plan works out for a sender's bit time [B] when the edge is
    found less than [I] ns late. *)
Definition pump_timing (B I : Z) : Prop :=
  1 <= I /\ forall k, 0 <= k <= 8 ->
    (k + 1) * B <= FIRST_NS + k * BIT_NS /\ I - 1 + FIRST_NS + k * BIT_NS < (k + 2) * B.

(** The budget in the pump's header: against a sender whose clock is 4% off
    either way, 10 microseconds of latency; against the host's adapter, 52. *)
Lemma timing_worst_clocks B : 99840 <= B <= 108160 -> pump_timing B 10000.
Proof.
  unfold pump_timing. change FIRST_NS with 156000. change BIT_NS with 104000. intros. split; [lia|]. intros k Hk. split; nia.
Qed.
Lemma timing_host I : 1 <= I <= 52000 -> pump_timing SOFTUART_BIT_NS I.
Proof.
  unfold pump_timing, SOFTUART_BIT_NS. change FIRST_NS with 156000. change BIT_NS with 104000.
  intros. split; [lia|]. intros k Hk. split; nia.
Qed.

Section hear.
Context (rx : Z -> bool) (tx : list (Z * bool)).
Abbreviation at_ x := (mkLine x rx tx).

Lemma get_bits_line b n : forall k acc now, 0 <= k ->
  (forall i, 0 <= i < Z.of_nat n -> rx (now + i * BIT_NS) = Z.testbit b (k + i)) -> k + Z.of_nat n <= 8 ->
  get_bits (seqZ k (Z.of_nat n)) acc (at_ now)
    = (fold_left (or_bit b) (seqZ k (Z.of_nat n)) acc, at_ (now + Z.of_nat n * BIT_NS)).
Proof.
  induction n as [|n IH]; intros k acc now Hk Hrx Hn.
  { rewrite seqZ_nil by lia. cbn [get_bits fold_left]. by rewrite Z.add_0_r. }
  rewrite seqZ_cons by lia. replace (Z.pred (Z.of_nat (S n))) with (Z.of_nat n) by lia.
  cbn [get_bits fold_left pin_rx delay_us line_ops ln_rx ln_now ln_tx].
  pose proof (Hrx 0 ltac:(lia)) as H0. rewrite Z.add_0_r, Z.add_0_r in H0. rewrite H0. fold BIT_NS.
  rewrite IH; [|lia| |lia].
  - assert (or_bit b acc k = if Z.testbit b k then Z.lor acc (Z.shiftl 1 k mod 2 ^ 8) else acc) as ->.
    { unfold or_bit, u8_wrapping_shl. by rewrite (Z.mod_small k) by lia. }
    f_equal. f_equal. lia.
  - intros i Hi. replace (Z.succ k + i) with (k + (i + 1)) by lia. rewrite <- Hrx by lia. f_equal. lia.
Qed.

Lemma pump_get_mark now : rx now = true -> pump_get (at_ now) = (None, at_ now).
Proof. intros Hm. unfold pump_get. cbn [pin_rx line_ops ln_rx ln_now]. by rewrite Hm. Qed.

Lemma pump_get_line B I b s d : pump_timing B I -> is_u8 b -> 0 <= d < I ->
  (forall x, 0 <= x < 10 * B -> rx (s + x) = slot_8n1 b (x / B)) -> rx (s + d) = false ->
  pump_get (at_ (s + d)) = (Some b, at_ (s + d + FIRST_NS + 8 * BIT_NS))
  /\ s + 9 * B <= s + d + FIRST_NS + 8 * BIT_NS < s + 10 * B.
Proof.
  intros [HI Ht] Hb Hd Hrx Hlow.
  assert (forall k, 0 <= k <= 8 -> rx (s + d + FIRST_NS + k * BIT_NS) = slot_8n1 b (k + 1)) as Hslot.
  { intros k Hk. destruct (Ht k Hk) as [Hlo Hhi]. pose proof (Ht 0 ltac:(lia)).
    replace (s + d + FIRST_NS + k * BIT_NS) with (s + (d + FIRST_NS + k * BIT_NS)) by lia.
    rewrite Hrx by nia. f_equal. symmetry. apply (Z.div_unique _ _ _ (d + FIRST_NS + k * BIT_NS - (k + 1) * B)); lia. }
  split; [|destruct (Ht 8 ltac:(lia)); lia].
  unfold pump_get. cbn [pin_rx line_ops ln_rx ln_now delay_us ln_tx]. rewrite Hlow.
  change (1000 * ((SOFTUART_BIT_US + SOFTUART_HALF_BIT_US) mod 2 ^ 16)) with FIRST_NS.
  change (seqZ 0 8) with (seqZ 0 (Z.of_nat 8)). rewrite (get_bits_line b); [|lia| |lia].
  - change (Z.of_nat 8) with 8. rewrite or_bits_u8 by done. cbn [pin_rx line_ops ln_rx ln_now].
    rewrite Hslot by lia. by vm_compute.
  - intros i Hi. rewrite Hslot by lia. unfold slot_8n1. rewrite (proj2 (Z.eqb_neq _ _)), (proj2 (Z.leb_le _ _)) by lia.
    f_equal. lia.
Qed.

(** A main loop that returns to [link_poll] within [gap] nanoseconds. On such a
    line a poll never finds more than one byte. *)
Fixpoint listen (turns : nat) (gap : Z) (l : link_t) (w : Line) : option (upd_frame * (link_t * Line)) :=
  match turns with
  | O => None
  | S turns =>
    '(r, (l, w)) ← link_poll_io 2 l w;
    match r with
    | Some req => Some (req, (l, w))
    | None => listen turns gap l (mkLine (ln_now w + gap) (ln_rx w) (ln_tx w))
    end
  end.

Lemma listen_mark turns gap l now : rx now = true ->
  listen (S turns) gap l (at_ now) = listen turns gap l (at_ (now + gap)).
Proof. intros Hm. cbn [listen link_poll_io get_byte pump_io]. by rewrite pump_get_mark. Qed.

Lemma listen_byte turns gap l now b at_stop : pump_get (at_ now) = (Some b, at_ at_stop) -> rx at_stop = true ->
  listen (S turns) gap l (at_ now) =
    '(r, l) ← link_byte l b;
    match r with
    | Some req => Some (req, (l, at_ at_stop))
    | None => listen turns gap l (at_ (at_stop + gap))
    end.
Proof.
  intros Hg Hm. cbn [listen link_poll_io get_byte pump_io]. rewrite Hg. cbn [mbind option_bind].
  destruct (link_byte l b) as [[[req|] l1]|]; cbn [mbind option_bind]; [done| |done]. by rewrite pump_get_mark.
Qed.

Lemma listen_hunts gap l s : 1 <= gap -> forall k now, s - now <= Z.of_nat k -> now < s + gap ->
  (forall x, now <= x < s -> rx x = true) ->
  exists n d, 0 <= d < gap /\ forall turns, listen (n + turns) gap l (at_ now) = listen turns gap l (at_ (s + d)).
Proof.
  intros Hg. induction k as [|k IH]; intros now Hk Hs Hm.
  { exists 0%nat, (now - s). split; [lia|]. intros turns. by replace (s + (now - s)) with now by lia. }
  destruct (decide (s <= now)) as [|Hlt]; [|apply Z.nle_gt in Hlt].
  { exists 0%nat, (now - s). split; [lia|]. intros turns. by replace (s + (now - s)) with now by lia. }
  destruct (IH (now + gap)) as (n & d & Hd & Hl); [lia|lia|intros; apply Hm; lia|].
  exists (S n), d. split; [done|]. intros turns. cbn [Nat.add]. rewrite listen_mark by (apply Hm; lia). apply Hl.
Qed.

(** The bytes of a waveform reach the link, and the frame they end in is there
    before its last byte is over. *)
Lemma listen_finds B gap tr : pump_timing B gap -> forall l from now req l' rest,
  carries B rx from tr -> (forall x, now <= x < from -> rx x = true) -> now < from + gap ->
  Forall (fun '(_, b) => is_u8 b) tr -> link_poll (snd <$> tr) l = Some (Some req, (l', rest)) ->
  exists turns s at_stop, listen turns gap l (at_ now) = Some (req, (l', at_ at_stop))
    /\ s ∈ fst <$> tr /\ s + 9 * B <= at_stop < s + 10 * B.
Proof.
  intros Ht. pose proof Ht as [Hg Hk]. pose proof (Hk 0 ltac:(lia)) as [HB1 HB2].
  induction tr as [|[s b] tr IH]; intros l from now req l' rest Hc Hm Hn Hb; [done|].
  cbn [fmap list_fmap snd fst]. fold (fmap (M:=list) (snd (A:=Z) (B:=Z))). fold (fmap (M:=list) (fst (A:=Z) (B:=Z))).
  destruct Hc as (Hfrom & Hmark & Hwave & Hc). apply Forall_cons in Hb as [Hb Hbs]. cbn [link_poll].
  destruct (link_byte l b) as [[r l1]|] eqn:Hlb; cbn [mbind option_bind]; [|done]. intros Hp.
  destruct (listen_hunts gap l s Hg (Z.to_nat (s - now)) now) as (n & d & Hd & Hh); [lia|lia| |].
  { intros x Hx. destruct (decide (x < from)); [apply Hm; lia|apply Hmark; lia]. }
  assert (rx (s + d) = false) as Hlow by (rewrite Hwave by lia; by rewrite Z.div_small by lia).
  destruct (pump_get_line B gap b s d) as [Hget Hstop]; [done..|].
  set (at_stop := s + d + FIRST_NS + 8 * BIT_NS) in *.
  assert (forall x, s + 9 * B <= x < s + 10 * B -> rx x = true) as Hslot.
  { intros x Hx. replace x with (s + (x - s)) by lia. rewrite Hwave by lia.
    replace ((x - s) / B) with 9 by (apply (Z.div_unique _ _ _ (x - s - 9 * B)); lia). done. }
  destruct r as [req1|].
  - injection Hp as <- <- <-. exists (n + 1)%nat, s, at_stop. rewrite Hh, (listen_byte _ _ _ _ _ _ Hget), Hlb by (by apply Hslot).
    split_and!; [done|by left|lia..].
  - destruct (IH l1 (s + 10 * B) (at_stop + gap) req l' rest) as (turns & s' & stop' & Hl & Hin & Hs');
      try done; try lia; [intros; apply Hslot; lia|].
    exists (n + S turns)%nat, s', stop'. rewrite Hh, (listen_byte _ _ _ _ _ _ Hget), Hlb by (by apply Hslot).
    split_and!; [done|by right|lia..].
Qed.
End hear.

(** ** Both directions *)
Section round_trip.
Context `{PtrWidth}.

(** A link that hunts hears a frame that fits it. *)
Lemma link_hears l cmd payload : link_inv l -> link_abs l = Hunting -> len payload + FRAME_OVERHEAD <= len (l_buf l) ->
  is_u8 cmd -> bytes payload -> len payload <= PAYLOAD_MAX ->
  exists l' rest, link_poll (SYNC :: wire cmd payload) l
    = Some (Some (mkUpdFrame cmd (len payload) payload), (l', rest)).
Proof.
  intros Hl Hh Hfit Hc Hp Hm. pose proof Hm as Hm'. change PAYLOAD_MAX with 252 in Hm'.
  assert (bytes (SYNC :: wire cmd payload)) as Hb.
  { apply bytes_cons. split; [by unfold SYNC|]. by apply wire_bytes; [..|lia]. }
  destruct (link_poll_spec (SYNC :: wire cmd payload) l Hl Hb) as (r & l' & rest & Hr & Hl' & _ & _ & Hspec).
  cbv zeta in Hspec. rewrite Hh in Hspec.
  assert (scan_feed (len (l_buf l)) Hunting (SYNC :: wire cmd payload) = [wire cmd payload]) as Hone.
  { rewrite (scan_feed_frames (len (l_buf l)) (S (length (wire cmd payload)))) by (done || simpl; lia).
    pose proof (stream_frames_wire (len (l_buf l)) (length (wire cmd payload)) cmd payload []) as Hs.
    rewrite app_nil_r in Hs. rewrite Hs by done. by destruct (length (wire cmd payload)). }
  destruct r as [req|].
  - destruct Hspec as ((_ & _ & _ & Hu) & _ & _ & Hf). specialize (Hf []). rewrite app_nil_r, Hone in Hf.
    apply (f_equal head) in Hf. cbn [head] in Hf. apply (inj Some) in Hf. exists l', rest. rewrite Hr. do 2 f_equal.
    pose proof (parse_wire cmd payload) as Hpw. rewrite Hf in Hpw. unfold frame_of in Hpw. rewrite parse_wire, <- Hu in Hpw.
    destruct req; cbn in *. congruence.
  - destruct Hspec as [_ Hf]. specialize (Hf []). rewrite app_nil_r, Hone in Hf. done.
Qed.

Lemma wire_sync_bytes cmd payload : is_u8 cmd -> bytes payload -> len payload <= PAYLOAD_MAX ->
  bytes (SYNC :: wire cmd payload).
Proof.
  intros Hc Hp Hm. change PAYLOAD_MAX with 252 in Hm. apply bytes_cons. split; [by unfold SYNC|]. by apply wire_bytes; [..|lia].
Qed.
Lemma starts_end B bs : 0 < B -> forall s x, x ∈ fst <$> starts B s bs -> x + 10 * B <= s + 10 * len bs * B.
Proof.
  intros HB. induction bs as [|b bs IH]; intros s x; cbn [starts fmap list_fmap fst]; [by intros ?%elem_of_nil|].
  rewrite len_cons. pose proof (len_nonneg bs). intros [->|Hin]%elem_of_cons; [nia|]. apply IH in Hin. lia.
Qed.

Lemma carries_later B rx from from' tr : carries B rx from tr -> from' <= from -> (forall x, from' <= x < from -> rx x = true) ->
  carries B rx from' tr.
Proof.
  destruct tr as [|[s b] tr]; [done|]. intros (Hs & Hm & Hw & Hc) Hle Hf. split_and!; [lia| |done|done].
  intros x Hx. destruct (decide (x < from)); [apply Hf; lia|apply Hm; lia].
Qed.

Lemma starts_within B bs bound : 0 < B -> 10 * len bs * B <= bound ->
  forall s, Forall (fun '(x, _) => x <= s + bound) (starts B s bs).
Proof.
  intros HB Hb s. apply Forall_forall. intros [x b] Hin. apply (list_elem_of_fmap_2 fst) in Hin. cbn [fst] in Hin.
  apply starts_end in Hin; lia.
Qed.

(** What the pump sends, the adapter hears. *)
Lemma host_hears now rx tx pa ivl sl req rsp cmd q answer_at :
  let t := mkSoft (mkLine now rx tx) pa ivl sl in
  let sent := now + (11 + 10 * len req) * SOFTUART_BIT_NS in
  soft_ok t -> timing BIT_NS ivl -> slice rsp -> is_u8 cmd -> bytes q -> len q <= 17 -> len q + 3 <= len rsp ->
  sent <= answer_at -> answer_at + 220 * BIT_NS - sent <= (pa - 1) * ivl ->
  rx = level_at (all_edges BIT_NS answer_at (link_send (wire cmd q))) ->
  exists t' rsp', request t req rsp = (Ok (E:=SoftUartTransportError Empty_set Empty_set) (len q + 3), (t', rsp'))
    /\ take (length (wire cmd q)) rsp' = wire cmd q.
Proof.
  intros t sent Hok Ht Hs Hc Hq Hlq Hfit Hat Hbud Hrx. pose proof (len_wire cmd q) as Hlw. pose proof (len_nonneg q).
  assert (0 < BIT_NS) as HB by (by vm_compute).
  apply (soft_request_receives t req rsp BIT_NS (starts BIT_NS answer_at (link_send (wire cmd q))) (answer_at + 220 * BIT_NS) [] cmd q);
    [exact Hok|exact Hs|exact Ht| |apply starts_bytes| |exact Hbud|constructor|exact Hc|exact Hq|constructor| | |exact Hfit].
  - cbn [t soft_hal ln_rx ln_now]. subst rx. apply carries_later with (from := answer_at); [|exact Hat|].
    + by apply (level_all BIT_NS HB (link_send (wire cmd q)) []).
    + intros x Hx. unfold level_at. apply level_from_later. eapply Forall_impl; [by apply all_edges_after|]. cbn. lia.
  - apply starts_within; [done|]. unfold link_send. rewrite len_cons. nia.
  - destruct Hok as [_ ?]. change (len []) with 0. lia.
  - change PAYLOAD_MAX with 252. lia.
Qed.

(** C36: The bit-banged wire is a wire. A host whose bit-banged adapter sends a
    request, and a device in its main loop that polls at least every 52
    microseconds: the device hears exactly that request, before its last stop
    bit is over, whatever the phase of its polls. Whenever after that the device
    has handled it and sends its answer through its pump, within the adapter's
    poll budget, the adapter returns that answer; the session understands it. *)
Theorem softuart_round_trip (t : SoftUartTransport Line) cmd payload rsp (l : link_t) gap d dtx start answer_at :
  let now := ln_now (soft_hal t) in
  let req := wire cmd payload in
  let sent := now + (11 + 10 * len req) * SOFTUART_BIT_NS in
  soft_ok t -> timing BIT_NS (soft_poll_interval_ns t) -> slice rsp -> answer_max cmd payload + 3 <= len rsp ->
  is_u8 cmd -> bytes payload -> len payload <= PAYLOAD_MAX ->
  link_inv l -> link_abs l = Hunting -> len payload + FRAME_OVERHEAD <= len (l_buf l) -> 1 <= gap <= 52000 ->
  now <= start <= now + SOFTUART_BIT_NS -> sim_ok d -> sent <= answer_at ->
  answer_at + 220 * BIT_NS - sent <= (soft_poll_attempts t - 1) * soft_poll_interval_ns t ->
  (exists edges turns heard_at l', soft_send (TE:=Empty_set) (RE:=Empty_set) req (soft_hal t)
       = (Ok tt, mkLine sent (ln_rx (soft_hal t)) (ln_tx (soft_hal t) ++ edges))
     /\ let mosi := level_at (ln_tx (soft_hal t) ++ edges) in
        listen turns gap l (mkLine start mosi dtx)
          = Some (mkUpdFrame cmd (len payload) payload, (l', mkLine heard_at mosi dtx))
        /\ heard_at < sent)
  /\ exists raw d', sim_request req d = Some (raw, d')
    /\ (raw <> [] -> forall rx, exists edges at_end, link_send_io raw (mkLine answer_at rx [])
           = Some (mkLine at_end rx edges)
       /\ (ln_rx (soft_hal t) = level_at edges ->
           exists t' rsp', request t req rsp
               = (Ok (E:=SoftUartTransportError Empty_set Empty_set) (len raw), (t', rsp'))
             /\ take (length raw) rsp' = raw /\ understood (E:=SoftUartTransportError Empty_set Empty_set) cmd req raw (Ok (len raw)) rsp')).
Proof.
  intros now req sent Hok Ht Hs Hfit Hc Hp Hm Hl Hh Hcap Hgap Hstart Hd Hat Hbud.
  destruct t as [[now0 rx tx] pa ivl sl]. cbn [soft_hal ln_now ln_rx ln_tx soft_poll_attempts soft_poll_interval_ns] in *. subst now.
  split.
  - destruct (soft_send_waveform req now0 rx tx) as (edges & Hsend & Hmark & Hcar & Hst).
    destruct (link_hears l cmd payload) as (l' & rest & Hlp); [done..|]. fold req in Hlp. rewrite <- Hst in Hlp.
    destruct (listen_finds (level_at (tx ++ edges)) dtx SOFTUART_BIT_NS gap _ (timing_host gap Hgap) l (now0 + SOFTUART_BIT_NS)
      start (mkUpdFrame cmd (len payload) payload) l' rest Hcar) as (turns & s & heard & Hli & Hin & Hhs); [intros; apply Hmark; lia|lia| |exact Hlp|].
    { pose proof (wire_sync_bytes cmd payload Hc Hp Hm) as Hb. fold req in Hb. rewrite <- Hst in Hb. apply Forall_fmap in Hb.
      eapply Forall_impl; [exact Hb|]. by intros []. }
    exists edges, turns, heard, l'. split_and!; [exact Hsend|exact Hli|].
    apply starts_end in Hin; [|by vm_compute]. rewrite len_cons in Hin. subst sent. lia.
  - destruct (frame_answer d cmd payload) as (raw & d' & Hreq & _ & _ & Hraw); [done..|]. exists raw, d'. split; [done|].
    intros Hne rx1. destruct Hraw as [->|(q & -> & Hqb & Hq & Hqm)]; [done|].
    pose proof (put_all_line (link_send (reply cmd q)) rx1 answer_at []) as Hput. rewrite <- link_send_io_puts in Hput.
    eexists _, _. split; [exact Hput|]. cbn [app]. intros Hrx. rewrite (len_reply cmd q).
    destruct (host_hears now0 rx tx pa ivl sl req rsp (Z.lor cmd RSP_FLAG) q answer_at Hok Ht Hs) as (t' & rsp' & Hr & Hf);
      [by apply lor_u8|exact Hqb|lia|lia|exact Hat|exact Hbud|exact Hrx|].
    exists t', rsp'. split_and!; [exact Hr|exact Hf|]. by apply front_understood; [lia|].
Qed.
End round_trip.

(** INFO: the device polls every 20 microseconds and takes a millisecond to
    answer. *)
Definition info_reply : list Z := reply CMD_INFO (ST_OK :: identity (s_info sample_sim) true).
Definition late_by_1ms : Z := 41 * SOFTUART_BIT_NS + 1000000.
Definition host_ear : SoftUartTransport Line :=
  soft_new (mkLine 0 (level_at (all_edges BIT_NS late_by_1ms (link_send info_reply))) []).

Lemma softuart_round_trip_witness :
  (exists edges turns heard_at l',
     listen turns 20000 (link_init (replicate 255 0)) (mkLine 7 (level_at edges) [])
       = Some (mkUpdFrame CMD_INFO 0 [], (l', mkLine heard_at (level_at edges) [])))
  /\ exists t' rsp', request host_ear (wire CMD_INFO []) (replicate 64 0)
       = (Ok (E:=SoftUartTransportError Empty_set Empty_set) (len info_reply), (t', rsp'))
     /\ take (length info_reply) rsp' = info_reply.
Proof.
  destruct (softuart_round_trip (H:=ptr64) host_ear CMD_INFO [] (replicate 64 0) (link_init (replicate 255 0)) 20000
    sample_sim [] 7 late_by_1ms) as [(edges & turns & heard & l' & _ & Hl & _) (raw & d' & Hr & Ha)].
  - split; split; by vm_compute.
  - apply timing_default. by vm_compute.
  - exact sample_slice.
  - by vm_compute.
  - by vm_compute.
  - constructor.
  - by vm_compute.
  - exact sample_link_inv.
  - reflexivity.
  - by vm_compute.
  - lia.
  - split; by vm_compute.
  - split; [exact sample_wf|reflexivity].
  - by vm_compute.
  - by vm_compute.
  - split; [by exists edges, turns, heard, l'|].
    assert (sim_request (wire CMD_INFO []) sample_sim = Some (info_reply, sample_sim)) as Hi by (vm_compute; reflexivity).
    assert (raw = info_reply) as -> by congruence.
    destruct (Ha ltac:(done) (fun _ => true)) as (sent & at_end & Hput & Hback).
    rewrite link_send_io_puts, put_all_line in Hput. injection Hput as _ <-.
    destruct (Hback eq_refl) as (t' & rsp' & Hreq & Htk & _). exists t', rsp'. split; [exact Hreq|exact Htk].
Defined.
End SoftPump.
