(* ===== verification/SerialLine.v ===== *)
(** The device on a serial line with latency: bytes written reach its stream
    loop ([link_stream.c] over the simulated port), what it sends waits in the
    line until the port's reads have come up empty often enough, and is
    delivered in order. Of a request the device may receive other bytes, the
    sync byte's place included, and of an answer the host may receive none or
    other bytes. Nothing discards what is still on its way when a request is
    given up on. While everything that comes is in time, no noise makes a frame
    and none leaves the device inside one, the UART adapter on the line is a
    carrier; otherwise two things go wrong, which are run at the end. *)
From stdpp Require Import relations.
From S2P Require Import Prelude Errors Frame Image Stream Transport Session Recorded Hal EhUart.
From S2P Require Import Device DeviceLink Conformance Carrier Flashing Wire EndToEnd.

(** ** The line *)

(** What the device receives of a request: the sync byte and the frame, or one
    byte [i] of the frame changed by [x], or other bytes in place of the sync
    byte and in place of the frame. *)
Inductive Noise :=
| Clean
| Flipped (i : nat) (x : Z)
| Garbled (sync frame : list Z).

(** What the host receives for an answer: nothing, or what the device sent, or
    other bytes; and how long they take beyond what the device takes. *)
Inductive Hearing :=
| NoAnswer
| After (n : nat)
| Distorted (n : nat) (raw : list Z).

(** What happens to one request and its answer. *)
Record Passage := mkPassage { ps_noise : Noise; ps_answer : Hearing }.
Definition calm : Passage := mkPassage Clean (After 0%nat).

Definition ps_delay (p : Passage) : nat :=
  match ps_answer p with NoAnswer => 0%nat | After n | Distorted n _ => n end.
Definition sync_of (p : Passage) : list Z := match ps_noise p with Garbled sync _ => sync | _ => [SYNC] end.
Definition noisy (p : Passage) (req : list Z) : list Z :=
  match ps_noise p with
  | Clean => req
  | Flipped i x => alter (Z.lxor x) i req
  | Garbled _ frame => frame
  end.

Record Line := mkLine {
  ln_world : World;
  ln_plan : list Passage;
  ln_incoming : list (nat * list Z);
}.

(** How many empty reads the device takes over a request. *)
Class LinePace := empty_reads : list Z -> nat.

Section line.
Context `{LinePace, PtrWidth}.

(** What comes for an answer, if anything, and the empty reads before it. *)
Definition queued (p : Passage) (req out : list Z) : list (nat * list Z) :=
  let bs := match ps_answer p with NoAnswer => [] | After _ => out | Distorted _ raw => raw end in
  match bs with
  | [] => []
  | _ => [((ps_delay p + empty_reads req)%nat, bs)]
  end.

Definition next_passage (plan : list Passage) : Passage := default calm (head plan).

(** The port writes the sync byte first; the passage ahead is for it and for the
    frame that follows. *)
Definition line_write (bs : list Z) (w : Line) : result unit unit * Line :=
  let p := next_passage (ln_plan w) in
  if decide (bs = [SYNC]) then
    match Harness.request_stream (sync_of p) (ln_world w) with
    | Some (out, world) => (Ok tt, mkLine world (ln_plan w) (ln_incoming w ++ queued calm bs out))
    | None => (Err tt, w)
    end
  else
    match Harness.request_stream (noisy p bs) (ln_world w) with
    | Some (out, world) => (Ok tt, mkLine world (tail (ln_plan w)) (ln_incoming w ++ queued p bs out))
    | None => (Err tt, w)
    end.

Definition line_read (chunk : list Z) (w : Line) : result Z unit * (list Z * Line) :=
  match ln_incoming w with
  | [] => (Ok 0, (chunk, w))
  | (S n, out) :: rest => (Ok 0, (chunk, mkLine (ln_world w) (ln_plan w) ((n, out) :: rest)))
  | (O, out) :: rest =>
      let bs := take (length chunk) out in
      let rest := if decide (drop (length chunk) out = []) then rest else (0%nat, drop (length chunk) out) :: rest in
      (Ok (len bs), (zip_write chunk bs, mkLine (ln_world w) (ln_plan w) rest))
  end.

#[global] Instance line_serial : Serial Line unit := {|
  io_write_all := line_write;
  io_flush w := (Ok tt, w);
  io_read := line_read;
|}.

(** ** What the device reads *)

(** Where a scanner is after some bytes. *)
Fixpoint scan_end (cap : Z) (st : scan_state) (bs : list Z) : scan_state :=
  match bs with [] => st | b :: bs => scan_end cap (snd (scan_step cap st b)) bs end.

(** A link between frames: it goes on as a fresh one. *)
Definition fresh (l : link_t) : Prop := forall more, bytes more ->
  scan_feed (len (l_buf l)) (link_abs l) more = scan_feed (len (l_buf l)) Hunting more.

(** The bytes make the frames [frames], and nothing is left. *)
Definition makes (bs : list Z) (frames : list (list Z)) : Prop := forall more, bytes more ->
  scan_feed 255 Hunting (bs ++ more) = frames ++ scan_feed 255 Hunting more.

(** Nowhere in the bytes is there a sync byte with a frame behind it. *)
Definition opens_frame (bs : list Z) : bool :=
  match bs !! 1%nat with
  | Some d => is_ok (decode (take (Z.to_nat (d + FRAME_OVERHEAD)) bs))
  | None => false
  end.
Fixpoint frameless (bs : list Z) : bool :=
  match bs with
  | [] => true
  | b :: bs => negb ((b =? SYNC) && opens_frame bs) && frameless bs
  end.

(** The damage that is covered is the damage the format detects and from which
    the device's scanner recovers: a wrong byte that is not the length
    ([makes_garbled]), or bytes in which the device finds no frame and after
    which it is waiting for a sync byte again; for an answer, bytes in which,
    with the idle line behind them, there is no frame. *)
Definition noise_ok (n : Noise) : Prop :=
  match n with
  | Clean => True
  | Flipped i x => is_u8 x /\ x <> 0 /\ i <> 1%nat
  | Garbled sync frame => bytes (sync ++ frame) /\ len (sync ++ frame) <= 65535
      /\ scan_feed 255 Hunting (sync ++ frame) = [] /\ scan_end 255 Hunting (sync ++ frame) = Hunting
  end.
Definition hearing_ok (h : Hearing) : Prop :=
  match h with
  | Distorted _ raw => bytes raw /\ forall k, frameless (raw ++ replicate k 0) = true
  | _ => True
  end.
Definition passage_ok (p : Passage) : Prop := noise_ok (ps_noise p) /\ hearing_ok (ps_answer p).

Record line_ok (w : Line) : Prop := {
  lo_world : world_ok (ln_world w);
  lo_link : present (w_sim (ln_world w)) -> fresh (w_link (ln_world w));
  lo_plan : Forall passage_ok (ln_plan w);
  lo_incoming : ln_incoming w = [];
}.

End line.

Section reading.
Context `{PtrWidth}.

Lemma scan_feed_app cap a b : forall st,
  scan_feed cap st (a ++ b) = scan_feed cap st a ++ scan_feed cap (scan_end cap st a) b.
Proof.
  induction a as [|x a IH]; intros st; [done|]. cbn [app scan_feed scan_end].
  destruct st as [|acc], (scan_step _ _ x) as [[] st']; cbn [snd]; by rewrite IH.
Qed.
(** Noise that ends where it began is skipped. *)
Lemma makes_noise bs : scan_feed 255 Hunting bs = [] -> scan_end 255 Hunting bs = Hunting -> makes bs [].
Proof. intros Hf He more _. by rewrite scan_feed_app, Hf, He. Qed.
Lemma makes_prefix a b : makes (a ++ b) [] -> scan_feed 255 Hunting a = [].
Proof.
  intros Hm. specialize (Hm [] ltac:(constructor)). rewrite app_nil_r, scan_feed_app in Hm.
  by apply app_eq_nil in Hm as [? _].
Qed.

(** A scanner with any window finds a frame only behind a sync byte. *)
Lemma scan_done_frame cap s : forall st n, Scan.Done n ∈ scan_outcomes cap st s ->
  (forall acc, st = Collecting acc -> bytes acc) -> bytes s ->
  frameless s = false \/ exists acc, st = Collecting acc /\ opens_frame (acc ++ s) = true.
Proof.
  induction s as [|b s IH]; intros st n; cbn [scan_outcomes]; [by intros ?%elem_of_nil|].
  destruct (scan_step cap st b) as [o st'] eqn:Hst. intros Hin Hacc Hbs. pose proof Hbs as [Hb Hs]%bytes_cons.
  assert (Scan.Done n ∈ scan_outcomes cap st' s -> (forall acc, st' = Collecting acc -> bytes acc) ->
    frameless (b :: s) = false \/ exists acc, st' = Collecting acc /\ opens_frame (acc ++ s) = true) as Hnext.
  { intros Hd Hacc'. destruct (IH st' n Hd Hacc' Hs) as [Hf|?]; [left|by right]. cbn [frameless]. rewrite Hf. apply andb_false_r. }
  destruct st as [|acc]; cbn [scan_step] in Hst.
  - destruct ((b =? SYNC) && (FRAME_OVERHEAD <=? cap)) eqn:Hsy; injection Hst as <- <-;
      (apply elem_of_cons in Hin as [|Hin]; [done|]).
    + apply andb_true_iff in Hsy as [Hsy _]. left.
      destruct (Hnext Hin) as [?|(acc & [= <-] & Ho)]; [by intros ? [= <-]|done|].
      cbn [frameless]. cbn [app] in Ho. by rewrite Hsy, Ho.
    + destruct (Hnext Hin) as [?|(acc & [=] & _)]; [done|by left].
  - specialize (Hacc acc eq_refl). assert (bytes (acc ++ [b])) as Hab by (apply bytes_app; split; [done|by apply bytes_cons]).
    assert (opens_frame ((acc ++ [b]) ++ s) = true ->
      exists acc0, Collecting acc = Collecting acc0 /\ opens_frame (acc0 ++ b :: s) = true) as Hgo.
    { intros Ho. exists acc. by rewrite <- app_assoc in Ho. }
    assert (o = Scan.Frame -> st' = Collecting (acc ++ [b]) ->
      frameless (b :: s) = false \/ exists acc0, Collecting acc = Collecting acc0 /\ opens_frame (acc0 ++ b :: s) = true) as Hcoll.
    { intros -> ->. apply elem_of_cons in Hin as [|Hin]; [done|].
      destruct (Hnext Hin) as [?|(acc' & [= <-] & Ho)]; [by intros ? [= <-]|by left|right; auto]. }
    assert (o = Scan.Dropped -> st' = Hunting ->
      frameless (b :: s) = false \/ exists acc0, Collecting acc = Collecting acc0 /\ opens_frame (acc0 ++ b :: s) = true) as Hdrop.
    { intros -> ->. apply elem_of_cons in Hin as [|Hin]; [done|].
      destruct (Hnext Hin) as [?|(acc' & [=] & _)]; [done|by left]. }
    destruct ((acc ++ [b]) !! 1%nat) as [d|] eqn:Hd; [|by injection Hst as <- <-; auto].
    destruct (_ || _) eqn:Hbig; [by injection Hst as <- <-; auto|]. destruct (len (acc ++ [b]) <? d + FRAME_OVERHEAD) eqn:Hlt;
      [by injection Hst as <- <-; auto|]. destruct (is_ok (decode (acc ++ [b]))) eqn:Hok; [|by injection Hst as <- <-; auto].
    right. apply Hgo. unfold opens_frame. rewrite (lookup_app_l_Some _ s _ _ Hd).
    destruct (decode (acc ++ [b])) as [f|] eqn:Hdec; [|done]. pose proof (decode_ok_inv _ _ Hab Hdec) as [Heq _].
    assert (Z.to_nat (d + FRAME_OVERHEAD) = length (acc ++ [b])) as ->.
    { assert (d = len (frame_payload f)) as -> by (rewrite Heq in Hd; by injection Hd).
      pose proof (len_wire (frame_cmd f) (frame_payload f)) as Hlw. rewrite <- Heq in Hlw. unfold len, FRAME_OVERHEAD in *. lia. }
    by rewrite take_app_length, Hdec.
Qed.
Lemma frameless_outcomes bs rsp n : bytes bs -> slice rsp -> frameless bs = true -> Scan.Done n ∉ outcomes rx_new rsp bs.
Proof.
  intros Hb Hs Hf Hin. rewrite outcomes_abs in Hin by done. change (scan_abs rx_new rsp) with Hunting in Hin.
  apply scan_done_frame in Hin as [?|(acc & [=] & _)]; [congruence|done|done].
Qed.
Lemma frameless_zeros k : frameless (replicate k 0) = true.
Proof. induction k as [|k IH]; [done|]. exact IH. Qed.

Lemma makes_frame cmd payload : is_u8 cmd -> bytes payload -> len payload <= PAYLOAD_MAX ->
  makes (SYNC :: wire cmd payload) [wire cmd payload].
Proof.
  intros Hc Hp Hm more Hb. change PAYLOAD_MAX with 252 in Hm. cbn [app].
  assert (bytes (wire cmd payload ++ more)) as Hbs by (apply bytes_app; split; [apply wire_bytes; [done..|lia]|done]).
  assert (bytes (SYNC :: wire cmd payload ++ more)) by (by apply bytes_cons).
  rewrite (scan_feed_frames 255 (S (length (wire cmd payload ++ more)))) by (done || simpl; lia).
  rewrite stream_frames_wire by (done || (unfold FRAME_OVERHEAD; lia)). cbn [app]. f_equal.
  rewrite stream_frames_fuel by (done || rewrite length_app; lia). by rewrite <- scan_feed_frames with (fuel := length more).
Qed.

(** A frame with another byte than its length wrong is skipped. *)
Lemma makes_nothing c d body more : bytes (c :: d :: body) -> bytes more -> len body = d + 1 -> d <= PAYLOAD_MAX ->
  is_ok (decode (c :: d :: body)) = false ->
  scan_feed 255 Hunting (SYNC :: (c :: d :: body) ++ more) = scan_feed 255 Hunting more.
Proof.
  intros Hb Hm Hl Hd Hbad. change PAYLOAD_MAX with 252 in Hd. pose proof (len_nonneg body).
  set (raw := c :: d :: body) in *.
  assert (len raw = d + 3) as Hlr by (subst raw; rewrite !len_cons; lia).
  assert (length raw = Z.to_nat (d + 3)) as Hlen by (unfold len in Hlr; lia).
  assert (bytes (raw ++ more)) as Hrm by (by apply bytes_app).
  assert (bytes (SYNC :: raw ++ more)) by (by apply bytes_cons).
  rewrite (scan_feed_frames 255 (S (length (raw ++ more)))) by (done || simpl; lia).
  change (SYNC :: raw ++ more) with (SYNC :: c :: d :: (body ++ more)).
  cbn [stream_frames]. change (negb _) with false. cbn iota. change (c :: d :: body ++ more) with (raw ++ more).
  change PAYLOAD_MAX with 252. change FRAME_OVERHEAD with 3.
  rewrite (proj2 (Z.ltb_ge 252 d)), (proj2 (Z.ltb_ge 255 (d + 3))) by lia. cbn [orb].
  rewrite len_app, Hlr. pose proof (len_nonneg more). rewrite (proj2 (Z.ltb_ge _ _)) by lia.
  rewrite <- Hlen, take_app_length, drop_app_length, Hbad. cbn [app].
  rewrite stream_frames_fuel by (done || rewrite length_app; lia). by rewrite <- scan_feed_frames with (fuel := length more).
Qed.

Lemma makes_garbled cmd payload i x : is_u8 cmd -> bytes payload -> len payload <= PAYLOAD_MAX ->
  is_u8 x -> x <> 0 -> (i < length (wire cmd payload))%nat -> i <> 1%nat ->
  makes (SYNC :: alter (Z.lxor x) i (wire cmd payload)) [].
Proof.
  intros Hc Hp Hm Hx Hx0 Hi Hi1 more Hb. cbn [app]. pose proof Hm as Hm'. change PAYLOAD_MAX with 252 in Hm'.
  pose proof (flipped_refused cmd payload i x Hc Hp Hm Hx Hx0 Hi) as Hbad.
  assert (bytes (alter (Z.lxor x) i (wire cmd payload))) as Hbb by (apply bytes_flip; [done|by apply wire_bytes; [..|lia]]).
  assert (len (alter (Z.lxor x) i (wire cmd payload)) = len payload + 3) as Hl
    by (unfold len; rewrite length_alter; apply len_wire).
  apply parse_none in Hbad; [|done|lia].
  assert (exists c body, alter (Z.lxor x) i (wire cmd payload) = c :: len payload :: body) as (c & body & Heq).
  { unfold wire. destruct i as [|[|i]]; [|done|]; by eexists _, _. }
  rewrite Heq in *. rewrite !len_cons in Hl. change ([] ++ ?l) with l. apply makes_nothing; try done. lia.
Qed.

Lemma scan_feed_bytes cap s : forall st, bytes s -> (forall acc, st = Collecting acc -> bytes acc) ->
  Forall bytes (scan_feed cap st s).
Proof.
  induction s as [|b s IH]; intros st Hs Hst; [done|]. apply bytes_cons in Hs as [Hb Hs]. cbn [scan_feed].
  destruct st as [|acc].
  - cbn [scan_step]. destruct (_ && _); apply IH; try done. by intros ? [= <-].
  - assert (bytes (acc ++ [b])) as Hacc by (apply bytes_app; split; [by apply Hst|by apply bytes_cons]).
    assert (Forall bytes (scan_feed cap (Collecting (acc ++ [b])) s)) by (apply IH; [done|by intros ? [= <-]]).
    assert (Forall bytes (scan_feed cap Hunting s)) by (by apply IH).
    cbn [scan_step]. repeat case_match; by simplify_eq; first [done|constructor].
Qed.
Lemma link_abs_bytes l acc : link_inv l -> link_abs l = Collecting acc -> bytes acc.
Proof. intros [Hb _ _]. unfold link_abs. destruct (l_in_frame l); [|done]. intros [= <-]. auto with ota. Qed.

(** One write of the port, for a device in its stream loop. *)
Lemma piece_read bs (w : World) : world_ok w -> bytes bs -> len bs <= 65535 ->
  exists out s, serve (scan_feed 255 (link_abs (w_link w)) bs) (w_sim w) = Some (out, s)
    /\ (len out <= STREAM_RESP_CAP -> exists l, Harness.request_stream bs w = Some (out, mkWorld s l)
          /\ world_ok (mkWorld s l)
          /\ (present s -> forall more, scan_feed 255 (link_abs (w_link w)) (bs ++ more)
                = scan_feed 255 (link_abs (w_link w)) bs ++ scan_feed 255 (link_abs l) more)).
Proof.
  intros [Hok Hlk Hcap] Hb Hl.
  destruct (sim_request_stream_spec STREAM_RESP_CAP bs (w_link w) (w_sim w) Hlk Hb Hok) as (out & s & Hsv & Hgo).
  rewrite Hcap in *. exists out, s. split; [done|]. intros Hfit. destruct Hgo as (l & Hgo & Hl' & Hcap' & Hmore); [done|].
  exists l. unfold Harness.request_stream, u16_try_from. rewrite (proj2 (Z.leb_le _ _)) by done.
  cbn [mbind option_bind]. rewrite Hgo. split_and!; [done| |done].
  split; [|done|cbn [w_link]; congruence]. cbn [w_sim].
  destruct (serve_ok (scan_feed 255 (link_abs (w_link w)) bs) (w_sim w)) as (out' & s' & Hsv' & Hs'); [done| |congruence].
  apply scan_feed_bytes; [done|]. intros acc. by apply link_abs_bytes.
Qed.
End reading.

(** ** A request over the line *)

Section request.
Context `{PtrWidth, LinePace} {delay : DelayNs Line} {Hstill : Still delay}.

(** The device, having read [sync]. *)
Definition primed (sync : list Z) (l : link_t) (d : Sim) : Prop := present d ->
  forall more, bytes more -> scan_feed 255 (link_abs l) more = scan_feed 255 Hunting (sync ++ more).

Lemma next_passage_ok plan : Forall passage_ok plan -> passage_ok (next_passage plan).
Proof. by destruct 1. Qed.
Lemma sync_of_ok p : passage_ok p -> bytes (sync_of p) /\ len (sync_of p) <= 65535 /\ scan_feed 255 Hunting (sync_of p) = [].
Proof.
  assert (bytes [SYNC]) as Hsy by (by constructor). intros [Hn _]. unfold sync_of.
  destruct (ps_noise p) as [|i x|sync frame]; [by split_and!..|]. destruct Hn as (Hb & Hl & Hf & He).
  apply bytes_app in Hb as [? _]. rewrite len_app in Hl. pose proof (len_nonneg frame). split_and!; [done|lia|].
  apply (makes_prefix sync frame). by apply makes_noise.
Qed.

Lemma not_present d : present d \/ g_dead d || g_jumped d = true.
Proof. unfold present. destruct (_ || _); auto. Qed.

Lemma line_sync w : line_ok w -> exists l,
  let world := mkWorld (w_sim (ln_world w)) l in
  let sync := sync_of (next_passage (ln_plan w)) in
  line_write [SYNC] w = (Ok tt, mkLine world (ln_plan w) []) /\ world_ok world /\ primed sync l (w_sim world).
Proof.
  intros [Hw Hfr Hplan Hin]. pose proof Hw as [_ _ Hcap]. unfold fresh in Hfr. rewrite Hcap in Hfr.
  destruct (sync_of_ok _ (next_passage_ok _ Hplan)) as (Hb & Hl & Hno). set (sync := sync_of _) in *.
  destruct (piece_read sync _ Hw Hb Hl) as (out & s & Hsv & Hgo).
  assert (out = [] /\ s = w_sim (ln_world w)
    /\ (present s -> scan_feed 255 (link_abs (w_link (ln_world w))) sync = [])) as (-> & -> & Hnil).
  { destruct (not_present (w_sim (ln_world w))) as [Hpr|Hd].
    - rewrite (Hfr Hpr sync Hb), Hno in *. by injection Hsv as <- <-.
    - rewrite serve_silent in Hsv by done. injection Hsv as <- <-. unfold present. by rewrite Hd. }
  destruct Hgo as (l & Hreq & Hok & Hmore); [by vm_compute|]. exists l. unfold line_write.
  rewrite decide_True by done. fold sync. rewrite Hreq, Hin. split_and!; try done.
  intros Hpr more Hm. specialize (Hmore Hpr more). rewrite (Hnil Hpr) in Hmore. cbn [app] in Hmore.
  rewrite <- Hmore. apply (Hfr Hpr). by apply bytes_app.
Qed.

Lemma line_frame d l plan req frames out s :
  let p := next_passage plan in
  world_ok (mkWorld d l) -> primed (sync_of p) l d -> Forall passage_ok plan -> req <> [SYNC] ->
  bytes (noisy p req) -> len (noisy p req) <= 65535 -> makes (sync_of p ++ noisy p req) frames ->
  serve frames d = Some (out, s) -> len out <= STREAM_RESP_CAP ->
  exists l', line_write req (mkLine (mkWorld d l) plan []) = (Ok tt, mkLine (mkWorld s l') (tail plan) (queued p req out))
    /\ line_ok (mkLine (mkWorld s l') (tail plan) []).
Proof.
  intros p Hw Hpr Hplan Hreq Hb Hl Hmk Hsv Hout. pose proof Hw as [_ _ Hcap]. cbn [w_link] in Hcap.
  destruct (piece_read (noisy p req) _ Hw Hb Hl) as (out1 & s1 & Hsv1 & Hgo). cbn [w_link w_sim] in *.
  assert (out1 = out /\ s1 = s /\ (present s ->
    (forall more, bytes more -> scan_feed 255 (link_abs l) (noisy p req ++ more) = frames ++ scan_feed 255 Hunting more)
    /\ scan_feed 255 (link_abs l) (noisy p req) = frames)) as (-> & -> & Hfr).
  { destruct (not_present d) as [Hd|Hd].
    - assert (forall more, bytes more -> scan_feed 255 (link_abs l) (noisy p req ++ more)
        = frames ++ scan_feed 255 Hunting more) as Hall.
      { intros more Hm. rewrite (Hpr Hd), app_assoc by (by apply bytes_app). by apply Hmk. }
      assert (scan_feed 255 (link_abs l) (noisy p req) = frames) as Hone.
      { specialize (Hall [] ltac:(constructor)). by rewrite !app_nil_r in Hall. }
      rewrite Hone, Hsv in Hsv1. by injection Hsv1 as -> ->.
    - rewrite serve_silent in Hsv, Hsv1 by done. injection Hsv as <- <-. injection Hsv1 as <- <-.
      unfold present. by rewrite Hd. }
  destruct (Hgo Hout) as (l' & Hr & Hok & Hmore). exists l'. unfold line_write.
  rewrite decide_False by done. cbn [ln_plan ln_world ln_incoming app]. fold p. rewrite Hr. split; [done|].
  split; [done| |by apply Forall_tail|done]. cbn [ln_world w_sim w_link]. intros Hs more Hm.
  destruct (Hfr Hs) as [Hall Hone]. specialize (Hmore Hs more). rewrite Hall, Hone in Hmore by done.
  apply app_inv_head in Hmore. pose proof Hok as [_ _ Hcap']. cbn [w_link] in Hcap'. by rewrite Hcap'.
Qed.

Implicit Types t : UartTransport Line.

(** Nothing comes. *)
Lemma line_exhausts fuel : forall t chunk sc a j rsp, uart_ok t -> ln_incoming (uart_io t) = [] ->
  0 <= a < uart_poll_attempts t -> uart_poll_attempts t - a <= Z.of_nat fuel ->
  uart_loop (E:=unit) fuel t chunk sc a j rsp = Some (Err (UartExhausted (uart_poll_attempts t)), (t, rsp)).
Proof.
  induction fuel as [|fuel IH]; intros t chunk sc a j rsp Hok Hin Ha Hf; [lia|].
  cbn [uart_loop io_read line_serial]. unfold line_read. rewrite Hin. cbn [Z.eqb].
  assert (u32_wrapping_add a 1 = a + 1) as -> by (unfold uart_ok in Hok; apply Z.mod_small; lia).
  assert (uart_with_io t (uart_io t) = t) as Ht by (by destruct t).
  zcase; [rewrite Ht; do 4 f_equal; lia|]. rewrite still, Ht. by apply IH; [..|lia|lia].
Qed.

(** Bytes without a frame are scanned and lost. *)
Lemma uart_bytes_noise limit bs : forall sc j rsp, bytes bs -> scan_inv sc rsp -> slice rsp ->
  (forall n, Scan.Done n ∉ outcomes sc rsp bs) -> 0 <= j -> j + len bs < limit -> limit < 2 ^ 32 ->
  exists sc' j' rsp', uart_bytes (E:=unit) limit bs sc j rsp = (None, (sc', j', rsp'))
    /\ after sc rsp bs = (sc', rsp') /\ j <= j' <= j + len bs
    /\ scan_inv sc' rsp' /\ slice rsp' /\ len rsp' = len rsp.
Proof.
  induction bs as [|b bs IH]; intros sc j rsp Hb Hinv Hs Hno Hj Hlim Hu.
  { change (len []) with 0 in *. exists sc, j, rsp. split_and!; first [done|lia]. }
  apply bytes_cons in Hb as [Hb Hbs]. rewrite len_cons in *. pose proof (len_nonneg bs).
  cbn [uart_bytes outcomes after] in *. destruct (push sc b rsp) as [o [sc1 rsp1]] eqn:Hp.
  destruct (push_measure sc b rsp o sc1 rsp1) as (Hinv1 & Hs1 & Hl1 & _); [done..|].
  assert (forall n, Scan.Done n ∉ outcomes sc1 rsp1 bs) as Hno1 by (intros n Hn; apply (Hno n); by right).
  assert (forall j1, j <= j1 <= j + 1 -> exists sc' j' rsp', uart_bytes (E:=unit) limit bs sc1 j1 rsp1 = (None, (sc', j', rsp'))
    /\ after sc1 rsp1 bs = (sc', rsp') /\ j <= j' <= j + (1 + len bs) /\ scan_inv sc' rsp' /\ slice rsp' /\ len rsp' = len rsp) as Hnext.
  { intros j1 Hj1. destruct (IH sc1 j1 rsp1) as (sc' & j' & rsp' & Heq & Ha & Hjj & Hi & Hss & Hl); [done..|lia|lia|done|].
    exists sc', j', rsp'. split_and!; first [done|lia]. }
  assert (u32_wrapping_add j 1 = j + 1) as Hadd by (apply Z.mod_small; lia).
  destruct o as [| |n|]; [| |destruct (Hno n); by left|]; rewrite ?Hadd; [zcase; [lia|]|..|zcase; [lia|]]; apply Hnext; lia.
Qed.

(** Other bytes than an answer come, in reads of at most 32, after [n] empty
    ones; then nothing comes. *)
Lemma line_noise fuel : forall n t chunk sc a j rsp raw world plan,
  uart_ok t -> uart_io t = mkLine world plan [(n, raw)] -> raw <> [] -> len chunk = 32 ->
  bytes raw -> scan_inv sc rsp -> slice rsp -> (forall k, Scan.Done k ∉ outcomes sc rsp raw) ->
  0 <= a -> a + Z.of_nat n < uart_poll_attempts t -> 0 <= j -> j + len raw < uart_scan_limit t ->
  uart_poll_attempts t - a + len raw <= Z.of_nat fuel ->
  exists e rsp', uart_loop (E:=unit) fuel t chunk sc a j rsp
      = Some (Err e, (uart_with_io t (mkLine world plan []), rsp'))
    /\ len rsp' = len rsp /\ bytes rsp'.
Proof.
  induction fuel as [|fuel IH]; intros n t chunk sc a j rsp raw world plan Hok Hio Hne Hch Hb Hinv Hs Hno Ha Hn Hj Hlim Hf;
    pose proof (len_nonneg raw); [lia|]. pose proof Hok as [Hat Hsl].
  cbn [uart_loop io_read line_serial]; unfold line_read; rewrite Hio; cbn [ln_incoming ln_world ln_plan]. destruct n as [|n].
  - assert (length chunk = 32%nat) as Hcl by (unfold len in Hch; lia). rewrite Hcl.
    assert (0 < len raw) as Hlr by (destruct raw; [done|unfold len; cbn [length]; lia]).
    rewrite <- (take_drop 32 raw) in Hb, Hno. apply bytes_app in Hb as [Hb1 Hb2].
    set (bs := take 32 raw) in *. assert (len bs = Z.min 32 (len raw)) as Hlb by (unfold len, bs; rewrite length_take; lia).
    assert (len (drop 32 raw) = len raw - len bs) as Hld by (unfold len in *; rewrite length_drop; lia).
    rewrite (proj2 (Z.eqb_neq (len bs) 0)) by lia.
    assert (len (zip_write chunk bs) = 32) as Hlz by (by rewrite len_zip_write).
    rewrite get_to_Some by lia. rewrite Z.min_l by lia. cbn [default]. unfold id.
    assert (take (Z.to_nat (len bs)) (zip_write chunk bs) = bs) as ->.
    { unfold zip_write. rewrite to_nat_len, (take_ge bs) by (unfold len in *; lia). by rewrite take_app_length. }
    destruct (uart_bytes_noise (uart_scan_limit t) bs sc j rsp) as (sc' & j' & rsp' & -> & Haf & Hjj & Hi & Hs' & Hl');
      [done..| |lia|lia|lia|].
    { intros k Hk. apply (Hno k). rewrite outcomes_app, elem_of_app. by left. }
    assert (forall k, Scan.Done k ∉ outcomes sc' rsp' (drop 32 raw)) as Hno'.
    { intros k Hk. apply (Hno k). rewrite outcomes_app, Haf, elem_of_app. by right. }
    case_decide as Hd.
    + rewrite (line_exhausts fuel); [|done|done|cbn [uart_with_io uart_poll_attempts]; lia..].
      eexists _, rsp'. split_and!; [done|done|by destruct Hs'].
    + destruct (IH 0%nat (uart_with_io t (mkLine world plan [(0%nat, drop 32 raw)])) (zip_write chunk bs) sc' a j' rsp'
        (drop 32 raw) world plan) as (e & rsp2 & Heq & Hl2 & Hb3); try done; cbn [uart_with_io uart_poll_attempts uart_scan_limit]; [lia..|].
      exists e, rsp2. split_and!; [done|lia|done].
  - cbn [Z.eqb]. assert (u32_wrapping_add a 1 = a + 1) as -> by (apply Z.mod_small; lia).
    rewrite (proj2 (Z.leb_gt _ _)) by lia. rewrite still.
    destruct (IH n (uart_with_io t (mkLine world plan [(n, raw)])) chunk sc (a + 1) j rsp raw world plan)
      as (e & rsp' & Heq & Hrest); try done; cbn [uart_with_io uart_poll_attempts uart_scan_limit]; [lia..|]. by exists e, rsp'.
Qed.

(** The answer comes in one piece after [n] empty reads. *)
Lemma line_answers n : forall fuel t chunk a rsp world plan cmd p,
  uart_ok t -> uart_io t = mkLine world plan [(n, link_send (wire cmd p))] -> len chunk = 32 ->
  0 <= a -> a + Z.of_nat n < uart_poll_attempts t -> (n < fuel)%nat ->
  is_u8 cmd -> bytes p -> len p <= 17 -> slice rsp -> len p + 3 <= len rsp ->
  exists rsp', uart_loop (E:=unit) fuel t chunk rx_new a 0 rsp
      = Some (Ok (len p + 3), (uart_with_io t (mkLine world plan []), rsp'))
    /\ len rsp' = len rsp /\ slice rsp' /\ take (length (wire cmd p)) rsp' = wire cmd p.
Proof.
  induction n as [|n IH]; intros [|fuel] t chunk a rsp world plan cmd p Hok Hio Hch Ha Hn Hf Hc Hp Hl Hs Hfit; try lia;
    cbn [uart_loop io_read line_serial]; unfold line_read; rewrite Hio; cbn [ln_incoming ln_world ln_plan].
  - pose proof (len_wire cmd p) as Hlw. pose proof (len_nonneg p).
    set (out := link_send (wire cmd p)). assert (len out = len p + 4) as Hlo by (unfold out, link_send; rewrite len_cons; lia).
    assert (length out <= length chunk)%nat as Hle by (unfold len in *; lia).
    rewrite take_ge, drop_ge by done. rewrite decide_True by done.
    rewrite (proj2 (Z.eqb_neq (len out) 0)) by lia.
    assert (len (zip_write chunk out) = 32) as Hlz by (by rewrite len_zip_write).
    rewrite get_to_Some by lia. rewrite Z.min_l by lia. cbn [default]. unfold id.
    assert (take (Z.to_nat (len out)) (zip_write chunk out) = out) as Htk.
    { unfold zip_write. rewrite to_nat_len, (take_ge out) by done. by rewrite take_app_length. }
    rewrite Htk. assert (bytes out) as Hb.
    { apply bytes_cons. split; [by unfold SYNC|]. apply wire_bytes; [done..|lia]. }
    destruct (frame_ends_done rsp [] cmd p) as [Hd Hj];
      try done; try (by constructor); [change PAYLOAD_MAX with 252; lia|].
    change (outcomes _ _ _) with (outcomes rx_new rsp out) in Hd, Hj.
    assert (1 <= uart_scan_limit t) by (by destruct Hok as [_ [? _]]).
    destruct (uart_bytes_finds (E:=unit) t out out rx_new 0 rsp (len p + 3)) as [(st & j' & Hu)|Hx];
      try done; [by left|rewrite Hj; change (len []) with 0; lia|..].
    + rewrite Hu. destruct st as [sc jj]. eexists. split; [done|].
      apply (uart_bytes_spec t) in Hu as (Hs' & Hl' & _); try done; [|lia].
      split_and!; [done..|]. apply (after_frame rsp [] cmd p); try done; try (by constructor); change PAYLOAD_MAX with 252; lia.
    + destruct Hx as (rest & sc' & j' & rsp' & Hr & _ & _ & _ & _ & _ & Hd' & _).
      assert (rest = []) as -> by (apply (app_inv_head out); by rewrite app_nil_r). by destruct Hd' as ([] & ? & _).
  - cbn [Z.eqb]. assert (u32_wrapping_add a 1 = a + 1) as -> by (unfold uart_ok in Hok; apply Z.mod_small; lia).
    rewrite (proj2 (Z.leb_gt _ _)) by lia.
    rewrite still. destruct (IH fuel (uart_with_io t (mkLine world plan [(n, link_send (wire cmd p))]))
      chunk (a + 1) rsp world plan cmd p) as (rsp' & Hr & Hrest); try done; try lia;
      [cbn [uart_with_io uart_poll_attempts]; lia|]. by exists rsp'.
Qed.

(** ** A request of the adapter *)

(** What comes for an answer comes before the adapter gives up, and is shorter
    than what it takes for babble. *)
Definition in_time (req : list Z) t (p : Passage) : Prop :=
  Z.of_nat (ps_delay p + empty_reads req) < uart_poll_attempts t
  /\ match ps_answer p with Distorted _ raw => len raw < uart_scan_limit t | _ => True end.

(** What a passage does to an exchange, in the terms of the wire. *)
Definition fault_of (p : Passage) : Fault :=
  match ps_noise p, ps_answer p with Clean, After _ => Delivered | _, _ => ReplyLost end.

Lemma tail_faults plan : tail (fault_of <$> plan) = fault_of <$> tail plan.
Proof. by destruct plan. Qed.
Lemma next_fault_of plan : next_fault (fault_of <$> plan) = fault_of (next_passage plan).
Proof. by destruct plan. Qed.
Lemma fault_noise p : ps_noise p <> Clean -> fault_of p <> Delivered.
Proof. unfold fault_of. by destruct (ps_noise p). Qed.
Lemma fault_answer p : (forall n, ps_answer p <> After n) -> fault_of p <> Delivered.
Proof. unfold fault_of. intros Hn. destruct (ps_noise p), (ps_answer p) as [|n|]; try done. by destruct (Hn n). Qed.

Lemma written t req rsp w1 w2 : io_write_all [SYNC] (uart_io t) = (Ok tt, w1) ->
  io_write_all req w1 = (Ok tt, w2) ->
  uart_request (E:=unit) t req rsp = uart_loop (uart_fuel t) (uart_with_io t w2) (replicate 32 0) rx_new 0 0 rsp.
Proof. intros H1 H2. unfold uart_request. by rewrite H1, H2. Qed.

Lemma written_silent t req rsp w1 w2 : uart_ok t -> io_write_all [SYNC] (uart_io t) = (Ok tt, w1) ->
  io_write_all req w1 = (Ok tt, w2) -> ln_incoming w2 = [] ->
  request t req rsp = (Err (UartExhausted (E:=unit) (uart_poll_attempts t)), (uart_with_io t w2, rsp)).
Proof.
  intros Hok H1 H2 Hin. unfold request, uart_transport. rewrite (written t req rsp w1 w2 H1 H2).
  unfold uart_ok in Hok. rewrite line_exhausts; [done|exact Hok|exact Hin|cbn; lia|].
  unfold uart_fuel. cbn [uart_with_io uart_poll_attempts]. lia.
Qed.

Lemma noisy_bytes p req : passage_ok p -> bytes req -> len req <= 65535 -> bytes (noisy p req) /\ len (noisy p req) <= 65535.
Proof.
  unfold passage_ok, noisy. intros [Hp _] Hb Hl. destruct (ps_noise p) as [|i x|sync frame]; [done|..].
  - destruct Hp as [Hx _]. split; [by apply bytes_flip|]. unfold len in *. by rewrite length_alter.
  - destruct Hp as ([_ ?]%bytes_app & Hlf & _). rewrite len_app in Hlf. pose proof (len_nonneg sync). split; [done|lia].
Qed.
Lemma noisy_frame p cmd payload : passage_ok p -> is_u8 cmd -> bytes payload -> len payload <= PAYLOAD_MAX ->
  let tx := wire cmd payload in
  sync_of p = [SYNC] /\ noisy p tx = tx \/ makes (sync_of p ++ noisy p tx) [] /\ ps_noise p <> Clean.
Proof.
  intros [Hp _] Hc Hb Hl tx. unfold noisy, sync_of. destruct (ps_noise p) as [|i x|sync frame]; [by left|..].
  - destruct (decide (i < length tx)%nat) as [Hi|Hi]; [right|left; split; [done|by apply flipped_past]].
    split; [|done]. destruct Hp as (? & ? & ?). by apply makes_garbled.
  - right. split; [|done]. destruct Hp as (_ & _ & Hf & He). by apply makes_noise.
Qed.
(** What comes for an answer is [out], or nothing, or noise. *)
Lemma queued_cases p req out : passage_ok p ->
  queued p req out = []
  \/ (exists raw, queued p req out = [((ps_delay p + empty_reads req)%nat, raw)] /\ raw <> []
        /\ (raw = out /\ (exists n, ps_answer p = After n)
            \/ bytes raw /\ frameless raw = true /\ (forall n, ps_answer p <> After n)
               /\ ps_answer p = Distorted (ps_delay p) raw)).
Proof.
  intros [_ Hh]. unfold queued, ps_delay. destruct (ps_answer p) as [|n|n raw]; [by left|..].
  - destruct out as [|o out]; [by left|right]. eexists. split_and!; [done..|]. left. split; [done|by exists n].
  - destruct raw as [|x raw]; [by left|right]. destruct Hh as [Hb Hf]. specialize (Hf 0%nat). rewrite app_nil_r in Hf.
    eexists. split_and!; [done..|]. by right.
Qed.
Lemma serve_frame d cmd payload : sim_ok d -> bytes payload -> len payload <= PAYLOAD_MAX ->
  exists raw d', sim_request (wire cmd payload) d = Some (raw, d')
    /\ serve [wire cmd payload] d = Some (sent_reply raw, d') /\ len (sent_reply raw) <= STREAM_RESP_CAP
    /\ (raw = [] \/ exists p, raw = reply cmd p /\ bytes p /\ 1 <= len p <= 17 /\ len p <= answer_max cmd payload).
Proof.
  intros Hok Hb Hl. destruct (frame_answer d cmd payload) as (raw & d' & Hreq & _ & _ & Hraw); [done..|].
  exists raw, d'. split; [done|]. split; [|split; [|done]].
  - cbn [serve]. rewrite Hreq. cbn [mbind option_bind]. by rewrite app_nil_r.
  - destruct Hraw as [->|(q & -> & _ & Hq & _)]; [by vm_compute|]. change (sent_reply (reply cmd q)) with (SYNC :: reply cmd q).
    rewrite len_cons, len_reply. change STREAM_RESP_CAP with 512. lia.
Qed.

(** What becomes of a request frame. *)
Definition carried_over (cmd : Z) (payload : list Z) t r t' rsp' : Prop :=
  let d := w_sim (ln_world (uart_io t)) in
  let d' := w_sim (ln_world (uart_io t')) in
  (exists raw, sim_request (wire cmd payload) d = Some (raw, d')
     /\ understood (E:=UartTransportError unit) cmd (wire cmd payload) raw r rsp')
  \/ fault_of (next_passage (ln_plan (uart_io t))) <> Delivered /\ (exists e, r = Err e)
     /\ (d' = d \/ hear cmd payload d d').

Definition line_exchanged (cmd : Z) (payload rsp : list Z) t r t' rsp' : Prop :=
  t' = uart_with_io t (uart_io t') /\ line_ok (uart_io t') /\ ln_plan (uart_io t') = tail (ln_plan (uart_io t))
  /\ len rsp' = len rsp /\ bytes rsp' /\ carried_over cmd payload t r t' rsp'.

(** Nothing comes, or nothing of use. *)
Lemma line_fruitless t req rsp w1 w p out : uart_ok t -> io_write_all [SYNC] (uart_io t) = (Ok tt, w1) ->
  io_write_all req w1 = (Ok tt, mkLine (ln_world w) (ln_plan w) (queued p req out)) -> slice rsp ->
  in_time req t p -> passage_ok p -> queued p req out = [] \/ (forall n, ps_answer p <> After n) ->
  exists e rsp', request t req rsp = (Err e, (uart_with_io t (mkLine (ln_world w) (ln_plan w) []), rsp'))
    /\ len rsp' = len rsp /\ bytes rsp'.
Proof.
  intros Hok H1 H2 Hs [Htime Hlim] Hp Hwhy. assert (bytes rsp) as Hbr by (by destruct Hs).
  destruct (queued_cases p req out Hp) as [Hq|(raw & Hq & Hne & Hraw)]; rewrite Hq in *.
  - rewrite (written_silent t req rsp _ _ Hok H1 H2 eq_refl). by eexists _, _.
  - destruct Hwhy as [|Hna]; [done|]. destruct Hraw as [[_ [n Ha]]|(Hb & Hf & _ & Ha)]; [by destruct (Hna n)|]. rewrite Ha in Hlim.
    pose proof Hok as [Hat Hsl].
    destruct (line_noise (uart_fuel t) (ps_delay p + empty_reads req) (uart_with_io t (mkLine (ln_world w) (ln_plan w)
      [((ps_delay p + empty_reads req)%nat, raw)])) (replicate 32 0) rx_new 0 0 rsp raw (ln_world w) (ln_plan w))
      as (e & rsp' & Hloop & Hl & Hb'); try done;
      [intros k; by apply frameless_outcomes|unfold uart_fuel; cbn [uart_with_io uart_poll_attempts uart_scan_limit]; lia|].
    exists e, rsp'. split_and!; [|done..]. unfold request, uart_transport. rewrite (written t req rsp _ _ H1 H2).
      cbn [default]. unfold id. by rewrite Hloop.
Qed.

(** A frame that reaches the device whole: its answer comes, or nothing does, or
    nothing of use. *)
Lemma line_heard t cmd payload rsp l : uart_ok t -> line_ok (uart_io t) -> asking cmd payload rsp ->
  let d := w_sim (ln_world (uart_io t)) in
  let plan := ln_plan (uart_io t) in
  let p := next_passage plan in
  let tx := wire cmd payload in
  in_time tx t p -> sync_of p = [SYNC] -> noisy p tx = tx ->
  line_write [SYNC] (uart_io t) = (Ok tt, mkLine (mkWorld d l) plan []) ->
  world_ok (mkWorld d l) -> primed [SYNC] l d ->
  forall r t' rsp', request t tx rsp = (r, (t', rsp')) -> line_exchanged cmd payload rsp t r t' rsp'.
Proof.
  intros Hok [Hw _ Hplan _] [Hc Hp Hl Hs Hfit] d plan p tx Htime Hsy Hclean Hsync Hw1 Hprimed r t' rsp' Hr.
  assert (bytes tx /\ len tx = len payload + 3 /\ len payload <= 252) as (Htx & Hlt & Hlp).
  { change PAYLOAD_MAX with 252 in Hl. split_and!; [by apply wire_bytes; [..|lia]|apply len_wire|done]. }
  pose proof (next_passage_ok _ Hplan) as Hpok.
  destruct (serve_frame d cmd payload) as (raw & d' & Hreq & Hserve & Hcap & Hraw); [apply Hw|done..|]. fold tx in Hreq, Hserve.
  destruct (line_frame d l plan tx [tx] (sent_reply raw) d') as (l' & Hw2 & Hline); try done;
    fold p; rewrite ?Hclean, ?Hsy; [done|done|lia|by apply makes_frame|]. fold p in Hw2.
  assert (queued p tx (sent_reply raw) = [] \/ (forall n, ps_answer p <> After n) ->
    raw = [] \/ (forall n, ps_answer p <> After n) -> line_exchanged cmd payload rsp t r t' rsp') as Hsilent.
  { intros Hq Hwhy. destruct (line_fruitless t tx rsp _ (mkLine (mkWorld d' l') (tail plan) []) p (sent_reply raw) Hok Hsync Hw2)
      as (e & rsp1 & Heq & Hl1 & Hb1); [done..|]. rewrite Heq in Hr. injection Hr as <- <- <-. split_and!; try done.
    destruct Hwhy as [->|Hna]; [left; exists []; by split|right]. split_and!; [by apply fault_answer|by eexists|right; by exists raw]. }
  destruct Hraw as [->|(q & -> & Hqb & Hq & Hqm)].
  { apply Hsilent; [|by left]. unfold queued. destruct (ps_answer p) as [|n|n bad]; [by left..|by right]. }
  destruct (ps_answer p) as [|n|n bad] eqn:Hans; [by apply Hsilent; right| |by apply Hsilent; right]. clear Hsilent.
  assert (queued p tx (sent_reply (reply cmd q)) = [((n + empty_reads tx)%nat, link_send (reply cmd q))]) as Hqu
    by (unfold queued, ps_delay; by rewrite Hans).
  rewrite Hqu in Hw2. destruct Htime as [Htime _]. unfold ps_delay in Htime. rewrite Hans in Htime.
  destruct (line_answers (n + empty_reads tx) (uart_fuel t)
    (uart_with_io t (mkLine (mkWorld d' l') (tail plan) [((n + empty_reads tx)%nat, link_send (reply cmd q))]))
    (replicate 32 0) 0 rsp (mkWorld d' l') (tail plan) (Z.lor cmd RSP_FLAG) q) as (rsp1 & Hloop & Hlr & [Hbr _] & Hfront);
    try done; try (unfold uart_fuel, uart_ok in *; lia); [by apply lor_u8|].
  revert Hr. unfold request, uart_transport. rewrite (written t tx rsp _ _ Hsync Hw2), Hloop.
  intros [= <- <- <-]. split_and!; try done. left. exists (reply cmd q). split; [done|]. by apply front_understood.
Qed.

Lemma line_exchange t cmd payload rsp r t' rsp' : uart_ok t -> line_ok (uart_io t) -> asking cmd payload rsp ->
  in_time (wire cmd payload) t (next_passage (ln_plan (uart_io t))) ->
  request t (wire cmd payload) rsp = (r, (t', rsp')) -> line_exchanged cmd payload rsp t r t' rsp'.
Proof.
  intros Hok Hline Hask Htime Hr. pose proof Hask as [Hc Hp Hl Hs _]. pose proof Hline as [Hw _ Hplan _].
  destruct (line_sync _ Hline) as (l & Hsync & Hw1 & Hprimed). set (tx := wire cmd payload) in *.
  set (p := next_passage (ln_plan (uart_io t))) in *. pose proof (next_passage_ok _ Hplan) as Hpo. fold p in Hpo.
  destruct (noisy_frame p cmd payload) as [[Hsy Hclean]|[Hgarb Hnoise]]; [done..|rewrite Hsy in Hprimed; by eapply line_heard|].
  fold tx in Hgarb. pose proof Hl as Hl'. change PAYLOAD_MAX with 252 in Hl'. assert (len tx = len payload + 3) as Hlt by apply len_wire.
  destruct (noisy_bytes p tx Hpo) as [Hnb Hnl]; [by apply wire_bytes; [..|lia]|lia|].
  destruct (line_frame (w_sim (ln_world (uart_io t))) l (ln_plan (uart_io t)) tx [] []
    (w_sim (ln_world (uart_io t)))) as (l' & Hw2 & Hline'); try done. fold p in Hw2.
  destruct (line_fruitless t tx rsp _ (mkLine (mkWorld (w_sim (ln_world (uart_io t))) l') (tail (ln_plan (uart_io t))) []) p []
    Hok Hsync Hw2) as (e & rsp1 & Heq & Hl1 & Hb1); try done.
  { unfold queued. destruct (ps_answer p) as [|n|n bad]; [by left..|by right]. }
  rewrite Heq in Hr. injection Hr as <- <- <-. split_and!; try done. right. split_and!; [by apply fault_noise|by eexists|by left].
Qed.
End request.

(** ** The adapter on a line whose answers are in time is a carrier *)
Section carrier.
Context `{PtrWidth, LinePace} {delay : DelayNs Line} {Hstill : Still delay}.

(** Every answer there is comes in time. *)
Definition prompt (t : UartTransport Line) : Prop := forall cmd payload,
  Forall (in_time (wire cmd payload) t) (calm :: ln_plan (uart_io t)).

Lemma prompt_next cmd payload t : prompt t -> in_time (wire cmd payload) t (next_passage (ln_plan (uart_io t))).
Proof.
  intros Hp. specialize (Hp cmd payload). unfold next_passage. apply Forall_cons in Hp as [Hc Hp].
  by destruct Hp.
Qed.
Lemma prompt_tail t w : prompt t -> ln_plan w = tail (ln_plan (uart_io t)) -> prompt (uart_with_io t w).
Proof.
  intros Hp Hw cmd payload. specialize (Hp cmd payload). cbn [uart_with_io uart_io]. rewrite Hw.
  apply Forall_cons in Hp as [Hc Hp]. constructor; [exact Hc|]. by apply Forall_tail.
Qed.

Definition line_spares (n : nat) (w : Line) : Prop := spares n (fault_of <$> ln_plan w) = true.

#[global] Instance line_carried : Carried (UartTransport Line) := {|
  carrier_ok t := uart_ok t /\ line_ok (uart_io t) /\ prompt t;
  dev t := w_sim (ln_world (uart_io t));
  spare n t := line_spares n (uart_io t);
  patient _ _ := True;
|}.

Lemma carried_over_spares cmd payload t r t' rsp' : ln_plan (uart_io t') = tail (ln_plan (uart_io t)) ->
  carried_over cmd payload t r t' rsp' ->
  let d := w_sim (ln_world (uart_io t)) in
  let d' := w_sim (ln_world (uart_io t')) in
  (exists raw, sim_request (wire cmd payload) d = Some (raw, d')
     /\ understood cmd (wire cmd payload) raw r rsp'
     /\ forall n, (n <= 3)%nat -> line_spares n (uart_io t) -> line_spares 3 (uart_io t'))
  \/ (exists e, r = Err e) /\ (d' = d \/ hear cmd payload d d')
     /\ forall n, line_spares n (uart_io t) -> exists m, n = S m /\ line_spares m (uart_io t').
Proof.
  intros Hplan. unfold line_spares. rewrite Hplan, <- tail_faults. intros [(raw & Hr & Hu)|(Hf & He & Hd)].
  - left. exists raw. split_and!; try done. intros n Hn. by apply spares_tail.
  - right. split_and!; try done. intros n. apply spares_fault. by rewrite next_fault_of.
Qed.

#[global] Instance line_carrier : Carrier (@uart_transport Line unit line_serial delay _).
Proof.
  split; [by intros t (_ & [[? _ _] _ _ _] & _)|..]; intros t cmd payload rsp r t' rsp' (Hok & Hline & Hp) Hask Hr;
    destruct (line_exchange t cmd payload rsp r t' rsp' Hok Hline Hask (prompt_next cmd payload t Hp) Hr)
      as (Ht & Hline' & Hplan & Hl & Hb & Hover).
  - split; [|done]. split; [by rewrite Ht|]. split; [done|]. rewrite Ht. by apply prompt_tail.
  - split; [done|]. apply carried_over_spares in Hover as [Hl'|([e ->] & Hd & Hs)]; [by left|right|done].
    split_and!; [done..|]. intros n _ _. apply Hs.
Qed.
End carrier.

(** ** What the promise of the line is for *)

(** A device that answers at once. *)
#[local] Instance line_pace : LinePace := fun _ => 0%nat.
#[local] Instance line_delay : DelayNs Line := fun _ w => w.

(** A request with a flipped bit, a lost answer, a sync byte and a frame turned
    into other bytes; a slow answer; an answer turned into other bytes. *)
Definition rough_plan : list Passage :=
  [mkPassage (Flipped 4 8) (After 0); mkPassage Clean NoAnswer; mkPassage (Garbled [0x7F; SYNC] [5; 0; 9]) (After 0);
   mkPassage Clean (After 3); mkPassage Clean (Distorted 2 [SYNC; 0x85; 1; 1; 7])].
Lemma rough_plan_ok : Forall (passage_ok (H0:=ptr64)) rough_plan.
Proof.
  constructor; [split; [cbn; lia|done]|]. constructor; [by split|].
  constructor; [split; [|done]; split_and!; [repeat constructor; unfold SYNC; lia|by vm_compute..]|]. constructor; [by split|].
  constructor; [split; [done|]|constructor]. split; [repeat constructor; unfold SYNC; lia|]. intros k.
  assert (forall zs, frameless (H0:=ptr64) zs = true -> frameless (H0:=ptr64) ([SYNC; 0x85; 1; 1; 7] ++ zs) = true) as Hz;
    [|apply Hz, frameless_zeros].
  intros zs Hz. cbn [app frameless]. rewrite Hz. by vm_compute.
Qed.

(** Two pages and the footer page; the second page's answer comes after the
    adapter's two polls, and the footer page's request is garbled. *)
Definition late_plan : list Passage :=
  [calm; calm; calm; mkPassage Clean (After 2); calm; mkPassage (Flipped 5 1) (After 0)].
Definition late_line : Line := mkLine blank_world late_plan [].
Definition late_flash :=
  flash (H:=ptr64) (fun _ _ p => p) sample_image
    (new (uart_with_poll 2 0 (uart_new late_line)) (replicate 64 0), tt).
Definition late_device : Sim := w_sim (ln_world (uart_io (transport (fst (snd late_flash))))).

(** The answer to the second page is taken for the answer to the footer page:
    [flash] reports success, and the device has no application. The bytes of
    the image are there, which is all that VERIFY looks at. *)
Lemma late_answer_taken :
  fst late_flash = Ok tt
  /\ upd_app_valid (s_info late_device) (g_flash late_device) = Some false
  /\ take (length sample_data) (g_flash late_device) = sample_data.
Proof. by vm_compute. Qed.

(** One bit of the length byte of an INFO request: the device waits for the
    rest of a long frame and takes the three clean repeats for it. *)
Definition garbled_line : Line := mkLine blank_world [mkPassage (Flipped 1 0x80) (After 0)] [].
Definition garbled_info :=
  info (H:=ptr64) (new (uart_with_poll 5 0 (uart_new garbled_line)) (replicate 64 0)).

Lemma repeats_swallowed : fst garbled_info = Err (Error.Transport (UartExhausted 5)).
Proof. by vm_compute. Qed.
