(* ===== verification/SpiBus.v ===== *)
(** The device on an SPI bus: the clock of the host moves bytes both ways
    through the pump of [Pumps.v], whose main loop runs between two bytes unless
    the device is still at work on a request, and the stream loop of
    [DeviceLink.v] behind it. What happens to a request is a passage, as on the
    serial line ([SerialLine.v]): the device may receive other bytes for it, and
    the host may see idle or other bytes for the answer, or the answer a number
    of clocked bytes away. While every answer is that far away at most as the
    poll budget allows, no noise makes a frame and none leaves the device inside
    one, the SPI adapter on the bus is a carrier. *)
From stdpp Require Import relations.
From S2P Require Import Prelude Errors Frame Image Stream Transport Session Recorded Hal EhSpi CliDevices.
From S2P Require Import Device DeviceLink Pumps Conformance Carrier Flashing Wire EndToEnd SerialLine.
Import SpiPump.

(** ** The bus *)

(** [sb_nap] is how long the device will be at work on the next request,
    [sb_asleep] how much of that is left, both in clocked bytes; [sb_seen] is
    what the host sees, with idle bytes behind it, when that is not what the
    device sends. *)
Record SpiBus := mkSpiBus {
  sb_world : World;
  sb_io : spi_pump_t * shifter;
  sb_asleep : nat;
  sb_nap : nat;
  sb_seen : option (list Z);
  sb_plan : list Passage;
}.

(** The main loop between two bytes, as [spi_pump.h] describes it: poll the
    link; when that brought a request, drop what is left of the last answer and
    queue the new one. *)
Definition main_turn (w : SpiBus) : option SpiBus :=
  '(heard, io) ← get_byte (sb_io w);
  match heard with
  | None => Some w
  | Some b =>
    '(out, world) ← Harness.request_stream [b] (sb_world w);
    match out with
    | [] => Some (mkSpiBus world io (sb_asleep w) (sb_nap w) (sb_seen w) (sb_plan w))
    | _ =>
      io ← put_all out (spi_pump_tx_clear (fst io), snd io);
      Some (mkSpiBus world io (sb_nap w) (sb_nap w) (sb_seen w) (sb_plan w))
    end
  end.

(** The host clocks one byte. *)
Definition bus_clock (mosi : Z) (w : SpiBus) : option (Z * SpiBus) :=
  let '(miso, reg) := clock mosi (snd (sb_io w)) in
  let w' := mkSpiBus (sb_world w) (fst (sb_io w), reg) (pred (sb_asleep w)) (sb_nap w)
    (tail <$> sb_seen w) (sb_plan w) in
  w' ← match sb_asleep w with O => main_turn w' | S _ => Some w' end;
  Some (match sb_seen w with Some seen => default 0 (head seen) | None => miso end, w').

Fixpoint bus_clocks (mosi : list Z) (w : SpiBus) : option (list Z * SpiBus) :=
  match mosi with
  | [] => Some ([], w)
  | b :: mosi =>
    '(miso, w) ← bus_clock b w;
    '(misos, w) ← bus_clocks mosi w;
    Some (miso :: misos, w)
  end.

(** What a transfer clocks out, and the buffer it fills. *)
Definition mosi_of (x : SpidevTransfer) : list Z :=
  match x with XRead rx => replicate (length rx) 0 | XWrite tx | XReadWrite tx _ => tx end.
Definition is_read (x : SpidevTransfer) : bool := match x with XRead _ => true | _ => false end.
Fixpoint fill (xs : list SpidevTransfer) (miso : list Z) : list SpidevTransfer :=
  match xs with
  | [] => []
  | x :: xs =>
      let n := length (mosi_of x) in
      match x with
      | XRead rx => XRead (take n miso)
      | XWrite tx => XWrite tx
      | XReadWrite tx rx => XReadWrite tx (zip_write rx (take n miso))
      end :: fill xs (drop n miso)
  end.

Section bus.
Context `{LinePace}.

(** What the device receives for the sync byte and the request behind it. *)
Definition spoilt (p : Passage) (mosi : list Z) : list Z :=
  match mosi with [] => [] | _ :: req => sync_of p ++ noisy p req end.

(** A transfer that sends something is a request; the host looks at what comes
    after it. *)
Definition begin_request (req : list Z) (w : SpiBus) : SpiBus :=
  let p := next_passage (sb_plan w) in
  mkSpiBus (sb_world w) (sb_io w) (sb_asleep w) (ps_delay p + empty_reads req) None (tail (sb_plan w)).
Definition listens (p : Passage) (w : SpiBus) : SpiBus :=
  mkSpiBus (sb_world w) (sb_io w) (sb_asleep w) (sb_nap w)
    (match ps_answer p with After _ => None | NoAnswer => Some [] | Distorted _ raw => Some raw end) (sb_plan w).

Definition bus_transfer (xs : list SpidevTransfer) (w : SpiBus) : result unit Z * (list SpidevTransfer * SpiBus) :=
  let mosi := concat (mosi_of <$> xs) in
  let p := next_passage (sb_plan w) in
  let done :=
    if forallb is_read xs then bus_clocks mosi w
    else
      '(miso, w') ← bus_clocks (spoilt p mosi) (begin_request (tail mosi) w);
      Some (miso, listens p w') in
  match done with
  | Some (miso, w') => (Ok tt, (fill xs miso, w'))
  | None => (Err 5, (xs, w))
  end.

#[global] Instance bus_spidev : Spidev SpiBus Z := {|
  spidev_open _ w := (Ok tt, w);
  spidev_configure _ w := (Ok tt, w);
  transfer_multiple := bus_transfer;
|}.

Lemma bus_transaction req w : spi_transaction [[SYNC]; req] w =
  let p := next_passage (sb_plan w) in
  match bus_clocks (sync_of p ++ noisy p req) (begin_request req w) with
  | Some (_, w') => (Ok tt, listens p w')
  | None => (Err (SpiIo 5), w)
  end.
Proof.
  cbn [spi_transaction SpidevDevice spidev_transaction screen transfers fmap list_fmap option_fmap option_map
    transfer_multiple bus_spidev]. unfold bus_transfer. cbn [fmap list_fmap mosi_of concat app forallb is_read andb spoilt tail].
  rewrite app_nil_r. cbv zeta. by destruct (bus_clocks _ _) as [[miso w']|].
Qed.

Lemma bus_read w : spi_read [0] w =
  match bus_clock 0 w with
  | Some (miso, w') => (Ok tt, ([miso], w'))
  | None => (Err (SpiIo 5), ([0], w))
  end.
Proof.
  cbn [spi_read SpidevDevice spidev_transaction screen transfers fmap list_fmap option_fmap option_map
    transfer_multiple bus_spidev]. unfold bus_transfer. cbn [fmap list_fmap mosi_of concat app forallb is_read andb length replicate bus_clocks].
  by destruct (bus_clock 0 w) as [[miso w']|].
Qed.
End bus.

(** ** Bytes the device makes nothing of *)
Section quiet.
Context `{PtrWidth}.

(** The link hears no request in these bytes. *)
Definition unheard (world : World) (mosi : list Z) : Prop :=
  present (w_sim world) -> scan_feed 255 (link_abs (w_link world)) mosi = [].
(** What it makes of what comes after them. *)
Definition continues (world : World) (mosi : list Z) (world' : World) : Prop :=
  present (w_sim world) -> forall more,
    scan_feed 255 (link_abs (w_link world)) (mosi ++ more) = scan_feed 255 (link_abs (w_link world')) more.

Lemma unheard_piece mosi world : world_ok world -> bytes mosi -> len mosi <= 65535 -> unheard world mosi ->
  exists world', Harness.request_stream mosi world = Some ([], world') /\ world_ok world'
    /\ w_sim world' = w_sim world /\ continues world mosi world'.
Proof.
  intros Hw Hb Hl Hun. destruct (piece_read mosi world Hw Hb Hl) as (out & s & Hsv & Hgo).
  assert (out = [] /\ s = w_sim world) as [-> ->].
  { destruct (not_present (w_sim world)) as [Hpr|Hd].
    - rewrite Hun in Hsv by done. by injection Hsv as <- <-.
    - rewrite serve_silent in Hsv by done. by injection Hsv as <- <-. }
  destruct Hgo as (l & Hr & Hok & Hmore); [by vm_compute|]. exists (mkWorld (w_sim world) l). split_and!; [done..|].
  intros Hpr more. specialize (Hmore Hpr more). by rewrite (Hun Hpr) in Hmore.
Qed.

Lemma unheard_cons world b mosi : unheard world (b :: mosi) -> unheard world [b].
Proof.
  intros Hun Hpr. specialize (Hun Hpr). cbn [scan_feed] in *. repeat case_match; by simplify_eq.
Qed.
Lemma unheard_tail world b mosi world' : w_sim world' = w_sim world -> continues world [b] world' ->
  unheard world (b :: mosi) -> unheard world' mosi.
Proof. intros Hs Hc Hun Hpr. rewrite Hs in Hpr. rewrite <- (Hc Hpr mosi). by apply Hun. Qed.

(** What the host sees of [n] bytes of the device. *)
Definition shows (seen : option (list Z)) (n : nat) (bs : list Z) : list Z :=
  match seen with Some seen => take n (seen ++ replicate n 0) | None => bs end.
Lemma shows_cons seen n b bs :
  shows seen (S n) (b :: bs) = match seen with Some seen => default 0 (head seen) | None => b end :: shows (tail <$> seen) n bs.
Proof.
  destruct seen as [[|x seen]|]; [done| |done]. unfold shows. cbn [fmap option_fmap option_map tail head default app take]. unfold id.
  f_equal. exact (take_idle n (S n) seen 0 ltac:(lia)).
Qed.
Lemma shows_app n : forall seen m a b, length a = n ->
  shows seen (n + m) (a ++ b) = shows seen n a ++ shows (drop n <$> seen) m b.
Proof.
  induction n as [|n IH]; intros seen m [|x a] b Hl; try done.
  - destruct seen as [seen|]; [|done]. cbn [shows app fmap option_fmap option_map Nat.add take]. by rewrite drop_0.
  - cbn [Nat.add app]. rewrite !shows_cons, IH by (injection Hl; done). cbn [app]. f_equal. f_equal. f_equal.
    destruct seen as [[|y seen]|]; cbn; [by rewrite drop_nil|done|done].
Qed.
Lemma drop_one (seen : option (list Z)) : drop 1 <$> seen = tail <$> seen.
Proof. by destruct seen as [[]|]. Qed.
Lemma drop_tail n (seen : option (list Z)) : drop n <$> (tail <$> seen) = drop (S n) <$> seen.
Proof. destruct seen as [[]|]; cbn; by rewrite ?drop_nil. Qed.
Lemma drop_zero (seen : option (list Z)) : drop 0 <$> seen = seen.
Proof. by destruct seen. Qed.
Lemma shows_all seen n bs : (length seen <= n)%nat -> shows (Some seen) n bs = seen ++ replicate (n - length seen) 0.
Proof. intros Hl. unfold shows. rewrite take_app_ge by done. f_equal. rewrite take_replicate. f_equal. lia. Qed.

(** The bytes on their way out: the one staked and those queued. *)
Definition outgoing (w : SpiBus) : list Z := sh_out (snd (sb_io w)) :: pending (fst (sb_io w)).

(** [w'] is [w] after [k] bytes that were not heard as a request. *)
Record drifted (mosi : list Z) (w w' : SpiBus) : Prop := {
  dr_asleep : sb_asleep w' = (sb_asleep w - length mosi)%nat;
  dr_nap : sb_nap w' = sb_nap w;
  dr_seen : sb_seen w' = drop (length mosi) <$> sb_seen w;
  dr_plan : sb_plan w' = sb_plan w;
  dr_world : world_ok (sb_world w');
  dr_sim : w_sim (sb_world w') = w_sim (sb_world w);
  dr_pump : pump_inv (fst (sb_io w'));
  dr_room : len (tx_buf (fst (sb_io w'))) = len (tx_buf (fst (sb_io w)));
}.

Lemma bus_clock_unheard b w : sb_asleep w = 0%nat -> world_ok (sb_world w) -> pump_inv (fst (sb_io w)) ->
  is_u8 b -> unheard (sb_world w) [b] ->
  exists w', bus_clock b w = Some (match sb_seen w with Some seen => default 0 (head seen) | None => sh_out (snd (sb_io w)) end, w')
    /\ drifted [b] w w' /\ continues (sb_world w) [b] (sb_world w')
    /\ outgoing w' = default 0 (head (pending (fst (sb_io w)))) :: tail (pending (fst (sb_io w))).
Proof.
  intros Ha Hw Hp Hb Hun. destruct w as [world [p reg] asleep nap seen plan]; cbn [sb_asleep sb_world sb_io fst snd sb_seen] in *. subst asleep.
  destruct (get_after_clock b p reg Hp) as (p1 & Hg & Hp1 & Hq1 & Hl1 & _).
  destruct (unheard_piece [b] world) as (world' & Hr & Hw' & Hs' & Hc'); [done|by constructor|by vm_compute|done|].
  unfold bus_clock. cbn [clock fst snd sb_io sb_asleep sb_world sb_nap sb_seen sb_plan pred] in *.
  unfold main_turn. cbn [sb_io sb_world sb_nap sb_seen sb_plan sb_asleep]. rewrite Hg. cbn [mbind option_bind]. rewrite Hr. cbn [mbind option_bind].
  eexists. split; [done|]. split_and!; [by split|done|]. unfold outgoing. cbn [sb_io fst snd sh_out]. by rewrite Hq1.
Qed.

Lemma bus_clocks_unheard mosi : forall w, sb_asleep w = 0%nat -> world_ok (sb_world w) -> pump_inv (fst (sb_io w)) ->
  bytes mosi -> unheard (sb_world w) mosi ->
  exists w', bus_clocks mosi w
      = Some (shows (sb_seen w) (length mosi) (take (length mosi) (outgoing w ++ replicate (length mosi) 0)), w')
    /\ drifted mosi w w' /\ continues (sb_world w) mosi (sb_world w')
    /\ outgoing w' = default 0 (outgoing w !! length mosi) :: drop (S (length mosi)) (outgoing w).
Proof.
  induction mosi as [|b mosi IH]; intros w Ha Hw Hp Hb Hun; cbn [bus_clocks].
  { exists w. split; [by destruct (sb_seen w)|]. split_and!; [|done|done].
    split; try done; [cbn; lia|]. by rewrite drop_zero. }
  apply bytes_cons in Hb as [Hb Hbs].
  destruct (bus_clock_unheard b w Ha Hw Hp Hb) as (w1 & -> & Hdr1 & Hc1 & Ho1); [by eapply unheard_cons|].
  pose proof Hdr1 as [Ha1 Hn1 Hm1 Hpl1 Hw1 Hsim1 Hp1 Hr1]. cbn [mbind option_bind].
  destruct (IH w1) as (w2 & -> & Hdr2 & Hc2 & Ho2); [rewrite Ha1; cbn; lia|done..|by eapply unheard_tail|].
  pose proof Hdr2 as [Ha2 Hn2 Hm2 Hpl2 Hw2 Hsim2 Hp2 Hr2]. cbn [mbind option_bind]. exists w2. rewrite Hm1. split_and!.
  - assert (take (length mosi) (outgoing w1 ++ replicate (length mosi) 0)
      = take (length mosi) (pending (fst (sb_io w)) ++ replicate (S (length mosi)) 0)) as ->.
    { rewrite Ho1. destruct (pending (fst (sb_io w))) as [|c q]; [by destruct mosi|].
      symmetry. exact (take_idle (length mosi) (S (length mosi)) (c :: q) 0 ltac:(lia)). }
    unfold outgoing. cbn [app take]. change (length (b :: mosi)) with (S (length mosi)). rewrite firstn_cons, shows_cons.
    change (length [b]) with 1%nat. by rewrite drop_one.
  - split; try done; try congruence; [rewrite Ha2, Ha1; cbn; lia|]. rewrite Hm2, Hm1.
    change (length [b]) with 1%nat. by rewrite drop_one, drop_tail.
  - intros Hpr more. pose proof (Hc1 Hpr (mosi ++ more)) as Heq. cbn [app] in *. rewrite Heq. apply Hc2. by rewrite Hsim1.
  - rewrite Ho2, Ho1. unfold outgoing. destruct (pending (fst (sb_io w))) as [|c q]; cbn [head tail default lookup list_lookup length drop]; [|done].
    destruct (length mosi); cbn; by rewrite ?lookup_nil, ?drop_nil.
Qed.

Lemma bus_clocks_app a : forall b w, bus_clocks (a ++ b) w =
  '(m1, w) ← bus_clocks a w; '(m2, w) ← bus_clocks b w; Some (m1 ++ m2, w).
Proof.
  induction a as [|x a IH]; intros b w; cbn [app bus_clocks mbind option_bind].
  { by destruct (bus_clocks b w) as [[]|]. }
  destruct (bus_clock x w) as [[miso w1]|]; cbn [mbind option_bind]; [|done]. rewrite IH.
  destruct (bus_clocks a w1) as [[m1 w2]|]; cbn [mbind option_bind]; [|done].
  by destruct (bus_clocks b w2) as [[m2 w3]|].
Qed.

(** While the device is at work, the host sees the staked byte again and
    again, and what it sends is lost. *)
Lemma bus_clocks_asleep mosi : forall w, (length mosi <= sb_asleep w)%nat ->
  exists reg, bus_clocks mosi w
      = Some (shows (sb_seen w) (length mosi) (replicate (length mosi) (sh_out (snd (sb_io w)))),
              mkSpiBus (sb_world w) (fst (sb_io w), reg) (sb_asleep w - length mosi) (sb_nap w) (drop (length mosi) <$> sb_seen w) (sb_plan w))
    /\ sh_out reg = sh_out (snd (sb_io w)).
Proof.
  induction mosi as [|b mosi IH]; intros [world [p reg] asleep nap seen plan] Hle;
    cbn [sb_asleep sb_world sb_io fst snd sb_seen sb_nap sb_plan length bus_clocks] in *.
  { exists reg. rewrite Nat.sub_0_r, drop_zero. by destruct seen. }
  destruct asleep as [|asleep]; [lia|]. unfold bus_clock. cbn [clock fst snd sb_io sb_asleep sb_world sb_nap sb_seen sb_plan pred mbind option_bind].
  destruct (IH (mkSpiBus world (p, mkShifter (sh_out reg) b true) asleep nap (tail <$> seen) plan)) as (reg' & Hc & Ho); [cbn; lia|].
  rewrite Hc. cbn [mbind option_bind sb_asleep sb_world sb_io fst snd sb_seen sb_nap sb_plan sh_out replicate] in *.
  exists reg'. by rewrite shows_cons, drop_tail.
Qed.

Lemma scan_zeros cap n more : scan_feed cap Hunting (replicate n 0 ++ more) = scan_feed cap Hunting more.
Proof. induction n as [|n IH]; [done|]. exact IH. Qed.

(** The device between two requests, with an answer on its way out. *)
Record answering (n : nat) (q : list Z) (w : SpiBus) : Prop := {
  an_world : world_ok (sb_world w);
  an_link : present (w_sim (sb_world w)) -> fresh (w_link (sb_world w));
  an_plan : Forall passage_ok (sb_plan w);
  an_pump : pump_inv (fst (sb_io w));
  an_room : 21 <= len (tx_buf (fst (sb_io w)));
  an_out : outgoing w = 0 :: q;
  an_asleep : sb_asleep w = n;
}.

Lemma fresh_abs world more : world_ok world -> present (w_sim world) -> fresh (w_link world) -> bytes more ->
  scan_feed 255 (link_abs (w_link world)) more = scan_feed 255 Hunting more.
Proof. intros [_ _ Hcap] Hpr Hf Hm. specialize (Hf more Hm). by rewrite Hcap in Hf. Qed.

(** The host clocks idle bytes. *)
Lemma bus_reads n k q w : answering n q w -> (length q <= k)%nat ->
  exists w', bus_clocks (replicate (n + S k) 0) w
      = Some (shows (sb_seen w) (n + S k) (replicate (S n) 0 ++ q ++ replicate (k - length q) 0), w')
    /\ answering 0 [] w' /\ w_sim (sb_world w') = w_sim (sb_world w) /\ sb_plan w' = sb_plan w.
Proof.
  intros [Hw Hf Hpl Hp Hr Ho Ha] Hk. rewrite replicate_add, bus_clocks_app.
  destruct (bus_clocks_asleep (replicate n 0) w) as (reg & -> & Hreg); [rewrite length_replicate; lia|].
  cbn [mbind option_bind]. rewrite length_replicate, Ha, Nat.sub_diag.
  set (w1 := mkSpiBus _ _ _ _ _ _). injection Ho as Ho1 Hq.
  assert (outgoing w1 = 0 :: q) as Ho' by (unfold outgoing, w1; cbn [sb_io fst snd]; congruence).
  destruct (bus_clocks_unheard (replicate (S k) 0) w1) as (w2 & -> & Hdr & Hc & Ho2); [done..| | |].
  { apply bytes_replicate. lia. }
  { intros Hpr. rewrite (fresh_abs (sb_world w)) by (done || auto || apply bytes_replicate; lia).
    rewrite <- (app_nil_r (replicate _ _)). by rewrite scan_zeros. }
  cbn [mbind option_bind]. rewrite length_replicate, Ho' in *. exists w2.
  destruct Hdr as [Ha2 _ _ Hpl2 Hw2 Hsim2 Hp2 Hr2]. split; [|split_and!; [|done|done]].
  - do 2 f_equal. rewrite Ho1. change (sb_seen w1) with (drop n <$> sb_seen w).
    rewrite <- shows_app by (by rewrite length_replicate). f_equal.
    assert (forall l, replicate n 0 ++ 0 :: l = replicate (S n) 0 ++ l) as Hend
      by (intros; by rewrite replicate_S_end, <- app_assoc).
    cbn [app take]. rewrite Hend. f_equal. rewrite take_app_ge by lia. f_equal. rewrite take_replicate. f_equal. lia.
  - split; [done| | |done|by rewrite Hr2| |by rewrite Ha2].
    + rewrite Hsim2. intros Hpr more Hm. pose proof Hw2 as [_ _ Hcap2]. rewrite Hcap2, <- (Hc Hpr more).
      rewrite (fresh_abs (sb_world w)), scan_zeros; [done..|by apply Hf|]. apply bytes_app. split; [|done]. apply bytes_replicate. lia.
    + by rewrite Hpl2.
    + rewrite Ho2, lookup_ge_None_2, drop_ge by (cbn; lia). done.
Qed.
End quiet.

(** ** A request on the bus *)
Section request.
Context `{PtrWidth, LinePace}.

(** A frame found in a stream is shorter than the stream. *)
Lemma scan_feed_short cap s : forall st f, f ∈ scan_feed cap st s ->
  (length f <= match st with Hunting => 0 | Collecting acc => 1 + length acc end + length s - 1)%nat.
Proof.
  induction s as [|b s IH]; intros st f; cbn [scan_feed]; [by intros ?%elem_of_nil|].
  assert (forall acc, f ∈ scan_feed cap (Collecting acc) s -> (length f <= length acc + length s)%nat) as Hc
    by (intros acc Hin; apply IH in Hin; lia).
  assert (f ∈ scan_feed cap Hunting s -> (length f <= length s)%nat) as Hh by (intros Hin; apply IH in Hin; lia).
  destruct st as [|acc]; cbn [scan_step].
  - destruct (_ && _); [intros ?%Hc|intros ?%Hh]; cbn in *; lia.
  - repeat case_match; simplify_eq; cbn [length];
      first [intros ?%Hh; lia|intros Hin%Hc; rewrite length_app in Hin; cbn in Hin; lia
            |intros [->|?%Hh]%elem_of_cons; rewrite ?length_app; cbn; lia].
Qed.

Lemma begin_answering req w : answering 0 [] w -> answering 0 [] (begin_request req w).
Proof. intros [Hw Hf Hp Hpu Hr Ho Ha]. split; try done. by apply Forall_tail. Qed.
Lemma listens_answering p n q w : answering n q w -> answering n q (listens p w).
Proof. by intros [Hw Hf Hp Hpu Hr Ho Ha]. Qed.

(** A request the device cannot read. *)
Lemma bus_garbled g w : answering 0 [] w -> bytes g -> makes g [] ->
  exists miso w', bus_clocks g w = Some (miso, w')
    /\ answering 0 [] w' /\ w_sim (sb_world w') = w_sim (sb_world w) /\ sb_plan w' = sb_plan w.
Proof.
  intros [Hw Hf Hpl Hp Hr Ho Ha] Hb Hmk. destruct (bus_clocks_unheard g w) as (w' & -> & Hdr & Hc & Ho'); [done..| |].
  { intros Hpr. rewrite fresh_abs by auto. rewrite <- (app_nil_r g). by apply (Hmk []); constructor. }
  destruct Hdr as [Ha2 _ _ Hpl2 Hw2 Hsim2 Hp2 Hr2]. eexists _, w'. split; [done|]. split_and!; [|done|done].
  split; [done| |by rewrite Hpl2|done|by rewrite Hr2| |by rewrite Ha2, Ha].
  - rewrite Hsim2. intros Hpr more Hm. pose proof Hw2 as [_ _ Hcap2]. rewrite Hcap2, <- (Hc Hpr more).
    rewrite fresh_abs; [by apply (Hmk more)|done|done|by apply Hf|]. by apply bytes_app.
  - rewrite Ho', Ho. destruct g as [|x g]; [done|]. by rewrite lookup_ge_None_2, drop_ge by (cbn; lia).
Qed.

(** The byte a request is complete with. *)
Lemma bus_clock_heard b w out s l' : sb_asleep w = 0%nat -> pump_inv (fst (sb_io w)) -> pending (fst (sb_io w)) = [] ->
  Harness.request_stream [b] (sb_world w) = Some (out, mkWorld s l') -> len out <= len (tx_buf (fst (sb_io w))) ->
  exists miso io, bus_clock b w = Some (miso,
      mkSpiBus (mkWorld s l') io (match out with [] => 0 | _ => sb_nap w end) (sb_nap w) (tail <$> sb_seen w) (sb_plan w))
    /\ pump_inv (fst io) /\ len (tx_buf (fst io)) = len (tx_buf (fst (sb_io w)))
    /\ sh_out (snd io) = 0 /\ pending (fst io) = out.
Proof.
  intros Ha Hp Hq Hreq Hout. destruct w as [world [p reg] asleep nap seen plan];
    cbn [sb_asleep sb_world sb_io fst snd sb_nap sb_seen sb_plan] in *. subst asleep.
  destruct (get_after_clock b p reg Hp) as (p1 & Hg & Hp1 & Hq1 & Hl1 & _). rewrite Hq in *.
  unfold bus_clock. cbn [clock fst snd sb_io sb_asleep sb_world sb_nap sb_seen sb_plan pred] in *. unfold main_turn.
  cbn [sb_io sb_world sb_nap sb_seen sb_plan sb_asleep]. rewrite Hg. cbn [mbind option_bind head default]. rewrite Hreq.
  cbn [mbind option_bind]. destruct out as [|o out].
  { eexists _, (p1, _). split; [done|]. by split_and!. }
  destruct (tx_clear_spec p1 Hp1) as (Hpc & Hqc & Hrc).
  destruct (put_all_spec (o :: out) (spi_pump_tx_clear p1) (mkShifter SPI_PUMP_IDLE b false)) as (p2 & Hput & Hp2 & Hq2 & _ & Hl2);
    [done|lia|].
  cbn [fst snd]. rewrite Hput. cbn [mbind option_bind]. eexists _, (p2, _). split; [done|].
  split_and!; [done|cbn [fst]; rewrite Hl2; exact Hl1|done|]. cbn [fst]. by rewrite Hq2, Hqc.
Qed.

(** A request the device hears: it is handled with its last byte, and the
    answer queued. *)
Lemma bus_heard tx w out d' : answering 0 [] w -> bytes tx -> tx <> [] -> makes (SYNC :: tx) [tx] ->
  serve [tx] (w_sim (sb_world w)) = Some (out, d') -> len out <= 21 ->
  exists miso w', bus_clocks (SYNC :: tx) w = Some (miso, w')
    /\ answering (match out with [] => 0 | _ => sb_nap w end) out w'
    /\ w_sim (sb_world w') = d' /\ sb_plan w' = sb_plan w.
Proof.
  intros [Hw Hf Hpl Hp Hr Ho Ha] Hb Hne Hmk Hsv Hout. assert (bytes (SYNC :: tx)) as Hbs by (by apply bytes_cons).
  set (d := w_sim (sb_world w)) in *.
  destruct (exists_last (l:=SYNC :: tx)) as (pre & b & Hpre); [done|].
  assert (forall more, present d -> bytes more ->
    scan_feed 255 (link_abs (w_link (sb_world w))) ((SYNC :: tx) ++ more) = tx :: scan_feed 255 Hunting more) as Hall.
  { intros more Hpr Hm. rewrite fresh_abs; [by apply (Hmk more)|done|done|by apply Hf|by apply bytes_app]. }
  rewrite Hpre in *. apply bytes_app in Hbs as [Hbp Hbb].
  destruct (bus_clocks_unheard pre w) as (w1 & Hpre1 & Hdr & Hc & Ho1); [done..| |].
  { intros Hpr. destruct (scan_feed 255 _ pre) as [|f fs] eqn:Hs; [done|exfalso].
    rewrite fresh_abs in Hs by auto. assert (f ∈ scan_feed 255 Hunting pre) as Hin by (rewrite Hs; left).
    apply scan_feed_short in Hin. pose proof (scan_feed_app 255 pre [b] Hunting) as Hmore.
    specialize (Hall [] Hpr ltac:(constructor)). rewrite app_nil_r, fresh_abs, Hmore, Hs in Hall; [|by auto..|by apply bytes_app].
    injection Hall as <- _. apply (f_equal length) in Hpre. rewrite length_app in Hpre. cbn in Hpre. destruct f; [done|]. cbn in *. lia. }
  pose proof Hdr as [Ha1 Hn1 Hm1 Hpl1 Hw1 Hsim1 Hp1 Hr1]. apply bytes_cons in Hbb as Hb1.
  destruct (piece_read [b] (sb_world w1) Hw1 Hbb) as (out1 & s1 & Hsv1 & Hgo); [by vm_compute|].
  assert (present d -> scan_feed 255 (link_abs (w_link (sb_world w1))) [b] = [tx]) as Hlast.
  { intros Hpr. rewrite <- (Hc Hpr [b]). specialize (Hall [] Hpr ltac:(constructor)). by rewrite app_nil_r in Hall. }
  assert (out1 = out /\ s1 = d') as [-> ->].
  { rewrite Hsim1 in Hsv1. fold d in Hsv1. destruct (not_present d) as [Hpr|Hd].
    - rewrite Hlast, Hsv in Hsv1 by done. by injection Hsv1 as <- <-.
    - rewrite serve_silent in Hsv, Hsv1 by done. split; congruence. }
  destruct Hgo as (l' & Hreq & Hw2 & Hmore); [change STREAM_RESP_CAP with 512; lia|].
  assert (present d' -> fresh l') as Hfresh.
  { intros Hpr' more Hm. pose proof Hw2 as [_ _ Hcap2]. cbn [w_link] in Hcap2. rewrite Hcap2.
    assert (present d) as Hpr.
    { destruct (not_present d) as [|Hd]; [done|]. rewrite serve_silent in Hsv by done. injection Hsv as _ <-. done. }
    specialize (Hmore Hpr' more). rewrite (Hlast Hpr), <- (Hc Hpr ([b] ++ more)), app_assoc, (Hall more Hpr Hm) in Hmore.
    by apply (app_inv_head [tx]) in Hmore. }
  assert (sb_asleep w1 = 0%nat) as Ha1' by lia.
  assert (outgoing w1 = [0]) as Ho1'.
  { rewrite Ho1, Ho. destruct pre; [done|]. cbn [length]. by rewrite lookup_ge_None_2, drop_ge by (cbn; lia). }
  injection Ho1' as _ Hq1. destruct (bus_clock_heard b w1 out d' l') as (miso & io & Hclk & Hpio & Hlio & Hsh & Hq);
    [done..|lia|].
  rewrite bus_clocks_app, Hpre1. cbn [mbind option_bind bus_clocks]. rewrite Hclk. cbn [mbind option_bind].
  eexists _, _. split; [done|]. split_and!; [|done..]. rewrite Hn1.
  split; cbn [sb_world sb_io sb_asleep sb_plan]; [done|exact Hfresh|by rewrite Hpl1|done|lia| |done].
  unfold outgoing. cbn [sb_io]. by rewrite Hsh, Hq.
Qed.
End request.

(** ** A request of the adapter *)
Section adapter.
Context `{PtrWidth, LinePace} {delay : DelayNs SpiBus} {Hstill : Still delay}.
Implicit Types t : SpiTransport SpiBus.

Lemma bus_read_byte miso w w' : bus_clock 0 w = Some (miso, w') -> spi_read [0] w = (Ok tt, ([miso], w')).
Proof. intros Hc. by rewrite bus_read, Hc. Qed.

Lemma after_window bs : forall sc rsp, scan_inv sc rsp -> slice rsp -> bytes bs ->
  let rsp' := snd (after sc rsp bs) in len rsp' = len rsp /\ slice rsp'.
Proof.
  induction bs as [|b bs IH]; intros sc rsp Hinv Hs Hb; cbn [after]; [done|]. apply bytes_cons in Hb as [Hb Hbs].
  destruct (push sc b rsp) as [o [sc1 rsp1]] eqn:Hp. destruct (push_measure sc b rsp o sc1 rsp1) as (Hi & Hs1 & Hl & _); [done..|].
  destruct (IH sc1 rsp1 Hi Hs1 Hbs) as [Hl' Hs']. cbv zeta. split; [congruence|done].
Qed.

(** What is clocked in ends in a frame. *)
Lemma spi_loop_reads bs : forall fuel t sc a rsp n w',
  spi_ok t -> scan_inv sc rsp -> slice rsp -> bytes bs ->
  0 <= a -> a + junk (outcomes sc rsp bs) < spi_poll_attempts t ->
  ends_done (outcomes sc rsp bs) n -> bus_clocks (replicate (length bs) 0) (spi_hal t) = Some (bs, w') ->
  (length bs <= fuel)%nat ->
  spi_loop fuel t sc a rsp = Some (Ok n, (spi_with_hal t w', snd (after sc rsp bs))).
Proof.
  induction bs as [|b bs IH]; intros fuel t sc a rsp n w' Hok Hinv Hs Hbs Ha Hj Hd Hclk Hf.
  { by destruct Hd as ([] & ? & _). }
  destruct fuel as [|fuel]; simpl in Hf; [lia|]. apply bytes_cons in Hbs as [Hb Hbs].
  cbn [length replicate bus_clocks] in Hclk. destruct (bus_clock 0 (spi_hal t)) as [[miso w1]|] eqn:H1; [|done].
  cbn [mbind option_bind] in Hclk. destruct (bus_clocks _ w1) as [[misos w2]|] eqn:H2; [|done]. cbn [mbind option_bind] in Hclk.
  injection Hclk as -> -> ->. cbn [spi_loop]. rewrite (bus_read_byte _ _ _ H1). change (default 0 ([b] !! 0%nat)) with b.
  cbn [outcomes after] in *. destruct (push sc b rsp) as [o [sc1 rsp1]] eqn:Hp.
  destruct (push_measure sc b rsp o sc1 rsp1) as (Hinv1 & Hs1 & _); [done..|].
  rewrite junk_cons in Hj. pose proof (junk_nonneg (outcomes sc1 rsp1 bs)). unfold spi_ok in Hok.
  apply ends_done_cons in Hd as [[Hnil ->]|[Hno Hd]].
  { assert (bs = []) as -> by (destruct bs; cbn [outcomes] in Hnil; repeat case_match; done).
    injection H2 as ->. done. }
  assert (forall ns a1, 0 <= a1 -> a1 + junk (outcomes sc1 rsp1 bs) < spi_poll_attempts t ->
    spi_loop fuel (spi_with_hal t (delay_ns ns w1)) sc1 a1 rsp1 = Some (Ok n, (spi_with_hal t w', snd (after sc1 rsp1 bs)))) as Hnext.
  { intros ns a1 Ha1 Hj1. rewrite still. by apply (IH fuel (spi_with_hal t w1)); try done; lia. }
  destruct o as [| |k|]; cbn [is_junk] in Hj; [|by apply Hnext; lia|by destruct (Hno k)|];
    unfold u32_wrapping_add; rewrite Z.mod_small by lia; (zcase; [lia|]); apply Hnext; lia.
Qed.

(** What is clocked in holds no frame: the budget is used up. *)
Lemma spi_loop_noise fuel : forall t sc a rsp bs w', spi_ok t -> scan_inv sc rsp -> slice rsp -> bytes bs ->
  (forall n, Scan.Done n ∉ outcomes sc rsp bs) -> 0 <= a < spi_poll_attempts t -> 1 <= rx_left sc rsp ->
  (spi_poll_attempts t - 1 - a) * 256 + rx_left sc rsp <= Z.of_nat fuel -> (fuel <= length bs)%nat ->
  bus_clocks (replicate (length bs) 0) (spi_hal t) = Some (bs, w') ->
  exists m miso w1 rsp', (m <= length bs)%nat /\ spi_poll_attempts t - a <= Z.of_nat m
    /\ bus_clocks (replicate m 0) (spi_hal t) = Some (miso, w1)
    /\ spi_loop fuel t sc a rsp = Some (Err (SpiExhausted (spi_poll_attempts t)), (spi_with_hal t w1, rsp'))
    /\ len rsp' = len rsp /\ bytes rsp'.
Proof.
  induction fuel as [|fuel IH]; intros t sc a rsp [|b bs] w' Hok Hinv Hs Hbs Hno Ha Hleft Hf Hle Hclk;
    cbn [length] in *; try lia. apply bytes_cons in Hbs as [Hb Hbs].
  cbn [replicate bus_clocks] in Hclk. destruct (bus_clock 0 (spi_hal t)) as [[miso w1]|] eqn:H1; [|done].
  cbn [mbind option_bind] in Hclk. destruct (bus_clocks _ w1) as [[misos w2]|] eqn:H2; [|done]. cbn [mbind option_bind] in Hclk.
  injection Hclk as -> -> ->. cbn [spi_loop]. rewrite (bus_read_byte _ _ _ H1). change (default 0 ([b] !! 0%nat)) with b.
  cbn [outcomes] in Hno. destruct (push sc b rsp) as [o [sc1 rsp1]] eqn:Hp.
  destruct (push_measure sc b rsp o sc1 rsp1) as (Hinv1 & Hs1 & Hl1 & Hleft1 & Hdec); [done..|].
  change PAYLOAD_MAX with 252 in Hleft1. change FRAME_OVERHEAD with 3 in Hleft1. unfold spi_ok in Hok.
  assert (forall n, Scan.Done n ∉ outcomes sc1 rsp1 bs) as Hno1 by (intros n Hn; apply (Hno n); by right).
  assert (forall ns a1, a <= a1 <= a + 1 -> a1 < spi_poll_attempts t ->
    (spi_poll_attempts t - 1 - a1) * 256 + rx_left sc1 rsp1 <= Z.of_nat fuel ->
    exists m miso w1' rsp', (m <= S (length bs))%nat /\ spi_poll_attempts t - a <= Z.of_nat m
      /\ bus_clocks (replicate m 0) (spi_hal t) = Some (miso, w1')
      /\ spi_loop fuel (spi_with_hal t (delay_ns ns w1)) sc1 a1 rsp1
         = Some (Err (SpiExhausted (spi_poll_attempts t)), (spi_with_hal t w1', rsp'))
      /\ len rsp' = len rsp /\ bytes rsp') as Hnext.
  { intros ns a1 Ha1 Hlt Hf1. rewrite still.
    destruct (IH (spi_with_hal t w1) sc1 a1 rsp1 bs w') as (m & miso & w3 & rsp' & Hm & Ham & Hc & Hloop & Hl' & Hb');
      try done; cbn [spi_with_hal spi_poll_attempts] in *; [lia..|].
    exists (S m), (b :: miso), w3, rsp'. split_and!; [lia|lia| |done|lia|done].
    cbn [replicate bus_clocks]. rewrite H1. cbn [mbind option_bind spi_hal spi_with_hal] in *. by rewrite Hc. }
  assert (u32_wrapping_add a 1 = a + 1) as Hadd by (apply Z.mod_small; lia).
  assert (spi_poll_attempts t <= a + 1 -> exists m miso w1' rsp', (m <= S (length bs))%nat /\ spi_poll_attempts t - a <= Z.of_nat m
      /\ bus_clocks (replicate m 0) (spi_hal t) = Some (miso, w1')
      /\ Some (Err (A:=Z) (SpiExhausted (E:=SpiError Z) (a + 1)), (spi_with_hal t w1, rsp1))
         = Some (Err (SpiExhausted (spi_poll_attempts t)), (spi_with_hal t w1', rsp'))
      /\ len rsp' = len rsp /\ bytes rsp') as Hlast.
  { intros Hge. exists 1%nat, [b], w1, rsp1. split_and!; [lia|lia| |do 4 f_equal; lia|done|by destruct Hs1].
    cbn [replicate bus_clocks]. by rewrite H1. }
  destruct o as [| |n|]; [| |destruct (Hno n); by left|]; rewrite ?Hadd.
  - zcase; [by apply Hlast|]. apply Hnext; lia.
  - specialize (Hdec eq_refl). apply Hnext; lia.
  - zcase; [by apply Hlast|]. apply Hnext; lia.
Qed.

(** What the host sees holds no frame, however long it clocks. *)
Definition nothing_seen (seen : option (list Z)) (q : list Z) : Prop :=
  match seen with
  | Some raw => bytes raw /\ forall k, frameless (raw ++ replicate k 0) = true
  | None => q = []
  end.
Lemma nothing_shown seen q n k : nothing_seen seen q -> (length q <= k)%nat ->
  (length (default [] seen) <= n + S k)%nat ->
  let bs := shows seen (n + S k) (replicate (S n) 0 ++ q ++ replicate (k - length q) 0) in
  bytes bs /\ frameless bs = true /\ length bs = (n + S k)%nat.
Proof.
  intros Hn Hq Hl. destruct seen as [raw|]; cbn [nothing_seen default] in *; cbv zeta.
  - destruct Hn as [Hb Hf]. rewrite shows_all by done. split_and!; [|done|rewrite length_app, length_replicate; unfold id in *; lia].
    apply bytes_app. split; [done|]. apply bytes_replicate. lia.
  - subst q. cbn [shows app length]. rewrite Nat.sub_0_r, <- replicate_add. split_and!; [apply bytes_replicate; lia|apply frameless_zeros|].
    rewrite length_replicate. lia.
Qed.

(** The host clocks until its budget is used up. *)
Lemma bus_exhausts t rsp n q : spi_ok t -> answering n q (spi_hal t) -> slice rsp -> nothing_seen (sb_seen (spi_hal t)) q ->
  Z.of_nat n + len q < spi_poll_attempts t ->
  exists w' rsp', spi_loop (spi_fuel t) t rx_new 0 rsp = Some (Err (SpiExhausted (spi_poll_attempts t)), (spi_with_hal t w', rsp'))
    /\ len rsp' = len rsp /\ bytes rsp'
    /\ answering 0 [] w' /\ w_sim (sb_world w') = w_sim (sb_world (spi_hal t)) /\ sb_plan w' = sb_plan (spi_hal t).
Proof.
  intros Hok Han Hs Hseen Hlt. unfold spi_ok, len in *. set (k := (spi_fuel t + length q + length (default [] (sb_seen (spi_hal t))))%nat).
  destruct (nothing_shown _ q n k Hseen) as (Hb & Hf & Hl); [unfold k; lia..|].
  destruct (bus_reads n k q (spi_hal t) Han) as (w' & Hclk & _); [unfold k; lia|].
  set (bs := shows _ _ _) in *. rewrite <- Hl in Hclk.
  destruct (spi_loop_noise (spi_fuel t) t rx_new 0 rsp bs w') as (m & miso & w1 & rsp' & Hm & Ham & Hc & Hloop & Hlr & Hbr);
    try done; [intros j; by apply frameless_outcomes|lia|..].
  - unfold spi_fuel, rx_left. cbn [rx_new rx_in_frame]. change PAYLOAD_MAX with 252. change FRAME_OVERHEAD with 3. cbn. lia.
  - rewrite Hl. unfold k. lia.
  - destruct (bus_reads n (m - S n) q (spi_hal t) Han) as (w2 & Hclk2 & Hrest); [lia|].
    replace (n + S (m - S n))%nat with m in Hclk2 by lia. rewrite Hc in Hclk2. injection Hclk2 as _ ->.
    exists w2, rsp'. destruct Hrest as (? & ? & ?). by split_and!.
Qed.

(** The answer is clocked in, behind idle bytes. *)
Lemma bus_answers t rsp n cmd p : spi_ok t -> answering n (link_send (wire cmd p)) (spi_hal t) -> sb_seen (spi_hal t) = None ->
  Z.of_nat n + 1 < spi_poll_attempts t -> is_u8 cmd -> bytes p -> len p <= 17 -> slice rsp -> len p + 3 <= len rsp ->
  exists w' rsp', spi_loop (spi_fuel t) t rx_new 0 rsp = Some (Ok (len p + 3), (spi_with_hal t w', rsp'))
    /\ len rsp' = len rsp /\ bytes rsp' /\ take (length (wire cmd p)) rsp' = wire cmd p
    /\ answering 0 [] w' /\ w_sim (sb_world w') = w_sim (sb_world (spi_hal t)) /\ sb_plan w' = sb_plan (spi_hal t).
Proof.
  intros Hok Han Hmu Hlt Hc Hp Hl Hs Hfit. pose proof (len_wire cmd p) as Hlw. pose proof (len_nonneg p).
  destruct (bus_reads n (length (link_send (wire cmd p))) _ (spi_hal t) Han) as (w' & Hclk & Hrest); [done|].
  rewrite Hmu, Nat.sub_diag, app_nil_r in Hclk. cbn [shows] in Hclk. set (noise := replicate (S n) 0) in *.
  assert (bytes noise) as Hnb by (apply bytes_replicate; lia).
  assert (Forall (fun b => b <> SYNC) noise) as Hns by (apply Forall_replicate; by vm_compute).
  assert (len p <= PAYLOAD_MAX) as Hmax by (change PAYLOAD_MAX with 252; lia).
  destruct (frame_ends_done rsp noise cmd p) as [Hd Hj]; [done..|].
  assert (bytes (noise ++ SYNC :: wire cmd p)) as Hnw.
  { apply bytes_app. split; [done|]. apply bytes_cons. split; [by unfold SYNC|]. apply wire_bytes; [done..|lia]. }
  destruct (after_window (noise ++ SYNC :: wire cmd p) rx_new rsp) as [Hlr [Hbr _]]; [done..|].
  eexists w', _. split; [|split_and!; [exact Hlr|exact Hbr|by apply after_frame|apply Hrest..]].
  apply spi_loop_reads; [done..|exact Hnw| |rewrite Hj; subst noise; unfold len; rewrite length_replicate; lia|exact Hd| |].
  - lia.
  - rewrite length_app. subst noise. rewrite length_replicate. unfold link_send in Hclk.
    replace (S n + length (SYNC :: wire cmd p))%nat with (n + S (length (UPD_LINK_SYNC :: wire cmd p)))%nat by (cbn; lia).
    exact Hclk.
  - subst noise. rewrite length_app, length_replicate. unfold spi_fuel, spi_ok, len in *. cbn [length]. lia.
Qed.

(** The answer, if there is one, is clocked out before the adapter gives up. *)
Definition clocked_in_time (req : list Z) t (p : Passage) : Prop :=
  Z.of_nat (ps_delay p + empty_reads req) + 22 <= spi_poll_attempts t.

(** What becomes of a request frame. *)
Definition bus_exchanged (cmd : Z) (payload rsp : list Z) t r t' rsp' : Prop :=
  let w := spi_hal t in
  let w' := spi_hal t' in
  let d := w_sim (sb_world w) in
  let d' := w_sim (sb_world w') in
  t' = spi_with_hal t w' /\ answering 0 [] w' /\ sb_plan w' = tail (sb_plan w) /\ len rsp' = len rsp /\ bytes rsp'
  /\ ((exists raw, sim_request (wire cmd payload) d = Some (raw, d')
         /\ understood (E:=SpiTransportError (SpiError Z)) cmd (wire cmd payload) raw r rsp')
      \/ fault_of (next_passage (sb_plan w)) <> Delivered /\ (exists e, r = Err e) /\ (d' = d \/ hear cmd payload d d')).

Lemma bus_sent t req rsp miso w1 : let p := next_passage (sb_plan (spi_hal t)) in
  bus_clocks (sync_of p ++ noisy p req) (begin_request req (spi_hal t)) = Some (miso, w1) ->
  spi_request t req rsp = spi_loop (spi_fuel t) (spi_with_hal t (listens p w1)) rx_new 0 rsp.
Proof. intros p Hc. unfold spi_request. rewrite bus_transaction. cbv zeta. fold p. by rewrite Hc. Qed.

(** What the host sees after a request. *)
Lemma listens_seen p q w : passage_ok p -> q = [] \/ (forall n, ps_answer p <> After n) -> nothing_seen (sb_seen (listens p w)) q.
Proof.
  intros [_ Hh] Hq. cbn [listens sb_seen]. destruct (ps_answer p) as [|n|n raw].
  - split; [by constructor|]. intros k. apply frameless_zeros.
  - destruct Hq as [->|Hn]; [done|by destruct (Hn n)].
  - done.
Qed.

(** Nothing comes, or nothing of use. *)
Lemma bus_fruitless t req rsp miso w1 n q : let p := next_passage (sb_plan (spi_hal t)) in
  spi_ok t -> passage_ok p -> slice rsp -> clocked_in_time req t p ->
  bus_clocks (sync_of p ++ noisy p req) (begin_request req (spi_hal t)) = Some (miso, w1) ->
  answering n q w1 -> (n <= ps_delay p + empty_reads req)%nat -> len q <= 21 -> q = [] \/ (forall n, ps_answer p <> After n) ->
  exists w2 rsp', request t req rsp = (Err (SpiExhausted (spi_poll_attempts t)), (spi_with_hal t w2, rsp'))
    /\ len rsp' = len rsp /\ bytes rsp'
    /\ answering 0 [] w2 /\ w_sim (sb_world w2) = w_sim (sb_world w1) /\ sb_plan w2 = sb_plan w1.
Proof.
  intros p Hok Hp Hs Htime Hc Han Hn Hq Hwhy. unfold clocked_in_time in Htime.
  destruct (bus_exhausts (spi_with_hal t (listens p w1)) rsp n q) as (w2 & rsp' & Hloop & Hrest);
    [done|by apply listens_answering|done|by apply listens_seen|cbn [spi_with_hal spi_poll_attempts]; lia|].
  exists w2, rsp'. split; [|exact Hrest]. unfold request, spi_transport. rewrite (bus_sent t req rsp miso w1 Hc). fold p.
  change (spi_fuel (spi_with_hal t (listens p w1))) with (spi_fuel t) in Hloop. by rewrite Hloop.
Qed.

(** A frame that reaches the device whole. *)
Lemma bus_request_heard t cmd payload rsp r t' rsp' : spi_ok t -> answering 0 [] (spi_hal t) -> asking cmd payload rsp ->
  let tx := wire cmd payload in
  let p := next_passage (sb_plan (spi_hal t)) in
  clocked_in_time tx t p -> sync_of p = [SYNC] -> noisy p tx = tx ->
  request t tx rsp = (r, (t', rsp')) -> bus_exchanged cmd payload rsp t r t' rsp'.
Proof.
  intros Hok Han [Hc Hp Hl Hs Hfit] tx p Htime Hsy Hclean Hr. pose proof Han as [[Hsim _ _] _ Hplan _ _ _ _].
  pose proof (next_passage_ok _ Hplan) as Hpok. fold p in Hpok.
  assert (bytes tx /\ len payload <= 252) as [Htx Hlp].
  { change PAYLOAD_MAX with 252 in Hl. split; [by apply wire_bytes; [..|lia]|done]. }
  destruct (serve_frame (w_sim (sb_world (spi_hal t))) cmd payload) as (raw & d' & Hreq & Hserve & _ & Hraw); [done..|].
  assert (len (sent_reply raw) <= 21) as Hout.
  { destruct Hraw as [->|(q & -> & _ & Hq & _)]; [done|]. change (sent_reply (reply cmd q)) with (SYNC :: reply cmd q).
    rewrite len_cons, len_reply. lia. }
  destruct (bus_heard tx (begin_request tx (spi_hal t)) (sent_reply raw) d') as (miso & w1 & Hclk & Han1 & Hd1 & Hpl1);
    [by apply begin_answering|done|done|by apply makes_frame|done|done|].
  change (sb_plan w1 = tail (sb_plan (spi_hal t))) in Hpl1.
  set (n := match sent_reply raw with [] => 0%nat | _ => _ end) in Han1.
  assert (n <= ps_delay p + empty_reads tx)%nat as Hn by (subst n; destruct (sent_reply raw); [lia|done]).
  clearbody n. pose proof Htime as Htime'. unfold clocked_in_time in Htime'.
  assert (bus_clocks (sync_of p ++ noisy p tx) (begin_request tx (spi_hal t)) = Some (miso, w1)) as Hclk' by (by rewrite Hsy, Hclean).
  assert (sent_reply raw = [] /\ raw = [] \/ (forall n, ps_answer p <> After n) -> bus_exchanged cmd payload rsp t r t' rsp') as Hsilent.
  { intros Hwhy. destruct (bus_fruitless t tx rsp miso w1 n (sent_reply raw)) as (w2 & rsp1 & Heq & Hl1 & Hb1 & Han2 & Hd2 & Hpl2);
      [done..|by destruct Hwhy as [[? _]|?]; [left|right]|]. rewrite Heq in Hr. injection Hr as <- <- <-.
    unfold bus_exchanged. cbn [spi_hal spi_with_hal] in *. rewrite Hd1 in Hd2.
    split_and!; [done|done|by rewrite Hpl2|done|done|]. rewrite Hd2. destruct Hwhy as [[_ ->]|Hna].
    - left. exists []. by split.
    - right. split_and!; [by apply fault_answer|by eexists|right; by exists raw]. }
  destruct Hraw as [->|(q & -> & Hqb & Hq & Hqm)]; [by apply Hsilent; left|].
  destruct (ps_answer p) as [|m|m bad] eqn:Hans; [by apply Hsilent; right| |by apply Hsilent; right]. clear Hsilent.
  unfold request, spi_transport in Hr. rewrite (bus_sent t tx rsp miso w1 Hclk') in Hr. fold p in Hr.
  destruct (bus_answers (spi_with_hal t (listens p w1)) rsp n (Z.lor cmd RSP_FLAG) q) as (w2 & rsp2 & Hloop & Hlr & Hbr & Hfront & Han2 & Hd2 & Hpl2);
    [done|by apply listens_answering|cbn [spi_hal spi_with_hal listens sb_seen]; by rewrite Hans
    |cbn; lia|by apply lor_u8|done|lia|done|lia|].
  change (spi_fuel (spi_with_hal t (listens p w1))) with (spi_fuel t) in Hloop. rewrite Hloop in Hr.
  injection Hr as <- <- <-. unfold bus_exchanged. cbn [spi_hal spi_with_hal listens sb_world sb_plan] in *. rewrite Hd1 in Hd2.
  split_and!; [done|done|by rewrite Hpl2|done|done|]. rewrite Hd2.
  left. exists (reply cmd q). split; [done|]. by apply front_understood; [lia|].
Qed.

Lemma bus_exchange t cmd payload rsp r t' rsp' : spi_ok t -> answering 0 [] (spi_hal t) -> asking cmd payload rsp ->
  clocked_in_time (wire cmd payload) t (next_passage (sb_plan (spi_hal t))) ->
  request t (wire cmd payload) rsp = (r, (t', rsp')) -> bus_exchanged cmd payload rsp t r t' rsp'.
Proof.
  intros Hok Han Hask Htime Hr. pose proof Hask as [Hc Hp Hl Hs _]. pose proof Han as [_ _ Hplan _ _ _ _].
  set (tx := wire cmd payload) in *. set (p := next_passage (sb_plan (spi_hal t))) in *.
  pose proof (next_passage_ok _ Hplan) as Hpo. fold p in Hpo.
  destruct (noisy_frame p cmd payload) as [[Hsy Hclean]|[Hgarb Hnoise]]; [done..|by eapply bus_request_heard|]. fold tx in Hgarb.
  pose proof Hl as Hl'. change PAYLOAD_MAX with 252 in Hl'. assert (len tx = len payload + 3) as Hlt by apply len_wire.
  destruct (noisy_bytes p tx Hpo) as [Hnb _]; [by apply wire_bytes; [..|lia]|lia|]. destruct (sync_of_ok p Hpo) as [Hsb _].
  destruct (bus_garbled (sync_of p ++ noisy p tx) (begin_request tx (spi_hal t))) as (miso & w1 & Hclk & Han1 & Hd1 & Hpl1);
    [by apply begin_answering|by apply bytes_app|done|].
  destruct (bus_fruitless t tx rsp miso w1 0 []) as (w2 & rsp1 & Heq & Hl1 & Hb1 & Han2 & Hd2 & Hpl2);
    [done..|lia|done|by left|]. rewrite Heq in Hr.
  injection Hr as <- <- <-. unfold bus_exchanged. cbn [spi_hal spi_with_hal] in *. rewrite Hd1 in Hd2. rewrite Hpl1 in Hpl2.
  split_and!; try done. right. split_and!; [by apply fault_noise|by eexists|by left].
Qed.
End adapter.

(** ** The adapter on a bus whose answers are in time is a carrier *)
Section carrier.
Context `{PtrWidth, LinePace} {delay : DelayNs SpiBus} {Hstill : Still delay}.
Implicit Types t : SpiTransport SpiBus.

Definition bus_prompt t : Prop := forall cmd payload,
  Forall (clocked_in_time (wire cmd payload) t) (calm :: sb_plan (spi_hal t)).

Lemma bus_prompt_next cmd payload t : bus_prompt t ->
  clocked_in_time (wire cmd payload) t (next_passage (sb_plan (spi_hal t))).
Proof.
  intros Hp. specialize (Hp cmd payload). unfold next_passage. apply Forall_cons in Hp as [Hc Hp]. by destruct Hp.
Qed.
Lemma bus_prompt_tail t w : bus_prompt t -> sb_plan w = tail (sb_plan (spi_hal t)) -> bus_prompt (spi_with_hal t w).
Proof.
  intros Hp Hw cmd payload. specialize (Hp cmd payload). cbn [spi_with_hal spi_hal]. rewrite Hw.
  apply Forall_cons in Hp as [Hc Hp]. constructor; [exact Hc|]. by apply Forall_tail.
Qed.

Definition bus_spares (n : nat) (w : SpiBus) : Prop := spares n (fault_of <$> sb_plan w) = true.

#[global] Instance bus_carried : Carried (SpiTransport SpiBus) := {|
  carrier_ok t := spi_ok t /\ answering 0 [] (spi_hal t) /\ bus_prompt t;
  dev t := w_sim (sb_world (spi_hal t));
  spare n t := bus_spares n (spi_hal t);
  patient _ _ := True;
|}.

(** An exchange, in the terms of a carrier. *)
Lemma bus_exchanged_spares cmd payload rsp t r t' rsp' : bus_exchanged cmd payload rsp t r t' rsp' ->
  let d := w_sim (sb_world (spi_hal t)) in
  let d' := w_sim (sb_world (spi_hal t')) in
  (exists raw, sim_request (wire cmd payload) d = Some (raw, d')
     /\ understood (E:=SpiTransportError (SpiError Z)) cmd (wire cmd payload) raw r rsp'
     /\ forall n, (n <= 3)%nat -> bus_spares n (spi_hal t) -> bus_spares 3 (spi_hal t'))
  \/ (exists e, r = Err e) /\ (d' = d \/ hear cmd payload d d')
     /\ forall n, bus_spares n (spi_hal t) -> exists m, n = S m /\ bus_spares m (spi_hal t').
Proof.
  intros (_ & _ & Hplan & _ & _ & Hover). unfold bus_spares. rewrite Hplan, <- tail_faults.
  destruct Hover as [(raw & Hr & Hu)|(Hf & He & Hd)].
  - left. exists raw. split_and!; try done. intros n Hn. by apply spares_tail.
  - right. split_and!; try done. intros n. apply spares_fault. by rewrite next_fault_of.
Qed.

#[global] Instance bus_carrier : Carrier (@spi_transport SpiBus (SpiError Z) SpidevDevice delay _).
Proof.
  split; [by intros t (_ & [[? _ _] _ _ _ _ _ _] & _)|..]; intros t cmd payload rsp r t' rsp' (Hok & Han & Hp) Hask Hr;
    pose proof (bus_exchange t cmd payload rsp r t' rsp' Hok Han Hask (bus_prompt_next cmd payload t Hp) Hr) as Hex;
    pose proof Hex as (Ht & Han' & Hplan & Hl & Hb & _).
  - split; [|done]. split; [by rewrite Ht|]. split; [done|]. rewrite Ht. by apply bus_prompt_tail.
  - split; [done|]. apply bus_exchanged_spares in Hex as [Hl'|([e ->] & Hd & Hs)]; [by left|right].
    split_and!; [done..|]. intros n _ _. apply Hs.
Qed.
End carrier.
