(* ===== verification/I2cBus.v ===== *)
(** The device on an I2C bus with time: the kernel's side of
    [updater-cli/src/transport.rs] as the environment of the tool. The device
    handles a frame that is written to it and takes a while; until then it does
    not acknowledge its address. What happens to an exchange is a fault of
    [Wire.v]: a write may fail, be lost or arrive as other bytes; the reads may
    fail, until some time or for good, or bring other bytes than the device's;
    of damage, only such as the format detects. The [LinuxI2c] backend on this
    bus, behind [DynTransport], is a carrier, whose patience is its poll
    budget. *)
From stdpp Require Import relations.
From S2P Require Import Prelude Text Errors Frame Image Stream Transport Session Recorded.
From S2P Require Import Hal EhI2c EhSpi EhUart EhSoftUart CliDevices CliTransport.
From S2P Require Import Device DeviceLink Conformance Carrier Wire.

(** ** The bus *)

(** Times in nanoseconds. Until [bus_ready] the device is busy; then it has
    [bus_answer] for the master, or nothing, and [bus_back] is what becomes of it
    on the way. *)
Record Bus := mkBus {
  bus_sim : Sim;
  bus_faults : list Fault;
  bus_now : Z;
  bus_ready : Z;
  bus_answer : option (list Z);
  bus_back : Homeward;
}.

(** [EIO] and [ENXIO]: the transfer failed, nobody acknowledged. *)
Definition EIO : Z := 5.
Definition ENXIO : Z := 6.

(** How long a device takes over a request, and the bounds by command and
    geometry that its maker gives. *)
Class Pace := {
  service : list Z -> Sim -> Z;
  service_ns : Z -> port_info -> Z;
}.
Class PaceOk `{Pace} : Prop := {
  service_frame cmd payload d : service (wire cmd payload) d <= service_ns cmd (s_info d);
  service_refusal req d cmd : refused req -> service req d <= service_ns cmd (s_info d);
}.

Section bus.
Context `{Pace}.

Definition busy (b : Bus) : bool := bus_now b <? bus_ready b.

(** The device handles a frame; the second case is an abort. *)
Definition deliver (req : list Z) (faults : list Fault) (back : Homeward) (b : Bus) : Bus :=
  match sim_request req (bus_sim b) with
  | Some (raw, s) => mkBus s faults (bus_now b) (bus_now b + service req (bus_sim b)) (Some raw) back
  | None => mkBus (bus_sim b) faults (bus_now b) (bus_now b) None back
  end.
(** It hears nothing of it, and has nothing to say. *)
Definition mute (faults : list Fault) (back : Homeward) (b : Bus) : Bus :=
  mkBus (bus_sim b) faults (bus_now b) (bus_ready b) None back.
Definition next_attempt (b : Bus) : Bus :=
  mkBus (bus_sim b) (tail (bus_faults b)) (bus_now b) (bus_ready b) (bus_answer b) (bus_back b).

Definition bus_write (req : list Z) (b : Bus) : result unit Z * Bus :=
  if busy b then (Err ENXIO, next_attempt b) else
  let rest := tail (bus_faults b) in
  match next_fault (bus_faults b) with
  | BusError => (Err EIO, next_attempt b)
  | Passed out back =>
    match arrives out req with
    | None => (Ok tt, mute rest back b)
    | Some req => (Ok tt, deliver req rest back b)
    end
  end.

(** The device does not acknowledge a read while it is busy or without an
    answer, and pads the one it has. A read may fail, for good or for a while,
    or bring other bytes than the device's. *)
Definition answered (buf : list Z) (b : Bus) : result unit Z * (list Z * Bus) :=
  match bus_answer b with
  | None | Some [] => (Err ENXIO, (buf, b))
  | Some raw => (Ok tt, (padded raw (len buf), b))
  end.
Definition bus_read (buf : list Z) (b : Bus) : result unit Z * (list Z * Bus) :=
  if busy b then (Err ENXIO, (buf, b)) else
  match bus_back b with
  | AnsWhole => answered buf b
  | AnsLost => (Err EIO, (buf, b))
  | AnsLate ns => if bus_now b <? bus_ready b + ns then (Err EIO, (buf, b)) else answered buf b
  | AnsDamaged raw => if decide (length raw = length buf) then (Ok tt, (raw, b)) else (Err EIO, (buf, b))
  end.

Definition wait (ns : Z) (b : Bus) : Bus :=
  mkBus (bus_sim b) (bus_faults b) (bus_now b + ns) (bus_ready b) (bus_answer b) (bus_back b).

#[global] Instance bus_i2c : I2CDevice Bus Z := {|
  i2cdev_new _ _ b := (Ok tt, b);
  i2cdev_write := bus_write;
  i2cdev_read := bus_read;
|}.
#[global] Instance bus_clock : Clock Bus := {|
  clock_sleep := wait;
  clock_now := bus_now;
  clock_spin := wait 1;
|}.

(** ** A request of the backend *)
Record bus_ok (b : Bus) : Prop := {
  bo_sim : sim_ok (bus_sim b);
  bo_faults : Forall fault_ok (bus_faults b);
  bo_answer : forall raw, bus_answer b = Some raw -> bytes raw;
  bo_back : back_ok (bus_back b);
}.

Lemma deliver_ok req faults back b : bus_ok b -> Forall fault_ok faults -> back_ok back -> bytes req ->
  exists raw s, sim_request req (bus_sim b) = Some (raw, s) /\ s_info s = s_info (bus_sim b)
    /\ deliver req faults back b = mkBus s faults (bus_now b) (bus_now b + service req (bus_sim b)) (Some raw) back
    /\ bus_ok (deliver req faults back b).
Proof.
  intros [Hs Hf Ha _] Hfs Hbk Hb. destruct (sim_request_total req (bus_sim b) Hs Hb) as (raw & s & Hr & Hraw & Hok & Hi).
  exists raw, s. assert (deliver req faults back b
    = mkBus s faults (bus_now b) (bus_now b + service req (bus_sim b)) (Some raw) back) as Hd by (unfold deliver; by rewrite Hr).
  split_and!; [done..|]. rewrite Hd. split; [done..| |done]. by intros ? [= <-].
Qed.
Lemma next_attempt_ok b : bus_ok b -> bus_ok (next_attempt b).
Proof. intros [Hs Hf Ha Hb]. split; [done| |done..]. by apply Forall_tail. Qed.
Lemma mute_ok faults back b : bus_ok b -> Forall fault_ok faults -> back_ok back -> bus_ok (mute faults back b).
Proof. by intros [Hs Hf Ha Hb] ??. Qed.
Lemma wait_ok ns b : bus_ok b -> bus_ok (wait ns b).
Proof. by intros [Hs Hf Ha Hb]. Qed.

(** A read brings the device's answer, or other bytes, or fails; the bus is as
    it was. *)
Lemma bus_read_spec buf b res buf' b' : bus_read buf b = (res, (buf', b')) ->
  b' = b /\ match res with
            | Err _ => buf' = buf
            | Ok _ => busy b = false
                /\ ((exists raw, bus_answer b = Some raw /\ buf' = padded raw (len buf))
                    \/ (exists raw, bus_back b = AnsDamaged raw /\ length raw = length buf /\ buf' = raw))
            end.
Proof.
  assert (forall res buf' b', busy b = false -> answered buf b = (res, (buf', b')) ->
    b' = b /\ match res with
      | Err _ => buf' = buf
      | Ok _ => busy b = false /\ ((exists raw, bus_answer b = Some raw /\ buf' = padded raw (len buf))
          \/ (exists raw, bus_back b = AnsDamaged raw /\ length raw = length buf /\ buf' = raw)) end) as Han.
  { intros r f w Hb. unfold answered. destruct (bus_answer b) as [[|x raw]|] eqn:Ha; intros [= <- <- <-]; try done.
    split_and!; [done..|]. left. by eexists. }
  unfold bus_read. destruct (busy b) eqn:Hb; [by intros [= <- <- <-]|].
  destruct (bus_back b) as [| |ns|raw] eqn:Hbk; [by apply Han|by intros [= <- <- <-]| |].
  - zcase; [by intros [= <- <- <-]|by apply Han].
  - case_decide; intros [= <- <- <-]; [|done]. split_and!; [done..|]. right. by exists raw.
Qed.

(** Failed reads change nothing but the time. *)
Lemma bus_polled interval k b rsp b' rsp' :
  @polled Bus Z i2cdev_bus sleep_delay 0 interval k b rsp b' rsp' ->
  b' = wait (Z.of_nat k * interval) b /\ rsp' = rsp.
Proof.
  induction 1 as [[]|n b rsp e b1 rsp1 b2 rsp2 Hr _ [-> ->]]; [unfold wait; cbn; by rewrite Z.add_0_r|].
  cbn [i2c_read i2cdev_bus i2cdev_read bus_i2c] in Hr. apply bus_read_spec in Hr as [-> ->].
  split; [|done]. destruct b. unfold delay_ns, sleep_delay, clock_sleep, bus_clock, wait.
  cbn [bus_sim bus_faults bus_now bus_ready bus_answer bus_back]. f_equal. lia.
Qed.

Lemma linux_request (t : LinuxI2c Bus) (req rsp : list Z) r t' rsp' : linux_i2c_ok t ->
  request t req rsp = (r, (t', rsp')) ->
  match bus_write req (li_dev t) with
  | (Err e, b) => r = Err (LinuxWrite e) /\ t' = li_with_dev t b /\ rsp' = rsp
  | (Ok _, b) => exists k, 0 <= k < li_poll_attempts t
      /\ let b' := wait (k * li_poll_interval t) b in
         t' = li_with_dev t b'
         /\ (bus_read rsp b' = (Ok tt, (rsp', b')) /\ r = Ok (len rsp)
             \/ k = li_poll_attempts t - 1 /\ rsp' = rsp
                /\ exists e, bus_read rsp b' = (Err e, (rsp, b')) /\ r = Err (LinuxExhausted (li_poll_attempts t) e))
  end.
Proof.
  intros Hok Hr. apply (proj2 (linux_i2c_is_adapter bus_i2c bus_clock t req rsp)) in Hr; [|exact Hok].
  cbn [i2cdev_write i2cdev_read bus_i2c] in Hr. destruct (bus_write req (li_dev t)) as [[[]|e] b]; [|done].
  destruct Hr as (k & b1 & rsp1 & b2 & -> & Hk & [-> ->]%bus_polled & Hres).
  exists (Z.of_nat k). split; [lia|]. cbv zeta. set (b' := wait _ b) in *.
  destruct Hres as [[Hrd ->]|(e & Hrd & Hke & ->)]; pose proof (bus_read_spec _ _ _ _ _ Hrd) as Hsp.
  - destruct Hsp as [-> [_ Hl]]. split; [done|]. left. split; [done|]. f_equal.
    destruct Hl as [(raw & _ & ->)|(raw & _ & Hlr & ->)]; [by apply len_padded, len_nonneg|unfold len; by rewrite Hlr].
  - destruct Hsp as [-> ->]. split; [done|]. right. split_and!; [lia|done|by exists e].
Qed.

Lemma bus_write_ok req b res b' : bus_ok b -> bytes req -> bus_write req b = (res, b') -> bus_ok b'.
Proof.
  intros Hb Hreq. pose proof Hb as [_ Hfs _ _]. pose proof (Forall_tail _ _ Hfs) as Hrest. unfold bus_write.
  destruct (busy b); [intros [= _ <-]; by apply next_attempt_ok|]. pose proof (next_fault_ok _ Hfs) as Hx.
  destruct (next_fault (bus_faults b)) as [out back|]; [destruct Hx as [Ho Hbk]|intros [= _ <-]; by apply next_attempt_ok].
  destruct (arrives out req) as [req'|] eqn:Ha; intros [= _ <-]; [|by apply mute_ok].
  by destruct (deliver_ok req' (tail (bus_faults b)) back b) as (_ & _ & _ & _ & _ & Hd); [done..|by eapply arrives_bytes|].
Qed.

Lemma linux_keeps (t : LinuxI2c Bus) (req rsp : list Z) r t' rsp' : linux_i2c_ok t -> bus_ok (li_dev t) ->
  bytes req -> bytes rsp -> request t req rsp = (r, (t', rsp')) ->
  t' = li_with_dev t (li_dev t') /\ bus_ok (li_dev t') /\ len rsp' = len rsp /\ bytes rsp'
  /\ forall n, r = Ok n -> 0 <= n.
Proof.
  intros Hok Hb Hreq Hrsp Hr. apply (linux_request t req rsp r t' rsp' Hok) in Hr. pose proof (len_nonneg rsp) as Hn.
  destruct (bus_write req (li_dev t)) as [[[]|e] b] eqn:Hwr;
    pose proof (bus_write_ok _ _ _ _ Hb Hreq Hwr) as Hw.
  2: { destruct Hr as (-> & -> & ->). by split_and!. }
  destruct Hr as (k & _ & -> & Hres). cbn [li_with_dev li_dev].
  pose proof (wait_ok (k * li_poll_interval t) b Hw) as Hb'. destruct Hres as [[Hrd ->]|(_ & -> & e & _ & ->)]; [|by split_and!].
  apply bus_read_spec in Hrd as [_ [_ Hres]]. split_and!; [done..| | |by intros n [= <-]].
  - destruct Hres as [(raw & _ & ->)|(raw & _ & Hl & ->)]; [by apply len_padded|unfold len; by rewrite Hl].
  - destruct Hres as [(raw & Ha & ->)|(raw & Hbk & _ & ->)]; [apply bytes_padded; by apply (bo_answer _ Hb')|].
    pose proof (bo_back _ Hb') as Hok'. rewrite Hbk in Hok'. by destruct Hok'.
Qed.

(** ** An attempt *)
Section attempt.
Context `{PtrWidth} {Hpace : PaceOk}.
Context (cmd : Z) (payload : list Z).
Context (Hcmd : is_u8 cmd) (Hpayload : bytes payload) (Hlen : len payload <= PAYLOAD_MAX).
Abbreviation tx := (wire cmd payload).
Abbreviation c := (Z.lor cmd RSP_FLAG).

(** Nothing came of the attempt: an error, or an answer that is no answer. *)
Definition fruitless (rsp : list Z) (r : result Z (LinuxI2cError Z)) (rsp' : list Z) : Prop :=
  (exists e, r = Err e)
  \/ r = Ok (len rsp) /\ forall E, retryable (verdict c (mkAttempt (E:=E) tx (Ok (len rsp)) rsp')) = true.
(** The device answered: what it said, or, if it has nothing to say, an error. *)
Definition came (raw rsp : list Z) (r : result Z (LinuxI2cError Z)) (rsp' : list Z) : Prop :=
  r = Ok (len rsp) /\ rsp' = padded raw (len rsp) \/ raw = [] /\ exists e, r = Err e.

(** The last poll is [attempts - 1] intervals after the first. *)
Definition window (t : LinuxI2c Bus) : Z := (li_poll_attempts t - 1) * li_poll_interval t.

Definition attempted (t : LinuxI2c Bus) rsp r (b' : Bus) rsp' : Prop :=
  let b := li_dev t in
  bus_faults b' = tail (bus_faults b)
  /\ ((exists raw, sim_request tx (bus_sim b) = Some (raw, bus_sim b') /\ busy b' = false /\ came raw rsp r rsp')
      \/ fruitless rsp r rsp' /\ (bus_sim b' = bus_sim b \/ hear cmd payload (bus_sim b) (bus_sim b'))
         /\ (service_ns cmd (s_info (bus_sim b)) <= window t -> busy b = false ->
               busy b' = false /\ next_fault (bus_faults b) <> Delivered)).

Lemma tx_bytes' : bytes tx.
Proof. change PAYLOAD_MAX with 252 in Hlen. apply wire_bytes; [done..|lia]. Qed.

Lemma not_busy b : busy b = false <-> bus_ready b <= bus_now b.
Proof. unfold busy. apply Z.ltb_ge. Qed.

(** Polling after a write: the device heard the frame and has its answer, or it
    did not and has none, or none of use. *)
Record written_to (t : LinuxI2c Bus) (rsp : list Z) (b1 : Bus) : Prop := {
  wt_faults : bus_faults b1 = tail (bus_faults (li_dev t));
  wt_heard : (exists raw, sim_request tx (bus_sim (li_dev t)) = Some (raw, bus_sim b1) /\ bus_answer b1 = Some raw)
    \/ bus_sim b1 = bus_sim (li_dev t) /\ next_fault (bus_faults (li_dev t)) <> Delivered
       /\ forall raw, bus_answer b1 = Some raw ->
            forall E, retryable (verdict c (mkAttempt (E:=E) tx (Ok (len rsp)) (padded raw (len rsp)))) = true;
  wt_back : bus_back b1 = AnsWhole \/ next_fault (bus_faults (li_dev t)) <> Delivered;
  wt_back_ok : back_ok (bus_back b1);
  wt_time : service_ns cmd (s_info (bus_sim (li_dev t))) <= window t -> busy (li_dev t) = false ->
    bus_ready b1 <= bus_now b1 + window t;
}.

Lemma polled_attempt t k rsp r rsp' b1 : written_to t rsp b1 ->
  let b' := wait (k * li_poll_interval t) b1 in
  bus_read rsp b' = (Ok tt, (rsp', b')) /\ r = Ok (len rsp)
  \/ k = li_poll_attempts t - 1 /\ rsp' = rsp
     /\ (exists e, bus_read rsp b' = (Err e, (rsp, b')) /\ r = Err (LinuxExhausted (li_poll_attempts t) e)) ->
  attempted t rsp r b' rsp'.
Proof.
  intros [Hf Hd Hbk Hbo Ht] b' Hres. split; [done|].
  assert (bus_sim b' = bus_sim (li_dev t) \/ hear cmd payload (bus_sim (li_dev t)) (bus_sim b')) as Hdev
    by (destruct Hd as [(raw & Hr & _)|[? _]]; [right; by exists raw|by left]).
  destruct Hres as [[Hrd ->]|(-> & -> & e & Hrd & ->)].
  - pose proof (bus_read_spec _ _ _ _ _ Hrd) as [_ [Hnb [(raw & Ha & ->)|(raw & Hb & Hl & ->)]]].
    + destruct Hd as [(raw' & Hr & Ha')|(Hs & Hn & Hv)].
      * left. exists raw'. change (bus_answer b1 = Some raw) in Ha. rewrite Ha' in Ha. injection Ha as ->.
        split_and!; [done..|by left].
      * right. split_and!; [right; split; [done|by apply Hv]|done|done].
    + change (bus_back b1 = AnsDamaged raw) in Hb. rewrite Hb in *. destruct Hbk as [|Hn]; [done|]. destruct Hbo as [Hrb Hun].
      right. split_and!; [|done|done]. right. split; [done|]. intros E.
      replace (len rsp) with (len raw) by (unfold len; by rewrite Hl). by apply unframed_verdict.
  - destruct (decide (busy b' = false)) as [Hnb|Hb].
    2: { right. split_and!; [left; by eexists|done|]. intros Hw Hi. destruct Hb. specialize (Ht Hw Hi).
      rewrite not_busy. unfold window in Ht. unfold b'. cbn. lia. }
    destruct (next_fault (bus_faults (li_dev t))) as [out back|] eqn:Hn; [|right; split_and!; [left; by eexists|done|done]].
    destruct (delivered (Passed out back)) eqn:Hdel; [apply delivered_eq in Hdel; rewrite Hdel in *|].
    2: { right. split_and!; [left; by eexists|done|]. intros _ _. split; [done|]. intros Heq. by apply delivered_eq in Heq; congruence. }
    destruct Hbk as [Hbk|]; [|done]. destruct Hd as [(raw & Hr & Ha)|(_ & ? & _)]; [|done].
    left. exists raw. split_and!; [done..|]. right. split; [|by eexists].
    unfold bus_read, answered in Hrd. rewrite Hnb in Hrd. change (bus_back b') with (bus_back b1) in Hrd.
    change (bus_answer b') with (bus_answer b1) in Hrd. rewrite Hbk, Ha in Hrd. by destruct raw.
Qed.

(** What a write leaves. *)
Lemma bus_written t rsp : 0 <= window t -> bus_ok (li_dev t) -> busy (li_dev t) = false ->
  match bus_write tx (li_dev t) with
  | (Ok _, b1) => written_to t rsp b1
  | (Err _, b1) => b1 = next_attempt (li_dev t) /\ next_fault (bus_faults (li_dev t)) <> Delivered
  end.
Proof.
  intros Hwin Hb Hbusy. pose proof Hb as [Hsim Hfs _ _]. pose proof (Forall_tail _ _ Hfs) as Hrest.
  unfold bus_write. rewrite Hbusy. pose proof (next_fault_ok _ Hfs) as Hok.
  destruct (next_fault (bus_faults (li_dev t))) as [out back|] eqn:Hn; [destruct Hok as [Ho Hbk]|done].
  pose proof (arrives_frame out cmd payload Ho Hcmd Hpayload Hlen) as Ha.
  assert (forall P : Prop, (Passed out back = Delivered -> P) -> P \/ next_fault (bus_faults (li_dev t)) <> Delivered) as Hcase.
  { intros P HP. destruct (delivered (Passed out back)) eqn:Hd; [left; by apply HP, delivered_eq|].
    right. rewrite Hn. intros Heq. apply delivered_eq in Heq. congruence. }
  assert (back = AnsWhole \/ next_fault (bus_faults (li_dev t)) <> Delivered) as Hback by (apply Hcase; by intros [=]).
  assert (out <> ReqWhole -> next_fault (bus_faults (li_dev t)) <> Delivered) as Hout by (rewrite Hn; by intros ? [=]).
  destruct Ha as [Hne| |bad Hne Hbb Hlb Hbad].
  - split; try done; [right; split_and!; [done|auto|done]|]. intros _ Hi%not_busy. cbn. lia.
  - destruct (deliver_ok tx (tail (bus_faults (li_dev t))) back (li_dev t)) as (raw & s & Hr & Hi & -> & _); [done..|exact tx_bytes'|].
    split; try done; [left; by exists raw|]. intros Hw _. pose proof (service_frame cmd payload (bus_sim (li_dev t))). cbn. lia.
  - destruct (deliver_ok bad (tail (bus_faults (li_dev t))) back (li_dev t)) as (raw & s & Hr & Hi & -> & _); [done..|].
    split; try done.
    + right. assert (forall E, s = bus_sim (li_dev t)
        /\ retryable (verdict c (mkAttempt (E:=E) tx (Ok (len rsp)) (padded raw (len rsp)))) = true) as Hfl.
      { intros E. destruct (refused_answer (E:=E) (bus_sim (li_dev t)) cmd payload rsp bad) as (raw3 & Hq & _ & Hv); [done..|].
        rewrite Hr in Hq. by injection Hq as -> ->. }
      split_and!; [by destruct (Hfl unit)|auto|]. intros raw' [= <-] E. by destruct (Hfl E).
    + intros Hw _. pose proof (service_refusal bad (bus_sim (li_dev t)) cmd Hbad). cbn. lia.
Qed.

Lemma linux_attempt t rsp r t' rsp' : linux_i2c_ok t -> 0 <= li_poll_interval t -> bus_ok (li_dev t) ->
  request t tx rsp = (r, (t', rsp')) ->
  t' = li_with_dev t (li_dev t') /\ bus_ok (li_dev t') /\ s_info (bus_sim (li_dev t')) = s_info (bus_sim (li_dev t))
  /\ attempted t rsp r (li_dev t') rsp'.
Proof.
  intros Hok Hint Hb Hr. apply (linux_request t tx rsp r t' rsp' Hok) in Hr. pose proof Hb as [Hsim Hfs _ _].
  assert (0 <= window t) as Hwin by (unfold window, linux_i2c_ok in *; nia).
  destruct (bus_write tx (li_dev t)) as [res b1] eqn:Hw. pose proof (bus_write_ok _ _ _ _ Hb tx_bytes' Hw) as Hok1.
  assert (forall e, b1 = next_attempt (li_dev t) -> r = Err (LinuxWrite e) /\ t' = li_with_dev t b1 /\ rsp' = rsp ->
    next_fault (bus_faults (li_dev t)) <> Delivered \/ busy (li_dev t) = true ->
    t' = li_with_dev t (li_dev t') /\ bus_ok (li_dev t') /\ s_info (bus_sim (li_dev t')) = s_info (bus_sim (li_dev t))
    /\ attempted t rsp r (li_dev t') rsp') as Hfailed.
  { intros e -> (-> & -> & ->) Hn. split_and!; [done..|]. split; [done|]. right. split_and!; [left; by eexists|by left|].
    intros _ Hi. cbn [li_dev li_with_dev]. destruct Hn as [?|Hbusy]; [by split|]. congruence. }
  destruct (busy (li_dev t)) eqn:Hbusy.
  { unfold bus_write in Hw. rewrite Hbusy in Hw. injection Hw as <- <-. apply (Hfailed ENXIO); auto. }
  pose proof (bus_written t rsp Hwin Hb Hbusy) as Hwr. rewrite Hw in Hwr.
  destruct res as [[]|e]; [|destruct Hwr; apply (Hfailed e); auto].
  destruct Hr as (k & _ & -> & Hres). cbn [li_with_dev li_dev]. split; [done|]. split; [by apply wait_ok|].
  pose proof (polled_attempt t k rsp r rsp' b1 Hwr Hres) as Hatt. split; [|exact Hatt].
  change (s_info (bus_sim b1) = s_info (bus_sim (li_dev t))).
  destruct (wt_heard _ _ _ Hwr) as [(raw & Hreq & _)|[-> _]]; [|done].
  destruct (sim_request_total tx (bus_sim (li_dev t)) Hsim tx_bytes') as (raw' & s' & Hreq' & _ & _ & Hi).
  rewrite Hreq in Hreq'. by injection Hreq' as _ <-.
Qed.
End attempt.

End bus.
