(* ===== verification/Tool.v ===== *)
(** The command line tool in front of a device, whatever the wire: the stack
    from [main] through [DynTransport] and one of the backends to the device's
    flash. What an adapter with a poll budget does to a device ([Reach],
    [Backed]) makes the stack a carrier, and so the tool's [flash] correct;
    [ToolI2c.v] and [ToolSerial.v] supply the wires. *)
From stdpp Require Import relations.
From S2P Require Import Prelude Text Install Errors Frame Image Stream Transport Session Recorded.
From S2P Require Import Hal EhI2c EhSpi EhUart EhSoftUart CliDevices CliTransport Cli.
From S2P Require Import Device DeviceLink Conformance Carrier Flashing.

(** ** [flash] over any carrier *)

(** Setting the erase budget leaves the device and the faults alone. *)
Class CarriedErase (T : Type) `{Carried T, EraseBudget T} : Prop := {
  carried_erase_ok n t : is_u32 n -> carrier_ok t -> carrier_ok (set_erase_attempts n t);
  carried_erase_dev n t : dev (set_erase_attempts n t) = dev t;
  carried_erase_spare k n t : spare k t -> spare k (set_erase_attempts n t);
}.

Section flash.
Context `{PtrWidth} {T A : Type} {tr : Transport T A} `{Carried T, EraseBudget T}.
Context {Hcarrier : Carrier tr} {Hce : CarriedErase T} {E : Type}.
Implicit Types s : Session T.

Definition geometry (d : Sim) : Z * Z := (pi_page_size (s_info d), pi_app_pages (s_info d)).

Lemma info_carried s i s' : on_carrier s -> info s = (Ok i, s') ->
  on_carrier s' /\ len (buf s') = len (buf s) /\ lenient s s' /\ sdev s' = sdev s
  /\ (di_page_size i, di_app_pages i) = geometry (sdev s).
Proof.
  intros Hs. unfold info, sbind, lift. destruct (transact CMD_INFO [] INFO_RSP_PAYLOAD s) as [[rest|e] s1] eqn:Ht; [|done].
  apply transact_asked in Ht; try done.
  apply info_effect in Ht as (Hs1 & Hl & Hp & Hd & _ & valid & -> & _); [|done].
  rewrite parse_identity by (by apply on_carrier_ok). intros [= <- <-]. by split_and!.
Qed.

Lemma cmd_flash_carried poll binary s out s' : on_carrier s -> bytes binary -> budget_ok poll ->
  cmd_flash (E:=E) poll binary s = (Ok out, s') ->
  exists img, from_bin binary (pi_page_size (s_info (sdev s))) (pi_app_pages (s_info (sdev s))) = Ok img
    /\ out = OutFlash (len binary) /\ g_flash (sdev s') = region img /\ present (sdev s')
    /\ upd_app_valid (s_info (sdev s')) (g_flash (sdev s')) = Some true.
Proof.
  intros Hs Hb Hp. unfold cmd_flash. destruct (info s) as [[i|e] s1] eqn:Hi; [|done].
  apply info_carried in Hi as (Hs1 & Hl1 & _ & Hd1 & [= Hps Hap]); [|done]. rewrite Hps, Hap.
  pose proof (so_wf _ (on_carrier_ok _ Hs)) as [Hpsz Hapz _ _ _ _].
  set (ps := pi_page_size _) in *. set (ap := pi_app_pages _) in *.
  destruct (from_bin binary ps ap) as [img|e] eqn:Himg; [|done].
  set (n := erase_poll_attempts ap poll). set (s2 := new _ _).
  destruct (flash _ img (s2, tt)) as [[[]|e] [s3 []]] eqn:Hf; [|done]. intros [= <- <-].
  assert (on_carrier s2) as Hs2.
  { destruct Hs1 as [Hok Hbuf]. split; [|exact Hbuf].
    change (transport s2) with (set_erase_attempts n (transport s1)). apply carried_erase_ok; [|exact Hok].
    by apply erase_poll_attempts_bounds. }
  exists img. split; [done|].
  apply (flash_installed _ binary ps ap) in Hf as (? & ? & _ & _ & ?); try done.
  apply from_bin_ok_inv in Himg as (Hwf & Hdata & _); [|done..].
  rewrite (wf_len _ Hwf), Hdata. by split_and!.
Qed.

Lemma cmd_flash_live poll binary s img : on_carrier s -> bytes binary -> budget_ok poll -> len (buf s) = FRAME_BUF_LEN ->
  let d := sdev s in
  from_bin binary (pi_page_size (s_info d)) (pi_app_pages (s_info d)) = Ok img -> present d -> uncut d ->
  patient CMD_INFO (transport s) -> spare 3 (transport s) ->
  (forall t, carrier_ok t -> dev t = d ->
     forall c, patient c (set_erase_attempts (erase_poll_attempts (pi_app_pages (s_info d)) poll) t)) ->
  exists s', cmd_flash (E:=E) poll binary s = (Ok (OutFlash (len binary)), s').
Proof.
  intros Hs Hb Hp Hbuf d Himg Hpr Hu Hpi Hsp Hpt. unfold cmd_flash.
  pose proof (on_carrier_ok _ Hs) as Hok. pose proof (so_wf _ Hok) as [Hpsz Hapz _ _ _ _].
  destruct (transact_accepted CMD_INFO [] INFO_RSP_PAYLOAD s) as (r1 & s1 & Ht1 & Hsp1); try done;
    [change (len [] + INFO_RSP_PAYLOAD + 6) with 18; rewrite Hbuf; by vm_compute|by apply info_accepted|].
  destruct (info s) as [ri s1'] eqn:Hi. pose proof Hi as Hi'. unfold info, sbind, lift in Hi'. rewrite Ht1 in Hi'.
  apply transact_asked in Ht1; try done.
  apply info_effect in Ht1 as (_ & _ & _ & _ & _ & valid & -> & _); [|done].
  rewrite parse_identity in Hi' by done. injection Hi' as <- <-.
  apply info_carried in Hi as (Hs1 & Hl1 & _ & Hd1 & _); [|done]. cbn [di_page_size di_app_pages]. fold d. rewrite Himg.
  set (n := erase_poll_attempts _ poll) in *. set (s2 := new _ _).
  assert (transport s2 = set_erase_attempts n (transport s1)) as Ht2 by done.
  assert (sdev s2 = d) as Hd2 by (unfold sdev; by rewrite Ht2, carried_erase_dev).
  apply from_bin_ok_inv in Himg as (Hwf & Hdata & Hps & Hap); [|done..].
  pose proof (wf_page_size _ Hwf) as Hpsb. change PAGE_SIZE_MAX with 250 in Hpsb.
  destruct (flash_live (fun _ _ p => p) img s2 tt) as (s' & p' & Hf); [done|..].
  - split; [|by destruct Hs1]. rewrite Ht2. apply carried_erase_ok; [|by destruct Hs1].
    by apply erase_poll_attempts_bounds.
  - split; by rewrite Hd2.
  - by rewrite Hd2.
  - by rewrite Hd2.
  - change (buf s2) with (buf s1). rewrite Hl1, Hbuf. change FRAME_BUF_LEN with 512. lia.
  - intros c. rewrite Ht2. apply Hpt; [by destruct Hs1|exact Hd1].
  - rewrite Ht2. by apply carried_erase_spare.
  - rewrite Hf. destruct p'. exists s'. by rewrite (wf_len _ Hwf), Hdata.
Qed.
End flash.

(** ** An adapter that reaches a device *)

(** The device behind the world of an adapter: the invariant, given the budget
    the user chose; the trouble still to come; and when a budget outlasts the
    device's work on a command. *)
Class Reach (W : Type) := {
  reach_ok : PollBudget -> W -> Prop;
  reach_dev : W -> Sim;
  reach_spare : nat -> W -> Prop;
  reach_patient : Z -> PollBudget -> W -> Prop;
}.

(** A budget with at least the attempts of [base]. *)
Record stretched (base poll : PollBudget) : Prop := {
  st_ok : budget_ok poll;
  st_attempts : pb_attempts base <= pb_attempts poll;
  st_delay : pb_delay_ms poll = pb_delay_ms base;
}.

(** A backend whose adapter, with a budget in force, is [adapter]. *)
Class Backed `{PtrWidth} {W E SE Tio : Type}
    `{Clock W, I2CDevice W E, Spidev W E, GpioCdev W E, Tty W E Tio, Serial W SE, Reach W}
    {T F : Type} (tr : Transport T F) `{SetPoll T, Anyhow F (anyhow_error E SE)}
    (back : Erased T -> Backend W) (adapter : PollBudget -> W -> T) : Prop := {
  backed_request t req rsp : request (back t) req rsp = on_backend (E:=E) (SE:=SE) back (request t req rsp);
  backed_set poll t : set_poll_budget poll (back t) = back (set_poll_budget poll t);
  backed_world poll w : backend_world (back (mkErased (adapter poll w))) = w;
  backed_budget poll poll' w : set_poll_budget poll (adapter poll' w) = adapter poll w;
  backed_sim base w : reach_ok base w -> sim_ok (reach_dev w);
  backed_attempt base poll w cmd payload rsp r t' rsp' :
    budget_ok base -> reach_ok base w -> stretched base poll -> asking cmd payload rsp ->
    request (adapter poll w) (wire cmd payload) rsp = (r, (t', rsp')) ->
    exists w', t' = adapter poll w' /\ reach_ok base w' /\ len rsp' = len rsp /\ bytes rsp'
      /\ (forall c b, reach_patient c b w -> reach_patient c b w')
      /\ ((exists raw, sim_request (wire cmd payload) (reach_dev w) = Some (raw, reach_dev w')
             /\ understood cmd (wire cmd payload) raw r rsp'
             /\ forall n, (n <= 3)%nat -> reach_spare n w -> reach_spare 3 w')
          \/ retryable (verdict (Z.lor cmd RSP_FLAG) (mkAttempt (wire cmd payload) r rsp')) = true
             /\ (reach_dev w' = reach_dev w \/ hear cmd payload (reach_dev w) (reach_dev w'))
             /\ forall n, (n <= 3)%nat -> reach_patient cmd poll w -> reach_spare n w ->
                  exists m, n = S m /\ reach_spare m w');
}.

Lemma understood_map_err `{PtrWidth} {F A : Type} (f : F -> A) cmd tx raw r rsp :
  understood cmd tx raw r rsp -> understood cmd tx raw (map_err f r) rsp.
Proof.
  destruct r as [n|e]; [|done]. unfold understood, verdict, response_payload; cbn [map_err at_res at_rsp].
  repeat case_match; try done; intros (p & -> & Hp); exists p; split; congruence.
Qed.
Lemma retryable_map_err `{PtrWidth} {F A : Type} (f : F -> A) c tx r rsp :
  retryable (verdict c (mkAttempt tx r rsp)) = true ->
  retryable (verdict c (mkAttempt tx (map_err f r) rsp)) = true.
Proof. destruct r as [n|e]; [|done]. unfold verdict; cbn [map_err at_res at_rsp]. by repeat case_match. Qed.

(** ** The stack as a carrier *)
Section stack.
Context `{Hbacked : Backed}.
Implicit Types w : W.
Abbreviation Stack := (DynTransport (Backend W)).
Abbreviation stack_transport := (@dyn_transport (Backend W) (anyhow_error E SE) transport_backend _).
Definition on_world w (base : PollBudget) (erase : Z) : Stack :=
  mkDyn (back (mkErased (adapter base w))) base erase.
Definition stack_world (d : Stack) : W := backend_world (dyn_inner d).

Lemma stack_world_on w base erase : stack_world (on_world w base erase) = w.
Proof. apply backed_world. Qed.

(** The budget a command runs on. *)
Definition budget_for (cmd : Z) (base : PollBudget) (erase : Z) : PollBudget :=
  if decide (cmd = CMD_ERASE_APP) then mkPollBudget erase (pb_delay_ms base) else base.

Lemma budget_for_stretched cmd base erase : budget_ok base -> pb_attempts base <= erase < 2 ^ 32 ->
  stretched base (budget_for cmd base erase).
Proof.
  intros [Ha Hd] He. unfold budget_for. case_decide; split; try done; cbn [pb_attempts]; [|lia..].
  split; cbn [pb_attempts pb_delay_ms]; [lia|done].
Qed.

Lemma stack_request w base erase cmd payload rsp r d' rsp' : pb_attempts base <= erase ->
  @request _ _ stack_transport (on_world w base erase) (wire cmd payload) rsp = (r, (d', rsp')) ->
  let poll := budget_for cmd base erase in
  exists r0 t, request (adapter poll w) (wire cmd payload) rsp = (r0, (t, rsp')) /\ r = map_err anyhow r0
    /\ forall w', t = adapter poll w' -> d' = on_world w' base erase.
Proof.
  intros Hle Hr poll. unfold request at 1, dyn_transport in Hr. cbn [on_world dyn_base dyn_erase_attempts dyn_inner] in Hr.
  set (ers := bool_decide _ && _) in Hr.
  assert (ers = bool_decide (cmd = CMD_ERASE_APP) && (pb_attempts base <? erase)) as Hers.
  { subst ers. f_equal. apply bool_decide_ext. cbn. split; [by intros [= ->]|by intros ->]. }
  assert (poll = if ers then mkPollBudget erase (pb_delay_ms base) else base) as Hpoll.
  { subst poll. rewrite Hers. unfold budget_for. case_decide as Hc; [rewrite (bool_decide_true _ Hc)|by rewrite (bool_decide_false _ Hc)].
    cbn [andb]. destruct (Z.ltb_spec (pb_attempts base) erase); [done|]. destruct base; cbn in *. f_equal. lia. }
  assert ((if ers then set_poll_budget (mkPollBudget erase (pb_delay_ms base)) (back (mkErased (adapter base w)))
    else back (mkErased (adapter base w))) = back (mkErased (adapter poll w))) as Hin.
  { rewrite Hpoll. destruct ers; [|done]. rewrite backed_set. unfold set_poll_budget at 1, set_poll_erased. cbn [erased].
    by rewrite backed_budget. }
  rewrite Hin, backed_request in Hr. unfold on_backend, request at 1, transport_erased in Hr. cbn [erased] in Hr.
  destruct (request (adapter poll w) (wire cmd payload) rsp) as [r0 [t rsp1]]. injection Hr as <- <- <-.
  exists r0, t. split_and!; [done..|]. intros w' ->. unfold on_world. f_equal. clear Hin. rewrite Hpoll. destruct ers; [|done].
  rewrite backed_set. unfold set_poll_budget at 1, set_poll_erased. cbn [erased]. by rewrite backed_budget.
Qed.

Context (base : PollBudget) (Hbase : budget_ok base).

#[local] Instance stack_carried : Carried Stack := {|
  carrier_ok d := exists w erase, d = on_world w base erase /\ reach_ok base w /\ pb_attempts base <= erase < 2 ^ 32;
  dev d := reach_dev (stack_world d);
  spare n d := reach_spare n (stack_world d);
  patient cmd d := reach_patient cmd (budget_for cmd (dyn_base d) (dyn_erase_attempts d)) (stack_world d);
|}.

#[local] Instance stack_carrier : Carrier stack_transport.
Proof.
  split; [intros d (w & erase & -> & Hw & _); cbn [dev stack_carried]; rewrite stack_world_on; by eapply backed_sim|..];
    intros d cmd payload rsp r d' rsp' (w & erase & -> & Hw & He) Hask Hr;
    (apply stack_request in Hr as (r0 & t & Hr & -> & Hd'); [|lia]);
    (eapply backed_attempt in Hr as (w' & -> & Hw' & Hl & Hb & Hpat & Hatt);
      [|done..|by apply budget_for_stretched|done]); rewrite (Hd' w' eq_refl).
  - split; [|done]. by exists w', erase.
  - cbn [dev spare patient stack_carried]. rewrite !stack_world_on. split.
    { intros c. apply Hpat. }
    destruct Hatt as [(raw & Hreq & Hu & Hs)|(Hv & Hd & Hs)].
    + left. exists raw. split_and!; [done|by apply understood_map_err|exact Hs].
    + right. split_and!; [by apply retryable_map_err|done|exact Hs].
Qed.
#[local] Instance stack_erase : CarriedErase Stack.
Proof.
  split; [|done..]. intros n d Hn (w & erase & -> & Hw & He).
  exists w, (Z.max n (pb_attempts base)). split_and!; try done; lia.
Qed.

(** ** [main] in front of the device *)
Context (fs : Files E) (env : Env E W) (matches : ArgMatches) (cli : Cli) (path : text) (spec : TransportSpec).
Context (Hcmd : cli_cmd cli = CmdFlash path) (Hspec : build_spec (E:=E) (A:=anyhow_error E SE) cli = Ok spec).
Context (Hpoll : base = mkPollBudget (cli_poll_attempts cli) (cli_poll_delay_ms cli)).
Abbreviation run := (main (SE:=SE) (Tio:=Tio) fs env matches cli).
Abbreviation image_file := (load_image (A:=anyhow_error E SE) fs path).

(** The node is opened on a world [w]. *)
Definition opens (w0 w : W) : Prop :=
  exists w1, open (Tio:=Tio) spec base w0 = (Ok (on_world w base (pb_attempts base)), w1).

Definition tool_session w : Session Stack :=
  new (on_world w base (pb_attempts base)) (replicate (Z.to_nat FRAME_BUF_LEN) 0).

Lemma main_flash w0 w : opens w0 w ->
  run w0 = match image_file with
           | Err e => (Err e, w0)
           | Ok binary =>
               let '(r, s) := cmd_flash base binary (tool_session w) in (r, stack_world (transport s))
           end.
Proof.
  intros [w1 Ho]. unfold main, local_input. rewrite Hcmd, Hspec. destruct image_file as [binary|e]; [|done].
  rewrite <- Hpoll, Ho. change (new _ _) with (tool_session w).
  by destruct (cmd_flash base binary (tool_session w)) as [r s].
Qed.

Lemma tool_session_ok w : reach_ok base w -> on_carrier (tool_session w).
Proof.
  intros Hw. split.
  - exists w, (pb_attempts base). split_and!; try done; destruct Hbase; lia.
  - split; [by apply bytes_replicate|]. usize_bounds. cbn [tool_session new buf]. rewrite len_replicate.
    change FRAME_BUF_LEN with 512. lia.
Qed.
Lemma tool_session_dev w : sdev (tool_session w) = reach_dev w.
Proof. unfold sdev. cbn [dev stack_carried tool_session new transport]. by rewrite stack_world_on. Qed.

Lemma image_file_bytes binary : files_ok fs -> image_file = Ok binary -> bytes binary.
Proof.
  intros Hfs Hi. pose proof (local_input_spec (SE:=SE) fs (CmdFlash path) (Ok binary) Hfs) as H'.
  by destruct H'.
Qed.

(** What the device is when [main] has reported success. *)
Definition tool_installed w (out : output) w' : Prop :=
  exists binary img, image_file = Ok binary
    /\ from_bin binary (pi_page_size (s_info (reach_dev w))) (pi_app_pages (s_info (reach_dev w))) = Ok img
    /\ out = OutFlash (len binary) /\ g_flash (reach_dev w') = region img /\ present (reach_dev w')
    /\ upd_app_valid (s_info (reach_dev w')) (g_flash (reach_dev w')) = Some true.

Lemma main_flash_installed w0 w out w' : files_ok fs -> reach_ok base w -> opens w0 w -> run w0 = (Ok out, w') ->
  tool_installed w out w'.
Proof.
  intros Hfs Hw Ho. rewrite (main_flash w0 w Ho). destruct image_file as [binary|e] eqn:Hi; [|done].
  destruct (cmd_flash base binary (tool_session w)) as [r s] eqn:Hf. intros [= -> <-].
  apply cmd_flash_carried in Hf as (img & H' & Hrest); [|by apply tool_session_ok|by apply image_file_bytes|done].
  rewrite tool_session_dev in H'. exists binary, img. destruct Hrest as (? & ? & ? & ?). by split_and!.
Qed.

(** The budgets of an update outlast the device. *)
Definition outlasts w : Prop := forall c w', reach_ok base w' -> reach_dev w' = reach_dev w ->
  let pages := pi_app_pages (s_info (reach_dev w)) in
  reach_patient c (budget_for c base (Z.max (erase_poll_attempts pages base) (pb_attempts base))) w'.

Lemma main_flash_lives w0 w binary img : files_ok fs -> reach_ok base w -> opens w0 w -> reach_spare 3 w -> outlasts w ->
  let d := reach_dev w in
  image_file = Ok binary -> from_bin binary (pi_page_size (s_info d)) (pi_app_pages (s_info d)) = Ok img ->
  present d -> uncut d ->
  exists w', run w0 = (Ok (OutFlash (len binary)), w').
Proof.
  intros Hfs Hw Ho Hsp Hpt d Hi Himg Hpr Hu. rewrite (main_flash w0 w Ho), Hi.
  pose proof (tool_session_ok w Hw) as Hs. pose proof (tool_session_dev w) as Hd.
  destruct (cmd_flash_live (E:=E) base binary (tool_session w) img) as (s' & Hf); rewrite ?Hd; try done.
  - by apply image_file_bytes.
  - cbn [patient stack_carried tool_session new transport]. rewrite stack_world_on. by apply (Hpt CMD_INFO).
  - cbn [spare stack_carried tool_session new transport]. by rewrite stack_world_on.
  - intros t (w' & erase & -> & Hw' & _) Hdev c. cbn [dev stack_carried] in Hdev. rewrite stack_world_on in Hdev.
    cbn [patient stack_carried].
    change (stack_world (set_erase_attempts ?n (on_world w' base erase))) with (stack_world (on_world w' base erase)).
    rewrite stack_world_on. by apply Hpt.
  - rewrite Hf. by eexists.
Qed.
End stack.

(** ** For the runs: a directory with one file *)
Definition disk : Files Z := mkFiles (fun path => if decide (path = str "app.bin") then Ok sample_data else Err 2) (fun _ => Err 2).
Lemma disk_ok : files_ok disk.
Proof. intros path bs. cbn. case_decide; [|done]. intros [= <-]. exact sample_bytes. Qed.
