(* ===== verification/ToolI2c.v ===== *)
(** The command line tool in front of a device on the I2C bus: the i2c-dev
    backend, its budget in force, reaches the device of [I2cBus.v], so [Tool.v]
    gives what the tool's [flash] does to it. *)
From stdpp Require Import relations.
From S2P Require Import Prelude Text Install Errors Frame Image Stream Transport Session Recorded.
From S2P Require Import Hal EhI2c EhSpi EhUart EhSoftUart CliDevices CliTransport Cli.
From S2P Require Import Device DeviceLink Conformance Carrier Flashing Wire EndToEnd I2cBus Tool.

(** ** The backend reaches the device *)
Section reach.
Context `{PtrWidth, Pace} {Hpace : PaceOk} {SE Tio : Type}.
Context {spidev : Spidev Bus Z} {gpio : GpioCdev Bus Z} {tty : Tty Bus Z Tio} {port : Serial Bus SE}.

(** The backend with a budget in force. *)
Definition linux_with (poll : PollBudget) (b : Bus) : LinuxI2c Bus :=
  mkLinuxI2c b (Z.max (pb_attempts poll) 1) (from_millis (pb_delay_ms poll)).

#[global] Instance bus_reach : Reach Bus := {|
  reach_ok _ b := bus_ok b;
  reach_dev := bus_sim;
  reach_spare n b := spares n (bus_faults b) = true /\ busy b = false;
  reach_patient cmd poll b := service_ns cmd (s_info (bus_sim b)) <= window (linux_with poll b);
|}.

Lemma linux_with_ok poll b : budget_ok poll -> linux_i2c_ok (linux_with poll b).
Proof. intros [? _]. unfold linux_i2c_ok, linux_with. cbn [li_poll_attempts]. lia. Qed.

#[global] Instance bus_backed : Backed (E:=Z) (SE:=SE) (Tio:=Tio) linux_i2c_transport BackI2c linux_with.
Proof.
  split; [done..|by intros ? b []|].
  intros base poll b cmd payload rsp r t rsp' Hbase Hb [Hpoll Hle Hdel] [Hc Hp Hl [Hrsp Hrl] _] Hr.
  pose proof Hl as Hl'. change PAYLOAD_MAX with 252 in Hl'. pose proof (linux_with_ok poll b Hpoll) as Hok.
  destruct (linux_keeps (linux_with poll b) (wire cmd payload) rsp r t rsp' Hok Hb) as (Ht & Hbt & Hlr & Hbr & _);
    [by apply wire_bytes; [..|lia]|done..|].
  assert (0 <= li_poll_interval (linux_with poll b)) as Hint by (destruct Hpoll; unfold linux_with, from_millis; cbn; lia).
  apply linux_attempt in Hr as (_ & _ & Hi & Hf & Hatt); [|done..]. exists (li_dev t).
  split_and!; [done..| |]. { intros c poll'. cbn [reach_patient bus_reach]. rewrite Hi. done. }
  destruct Hatt as [(raw & Hraw & Hnb & Hcame)|(Hfr & Hd & Hpat)].
  - left. exists raw. split_and!; [done| |].
    + destruct Hcame as [[-> ->]|[-> [e ->]]]; [|done]. eapply padded_understood; try done. by destruct Hb.
    + intros m Hm [Hs _]. split; [|done]. rewrite Hf. by eapply spares_tail.
  - right. split_and!; [by destruct Hfr as [[e ->]|[-> Hv]]; [|apply Hv]|done|].
    intros m Hm Hpt [Hs Hnb]. destruct (Hpat Hpt Hnb) as [Hnb' Hnf].
    destruct (spares_fault _ _ Hnf Hs) as (m' & -> & ?). exists m'. split; [done|]. split; [by rewrite Hf|done].
Qed.

Lemma bus_opens cli (w : Bus) : cli_transport cli = KindI2c ->
  let base := mkPollBudget (cli_poll_attempts cli) (cli_poll_delay_ms cli) in
  exists spec, build_spec (E:=Z) (A:=anyhow_error Z SE) cli = Ok spec
    /\ opens (Tio:=Tio) (back:=BackI2c) (adapter:=linux_with) base spec w w.
Proof. intros Hk. unfold build_spec. rewrite Hk. eexists. split; [done|]. by exists w. Qed.

(** The waits the budget allows: [attempts - 1] delays, for an erase as many as
    cover ten milliseconds per page but one delay. *)
Record paced (base : PollBudget) (d : Sim) : Prop := {
  pa_delay : 1 <= pb_delay_ms base;
  pa_reply c : c <> CMD_ERASE_APP ->
    service_ns c (s_info d) <= (pb_attempts base - 1) * from_millis (pb_delay_ms base);
  pa_erase : service_ns CMD_ERASE_APP (s_info d)
    <= from_millis (pi_app_pages (s_info d) * PER_PAGE_ERASE_WORST_MS - pb_delay_ms base);
}.

Lemma paced_outlasts base (w : Bus) : budget_ok base -> bus_ok w -> paced base (bus_sim w) -> outlasts base w.
Proof.
  intros Hbase Hw [Hd Hr He] c b _ Hdev pages. cbn [reach_dev bus_reach] in *. cbn [reach_patient bus_reach].
  rewrite Hdev. pose proof (so_wf _ (bo_sim _ Hw)) as [_ Hap _ _ _ _].
  destruct (erase_poll_attempts_bounds pages base Hap Hbase) as (Hn & Hle & Hcov & _).
  set (n := erase_poll_attempts _ _) in *. unfold window, linux_with, budget_for, from_millis in *.
  change PER_PAGE_ERASE_WORST_MS with 10 in He. case_decide as Hc; cbn [li_poll_attempts li_poll_interval pb_attempts pb_delay_ms].
  - subst c. rewrite Z.max_l in Hcov by lia. etrans; [exact He|]. subst pages. nia.
  - etrans; [by apply Hr|]. nia.
Qed.
End reach.

(** ** Properties *)
Section properties.
Context `{PtrWidth, Pace} {Hpace : PaceOk} {SE Tio : Type}.
Context {spidev : Spidev Bus Z} {gpio : GpioCdev Bus Z} {tty : Tty Bus Z Tio} {port : Serial Bus SE}.
Context (fs : Files Z) (env : Env Z Bus) (matches : ArgMatches) (cli : Cli) (path : text).
Abbreviation base := (mkPollBudget (cli_poll_attempts cli) (cli_poll_delay_ms cli)).
Abbreviation run := (main (SE:=SE) (Tio:=Tio) fs env matches cli).
Abbreviation image_file := (load_image (A:=anyhow_error Z SE) fs path).

(** C1: the tool tells the truth, on a bus where in every exchange the write may
    fail, be lost or reach the device as any other bytes, the reads may fail for
    good or for any time or bring any other bytes than the device's answer, and
    the device may take any time over it, as long as the format detects the
    damage: what the device receives instead of the request its checksum
    refuses (as it does any one wrong byte, which is proved and not assumed),
    and what the host reads instead of the answer is no padded frame. Damage
    that passes the eight-bit checksum is not covered. There, when [flash] over
    I2C reports success, the device is alive and holds exactly the image of the
    file, footer included, for its own geometry, its own check accepts it, and
    the size reported is the file's. *)
Theorem tool_flash_installs w out w' :
  cli_ok cli -> files_ok fs -> cli_transport cli = KindI2c -> cli_cmd cli = CmdFlash path -> bus_ok w ->
  run w = (Ok out, w') ->
  exists binary img, image_file = Ok binary
    /\ from_bin binary (pi_page_size (s_info (bus_sim w))) (pi_app_pages (s_info (bus_sim w))) = Ok img
    /\ out = OutFlash (len binary) /\ g_flash (bus_sim w') = region img /\ present (bus_sim w')
    /\ upd_app_valid (s_info (bus_sim w')) (g_flash (bus_sim w')) = Some true.
Proof.
  intros Hcli Hfs Hk Hc Hw. destruct (bus_opens (SE:=SE) (Tio:=Tio) cli w Hk) as (spec & Hspec & Ho).
  exact (main_flash_installed (Hbacked:=bus_backed) base Hcli fs env matches cli path spec Hc Hspec eq_refl w w out w' Hfs Hw Ho).
Qed.

(** C2: and it does its work. When the file is readable and fits the device,
    the bus never fails four times in a row, the power lasts, the answers come
    within the poll budget and the erase takes at most ten milliseconds per
    page less one poll delay, [flash] over I2C reports success. *)
Theorem tool_flash_succeeds w binary img :
  cli_ok cli -> files_ok fs -> cli_transport cli = KindI2c -> cli_cmd cli = CmdFlash path -> bus_ok w ->
  busy w = false -> spares 3 (bus_faults w) = true ->
  let d := bus_sim w in
  image_file = Ok binary -> from_bin binary (pi_page_size (s_info d)) (pi_app_pages (s_info d)) = Ok img ->
  present d -> uncut d -> paced base d ->
  exists w', run w = (Ok (OutFlash (len binary)), w').
Proof.
  intros Hcli Hfs Hk Hc Hw Hb Hsp d Hi Himg Hpr Hu Hpa.
  destruct (bus_opens (SE:=SE) (Tio:=Tio) cli w Hk) as (spec & Hspec & Ho).
  by apply (main_flash_lives (Hbacked:=bus_backed) base Hcli fs env matches cli path spec Hc Hspec eq_refl w w binary img Hfs Hw Ho);
    [|by apply paced_outlasts|..].
Qed.
End properties.

(** Without that one delay it can fail: the budget the tool computes for an
    erase ends its polling one delay before the time it stands for. *)
Lemma erase_window_short (b : Bus) pages poll :
  is_u16 pages -> budget_ok poll -> 1 <= pb_delay_ms poll -> pb_attempts poll < erase_poll_attempts pages poll ->
  window (linux_with (mkPollBudget (erase_poll_attempts pages poll) (pb_delay_ms poll)) b) < from_millis (pages * PER_PAGE_ERASE_WORST_MS).
Proof.
  intros Hp Hb Hd Hlt. destruct (erase_poll_attempts_bounds pages poll Hp Hb) as (Hn & _ & _ & [?|Hmin]); [lia|].
  destruct Hb as [Ha _]. unfold window, linux_with, from_millis in *. cbn [li_poll_attempts li_poll_interval pb_attempts pb_delay_ms].
  change PER_PAGE_ERASE_WORST_MS with 10. rewrite Z.max_l in Hmin by lia. rewrite Z.max_l by lia. nia.
Qed.

(** ** Runs *)

(** Only I2C is connected. *)
#[local] Instance no_spi : Spidev Bus Z := {|
  spidev_open _ w := (Err 2, w); spidev_configure _ w := (Err 2, w);
  transfer_multiple xs w := (Err 2, (xs, w)) |}.
#[local] Instance no_gpio : GpioCdev Bus Z := {|
  chip_new _ w := (Err 2, w); get_line _ w := (Err 2, w); line_request _ _ _ w := (Err 2, w);
  set_value _ _ w := (Err 2, w); get_value _ w := (Err 2, w) |}.
#[local] Instance no_tty : Tty Bus Z unit := {|
  tty_open _ w := (Err 2, w); tcgetattr w := (Err 2, w); cfmakeraw t := t; cfsetspeed _ t := Ok t;
  control_chars _ _ t := t; tcsetattr _ w := (Err 2, w); tcflush w := (Err 2, w);
  file_read buf w := (Err 2, (buf, w)); file_write _ w := (Err 2, w); file_flush w := (Err 2, w);
  is_interrupted _ := false |}.
#[local] Instance no_serial : Serial Bus Z := {|
  io_write_all _ w := (Err 2, w); io_flush w := (Err 2, w); io_read buf w := (Err 2, (buf, w)) |}.

(** A device that takes a millisecond per request and [ns] per page to erase. *)
Definition page_pace (ns : Z) : Pace := {|
  service req d := if decide (req = wire CMD_ERASE_APP ERASE_MAGIC) then pi_app_pages (s_info d) * ns else 1000000;
  service_ns c i := if decide (c = CMD_ERASE_APP) then Z.max (pi_app_pages i * ns) 1000000 else 1000000;
|}.
Lemma page_pace_ok ns : @PaceOk (page_pace ns).
Proof.
  split.
  - intros cmd payload d. cbn. case_decide as Hw.
    + injection Hw as -> _ _. rewrite decide_True by done. lia.
    + case_decide; lia.
  - intros req d cmd Hp. cbn. rewrite decide_False; [case_decide; lia|]. intros ->. destruct Hp as [Hp|Hp]; by vm_compute in Hp.
Qed.

Definition no_tools : Env Z Bus :=
  mkEnv (fun _ => Err 2) (fun _ => Err 2) (fun _ => Err 2) Some (Err 2) (fun _ _ w => (NotStarted 2, w)).
Definition flash_cli : Cli := sample_cli (CmdFlash (str "app.bin")).
Definition blank_bus : Bus := mkBus (w_sim blank_world) bad_wire 0 0 None AnsWhole.

Abbreviation flash_run pace := (main (H:=ptr64) (SE:=Z) (Tio:=unit) (H1:=@bus_i2c pace)
  disk no_tools no_flags flash_cli blank_bus).

Lemma flash_cli_ok : cli_ok flash_cli.
Proof. split; cbn; lia. Qed.
Lemma blank_bus_ok : bus_ok blank_bus.
Proof. split; [exact blank_ok|exact bad_wire_ok|done|done]. Qed.
Lemma blank_paced : @paced (page_pace 7000000) (mkPollBudget 100 10) (bus_sim blank_bus).
Proof.
  split; [cbn; lia| |by vm_compute]. intros c Hc. cbn. rewrite decide_False by done. by vm_compute.
Qed.

Lemma tool_flash_installs_witness :
  exists w', flash_run (page_pace 7000000) = (Ok (OutFlash (len sample_data)), w')
    /\ g_flash (bus_sim w') = region sample_image.
Proof.
  destruct (flash_run (page_pace 7000000)) as [r w'] eqn:Hr.
  assert (r = Ok (OutFlash (len sample_data))) as -> by (apply (f_equal fst) in Hr; revert Hr; vm_compute; by intros <-).
  exists w'. split; [reflexivity|]. pose proof (page_pace_ok 7000000).
  destruct (tool_flash_installs (Tio:=unit) disk no_tools no_flags flash_cli (str "app.bin") blank_bus
    (OutFlash (len sample_data)) w' flash_cli_ok disk_ok eq_refl eq_refl blank_bus_ok Hr)
    as (binary & img & Hi & Himg & _ & Hf & _).
  rewrite Hf. f_equal. injection Hi as <-.
  assert (from_bin (H:=ptr64) sample_data 16 4 = Ok sample_image) as Hs by (vm_compute; reflexivity).
  assert (Ok img = Ok sample_image :> result Image Error.pure) as Heq by (rewrite <- Himg; exact Hs).
  by injection Heq.
Defined.

Lemma tool_flash_succeeds_witness :
  exists w', flash_run (page_pace 7000000) = (Ok (OutFlash (len sample_data)), w').
Proof.
  pose proof (page_pace_ok 7000000).
  apply (tool_flash_succeeds (Tio:=unit) disk no_tools no_flags flash_cli (str "app.bin") blank_bus sample_data sample_image
    flash_cli_ok disk_ok eq_refl eq_refl blank_bus_ok); [reflexivity|by vm_compute|reflexivity|by vm_compute|reflexivity
    |split; reflexivity|exact blank_paced].
Defined.

(** A device that needs the whole ten milliseconds per page, a quiet bus and
    the default delay: with four poll attempts from the user, the computed
    budget is what counts, and the update fails though the device keeps to its
    time. *)
Lemma worst_case_erase_missed :
  fst (main (H:=ptr64) (SE:=Z) (Tio:=unit) (H1:=@bus_i2c (page_pace 10000000)) disk no_tools no_flags
    (mkCli KindI2c (str "/dev/i2c-1") 0x20 None 115200 100000 (str "/dev/gpiochip0") None None 2 10
       (CmdFlash (str "app.bin")))
    (mkBus (w_sim blank_world) [] 0 0 None AnsWhole)) = Err (FlashError (Error.Transport (AnyI2c (LinuxWrite ENXIO)))).
Proof. by vm_compute. Qed.
