(* ===== verification/ToolSerial.v ===== *)
(** The command line tool in front of a device on a serial line: [main] opens
    the port in raw mode, and the UART adapter over it, its budget in force,
    reaches the device of [SerialLine.v] as long as the answers are in time, so
    [Tool.v] gives what the tool's [flash] does to it. *)
From stdpp Require Import relations.
From S2P Require Import Prelude Text Install Errors Frame Image Stream Transport Session Recorded.
From S2P Require Import Hal EhI2c EhSpi EhUart EhSoftUart CliDevices CliTransport Cli.
From S2P Require Import Device DeviceLink Conformance Carrier Flashing Wire EndToEnd SerialLine Tool.

(** ** The port *)
Section port.
Context `{LinePace}.

(** Time is counted in reads; a budget's interval is whole milliseconds, for
    which the adapter sleeps. *)
#[global] Instance line_clock : Clock Line := {|
  clock_sleep _ w := w;
  clock_now _ := 0;
  clock_spin w := w;
|}.

#[global] Instance line_still : Still SpinDelay.
Proof. by apply spin_still. Qed.

(** Opening it discards what is still on its way. *)
Definition flushed (w : Line) : Line := mkLine (ln_world w) (ln_plan w) [].

#[global] Instance line_tty : Tty Line Z unit := {|
  tty_open _ w := (Ok tt, w);
  tcgetattr w := (Ok tt, w);
  cfmakeraw t := t;
  cfsetspeed _ t := Ok t;
  control_chars _ _ t := t;
  tcsetattr _ w := (Ok tt, w);
  tcflush w := (Ok tt, flushed w);
  file_read chunk w := let '(r, (chunk, w)) := line_read chunk w in (map_err (fun _ => 5) r, (chunk, w));
  file_write bs w := match line_write bs w with (Ok _, w) => (Ok (len bs), w) | (Err _, w) => (Err 5, w) end;
  file_flush w := (Ok tt, w);
  is_interrupted _ := false;
|}.
End port.

(** ** The backend reaches the device *)
Section reach.
Context `{PtrWidth, LinePace}.
Context {i2c : I2CDevice Line Z} {spidev : Spidev Line Z} {gpio : GpioCdev Line Z}.

(** The adapter with a budget in force. *)
Definition uart_budgeted (poll : PollBudget) (w : Line) : UartTransport Line := set_poll_budget poll (uart_new w).

#[global] Instance line_reach : Reach Line := {|
  reach_ok base w := line_ok w /\ prompt (uart_budgeted base w);
  reach_dev w := w_sim (ln_world w);
  reach_spare := line_spares;
  reach_patient _ _ _ := True;
|}.

Lemma uart_budgeted_ok poll w : budget_ok poll -> uart_ok (uart_budgeted poll w).
Proof. intros Hp. apply poll_keeps_uart; [done|]. split; by vm_compute. Qed.

#[global] Instance line_backed :
  Backed (W:=Line) (E:=Z) (SE:=unit) (Tio:=unit) uart_transport BackUart uart_budgeted.
Proof.
  split; [done..|by intros base w [[[? _ _] _ _ _] _]|].
  intros base poll w cmd payload rsp r t rsp' Hbase [Hw Hp] [Hpoll Hle Hdel] Hask Hr.
  assert (prompt (uart_budgeted poll w)) as Hp'.
  { intros c p. specialize (Hp c p). eapply Forall_impl; [exact Hp|]. intros x [? ?]. split; cbn in *; [lia|done]. }
  destruct (line_exchange (uart_budgeted poll w) cmd payload rsp r t rsp') as (Ht & Hline & Hplan & Hl & Hb & Hover);
    [by apply uart_budgeted_ok|done|done|by apply prompt_next|done|].
  exists (uart_io t). split_and!; try done.
  { split; [done|]. by apply (prompt_tail (uart_budgeted base w)). }
  apply carried_over_spares in Hover as [Hl'|([e ->] & Hd & Hs)]; [by left|right|done].
  split_and!; [done..|]. intros n _ _. apply Hs.
Qed.

Lemma line_opens cli (w : Line) : cli_transport cli = KindUart ->
  existsb (Z.eqb (cli_baud cli)) SUPPORTED_BAUDS = true ->
  let base := mkPollBudget (cli_poll_attempts cli) (cli_poll_delay_ms cli) in
  exists spec, build_spec (E:=Z) (A:=anyhow_error Z unit) cli = Ok spec
    /\ opens (Tio:=unit) (back:=BackUart) (adapter:=uart_budgeted) base spec w (flushed w).
Proof.
  intros Hk Hb base. unfold build_spec. rewrite Hk, Hb. eexists. split; [done|]. exists (flushed w).
  unfold open, open_backend, serial_open.
  assert (exists rate, baud_constant (cli_baud cli) = Some rate) as [rate ->]; [|done].
  apply existsb_exists in Hb as (b & Hb & ->%Z.eqb_eq). unfold SUPPORTED_BAUDS in Hb.
  repeat (destruct Hb as [<-|Hb]; [by eexists|]). done.
Qed.
End reach.

(** ** [flash] over the line *)
Section flash.
Context `{PtrWidth, LinePace}.
Context {i2c : I2CDevice Line Z} {spidev : Spidev Line Z} {gpio : GpioCdev Line Z}.
Context (fs : Files Z) (env : Env Z Line) (matches : ArgMatches) (cli : Cli) (path : text).
Abbreviation base := (mkPollBudget (cli_poll_attempts cli) (cli_poll_delay_ms cli)).
Abbreviation run := (main (SE:=unit) (Tio:=unit) fs env matches cli).
Abbreviation image_file := (load_image (A:=anyhow_error Z unit) fs path).

(** C3: the tool over a serial line does its work, on a line with this noise and
    no other. Of a request the device receives the sync byte and the frame, or
    the frame with one byte changed that is not its length byte, or any other
    bytes, the sync byte's place included, in which its scanner finds no frame
    and after which it is waiting for a sync byte again. Of an answer the host
    receives what the device sent, or nothing, or any other bytes, fewer than
    the scan limit, in which no frame follows a sync byte, idle bytes behind
    them included. Whatever comes does so before the poll budget is used up. No
    more than three exchanges in a row are not clean both ways. Noise that
    leaves the device inside a frame, as a hit on a length byte can, is not
    covered: [repeats_swallowed] shows the harm. When, over such a line, the
    file is readable and fits the device and the power lasts, [flash] reports
    success, and the device then is alive, holds exactly the image of the file,
    footer included, and its own check accepts it; whatever was waiting in the
    port before it was opened. *)
Theorem tool_serial_flash w binary img :
  cli_ok cli -> files_ok fs -> cli_transport cli = KindUart -> cli_cmd cli = CmdFlash path ->
  existsb (Z.eqb (cli_baud cli)) SUPPORTED_BAUDS = true ->
  line_ok (flushed w) -> prompt (uart_budgeted base w) -> line_spares 3 w ->
  let d := w_sim (ln_world w) in
  image_file = Ok binary -> from_bin binary (pi_page_size (s_info d)) (pi_app_pages (s_info d)) = Ok img ->
  present d -> uncut d ->
  exists w', run w = (Ok (OutFlash (len binary)), w')
    /\ let d' := w_sim (ln_world w') in
       g_flash d' = region img /\ present d' /\ upd_app_valid (s_info d') (g_flash d') = Some true.
Proof.
  intros Hcli Hfs Hk Hc Hbaud Hw Hp Hsp d Hi Himg Hpr Hu. destruct (line_opens cli w Hk Hbaud) as (spec & Hspec & Ho).
  assert (reach_ok base (flushed w)) as Hr by (by split).
  destruct (main_flash_lives (Hbacked:=line_backed) base Hcli fs env matches cli path spec Hc Hspec eq_refl
    w (flushed w) binary img Hfs Hr Ho) as (w' & Hrun); try done.
  exists w'. split; [done|].
  destruct (main_flash_installed (Hbacked:=line_backed) base Hcli fs env matches cli path spec Hc Hspec eq_refl
    w (flushed w) _ w' Hfs Hr Ho Hrun) as (binary' & img' & Hi' & Himg' & _ & Hf & Hpr' & Hv).
  rewrite Hi in Hi'. injection Hi' as <-. change (reach_dev (flushed w)) with d in Himg'. rewrite Himg in Himg'.
  injection Himg' as <-. by split_and!.
Qed.
End flash.

(** ** A run *)

(** Only the serial port is connected. *)
#[local] Instance no_i2c : I2CDevice Line Z := {|
  i2cdev_new _ _ w := (Err 2, w); i2cdev_write _ w := (Err 2, w); i2cdev_read buf w := (Err 2, (buf, w)) |}.
#[local] Instance no_spi : Spidev Line Z := {|
  spidev_open _ w := (Err 2, w); spidev_configure _ w := (Err 2, w);
  transfer_multiple xs w := (Err 2, (xs, w)) |}.
#[local] Instance no_gpio : GpioCdev Line Z := {|
  chip_new _ w := (Err 2, w); get_line _ w := (Err 2, w); line_request _ _ _ w := (Err 2, w);
  set_value _ _ w := (Err 2, w); get_value _ w := (Err 2, w) |}.

(** A device that takes one empty read over each request, a rough line, and
    bytes left in the port. *)
#[local] Instance one_read : LinePace := fun _ => 1%nat.
Definition rough_line : Line := mkLine blank_world rough_plan [(0%nat, [0x7E; 1; 2])].
Definition uart_cli : Cli :=
  mkCli KindUart (str "/dev/i2c-1") 0x20 None 115200 100000 (str "/dev/gpiochip0") None None 100 10
    (CmdFlash (str "app.bin")).
Definition no_tools : Env Z Line :=
  mkEnv (fun _ => Err 2) (fun _ => Err 2) (fun _ => Err 2) Some (Err 2) (fun _ _ w => (NotStarted 2, w)).

Lemma rough_line_ok : line_ok (H0:=ptr64) (flushed rough_line).
Proof.
  split; [apply sample_world_ok, blank_ok|by intros _ more _|exact rough_plan_ok|reflexivity].
Qed.
Lemma rough_line_prompt : prompt (uart_budgeted (mkPollBudget 100 10) rough_line).
Proof. intros cmd payload. repeat (constructor; [split; [unfold empty_reads, one_read; cbn; lia|by vm_compute]|]). constructor. Qed.

Lemma tool_serial_flash_witness :
  exists w', main (H:=ptr64) (SE:=unit) (Tio:=unit) disk no_tools no_flags uart_cli rough_line
      = (Ok (OutFlash (len sample_data)), w')
    /\ g_flash (w_sim (ln_world w')) = region sample_image.
Proof.
  destruct (tool_serial_flash (H:=ptr64) disk no_tools no_flags uart_cli (str "app.bin") rough_line sample_data sample_image)
    as (w' & Hr & Hf & _); [split; cbn; lia|exact disk_ok|reflexivity|reflexivity|reflexivity|exact rough_line_ok
    |exact rough_line_prompt|by vm_compute|reflexivity|by vm_compute|reflexivity|split; reflexivity|].
  exists w'. split; [exact Hr|exact Hf].
Defined.
