(* ===== verification/ToolSpi.v ===== *)
(** The command line tool in front of a device on an SPI bus: [main] opens and
    configures spidev, and the SPI adapter over it, its budget in force, reaches
    the device of [SpiBus.v] as long as the answers are in time, so [Tool.v]
    gives what the tool's [flash] does to it. *)
From stdpp Require Import relations.
From S2P Require Import Prelude Text Install Errors Frame Image Stream Transport Session Recorded.
From S2P Require Import Hal EhI2c EhSpi EhUart EhSoftUart CliDevices CliTransport Cli.
From S2P Require Import Device DeviceLink Pumps Conformance Carrier Flashing Wire EndToEnd SerialLine SpiBus Tool.

(** Time is counted in clocked bytes; the adapter's pauses are whole numbers of
    microseconds between them. *)
#[global] Instance spi_clock : Clock SpiBus := {|
  clock_sleep _ w := w;
  clock_now _ := 0;
  clock_spin w := w;
|}.

#[global] Instance spi_still : Still (@SpinDelay SpiBus spi_clock).
Proof. by apply spin_still. Qed.

(** ** The backend reaches the device *)
Section reach.
Context `{PtrWidth, LinePace} {SE Tio : Type}.
Context {i2c : I2CDevice SpiBus Z} {gpio : GpioCdev SpiBus Z} {tty : Tty SpiBus Z Tio} {port : Serial SpiBus SE}.

(** The adapter with a budget in force. *)
Definition spi_budgeted (poll : PollBudget) (w : SpiBus) : SpiTransport SpiBus := set_poll_budget poll (spi_new w).

#[global] Instance spi_reach : Reach SpiBus := {|
  reach_ok base w := answering 0 [] w /\ bus_prompt (spi_budgeted base w);
  reach_dev w := w_sim (sb_world w);
  reach_spare := bus_spares;
  reach_patient _ _ _ := True;
|}.

Lemma spi_budgeted_ok poll w : budget_ok poll -> spi_ok (spi_budgeted poll w).
Proof. intros Hp. apply poll_keeps_spi; [done|]. by vm_compute. Qed.

#[global] Instance spi_backed : Backed (E:=Z) (SE:=SE) (Tio:=Tio) spi_transport BackSpi spi_budgeted.
Proof.
  split; [done..|by intros base w [[[? _ _] _ _ _ _ _ _] _]|].
  intros base poll w cmd payload rsp r t rsp' Hbase [Hw Hp] [Hpoll Hle Hdel] Hask Hr.
  assert (bus_prompt (spi_budgeted poll w)) as Hp'.
  { intros c p. specialize (Hp c p). eapply Forall_impl; [exact Hp|]. intros x. unfold clocked_in_time. cbn. lia. }
  pose proof (bus_exchange (spi_budgeted poll w) cmd payload rsp r t rsp' (spi_budgeted_ok poll w Hpoll) Hw Hask
    (bus_prompt_next cmd payload _ Hp') Hr) as Hex.
  pose proof Hex as (Ht & Han & Hplan & Hl & Hb & _). exists (spi_hal t). split_and!; try done.
  { split; [done|]. by apply (bus_prompt_tail (spi_budgeted base w)). }
  apply bus_exchanged_spares in Hex as [Hl'|([e ->] & Hd & Hs)]; [by left|right].
  split_and!; [done..|]. intros n _ _. apply Hs.
Qed.

Lemma spi_opens cli (w : SpiBus) : cli_transport cli = KindSpi ->
  let base := mkPollBudget (cli_poll_attempts cli) (cli_poll_delay_ms cli) in
  exists spec, build_spec (E:=Z) (A:=anyhow_error Z SE) cli = Ok spec
    /\ opens (Tio:=Tio) (back:=BackSpi) (adapter:=spi_budgeted) base spec w w.
Proof. intros Hk. unfold build_spec. rewrite Hk. eexists. split; [done|]. by exists w. Qed.
End reach.

(** ** [flash] over the bus *)
Section flash.
Context `{PtrWidth, LinePace} {SE Tio : Type}.
Context {i2c : I2CDevice SpiBus Z} {gpio : GpioCdev SpiBus Z} {tty : Tty SpiBus Z Tio} {port : Serial SpiBus SE}.
Context (fs : Files Z) (env : Env Z SpiBus) (matches : ArgMatches) (cli : Cli) (path : text).
Abbreviation base := (mkPollBudget (cli_poll_attempts cli) (cli_poll_delay_ms cli)).
Abbreviation run := (main (SE:=SE) (Tio:=Tio) fs env matches cli).
Abbreviation image_file := (load_image (A:=anyhow_error Z SE) fs path).

(** C4: The tool over SPI does its work, on a bus with this noise and no other.
    Of a request the device receives the sync byte and the frame, or the frame
    with one byte changed that is not its length byte, or any other bytes, the
    sync byte's place included, in which its scanner finds no frame and after
    which it is waiting for a sync byte again. Of an answer the host clocks in
    what the device sends, or idle bytes, or any other bytes in which no frame
    follows a sync byte, idle bytes behind them included. Every answer begins
    within the poll budget less the 22 bytes that it takes to clock one out. No
    more than three exchanges in a row are not clean both ways. Noise that
    leaves the device inside a frame is not covered. When, over such a bus, the
    file is readable and fits the device and the power lasts, [flash] reports
    success, and the device then is alive, holds exactly the image of the file,
    footer included, and its own check accepts it. *)
Theorem tool_spi_flash w binary img :
  cli_ok cli -> files_ok fs -> cli_transport cli = KindSpi -> cli_cmd cli = CmdFlash path ->
  answering 0 [] w -> bus_prompt (spi_budgeted base w) -> bus_spares 3 w ->
  let d := w_sim (sb_world w) in
  image_file = Ok binary -> from_bin binary (pi_page_size (s_info d)) (pi_app_pages (s_info d)) = Ok img ->
  present d -> uncut d ->
  exists w', run w = (Ok (OutFlash (len binary)), w')
    /\ let d' := w_sim (sb_world w') in
       g_flash d' = region img /\ present d' /\ upd_app_valid (s_info d') (g_flash d') = Some true.
Proof.
  intros Hcli Hfs Hk Hc Hw Hp Hsp d Hi Himg Hpr Hu. destruct (spi_opens (SE:=SE) (Tio:=Tio) cli w Hk) as (spec & Hspec & Ho).
  assert (reach_ok base w) as Hr by (by split).
  destruct (main_flash_lives (Hbacked:=spi_backed) base Hcli fs env matches cli path spec Hc Hspec eq_refl
    w w binary img Hfs Hr Ho) as (w' & Hrun); try done.
  exists w'. split; [done|].
  destruct (main_flash_installed (Hbacked:=spi_backed) base Hcli fs env matches cli path spec Hc Hspec eq_refl
    w w _ w' Hfs Hr Ho Hrun) as (binary' & img' & Hi' & Himg' & _ & Hf & Hpr' & Hv).
  rewrite Hi in Hi'. injection Hi' as <-. change (reach_dev w) with d in Himg'. rewrite Himg in Himg'.
  injection Himg' as <-. by split_and!.
Qed.
End flash.

(** ** A run *)

(** Only SPI is connected. *)
#[local] Instance no_i2c : I2CDevice SpiBus Z := {|
  i2cdev_new _ _ w := (Err 2, w); i2cdev_write _ w := (Err 2, w); i2cdev_read buf w := (Err 2, (buf, w)) |}.
#[local] Instance no_gpio : GpioCdev SpiBus Z := {|
  chip_new _ w := (Err 2, w); get_line _ w := (Err 2, w); line_request _ _ _ w := (Err 2, w);
  set_value _ _ w := (Err 2, w); get_value _ w := (Err 2, w) |}.
#[local] Instance no_tty : Tty SpiBus Z unit := {|
  tty_open _ w := (Err 2, w); tcgetattr w := (Err 2, w); cfmakeraw t := t; cfsetspeed _ t := Ok t;
  control_chars _ _ t := t; tcsetattr _ w := (Err 2, w); tcflush w := (Err 2, w);
  file_read buf w := (Err 2, (buf, w)); file_write _ w := (Err 2, w); file_flush w := (Err 2, w);
  is_interrupted _ := false |}.
#[local] Instance no_serial : Serial SpiBus Z := {|
  io_write_all _ w := (Err 2, w); io_flush w := (Err 2, w); io_read buf w := (Err 2, (buf, w)) |}.
Definition no_tools : Env Z SpiBus :=
  mkEnv (fun _ => Err 2) (fun _ => Err 2) (fun _ => Err 2) Some (Err 2) (fun _ _ w => (NotStarted 2, w)).

(** A device that takes seven bytes over each request, with a queue for one
    answer, on a rough bus. *)
#[local] Instance seven_bytes : LinePace := fun _ => 7%nat.
Definition rough_bus : SpiBus :=
  mkSpiBus blank_world (SpiPump.spi_pump_init (replicate 24 0) (SpiPump.mkShifter 0xEE 0 false)) 0 0 None rough_plan.
Definition spi_cli : Cli :=
  mkCli KindSpi (str "/dev/i2c-1") 0x20 None 115200 100000 (str "/dev/gpiochip0") None None 100 10
    (CmdFlash (str "app.bin")).

Lemma rough_bus_ok : answering (H:=ptr64) 0 [] rough_bus.
Proof.
  split; [apply sample_world_ok, blank_ok|by intros _ more _|exact rough_plan_ok|by apply SpiPump.pump_init_inv; vm_compute
    |by vm_compute|reflexivity|reflexivity].
Qed.
Lemma rough_bus_prompt : bus_prompt (spi_budgeted (mkPollBudget 100 10) rough_bus).
Proof.
  intros cmd payload. repeat (constructor; [unfold clocked_in_time; cbn; unfold empty_reads, seven_bytes; lia|]). constructor.
Qed.

Lemma tool_spi_flash_witness :
  exists w', main (H:=ptr64) (SE:=Z) (Tio:=unit) disk no_tools no_flags spi_cli rough_bus
      = (Ok (OutFlash (len sample_data)), w')
    /\ g_flash (w_sim (sb_world w')) = region sample_image.
Proof.
  destruct (tool_spi_flash (H:=ptr64) (SE:=Z) (Tio:=unit) disk no_tools no_flags spi_cli (str "app.bin") rough_bus sample_data sample_image)
    as (w' & Hr & Hf & _); [split; cbn; lia|exact disk_ok|reflexivity|reflexivity|exact rough_bus_ok
    |exact rough_bus_prompt|by vm_compute|reflexivity|by vm_compute|reflexivity|split; reflexivity|].
  exists w'. split; [exact Hr|exact Hf].
Defined.
